(** * Geometry mobjects of manim: path construction, tips, tilings, graphs

    A shallow embedding of [manim/mobject/geometry.py].  Python floats and
    numpy arrays are idealised as real numbers and lists of real triples;
    an operation on floats that raises, or that yields [inf] / [nan], is
    written out where the source can reach it.  Python exceptions are
    values of [exn]; a method that mutates [self] is a function from the
    object's state to an [outcome] that carries the state it leaves
    behind, also when it raises.

    The embedding follows the bodies of the methods of [TipableVMobject],
    [Arc], [ArcBetweenPoints], [Line], [Polygon], [Tiling] and
    [EdgeVertexGraph].  The class [TilingMK2], whose constructor is declared
    with the default value [None **kwargs], is not part of it. *)

From Stdlib Require Import Reals Lra Lia ZArith List String Bool.
From stdpp Require Import base option list gmap.

Set Default Proof Using "Type".

(** ** Python exceptions and stateful methods *)

Inductive exn : Type :=
| ValueError (msg : string)
| ZeroDivisionError
| OverflowError
| IndexError
| KeyError
| TypeError
| AttributeError
| PyException (msg : string)
| NonFinite.
(* [NonFinite] is not a Python exception: it marks a call that would put
   [inf] or [nan] into coordinates, which real triples cannot hold. *)

Inductive result (A : Type) : Type :=
| Ok (a : A)
| Err (e : exn).
Arguments Ok {A} a.
Arguments Err {A} e.

Inductive outcome (S A : Type) : Type :=
| Return (a : A) (s : S)
| Throw (e : exn) (s : S).
Arguments Return {S A} a s.
Arguments Throw {S A} e s.

Definition M (S A : Type) : Type := S -> outcome S A.

Definition ret {S A} (a : A) : M S A := fun s => Return a s.
Definition raise {S A} (e : exn) : M S A := fun s => Throw e s.
Definition bind {S A B} (m : M S A) (k : A -> M S B) : M S B :=
  fun s => match m s with
           | Return a s' => k a s'
           | Throw e s' => Throw e s'
           end.
Definition lift {S A} (r : result A) : M S A :=
  fun s => match r with Ok a => Return a s | Err e => Throw e s end.
Definition get {S} : M S S := fun s => Return s s.
Definition modify {S} (f : S -> S) : M S unit := fun s => Return tt (f s).

Declare Scope py_scope.
Delimit Scope py_scope with py.
Notation "x <- m ;; k" := (bind m (fun x => k))
  (at level 100, m at next level, right associativity) : py_scope.
Notation "m ;;; k" := (bind m (fun _ => k))
  (at level 100, right associativity) : py_scope.

Definition final_state {S A} (o : outcome S A) : S :=
  match o with Return _ s => s | Throw _ s => s end.

Definition returned {S A} (o : outcome S A) : option A :=
  match o with Return a _ => Some a | Throw _ _ => None end.

Definition raised {S A} (o : outcome S A) : option exn :=
  match o with Return _ _ => None | Throw e _ => Some e end.

(* what a method leaves alone: [R] relates the state before to the state
   left behind (also on an exception), [E] covers what it may raise *)
Definition preserves {S A} (R : S -> S -> Prop) (E : exn -> Prop) (m : M S A) : Prop :=
  forall s, R s (final_state (m s)) /\ (forall e, raised (m s) = Some e -> E e).

(* total correctness: from a state in [P] the method returns, in [Q] *)
Definition total {S A} (P : S -> Prop) (m : M S A) (Q : A -> S -> Prop) : Prop :=
  forall s, P s -> exists a s', m s = Return a s' /\ Q a s'.

Definition any_exn (e : exn) : Prop := True.

(* every exception but ValueError *)
Definition benign (e : exn) : Prop :=
  match e with
  | ValueError _ => False
  | _ => True
  end.

(** ** numpy vectors and the toolkit's constants *)

Local Open Scope R_scope.

Record vec3 : Type := V3 { vx : R; vy : R; vz : R }.

Definition vadd (p q : vec3) : vec3 := V3 (vx p + vx q) (vy p + vy q) (vz p + vz q).
Definition vsub (p q : vec3) : vec3 := V3 (vx p - vx q) (vy p - vy q) (vz p - vz q).
Definition smul (k : R) (p : vec3) : vec3 := V3 (k * vx p) (k * vy p) (k * vz p).
Definition vneg (p : vec3) : vec3 := V3 (- vx p) (- vy p) (- vz p).

(* np.linalg.norm and space_ops.get_norm *)
Definition norm (p : vec3) : R := sqrt (vx p * vx p + vy p * vy p + vz p * vz p).

(* np.cross *)
Definition cross (p q : vec3) : vec3 :=
  V3 (vy p * vz q - vz p * vy q) (vz p * vx q - vx p * vz q) (vx p * vy q - vy p * vx q).

(* np.sign *)
Definition sign (x : R) : R :=
  if Rlt_dec x 0 then -1 else if Rlt_dec 0 x then 1 else 0.

Definition ORIGIN : vec3 := V3 0 0 0.
Definition UP : vec3 := V3 0 1 0.
Definition DOWN : vec3 := V3 0 (-1) 0.
Definition RIGHT : vec3 := V3 1 0 0.
Definition LEFT : vec3 := V3 (-1) 0 0.
Definition OUT : vec3 := V3 0 0 1.
Definition UL : vec3 := vadd UP LEFT.
Definition UR : vec3 := vadd UP RIGHT.
Definition DL : vec3 := vadd DOWN LEFT.
Definition DR : vec3 := vadd DOWN RIGHT.
Definition TAU : R := 2 * PI.

(* np.linspace(start, stop, num), endpoint included: [arange(num) * step +
   start], whose last entry is then overwritten by [stop]. *)
Definition linspace (start stop : R) (num : nat) : list R :=
  map (fun i : nat =>
         if ((1 <? num)%nat && (i =? num - 1)%nat)%bool then stop
         else INR i * ((stop - start) / INR (num - 1)) + start)
      (seq 0 num).

(* Python's [/] on floats. *)
Definition py_div (x y : R) : result R :=
  if Req_dec_T y 0 then Err ZeroDivisionError else Ok (x / y).

(* numpy's [/] on float64 scalars: no exception, [inf] or [nan] instead. *)
Inductive float64 : Type := Finite (r : R) | PosInf | NegInf | NaN.

Definition np_div (x y : R) : float64 :=
  if Req_dec_T y 0 then
    (if Rlt_dec 0 x then PosInf else if Rlt_dec x 0 then NegInf else NaN)
  else Finite (x / y).

(* [n * x] for a Python int [n] and a float64 [x]. *)
Definition np_mul_int (n : Z) (x : float64) : float64 :=
  match x with
  | Finite r => Finite (IZR n * r)
  | PosInf => if (0 <? n)%Z then PosInf else if (n <? 0)%Z then NegInf else NaN
  | NegInf => if (0 <? n)%Z then NegInf else if (n <? 0)%Z then PosInf else NaN
  | NaN => NaN
  end.

(* Python's [int(x)]: truncation towards zero, an exception on [inf], [nan]. *)
Definition py_int (x : float64) : result Z :=
  match x with
  | Finite r => Ok (if Rlt_dec r 0 then (- Int_part (- r))%Z else Int_part r)
  | PosInf | NegInf => Err OverflowError
  | NaN => Err (ValueError "cannot convert float NaN to integer")
  end.

(** ** The vector-path collaborator

    [VMobject], [Mobject] and [utils.space_ops] are not part of
    [geometry.py].  A path is the array [self.points]: four control
    points (anchor, handle, handle, anchor) per cubic curve. *)

Abbreviation path := (list vec3).

(** Modelled from the spec: the operations of the vector-path collaborator
    that this file only calls and whose results it does not inspect
    (arc length, point at a proportion, partial path, inserting
    interpolated curves, bounding-box resizing, angles of vectors). *)
Class Collaborator : Type := {
  angle_of_vector : vec3 -> R;
  angle_between_vectors : vec3 -> vec3 -> R;
  get_arc_length : path -> R;
  point_from_proportion : path -> R -> vec3;
  pointwise_become_partial : path -> R -> R -> path;
  insert_n_curves : Z -> path -> path;
  get_center : path -> vec3;
  set_width : R -> path -> path;
  set_height_stretch : R -> path -> path
}.

(** Modelled from the spec: [VMobject.set_anchors_and_handles], which lays
    the four arrays out as quadruples (anchor, handle, handle, anchor). *)
Fixpoint set_anchors_and_handles (a1 h1 h2 a2 : list vec3) : path :=
  match a1, h1, h2, a2 with
  | a :: a1', h :: h1', k :: h2', b :: a2' =>
      a :: h :: k :: b :: set_anchors_and_handles a1' h1' h2' a2'
  | _, _, _, _ => []
  end.

Definition interpolate (a b : vec3) (t : R) : vec3 :=
  vadd (smul (1 - t) a) (smul t b).

(** Modelled from the spec: [VMobject.set_points_as_corners], a straight
    path through the corners, one cubic curve per edge with its handles at
    one and two thirds of the edge. *)
Definition set_points_as_corners (corners : list vec3) : path :=
  set_anchors_and_handles
    (removelast corners)
    (zip_with (fun a b => interpolate a b (1 / 3)) (removelast corners) (tail corners))
    (zip_with (fun a b => interpolate a b (2 / 3)) (removelast corners) (tail corners))
    (tail corners).

(* space_ops.rotate_vector about the default axis OUT *)
Definition rotate_vector (v : vec3) (a : R) : vec3 :=
  V3 (vx v * cos a - vy v * sin a) (vx v * sin a + vy v * cos a) (vz v).

(** Modelled from the spec: the affine operations of the collaborator,
    scale / rotate about a pivot and shift, applied to every point. *)
Definition scale_about (factor : R) (about : vec3) (ps : path) : path :=
  map (fun p => vadd about (smul factor (vsub p about))) ps.
Definition rotate_about (a : R) (about : vec3) (ps : path) : path :=
  map (fun p => vadd about (rotate_vector (vsub p about) a)) ps.
Definition shift (v : vec3) (ps : path) : path :=
  map (fun p => vadd p v) ps.

(* VMobject.get_start / get_end: first and last point, an exception on an
   empty path. *)
Definition VMobject_get_start (ps : path) : result vec3 :=
  match ps with
  | p :: _ => Ok p
  | [] => Err (PyException "Cannot call Mobject.get_start for a Mobject with no points")
  end.
Definition VMobject_get_end (ps : path) : result vec3 :=
  match last ps with
  | Some p => Ok p
  | None => Err (PyException "Cannot call Mobject.get_end for a Mobject with no points")
  end.

(* VMobject.get_num_curves: len(self.points) // 4 *)
Definition get_num_curves (ps : path) : Z := (Z.of_nat (length ps) / 4)%Z.

Definition vec3_eqb (p q : vec3) : bool :=
  if Req_dec_T (vx p) (vx q) then
    if Req_dec_T (vy p) (vy q) then
      if Req_dec_T (vz p) (vz q) then true else false
    else false
  else false.

(** Modelled from the spec: [space_ops.line_intersection], the point where
    two lines of the xy-plane meet, each given by two of its points; it
    raises when the lines are parallel or one of them is degenerate. *)
Definition det2 (a b : R * R) : R := fst a * snd b - snd a * fst b.
Definition line_intersection (line1 line2 : vec3 * vec3) : result vec3 :=
  let x_diff := (vx (fst line1) - vx (snd line1), vx (fst line2) - vx (snd line2)) in
  let y_diff := (vy (fst line1) - vy (snd line1), vy (fst line2) - vy (snd line2)) in
  let div := det2 x_diff y_diff in
  if Req_dec_T div 0 then Err (PyException "Lines do not intersect")
  else
    let d := (det2 (vx (fst line1), vy (fst line1)) (vx (snd line1), vy (snd line1)),
              det2 (vx (fst line2), vy (fst line2)) (vx (snd line2), vy (snd line2))) in
    Ok (V3 (det2 d x_diff / div) (det2 d y_diff / div) 0).

(** Modelled from the spec: [Mobject.put_start_and_end_on], the affine
    operation (scale and rotate about the current start, then shift) that
    carries the current endpoints of a path onto the requested ones; it
    raises on a path whose endpoints coincide.  [endpoints_map] is the
    operation on points, which the method applies to the object and to its
    children. *)
Definition endpoints_map `{Collaborator}
    (start end_ curr_start curr_end : vec3) : result (path -> path) :=
  let curr_vect := vsub curr_end curr_start in
  if vec3_eqb curr_vect ORIGIN then
    Err (PyException "Cannot position endpoints of closed loop")
  else
    let target_vect := vsub end_ start in
    Ok (fun ps =>
          shift (vsub start curr_start)
            (rotate_about
               (angle_of_vector target_vect - angle_of_vector curr_vect)
               curr_start
               (scale_about (norm target_vect / norm curr_vect) curr_start ps))).

(** ** Arc and ArcBetweenPoints *)

(* the point at angle [phi] of the circle of centre [c] and radius [r],
   which the properties of an arc compare its anchors with *)
Definition circle_point (c : vec3) (r phi : R) : vec3 :=
  vadd c (smul r (V3 (cos phi) (sin phi) 0)).

Module Arc.

(* a float attribute that may hold math.inf *)
Inductive xreal : Type := Fin (r : R) | Inf.

(* The attributes of an Arc instance.  A freshly allocated object carries
   the CONFIG defaults; digest_config lets attributes already set on the
   object override CONFIG, and keyword arguments override both. *)
Record t : Type := mk {
  start_angle : R;
  angle : R;
  radius : xreal;
  num_components : nat;
  arc_center : vec3;
  _failed_to_get_center : bool;
  points : path
}.

(* the object and the warnings issued so far through warnings.warn *)
Record state : Type := mkState { self : t; warnings : list string }.

Record kwargs : Type := mkKw {
  kw_radius : option R;
  kw_num_components : option nat;
  kw_arc_center : option vec3
}.

Definition no_kwargs : kwargs := mkKw None None None.

Definition fresh : state :=
  mkState (mk 0 0 (Fin 1) 9 ORIGIN false []) [].

Definition on_self (f : t -> t) : M state unit :=
  modify (fun s => mkState (f (self s)) (warnings s)).

Definition set_points (ps : path) : M state unit :=
  on_self (fun o => mk (start_angle o) (angle o) (radius o) (num_components o)
                       (arc_center o) (_failed_to_get_center o) ps).
Definition set_radius (r : xreal) : M state unit :=
  on_self (fun o => mk (start_angle o) (angle o) r (num_components o)
                       (arc_center o) (_failed_to_get_center o) (points o)).
Definition set_failed (b : bool) : M state unit :=
  on_self (fun o => mk (start_angle o) (angle o) (radius o) (num_components o)
                       (arc_center o) b (points o)).
Definition set_angles (a0 a : R) : M state unit :=
  on_self (fun o => mk a0 a (radius o) (num_components o)
                       (arc_center o) (_failed_to_get_center o) (points o)).
Definition digest_config (kw : kwargs) : M state unit :=
  on_self (fun o => mk (start_angle o) (angle o)
                       (from_option Fin (radius o) (kw_radius kw))
                       (default (num_components o) (kw_num_components kw))
                       (default (arc_center o) (kw_arc_center kw))
                       (_failed_to_get_center o) (points o)).
Definition warn (msg : string) : M state unit :=
  modify (fun s => mkState (self s) (warnings s ++ [msg])).

Definition no_center_warning : string := "Can't find Arc center, using ORIGIN instead".

(* the two normal lines that get_arc_center intersects, from the first two
   anchors and handles *)
Definition normal_lines (a1 h1 h2 a2 : vec3) : (vec3 * vec3) * (vec3 * vec3) :=
  (* Tangent vectors *)
  let t1 := vsub h1 a1 in
  let t2 := vsub h2 a2 in
  (* Normals *)
  let n1 := rotate_vector t1 (TAU / 4) in
  let n2 := rotate_vector t2 (TAU / 4) in
  ((a1, vadd a1 n1), (a2, vadd a2 n2)).

Section Methods.
Context `{Collaborator}.
Local Open Scope py_scope.

Definition set_pre_positioned_points : M state unit :=
  s <- get;;
  let o := self s in
  let anchors :=
    map (fun a => vadd (smul (cos a) RIGHT) (smul (sin a) UP))
        (linspace (start_angle o) (start_angle o + angle o) (num_components o)) in
  match num_components o with
  | O => raise IndexError
  | _ =>
    d_theta <- lift (py_div (angle o) (INR (num_components o) - 1));;
    (* Rotate all 90 degrees, via (x, y) -> (-y, x) *)
    let tangent_vectors := map (fun p => V3 (- vy p) (vx p) 0) anchors in
    let handles1 :=
      zip_with (fun p t => vadd p (smul (d_theta / 3) t))
               (removelast anchors) (removelast tangent_vectors) in
    let handles2 :=
      zip_with (fun p t => vsub p (smul (d_theta / 3) t))
               (tail anchors) (tail tangent_vectors) in
    set_points
      (set_anchors_and_handles (removelast anchors) handles1 handles2 (tail anchors))
  end.

(* self.scale(factor, about_point) and self.shift(vector) on an object
   without children *)
Definition scale (factor : xreal) (about : vec3) : M state unit :=
  match factor with
  | Fin k => s <- get;; set_points (scale_about k about (points (self s)))
  | Inf => raise NonFinite
  end.
Definition shift_by (v : vec3) : M state unit :=
  s <- get;; set_points (shift v (points (self s))).

Definition generate_points : M state unit :=
  set_pre_positioned_points;;;
  s <- get;;
  scale (radius (self s)) ORIGIN;;;
  s <- get;;
  shift_by (arc_center (self s)).

(* Arc.__init__, with VMobject.__init__ unfolded to what this file relies
   on: digest the configuration, start from no points, generate_points. *)
Definition __init__ (start_angle angle : R) (kw : kwargs) : M state unit :=
  set_angles start_angle angle;;;
  set_failed false;;;
  digest_config kw;;;
  set_points [];;;
  generate_points.

Definition get_arc_center (warning : bool) : M state vec3 :=
  s <- get;;
  (* First two anchors and handles *)
  match points (self s) with
  | a1 :: h1 :: h2 :: a2 :: _ =>
      let '(line1, line2) := normal_lines a1 h1 h2 a2 in
      match line_intersection line1 line2 with
      | Ok c => ret c
      | Err _ =>
          (if warning then warn no_center_warning else ret tt);;;
          set_failed true;;;
          ret ORIGIN
      end
  | _ => raise (ValueError "not enough values to unpack")
  end.

(* Mobject.put_start_and_end_on on an arc, which has no children yet *)
Definition put_start_and_end_on (start end_ : vec3) : M state unit :=
  s <- get;;
  curr_start <- lift (VMobject_get_start (points (self s)));;
  curr_end <- lift (VMobject_get_end (points (self s)));;
  f <- lift (endpoints_map start end_ curr_start curr_end);;
  set_points (f (points (self s))).

End Methods.

(* everything but the points is kept *)
Definition keeps_attributes (s s' : state) : Prop :=
  start_angle (self s') = start_angle (self s) /\
  angle (self s') = angle (self s) /\
  radius (self s') = radius (self s) /\
  num_components (self s') = num_components (self s) /\
  arc_center (self s') = arc_center (self s) /\
  _failed_to_get_center (self s') = _failed_to_get_center (self s) /\
  warnings s' = warnings s.

(* the first two tangent normals are parallel, or one of them is zero:
   the z-component of their cross product vanishes *)
Definition normals_parallel (a1 h1 h2 a2 : vec3) : Prop :=
  vz (cross (rotate_vector (vsub h1 a1) (TAU / 4)) (rotate_vector (vsub h2 a2) (TAU / 4))) = 0.

(* the state after a failed get_arc_center *)
Definition failed_state (warning : bool) (s : state) : state :=
  mkState (mk (start_angle (self s)) (angle (self s)) (radius (self s))
              (num_components (self s)) (arc_center (self s)) true (points (self s)))
          (warnings s ++ (if warning then [no_center_warning] else [])).

(* numpy's [%] on float64 scalars: the remainder has the sign of the
   divisor, and is nan for the divisor 0 *)
Definition np_mod (x y : R) : float64 :=
  if Req_dec_T y 0 then NaN else Finite (x - y * IZR (Int_part (x / y))).

Section MoreMethods.
Context `{Collaborator}.
Local Open Scope py_scope.

(* Arc.move_arc_center_to *)
Definition move_arc_center_to (point : vec3) : M state unit :=
  center <- get_arc_center true;;
  shift_by (vsub point center).

(* Arc.stop_angle: the last point is read first, then the centre is looked
   for *)
Definition stop_angle : M state float64 :=
  s <- get;;
  match last (points (self s)) with
  | None => raise IndexError
  | Some p =>
      center <- get_arc_center true;;
      ret (np_mod (angle_of_vector (vsub p center)) TAU)
  end.

End MoreMethods.

(* [p] lies on the line through [a] and [b], seen from above *)
Definition on_line (p a b : vec3) : Prop :=
  (vx p - vx a) * (vy b - vy a) - (vy p - vy a) * (vx b - vx a) = 0.

(* [theta] is the angle of [v] in the xy-plane, and [v] lies in it *)
Definition polar (theta : R) (v : vec3) : Prop :=
  vx v = norm v * cos theta /\ vy v = norm v * sin theta /\ vz v = 0.

(* the point that lies [k] times the radius along the tangent from the
   point at angle [phi] of the circle of centre [c] and radius [r] *)
Definition tangent_point (c : vec3) (r phi k : R) : vec3 :=
  vadd (circle_point c r phi) (smul (r * k) (V3 (- sin phi) (cos phi) 0)).

Definition dot (v w : vec3) : R := vx v * vx w + vy v * vy w + vz v * vz w.

(* angle_of_vector gives the angle of every vector of the xy-plane *)
Definition planar_angles (H : Collaborator) : Prop :=
  forall v : vec3, vz v = 0 -> v <> ORIGIN -> polar (angle_of_vector v) v.

End Arc.

Module ArcBetweenPoints.
Import Arc.

(* the sweep angle that __init__ derives from an explicit radius: the code
   works with the absolute value of the radius and keeps its sign in a
   factor 2 or -2 *)
Definition derived_angle (start end_ : vec3) (r : R) : R :=
  let halfdist := norm (vsub start end_) / 2 in
  let arc_height := Rabs r - sqrt (Rabs r ^ 2 - halfdist ^ 2) in
  acos ((Rabs r - arc_height) / Rabs r) * (if Rlt_dec r 0 then -2 else 2).

Record kwargs : Type := mkKw {
  kw_start_angle : option R;
  kw_num_components : option nat;
  kw_arc_center : option vec3
}.

Definition no_kwargs : kwargs := mkKw None None None.

Definition invalid_radius : exn :=
  ValueError "ArcBetweenPoints called with a radius that is smaller than half the distance between the points.".

Section Methods.
Context `{Collaborator}.
Local Open Scope py_scope.

(* the branch [if radius is not None] of __init__, which derives the angle *)
Definition angle_from_radius (start end_ : vec3) (radius : R) : M state R :=
  set_radius (Fin radius);;;
  let '(sign, radius) :=
    if Rlt_dec radius 0 then (-2, radius * -1) else (2, radius) in
  let halfdist := norm (vsub start end_) / 2 in
  if Rlt_dec radius halfdist then
    raise invalid_radius
  else
    let arc_height := radius - sqrt (radius ^ 2 - halfdist ^ 2) in
    q <- lift (py_div (radius - arc_height) radius);;
    ret (acos q * sign).

Definition __init__ (start end_ : vec3) (angle : R) (radius : option R)
    (kw : kwargs) : M state unit :=
  angle <- match radius with
           | Some r => angle_from_radius start end_ r
           | None => ret angle
           end;;
  Arc.__init__ (default 0 (kw_start_angle kw)) angle
               (Arc.mkKw None (kw_num_components kw) (kw_arc_center kw));;;
  (if Req_dec_T angle 0 then set_points (set_points_as_corners [LEFT; RIGHT])
   else ret tt);;;
  put_start_and_end_on start end_;;;
  match radius with
  | None =>
      center <- get_arc_center false;;
      s <- get;;
      if negb (_failed_to_get_center (self s)) then
        set_radius (Fin (norm (vsub start center)))
      else set_radius Inf
  | Some _ => ret tt
  end.

End Methods.
End ArcBetweenPoints.

(** ** TipableVMobject and Line

    Mobjects are compared by identity: a tip is known by the number it got
    when it was created, and [heap] holds the points of the tips, so that
    the attribute [self.tip] and the entry of [self.submobjects] are the
    same object.  The attribute [tip] is [None] while the object has no
    such attribute.  A Line is a TipableVMobject that also carries the
    attributes of [line]; that decides which [put_start_and_end_on] runs. *)

Module Tipable.

Record line_attrs : Type := mkLine {
  buff : R;
  path_arc : option R;
  start : vec3;
  end_ : vec3
}.

Record t : Type := mk {
  points : path;
  submobjects : list nat;
  tip : option nat;
  start_tip : option nat;
  tip_length : R;
  line : option line_attrs
}.

Record world : Type := mkWorld {
  self : t;
  heap : gmap nat path;
  next_id : nat
}.

Definition DEFAULT_ARROW_TIP_LENGTH : R := 0.35.

Definition on_self (f : t -> t) : M world unit :=
  modify (fun w => mkWorld (f (self w)) (heap w) (next_id w)).

Definition set_points (ps : path) : M world unit :=
  on_self (fun o => mk ps (submobjects o) (tip o) (start_tip o) (tip_length o) (line o)).
Definition set_submobjects (l : list nat) : M world unit :=
  on_self (fun o => mk (points o) l (tip o) (start_tip o) (tip_length o) (line o)).
Definition set_tip (i : nat) : M world unit :=
  on_self (fun o => mk (points o) (submobjects o) (Some i) (start_tip o) (tip_length o) (line o)).
Definition set_start_tip (i : nat) : M world unit :=
  on_self (fun o => mk (points o) (submobjects o) (tip o) (Some i) (tip_length o) (line o)).
Definition set_line (l : line_attrs) : M world unit :=
  on_self (fun o => mk (points o) (submobjects o) (tip o) (start_tip o) (tip_length o) (Some l)).

(* the points of another mobject; a number without an object behind it
   does not occur in Python *)
Definition points_of (i : nat) : M world path :=
  fun w => match heap w !! i with
           | Some ps => Return ps w
           | None => Throw AttributeError w
           end.
Definition set_points_of (i : nat) (ps : path) : M world unit :=
  modify (fun w => mkWorld (self w) (<[i := ps]> (heap w)) (next_id w)).

(* a new mobject with the given points *)
Definition new_mobject (ps : path) : M world nat :=
  fun w => Return (next_id w) (mkWorld (self w) (<[next_id w := ps]> (heap w)) (S (next_id w))).

(* utils.iterables.list_update: l1 without the entries of l2, then l2 *)
Definition list_update (l1 l2 : list nat) : list nat :=
  filter (fun e => e ∉ l2) l1 ++ l2.

(* list.remove: the first occurrence *)
Fixpoint list_remove (x : nat) (l : list nat) : list nat :=
  match l with
  | [] => []
  | y :: l' => if decide (x = y) then l' else y :: list_remove x l'
  end.

(* Mobject.add and Mobject.remove with one argument *)
Definition add (i : nat) : M world unit :=
  bind get (fun w => set_submobjects (list_update (submobjects (self w)) [i])).
Definition remove (i : nat) : M world unit :=
  bind get (fun w =>
    if decide (i ∈ submobjects (self w))
    then set_submobjects (list_remove i (submobjects (self w)))
    else ret tt).

(* [m in self]: self.split() lists the children (after self itself, which
   is no tip) *)
Definition contains (o : t) (i : nat) : bool := bool_decide (i ∈ submobjects o).

(* [x == 0] and the truth value of [x] for an attribute that is None or a
   float *)
Definition eq_zero (x : option R) : bool :=
  match x with Some a => if Req_dec_T a 0 then true else false | None => false end.
Definition truthy (x : option R) : bool :=
  match x with Some a => if Req_dec_T a 0 then false else true | None => false end.

Inductive none_or_self : Type := ReturnsNone | ReturnsSelf.

(* a freshly allocated TipableVMobject, with the CONFIG default for the
   tip length *)
Definition fresh : world :=
  mkWorld (mk [] [] None None DEFAULT_ARROW_TIP_LENGTH None) ∅ 0.

Section Methods.
Context `{Collaborator}.
Local Open Scope py_scope.

(* compass_directions(3, rotate_vector(RIGHT, PI)) *)
Definition triangle_vertices : list vec3 :=
  let start_vect := rotate_vector RIGHT PI in
  map (fun k => rotate_vector start_vect (INR k * (TAU / 3))) (seq 0 3).

(* ArrowTip(length=...): Triangle with start_angle PI, then set_width and
   set_height(stretch=True) *)
Definition ArrowTip (length : R) : M world nat :=
  let corners := triangle_vertices ++ [default ORIGIN (head triangle_vertices)] in
  new_mobject (set_height_stretch length (set_width length (set_points_as_corners corners))).

(* ArrowTip.get_base, get_tip_point, get_vector, get_angle *)
Definition tip_get_base (i : nat) : M world vec3 :=
  ps <- points_of i;; ret (point_from_proportion ps 0.5).
Definition tip_get_tip_point (i : nat) : M world vec3 :=
  ps <- points_of i;;
  match ps with p :: _ => ret p | [] => raise IndexError end.
Definition tip_get_vector (i : nat) : M world vec3 :=
  p <- tip_get_tip_point i;; b <- tip_get_base i;; ret (vsub p b).
Definition tip_get_angle (i : nat) : M world R :=
  v <- tip_get_vector i;; ret (angle_of_vector v).
(* VMobject.get_start of a tip *)
Definition tip_get_start (i : nat) : M world vec3 :=
  ps <- points_of i;; lift (VMobject_get_start ps).
(* tip.rotate(angle), about the centre of the tip, and tip.shift(vector) *)
Definition tip_rotate (i : nat) (a : R) : M world unit :=
  ps <- points_of i;; set_points_of i (rotate_about a (get_center ps) ps).
Definition tip_shift (i : nat) (v : vec3) : M world unit :=
  ps <- points_of i;; set_points_of i (shift v ps).

(* Checking for tips *)

Definition has_tip (o : t) : bool :=
  match tip o with Some i => contains o i | None => false end.

Definition has_start_tip (o : t) : bool :=
  match start_tip o with Some i => contains o i | None => false end.

(* Getters *)

Definition get_default_tip_length : M world R :=
  w <- get;; ret (tip_length (self w)).

Definition get_first_handle : M world vec3 :=
  w <- get;;
  match points (self w) !! 1%nat with Some p => ret p | None => raise IndexError end.

Definition get_last_handle : M world vec3 :=
  w <- get;;
  let ps := points (self w) in
  if (length ps <? 2)%nat then raise IndexError
  else match ps !! (length ps - 2)%nat with Some p => ret p | None => raise IndexError end.

Definition get_end : M world vec3 :=
  w <- get;;
  if has_tip (self w) then
    match tip (self w) with
    | Some i => tip_get_start i
    | None => raise AttributeError
    end
  else lift (VMobject_get_end (points (self w))).

Definition get_start : M world vec3 :=
  w <- get;;
  if has_start_tip (self w) then
    match start_tip (self w) with
    | Some i => tip_get_start i
    | None => raise AttributeError
    end
  else lift (VMobject_get_start (points (self w))).

Definition get_start_and_end : M world (vec3 * vec3) :=
  s <- get_start;; e <- get_end;; ret (s, e).

Definition get_length : M world R :=
  se <- get_start_and_end;; ret (norm (vsub (fst se) (snd se))).

(* the affine operations of Mobject reach the object and its children *)
Definition family_apply (f : path -> path) : M world unit :=
  modify (fun w =>
    mkWorld (mk (f (points (self w))) (submobjects (self w)) (tip (self w))
                (start_tip (self w)) (tip_length (self w)) (line (self w)))
            (foldr (fun i h => alter f i h) (heap w) (submobjects (self w)))
            (next_id w)).

Definition Mobject_put_start_and_end_on (start end_ : vec3) : M world unit :=
  se <- get_start_and_end;;
  f <- lift (endpoints_map start end_ (fst se) (snd se));;
  family_apply f.

(* the length that Line.account_for_buff measures *)
Definition measured_length (l : line_attrs) : M world R :=
  if eq_zero (path_arc l) then get_length
  else (w <- get;; ret (get_arc_length (points (self w)))).

(* Line.account_for_buff; it returns None where it gives up and self
   after trimming *)
Definition account_for_buff (l : line_attrs) : M world none_or_self :=
  if Req_dec_T (buff l) 0 then ret ReturnsNone
  else
    length <- measured_length l;;
    if Rlt_dec length (2 * buff l) then ret ReturnsNone
    else
      match np_div (buff l) length with
      | Finite buff_proportion =>
          w <- get;;
          set_points (pointwise_become_partial (points (self w))
                        buff_proportion (1 - buff_proportion));;;
          ret ReturnsSelf
      | _ => raise NonFinite
      end.

(* Line.generate_points *)
Definition Line_generate_points (l : line_attrs) : M world unit :=
  (if truthy (path_arc l) then
     match ArcBetweenPoints.__init__ (start l) (end_ l) (default 0 (path_arc l)) None
             ArcBetweenPoints.no_kwargs Arc.fresh with
     | Return _ arc => set_points (Arc.points (Arc.self arc))
     | Throw e _ => raise e
     end
   else set_points (set_points_as_corners [start l; end_ l]));;;
  account_for_buff l;;;
  ret tt.

(* Line.__init__ with coordinates for start and end, with VMobject.__init__
   unfolded to what this file relies on *)
Definition Line___init__ (start end_ : vec3) (buff : R) (path_arc : option R) : M world unit :=
  let l := mkLine buff path_arc start end_ in
  set_line l;;;
  set_points [];;;
  Line_generate_points l.

(* Line.put_start_and_end_on *)
Definition Line_put_start_and_end_on (l : line_attrs) (start end_ : vec3) : M world unit :=
  se <- get_start_and_end;;
  (if vec3_eqb (fst se) (snd se) then
     let l' := mkLine (buff l) (path_arc l) start end_ in
     set_line l';;;
     Line_generate_points l'
   else ret tt);;;
  Mobject_put_start_and_end_on start end_.

(* self.put_start_and_end_on, by the class of self *)
Definition put_start_and_end_on (start end_ : vec3) : M world unit :=
  w <- get;;
  match line (self w) with
  | Some l => Line_put_start_and_end_on l start end_
  | None => Mobject_put_start_and_end_on start end_
  end.

(* Adding, Creating, Modifying tips *)

Definition get_unpositioned_tip (tip_length : option R) : M world nat :=
  tip_length <- match tip_length with
                | None => get_default_tip_length
                | Some l => ret l
                end;;
  ArrowTip tip_length.

Definition position_tip (tip : nat) (at_start : bool) : M world nat :=
  (* Last two control points, defining both the end, and the tangency
     direction *)
  ah <- (if at_start then
           anchor <- get_start;; handle <- get_first_handle;; ret (anchor, handle)
         else
           handle <- get_last_handle;; anchor <- get_end;; ret (anchor, handle));;
  let '(anchor, handle) := ah in
  a <- tip_get_angle tip;;
  tip_rotate tip (angle_of_vector (vsub handle anchor) - PI - a);;;
  p <- tip_get_tip_point tip;;
  tip_shift tip (vsub anchor p);;;
  ret tip.

Definition create_tip (tip_length : option R) (at_start : bool) : M world nat :=
  tip <- get_unpositioned_tip tip_length;;
  position_tip tip at_start.

Definition reset_endpoints_based_on_tip (tip : nat) (at_start : bool) : M world unit :=
  length <- get_length;;
  if Req_dec_T length 0 then
    (* Zero length, put_start_and_end_on wouldn't work *)
    ret tt
  else if at_start then
    b <- tip_get_base tip;; e <- get_end;; put_start_and_end_on b e
  else
    s <- get_start;; b <- tip_get_base tip;; put_start_and_end_on s b.

Definition asign_tip_attr (tip : nat) (at_start : bool) : M world unit :=
  if at_start then set_start_tip tip else set_tip tip.

Definition add_tip (tip_length : option R) (at_start : bool) : M world unit :=
  tip <- create_tip tip_length at_start;;
  reset_endpoints_based_on_tip tip at_start;;;
  asign_tip_attr tip at_start;;;
  add tip.

(* a VGroup of tips is the list of its members *)
Definition pop_tips : M world (list nat) :=
  se <- get_start_and_end;;
  let result := [] in
  w <- get;;
  result <- (if has_tip (self w) then
               match tip (self w) with
               | Some i => remove i;;; ret (list_update result [i])
               | None => raise AttributeError
               end
             else ret result);;
  w <- get;;
  result <- (if has_start_tip (self w) then
               match start_tip (self w) with
               | Some i => remove i;;; ret (list_update result [i])
               | None => raise AttributeError
               end
             else ret result);;
  put_start_and_end_on (fst se) (snd se);;;
  ret result.

Definition get_tips (o : t) : list nat :=
  let result := [] in
  let result := match tip o with Some i => list_update result [i] | None => result end in
  match start_tip o with Some i => list_update result [i] | None => result end.

Definition get_tip (o : t) : result nat :=
  match get_tips o with
  | [] => Err (PyException "tip not found")
  | i :: _ => Ok i
  end.

(* a sequence of add_tip calls *)
Fixpoint add_tips (calls : list (option R * bool)) : M world unit :=
  match calls with
  | [] => ret tt
  | (tip_length, at_start) :: rest => add_tip tip_length at_start;;; add_tips rest
  end.

(* the state after pointwise_become_partial(self, a, b) *)
Definition trimmed (w : world) (a b : R) : world :=
  mkWorld (mk (pointwise_become_partial (points (self w)) a b) (submobjects (self w))
              (tip (self w)) (start_tip (self w)) (tip_length (self w)) (line (self w)))
          (heap w) (next_id w).

End Methods.

(* the tip attribute of one end after a sequence of add_tip calls, when
   the first call creates the mobject [n]: the tip of the last call at
   that end *)
Fixpoint attr_after (end_is_start : bool) (calls : list (option R * bool)) (n : nat)
    (attr : option nat) : option nat :=
  match calls with
  | [] => attr
  | (_, at_start) :: rest =>
      attr_after end_is_start rest (S n)
        (if Bool.eqb at_start end_is_start then Some n else attr)
  end.

(* children and tip attributes are the same *)
Definition same_tips (w w' : world) : Prop :=
  tip (self w') = tip (self w) /\
  start_tip (self w') = start_tip (self w) /\
  submobjects (self w') = submobjects (self w).

(* the mobject [j] exists and has points *)
Definition alive (w : world) (j : nat) : Prop :=
  exists ps, heap w !! j = Some ps /\ ps <> [].

(* a path with its tips: points for a first and a last handle, children
   without repetition, each with points *)
Definition wf (w : world) : Prop :=
  (2 <= length (points (self w)))%nat /\
  NoDup (submobjects (self w)) /\
  forall j, j ∈ submobjects (self w) -> alive w j.

Definition readable (w : world) : Prop :=
  points (self w) <> [] /\ forall j, j ∈ submobjects (self w) -> alive w j.

(* resizing a tip keeps its points *)
Definition resizing_keeps_points (H : Collaborator) : Prop :=
  forall (l : R) (ps : path),
    ps <> [] -> set_width l ps <> [] /\ set_height_stretch l ps <> [].

(* the states between the creation of a tip and its attachment: the tip
   [next_id w0] exists, nothing is attached or detached *)
Definition mid (w0 w : world) : Prop :=
  same_tips w0 w /\
  (2 <= length (points (self w)))%nat /\
  next_id w = S (next_id w0) /\
  (forall j, j ∈ submobjects (self w0) -> alive w j) /\
  alive w (next_id w0).

(* what add_tip has done when it returns: the new tip [i] is the last
   child and the attribute of its end; the other attribute is kept *)
Definition attached (i : nat) (at_start : bool) (w0 w' : world) : Prop :=
  submobjects (self w') = list_update (submobjects (self w0)) [i] /\
  tip (self w') = (if at_start then tip (self w0) else Some i) /\
  start_tip (self w') = (if at_start then Some i else start_tip (self w0)) /\
  next_id w' = S i.

(* the state of Line(start, end, buff=..., path_arc=...) on a straight
   line, before account_for_buff trims it *)
Definition straight_line (start end_ : vec3) (buff : R) (path_arc : option R) : world :=
  mkWorld (mk (set_points_as_corners [start; end_]) [] None None DEFAULT_ARROW_TIP_LENGTH
              (Some (mkLine buff path_arc start end_)))
          ∅ 0.

(* numpy's ceil on a float64 scalar *)
Definition np_ceil (x : float64) : float64 :=
  match x with
  | Finite r => Finite (IZR (- Int_part (- r)))
  | _ => x
  end.

(* all points of the object and of its children, which the bounding box of
   the family is taken from *)
Definition family_points (w : world) : path :=
  points (self w) ++ flat_map (fun i => default [] (heap w !! i)) (submobjects (self w)).

(* the point that get_start and get_end read: the first point of the tip
   of that end, where has_start_tip / has_tip says there is one, and the
   first / last point of the path otherwise *)
Definition first_point_of (w : world) (i : nat) : option vec3 :=
  match heap w !! i with Some ps => head ps | None => None end.
Definition start_of (w : world) : option vec3 :=
  if has_start_tip (self w)
  then match start_tip (self w) with Some i => first_point_of w i | None => None end
  else head (points (self w)).
Definition end_of (w : world) : option vec3 :=
  if has_tip (self w)
  then match tip (self w) with Some i => first_point_of w i | None => None end
  else last (points (self w)).

(* the children and the tips of the attributes exist already: their
   numbers are below the next number to give out *)
Definition numbered (w : world) : Prop :=
  forall j, j ∈ submobjects (self w) \/ tip (self w) = Some j \/ start_tip (self w) = Some j ->
            (j < next_id w)%nat.

Section MoreMethods.
Context `{Collaborator}.
Local Open Scope py_scope.

(** Modelled from the spec: [Mobject.scale(factor)], the affine operation
    scale about a pivot, here the centre of the bounding box of the
    family, applied to the object and to its children. *)
Definition Mobject_scale (factor : R) : M world unit :=
  w <- get;;
  family_apply (scale_about factor (get_center (family_points w))).

(* Line.get_vector, get_angle and set_length *)
Definition Line_get_vector : M world vec3 :=
  e <- get_end;; s <- get_start;; ret (vsub e s).

Definition Line_get_angle : M world R :=
  v <- Line_get_vector;; ret (angle_of_vector v).

(* Line.set_angle: self.rotate(angle - self.get_angle(),
   about_point=self.get_start()), the rotation reaching the object and its
   children *)
Definition Line_set_angle (angle : R) : M world unit :=
  a <- Line_get_angle;;
  s <- get_start;;
  family_apply (rotate_about (angle - a) s).

Definition Line_set_length (length : R) : M world unit :=
  l <- get_length;;
  match np_div length l with
  | Finite factor => Mobject_scale factor
  | _ => raise NonFinite
  end.

(* VMobject.get_end of a child *)
Definition child_get_end (i : nat) : M world vec3 :=
  ps <- points_of i;; lift (VMobject_get_end ps).

(* DashedLine.get_start, get_end, and get_length with them *)
Definition DashedLine_get_start : M world vec3 :=
  w <- get;;
  match submobjects (self w) with
  | i :: _ => tip_get_start i
  | [] => get_start
  end.

Definition DashedLine_get_end : M world vec3 :=
  w <- get;;
  match last (submobjects (self w)) with
  | Some i => child_get_end i
  | None => get_end
  end.

Definition DashedLine_get_length : M world R :=
  s <- DashedLine_get_start;; e <- DashedLine_get_end;; ret (norm (vsub s e)).

(* DashedLine.calculate_num_dashes: only the division of two Python
   floats raises ZeroDivisionError *)
Definition calculate_num_dashes (dash_length positive_space_ratio : R) : M world Z :=
  match py_div dash_length positive_space_ratio with
  | Err _ => ret 1%Z
  | Ok full_length =>
      length <- DashedLine_get_length;;
      lift (py_int (np_ceil (np_div length full_length)))
  end.

(* Arrow.get_default_tip_length and set_stroke_width_from_length; the
   stroke is style, which the state does not hold: what is left of the
   second one is that it measures the length *)
Definition Arrow_get_default_tip_length (max_tip_length_to_length_ratio : R) : M world R :=
  w <- get;;
  length <- get_length;;
  ret (Rmin (tip_length (self w)) (max_tip_length_to_length_ratio * length)).

Definition set_stroke_width_from_length : M world unit :=
  length <- get_length;; ret tt.

(* self.add_tip(at_start=...) on an Arrow: get_unpositioned_tip asks the
   Arrow for its default tip length *)
Definition Arrow_add_tip (max_tip_length_to_length_ratio : R) (at_start : bool) : M world unit :=
  tip_length <- Arrow_get_default_tip_length max_tip_length_to_length_ratio;;
  add_tip (Some tip_length) at_start.

(* [old.points[:, :] = new.points], whose right-hand side is read first:
   the points of [new] are copied into the array of [old]; numpy repeats a single row and refuses every other
   difference of the two lengths (its message names the two shapes) *)
Definition assign_points (old new : nat) : M world unit :=
  d <- points_of old;;
  s <- points_of new;;
  if (length s =? length d)%nat then set_points_of old s
  else match s with
       | [p] => set_points_of old (replicate (length d) p)
       | _ => raise (ValueError "could not broadcast input array")
       end.

(* [old_tips[k]] *)
Definition tip_at (old_tips : list nat) (k : nat) : M world nat :=
  match old_tips !! k with Some i => ret i | None => raise IndexError end.

(* Arrow.scale(factor), called without keyword arguments; [old_tips] is
   only bound, and only read, where one of the two flags is true *)
Definition Arrow_scale (max_tip_length_to_length_ratio factor : R) : M world unit :=
  length <- get_length;;
  if Req_dec_T length 0 then ret tt
  else
    w <- get;;
    let has_tip_ := has_tip (self w) in
    let has_start_tip_ := has_start_tip (self w) in
    old_tips <- (if has_tip_ || has_start_tip_ then pop_tips else ret []);;
    Mobject_scale factor;;;
    set_stroke_width_from_length;;;
    (* So horribly confusing, must redo *)
    (if has_tip_ then
       Arrow_add_tip max_tip_length_to_length_ratio false;;;
       w <- get;;
       match tip (self w) with
       | Some new =>
           old <- tip_at old_tips 0;;
           assign_points old new;;;
           remove new;;;
           set_tip old;;;
           add old
       | None => raise AttributeError
       end
     else ret tt);;;
    (if has_start_tip_ then
       Arrow_add_tip max_tip_length_to_length_ratio true;;;
       w <- get;;
       match start_tip (self w) with
       | Some new =>
           old <- tip_at old_tips 1;;
           assign_points old new;;;
           remove new;;;
           set_start_tip old;;;
           add old
       | None => raise AttributeError
       end
     else ret tt).

End MoreMethods.

(* resizing a tip keeps the number of its points *)
Definition resizing_keeps_length (H : Collaborator) : Prop :=
  forall (l : R) (ps : path),
    length (set_width l ps) = length ps /\ length (set_height_stretch l ps) = length ps.

End Tipable.

(** ** Polygon *)

Module Polygon.

(* utils.iterables.adjacent_n_tuples(objects, 3) and adjacent_pairs *)
Definition rotate_left {A} (k : nat) (l : list A) : list A := drop k l ++ take k l.
Definition adjacent_3_tuples {A} (l : list A) : list (A * A * A) :=
  zip (zip l (rotate_left 1 l)) (rotate_left 2 l).
Definition adjacent_pairs {A} (l : list A) : list (A * A) :=
  zip l (rotate_left 1 l).

(* space_ops.normalize *)
Definition normalize (v : vec3) : vec3 :=
  if Rlt_dec 0 (norm v) then smul (/ norm v) v else ORIGIN.

(* VMobject.get_start_anchors: self.points[0::4] *)
Fixpoint get_start_anchors (ps : path) : list vec3 :=
  match ps with
  | a :: _ :: _ :: _ :: rest => a :: get_start_anchors rest
  | a :: _ => [a]
  | [] => []
  end.

(* Polygon.__init__ with the vertices as arguments *)
Definition __init__ (vertices : list vec3) : result path :=
  match vertices with
  | v0 :: _ => Ok (set_points_as_corners (vertices ++ [v0]))
  | [] => Err IndexError
  end.

Definition get_vertices (ps : path) : list vec3 := get_start_anchors ps.

Fixpoint mapM {A B} (f : A -> result B) (l : list A) : result (list B) :=
  match l with
  | [] => Ok []
  | x :: l' =>
      match f x with
      | Err e => Err e
      | Ok y => match mapM f l' with Err e => Err e | Ok ys => Ok (y :: ys) end
      end
  end.

Section Methods.
Context `{Collaborator}.
Local Open Scope py_scope.

(* the body of the first loop of round_corners: the arc of one corner *)
Definition corner_arc (radius : R) (v : vec3 * vec3 * vec3) : result path :=
  let '(v1, v2, v3) := v in
  let vect1 := vsub v2 v1 in
  let vect2 := vsub v3 v2 in
  let unit_vect1 := normalize vect1 in
  let unit_vect2 := normalize vect2 in
  let angle := angle_between_vectors vect1 vect2 in
  (* Negative radius gives concave curves *)
  let angle := angle * sign radius in
  (* Distance between vertex and start of the arc *)
  let cut_off_length := radius * tan (angle / 2) in
  (* Determines counterclockwise vs. clockwise *)
  let sign := sign (vz (cross vect1 vect2)) in
  match ArcBetweenPoints.__init__
          (vsub v2 (smul cut_off_length unit_vect1))
          (vadd v2 (smul cut_off_length unit_vect2))
          (sign * angle) None ArcBetweenPoints.no_kwargs Arc.fresh with
  | Return _ arc => Ok (Arc.points (Arc.self arc))
  | Throw e _ => Err e
  end.

(* Line(start, end), its length and its points after insert_n_curves(n) *)
Definition connector (start end_ : vec3) : result Tipable.world :=
  match Tipable.Line___init__ start end_ 0 None Tipable.fresh with
  | Return _ w => Ok w
  | Throw e _ => Err e
  end.

(* the body of the second loop: the arc, then the line to the next arc *)
Definition append_arc_and_line (arc1 arc2 : path) : M path unit :=
  modify (fun ps => ps ++ arc1);;;
  arc1_end <- lift (VMobject_get_end arc1);;
  arc2_start <- lift (VMobject_get_start arc2);;
  line <- lift (connector arc1_end arc2_start);;
  line_length <- lift (match Tipable.get_length line with
                       | Return x _ => Ok x
                       | Throw e _ => Err e
                       end);;
  (* Make sure anchors are evenly distributed *)
  let len_ratio := np_div line_length (get_arc_length arc1) in
  n <- lift (py_int (np_mul_int (get_num_curves arc1) len_ratio));;
  modify (fun ps => ps ++ insert_n_curves n (Tipable.points (Tipable.self line))).

Fixpoint for_each {S A} (body : A -> M S unit) (l : list A) : M S unit :=
  match l with
  | [] => ret tt
  | x :: l' => body x;;; for_each body l'
  end.

Definition round_corners (radius : R) : M path unit :=
  ps <- get;;
  let vertices := get_vertices ps in
  arcs <- lift (mapM (corner_arc radius) (adjacent_3_tuples vertices));;
  modify (fun _ => []);;;
  (* To ensure that we loop through starting with last *)
  match last arcs with
  | None => raise IndexError
  | Some arc_last =>
      let arcs := arc_last :: removelast arcs in
      for_each (fun a => append_arc_and_line (fst a) (snd a)) (adjacent_pairs arcs)
  end.

End Methods.

(* a cubic curve whose four control points are the one point [v] *)
Definition point_arc (v : vec3) : path := [v; v; v; v].

(* such a curve has no length *)
Definition no_length_at_a_point (H : Collaborator) : Prop :=
  forall v : vec3, get_arc_length (point_arc v) = 0.

(** Modelled from the spec: [space_ops.compass_directions], the [n]
    vectors that [start_vect] gives when it is turned by the multiples of
    [TAU / n]. *)
Definition compass_directions (n : Z) (start_vect : vec3) : result (list vec3) :=
  match py_div TAU (IZR n) with
  | Err e => Err e
  | Ok angle =>
      Ok (map (fun k => rotate_vector start_vect (INR k * angle)) (seq 0 (Z.to_nat n)))
  end.

Definition DEGREES : R := TAU / 360.

(* RegularPolygon.__init__; [start_angle] is the keyword argument, None
   for the CONFIG default *)
Definition RegularPolygon___init__ (n : Z) (start_angle : option R) : result path :=
  let start_angle :=
    match start_angle with
    | Some a => a
    | None => if (n mod 2 =? 0)%Z then 0 else 90 * DEGREES
    end in
  let start_vect := rotate_vector RIGHT start_angle in
  match compass_directions n start_vect with
  | Err e => Err e
  | Ok vertices => __init__ vertices
  end.

Definition is_finite (x : float64) : bool :=
  match x with Finite _ => true | _ => false end.

Section ArcPolygon.
Context `{Collaborator}.
Local Open Scope py_scope.

(* the body of the loop of ArcPolygon.__init__, for arcs that carry no
   tips: the arc, then the line to the next arc unless the ratio of the
   lengths is nan or inf *)
Definition append_arc_and_gap (arc1 arc2 : path) : M path unit :=
  modify (fun ps => ps ++ arc1);;;
  arc1_end <- lift (VMobject_get_end arc1);;
  arc2_start <- lift (VMobject_get_start arc2);;
  line <- lift (connector arc1_end arc2_start);;
  line_length <- lift (match Tipable.get_length line with
                       | Return x _ => Ok x
                       | Throw e _ => Err e
                       end);;
  let len_ratio := np_div line_length (get_arc_length arc1) in
  if negb (is_finite len_ratio) then ret tt
  else
    n <- lift (py_int (np_mul_int (get_num_curves arc1) len_ratio));;
    modify (fun ps => ps ++ insert_n_curves n (Tipable.points (Tipable.self line))).

(* the points that ArcPolygon.__init__ gives the new object *)
Definition ArcPolygon___init__ (arcs : list path) : M path unit :=
  for_each (fun a => append_arc_and_gap (fst a) (snd a)) (adjacent_pairs arcs).

(* the points that follow [arc1] in an ArcPolygon: the line from its end
   to the start of [arc2], or nothing *)
Definition gap_points (arc1 arc2 : path) : path :=
  let arc1_end := default ORIGIN (last arc1) in
  let arc2_start := default ORIGIN (head arc2) in
  match np_div (norm (vsub arc1_end arc2_start)) (get_arc_length arc1) with
  | Finite r =>
      match py_int (np_mul_int (get_num_curves arc1) (Finite r)) with
      | Ok n => insert_n_curves n (set_points_as_corners [arc1_end; arc2_start])
      | Err _ => []
      end
  | _ => []
  end.

End ArcPolygon.

End Polygon.

(** ** Tiling *)

Module Tiling.

(* len(range(start, stop, step)) *)
Definition range_len (start stop step : Z) : result Z :=
  if (0 <? step)%Z then
    Ok (if (start <? stop)%Z then ((stop - start - 1) / step + 1)%Z else 0%Z)
  else if (step <? 0)%Z then
    Ok (if (stop <? start)%Z then ((start - stop - 1) / (- step) + 1)%Z else 0%Z)
  else Err (ValueError "range() arg 3 must not be zero").

(* the magnitude that transform_tile computes for the loop index [i] *)
Definition magnitude (offsets_nr : Z) (i : Z) (position : Z) : result Z :=
  if (position <? 0)%Z then
    match range_len (- i) position (- offsets_nr) with
    | Ok n => Ok (n * -1)%Z
    | Err e => Err e
    end
  else range_len i position offsets_nr.

Section Tiles.
(* a tile, the argument of a Mobject method, and [magnitude * np.array(arg)] *)
Context {T V : Type} (times : Z -> V -> V).

(* an entry of an offset sublist: a Mobject method or its argument *)
Inductive entry : Type :=
| Method (f : T -> V -> T)
| Value (v : V).

(* offset[r][0 + j * 2](tile, magnitude * np.array(offset[r][1 + j * 2])) *)
Definition apply_pair (rule : list entry) (j : nat) (magnitude : Z) (tile : T) : result T :=
  match rule !! (0 + j * 2)%nat, rule !! (1 + j * 2)%nat with
  | Some (Method f), Some (Value v) => Ok (f tile (times magnitude v))
  | None, _ | _, None => Err IndexError
  | _, _ => Err TypeError
  end.

Fixpoint for_range {S} (body : nat -> S -> result S) (start count : nat) (s : S) : result S :=
  match count with
  | O => Ok s
  | Datatypes.S count' =>
      match body start s with
      | Ok s' => for_range body (Datatypes.S start) count' s'
      | Err e => Err e
      end
  end.

Definition transform_tile (position : Z) (offset : list (list entry)) (tile : T) : result T :=
  (* The number of different offsets the current axis has *)
  let offsets_nr := length offset in
  for_range (fun i tile =>
    match offset !! i with
    | None => Err IndexError
    | Some offset_i =>
        for_range (fun j tile =>
          match magnitude (Z.of_nat offsets_nr) (Z.of_nat i) position with
          | Err e => Err e
          | Ok m =>
              if (position <? 0)%Z then
                match offset !! (offsets_nr - 1 - i)%nat with
                | Some rule => apply_pair rule j m tile
                | None => Err IndexError
                end
              else apply_pair offset_i j m tile
          end) 0 (length offset_i / 2) tile
    end) 0 offsets_nr tile.

(* Tiling.apply_transforms *)
Definition apply_transforms (x y : Z) (x_offset y_offset : list (list entry)) (tile : T)
    : result T :=
  match transform_tile x x_offset tile with
  | Ok tile => transform_tile y y_offset tile
  | Err e => Err e
  end.

End Tiles.
Arguments Method {T V} f.
Arguments Value {T V} v.

(* the sublist that transform_tile applies for the loop index [i]:
   offset[-1 - i] on the negative side, offset[i] otherwise *)
Definition rule_index (offsets_nr i : nat) (position : Z) : nat :=
  if (position <? 0)%Z then (offsets_nr - 1 - i)%nat else i.

(* Mobject.shift on the position of a tile, with numpy's int * array *)
Definition times_vec (m : Z) (v : vec3) : vec3 := smul (IZR m) v.
Definition Mobject_shift (tile : vec3) (v : vec3) : vec3 := vadd tile v.

(* how many m with 0 <= m < bound are of the form i + j * k *)
Definition count_steps (k i bound : Z) : Z :=
  Z.of_nat (length (List.filter (fun m => ((m - i) mod k =? 0)%Z && (i <=? m)%Z)
                           (map Z.of_nat (seq 0 (Z.to_nat bound))))).

(* the count with its sign: negative on the negative side *)
Definition signed_count (k i position : Z) : Z :=
  if (position <? 0)%Z then (- count_steps k i (- position))%Z else count_steps k i position.

(* offset lists whose sublists hold one method and its argument *)
Definition single_pairs {T V} (rules : list ((T -> V -> T) * V)) : list (list (@entry T V)) :=
  map (fun r => [Method (fst r); Value (snd r)]) rules.

(* what transform_tile does for the loop index [i] on such a list *)
Definition apply_rule {T V} (times : Z -> V -> V) (rules : list ((T -> V -> T) * V))
    (position : Z) (tile : T) (i : nat) : T :=
  match rules !! rule_index (length rules) i position with
  | Some r =>
      fst r tile (times (signed_count (Z.of_nat (length rules)) (Z.of_nat i) position) (snd r))
  | None => tile
  end.

(* the same count strictly between 0 and bound *)
Definition count_strictly_between (k i bound : Z) : Z :=
  Z.of_nat (length (List.filter (fun m => ((m - i) mod k =? 0)%Z && (i <=? m)%Z && (0 <? m)%Z)
                           (map Z.of_nat (seq 0 (Z.to_nat bound))))).

(* the values of range(start, stop, step), in order *)
Definition range_elements (start stop step : Z) : result (list Z) :=
  match range_len start stop step with
  | Ok n => Ok (map (fun i => (start + Z.of_nat i * step)%Z) (seq 0 (Z.to_nat n)))
  | Err e => Err e
  end.

(* a range object *)
Record py_range : Type := mkRange { r_start : Z; r_stop : Z; r_step : Z }.

(* the tile prototype: a Mobject, or a function of the tile location that
   returns one *)
Inductive prototype (T : Type) : Type :=
| Fixed (tile : T)
| Factory (f : Z -> Z -> T).
Arguments Fixed {T} tile.
Arguments Factory {T} f.

(* the tiles added to self, in order, and self.tile_dictionary *)
Record tiling (T : Type) : Type := mkTiling {
  tiles : list T;
  tile_dictionary : gmap Z (gmap Z T)
}.
Arguments mkTiling {T} tiles tile_dictionary.
Arguments tiles {T} t.
Arguments tile_dictionary {T} t.

(* self.tile_dictionary[x][y], None where a key is missing *)
Definition tile_at {T} (s : tiling T) (x y : Z) : option T :=
  match tile_dictionary s !! x with
  | Some row => row !! y
  | None => None
  end.

Section Grid.
Context {T V : Type} (times : Z -> V -> V).

(* a deep copy of the prototype, or of what the function returns *)
Definition new_tile (p : prototype T) (x y : Z) : T :=
  match p with Fixed tile => tile | Factory f => f x y end.

(* the loop over self.y_range in tile_init_loop *)
Fixpoint row_loop (p : prototype T) (x_offset y_offset : list (list (@entry T V)))
    (x : Z) (ys : list Z) (self : tiling T) : result (tiling T) :=
  match ys with
  | [] => Ok self
  | y :: ys' =>
      let tile := new_tile p x y in
      match apply_transforms times x y x_offset y_offset tile with
      | Err e => Err e
      | Ok tile =>
          match tile_dictionary self !! x with
          | None => Err KeyError
          | Some row =>
              row_loop p x_offset y_offset x ys'
                (mkTiling (tiles self ++ [tile])
                          (<[x := <[y := tile]> row]> (tile_dictionary self)))
          end
      end
  end.

Fixpoint tile_init_loop (p : prototype T) (x_offset y_offset : list (list (@entry T V)))
    (xs ys : list Z) (self : tiling T) : result (tiling T) :=
  match xs with
  | [] => Ok self
  | x :: xs' =>
      let self := mkTiling (tiles self) (<[x := ∅]> (tile_dictionary self)) in
      match row_loop p x_offset y_offset x ys self with
      | Err e => Err e
      | Ok self => tile_init_loop p x_offset y_offset xs' ys self
      end
  end.

(* Tiling.__init__: one more step is added to both ranges *)
Definition __init__ (p : prototype T) (x_offset y_offset : list (list (@entry T V)))
    (x_range y_range : py_range) : result (tiling T) :=
  match range_elements (r_start x_range) (r_stop x_range + r_step x_range) (r_step x_range) with
  | Err e => Err e
  | Ok xs =>
      match range_elements (r_start y_range) (r_stop y_range + r_step y_range)
              (r_step y_range) with
      | Err e => Err e
      | Ok ys => tile_init_loop p x_offset y_offset xs ys (mkTiling [] ∅)
      end
  end.

(* the tile of the location (x, y) after the rules of both axes, for
   offset lists whose sublists hold one method and its argument *)
Definition placed (rx ry : list ((T -> V -> T) * V)) (x y : Z) (tile : T) : T :=
  fold_left (apply_rule times ry y) (seq 0 (length ry))
    (fold_left (apply_rule times rx x) (seq 0 (length rx)) tile).

(* the row of x after the loop over ys, and the dictionary after the loop
   over xs *)
Definition row_after (p : prototype T) (rx ry : list ((T -> V -> T) * V))
    (x : Z) (ys : list Z) (row : gmap Z T) : gmap Z T :=
  fold_left (fun row y => <[y := placed rx ry x y (new_tile p x y)]> row) ys row.
Definition dictionary_after (p : prototype T) (rx ry : list ((T -> V -> T) * V))
    (xs ys : list Z) (d : gmap Z (gmap Z T)) : gmap Z (gmap Z T) :=
  fold_left (fun d x => <[x := row_after p rx ry x ys ∅]> d) xs d.

End Grid.

(* the sum of a list of results *)
Fixpoint sum_results (l : list (result Z)) : result Z :=
  match l with
  | [] => Ok 0%Z
  | Ok m :: l' => match sum_results l' with Ok a => Ok (m + a)%Z | Err e => Err e end
  | Err e :: _ => Err e
  end.

Definition sumZ (l : list Z) : Z := fold_right Z.add 0%Z l.

End Tiling.

(** ** EdgeVertexGraph *)

Module EdgeVertexGraph.

Inductive value : Type := Num (x : R) | Str (s : string).

(* a dictionary of keyword arguments *)
Abbreviation config := (gmap string value).

(* {**a, **b}: the entries of [b] win *)
Definition merge (a b : config) : config := b ∪ a.

(* an element of a list in the adjacency list: an int, a dict, or a string,
   which stands for the values of other types *)
Inductive item : Type :=
| ItemInt (v : Z)
| ItemDict (kwargs : config)
| ItemStr (s : string).

(* an entry of the adjacency list: an int, a list of any length, or a
   value of another type *)
Inductive edge_definition : Type :=
| EdgeInt (v : Z)
| EdgeList (items : list item)
| EdgeOther.

(* a key of the graph dictionary: an int, or a value of another type *)
Inductive key : Type := IntKey (n : Z) | OtherKey (s : string).

(* graph[k] = [coordinates, adjacency list, configuration] *)
Record attributes : Type := mkAttr {
  coordinates : vec3;
  adjacency : list edge_definition;
  vertex_kwargs : config
}.

(* a dictionary keeps its keys in the order of insertion *)
Abbreviation graph := (list (key * attributes)).

(* the two groups of shapes, of the classes [V] and [E] *)
Record t (V E : Type) : Type := mk { vertices : list V; edges : list E }.
Arguments mk {V E}.
Arguments vertices {V E}.
Arguments edges {V E}.

Definition is_int_key (k : key) : bool := match k with IntKey _ => true | OtherKey _ => false end.
Definition is_int_or_list (m : edge_definition) : bool :=
  match m with EdgeOther => false | _ => true end.

(* graph[vertex_number] *)
Fixpoint getitem (g : graph) (n : Z) : result attributes :=
  match g with
  | [] => Err KeyError
  | (IntKey k, a) :: g' => if (k =? n)%Z then Ok a else getitem g' n
  | (OtherKey _, _) :: g' => getitem g' n
  end.

Definition angle_zero : config := {[ "angle"%string := Num 0 ]}.

(* the two names that the head of the loop body binds: the entry itself and
   an empty dict for an int, [edge_definition[0]] and [edge_definition[1]]
   for a list; an entry of another type binds nothing *)
Definition read_entry (edge_definition : edge_definition) : result (item * item) :=
  match edge_definition with
  | EdgeInt v => Ok (ItemInt v, ItemDict ∅)
  | EdgeList (vertex_number :: edge_kwargs :: _) => Ok (vertex_number, edge_kwargs)
  | EdgeList _ => Err IndexError
  | EdgeOther => Err (PyException "local variable referenced before assignment")
  end.

(* [vertex < vertex_number] compares ints only *)
Definition as_int (vertex_number : item) : result Z :=
  match vertex_number with ItemInt v => Ok v | _ => Err TypeError end.

(* [**edge_kwargs] unpacks mappings only *)
Definition as_mapping (edge_kwargs : item) : result config :=
  match edge_kwargs with ItemDict kw => Ok kw | _ => Err TypeError end.

Section Classes.
Context {V E : Type}.

(** The classes that the constructor is given: the call
    [vertex_type( **kwargs)], the method [shift] of its instances, and the
    call [edge_type(start, end, **kwargs)].  Each of them may raise. *)
Variable vertex_type : config -> result V.
Variable shift : V -> vec3 -> result V.
Variable edge_type : vec3 -> vec3 -> config -> result E.

(* the body of the inner loop: the edge that one adjacency entry gives, if
   it gives one *)
Definition edge_for (g : graph) (edge_config : config) (vertex : Z) (a : attributes)
    (edge_definition : edge_definition) : result (option E) :=
  match read_entry edge_definition with
  | Err e => Err e
  | Ok (vertex_number, edge_kwargs) =>
      match as_int vertex_number with
      | Err e => Err e
      | Ok vertex_number =>
          if (vertex <? vertex_number)%Z then
            match getitem g vertex_number with
            | Err e => Err e
            | Ok target =>
                match as_mapping edge_kwargs with
                | Err e => Err e
                | Ok edge_kwargs =>
                    match edge_type (coordinates a) (coordinates target)
                            (merge (merge angle_zero edge_config) edge_kwargs) with
                    | Err e => Err e
                    | Ok edge => Ok (Some edge)
                    end
                end
            end
          else Ok None
      end
  end.

(* the loop over attributes[1] for one vertex *)
Fixpoint add_edges (g : graph) (edge_config : config) (vertex : Z) (a : attributes)
    (defs : list edge_definition) (self : t V E) : result (t V E) :=
  match defs with
  | [] => Ok self
  | edge_definition :: defs' =>
      match edge_for g edge_config vertex a edge_definition with
      | Err e => Err e
      | Ok (Some edge) =>
          add_edges g edge_config vertex a defs' (mk (vertices self) (edges self ++ [edge]))
      | Ok None => add_edges g edge_config vertex a defs' self
      end
  end.

(* vertex_type( **{**vertex_config, **attributes[2]}).shift(attributes[0]) *)
Definition vertex_for (vertex_config : config) (a : attributes) : result V :=
  match vertex_type (merge vertex_config (vertex_kwargs a)) with
  | Err e => Err e
  | Ok v => shift v (coordinates a)
  end.

(* the loop over graph.items() *)
Fixpoint add_vertices (g : graph) (vertex_config edge_config : config)
    (items : graph) (self : t V E) : result (t V E) :=
  match items with
  | [] => Ok self
  | (k, a) :: items' =>
      match k with
      | OtherKey _ => Err TypeError
      | IntKey vertex =>
          match vertex_for vertex_config a with
          | Err e => Err e
          | Ok v =>
              let self := mk (vertices self ++ [v]) (edges self) in
              match add_edges g edge_config vertex a (adjacency a) self with
              | Err e => Err e
              | Ok self => add_vertices g vertex_config edge_config items' self
              end
          end
      end
  end.

Definition __init__ (g : graph) (vertex_config edge_config : config) : result (t V E) :=
  if negb (forallb (fun kv => is_int_key (fst kv)) g) then
    Err (ValueError "All keys for the graph dictionary have to be of type int")
  else if negb (forallb (fun kv => forallb is_int_or_list (adjacency (snd kv))) g) then
    Err (ValueError "Invalid Edge definition for EdgeVertexGraph. Use int or [int,dict].")
  else add_vertices g vertex_config edge_config g (mk [] []).

End Classes.

(* the vertex that an adjacency entry points to, where it is an int or a
   list of an int and at least one more element *)
Definition target_of (d : edge_definition) : option Z :=
  match d with
  | EdgeInt v => Some v
  | EdgeList (ItemInt v :: _ :: _) => Some v
  | _ => None
  end.

(* the override dictionary of an adjacency entry: [edge_kwargs] in the loop *)
Definition kwargs_of (d : edge_definition) : config :=
  match d with EdgeList (_ :: ItemDict kw :: _) => kw | _ => ∅ end.

(* the adjacency entries of one vertex that point to a higher id *)
Definition points_forward (vertex : Z) (d : edge_definition) : bool :=
  match target_of d with Some v => (vertex <? v)%Z | None => false end.
Definition forward_entries (vertex : Z) (defs : list edge_definition) : list edge_definition :=
  List.filter (points_forward vertex) defs.

Definition is_ok {A} (r : result A) : bool := match r with Ok _ => true | Err _ => false end.

(* an entry as the docstring asks for it: an int or a list [int, dict] (more
   elements are not looked at); where it points forward, it points to a
   key *)
Definition well_formed (d : edge_definition) : bool :=
  match d with
  | EdgeInt _ => true
  | EdgeList (ItemInt _ :: ItemDict _ :: _) => true
  | _ => false
  end.
Definition points_to_a_key (g : graph) (vertex : Z) (d : edge_definition) : bool :=
  well_formed d &&
  match target_of d with
  | Some v => if (vertex <? v)%Z then is_ok (getitem g v) else true
  | None => true
  end.

(* every entry of [items] is well formed and points to a key of [g] where
   it points forward *)
Definition forward_closed (g : graph) (items : graph) : bool :=
  forallb (fun kv => match fst kv with
                     | IntKey vertex => forallb (points_to_a_key g vertex) (adjacency (snd kv))
                     | OtherKey _ => false
                     end) items.

(* a valid graph dictionary: int keys, adjacency entries that are ints or
   lists [int, dict], and every vertex that an entry points forward to is
   a key *)
Definition valid (g : graph) : bool :=
  forallb (fun kv => is_int_key (fst kv)) g &&
  forallb (fun kv => forallb is_int_or_list (adjacency (snd kv))) g &&
  forallb (fun kv => forallb well_formed (adjacency (snd kv))) g &&
  forward_closed g g.

Definition coordinates_of (g : graph) (v : Z) : vec3 :=
  match getitem g v with Ok target => coordinates target | Err _ => ORIGIN end.

(* the number of adjacency entries (u, v) with u < v *)
Definition forward_count (g : graph) : nat :=
  list_sum (map (fun kv => match fst kv with
                           | IntKey vertex => length (forward_entries vertex (adjacency (snd kv)))
                           | OtherKey _ => O
                           end) g).

(* the adjacency entries that point forward, each with the attributes of
   the vertex whose list it stands in *)
Definition forward_pairs (g : graph) : list (attributes * edge_definition) :=
  flat_map (fun kv => match fst kv with
                      | IntKey vertex =>
                          map (fun d => (snd kv, d)) (forward_entries vertex (adjacency (snd kv)))
                      | OtherKey _ => []
                      end) g.

Section Calls.
Context {V E : Type}.
Variable vertex_type : config -> result V.
Variable shift : V -> vec3 -> result V.
Variable edge_type : vec3 -> vec3 -> config -> result E.

(* the call of edge_type that a forward entry [d] of the vertex with the
   attributes [a] asks for *)
Definition edge_call (g : graph) (edge_config : config) (a : attributes)
    (d : edge_definition) : result E :=
  edge_type (coordinates a) (coordinates_of g (default 0%Z (target_of d)))
            (merge (merge angle_zero edge_config) (kwargs_of d)).

(* the edge [e] is what edge_type returns for the entry [snd ad] in the
   adjacency list of the vertex with the attributes [fst ad] *)
Definition edge_made (g : graph) (edge_config : config) (ad : attributes * edge_definition)
    (e : E) : Prop :=
  exists v target,
    target_of (snd ad) = Some v /\ getitem g v = Ok target /\
    edge_type (coordinates (fst ad)) (coordinates target)
              (merge (merge angle_zero edge_config) (kwargs_of (snd ad))) = Ok e.

(* the classes never raise *)
Definition never_raise : Prop :=
  (forall kwargs, is_ok (vertex_type kwargs) = true) /\
  (forall v vector, is_ok (shift v vector) = true) /\
  (forall start end_ kwargs, is_ok (edge_type start end_ kwargs) = true).

(* every call that the constructor makes on [g] returns *)
Definition calls_return (g : graph) (vertex_config edge_config : config) : bool :=
  forallb (fun kv => is_ok (vertex_for vertex_type shift vertex_config (snd kv))) g &&
  forallb (fun ad => is_ok (edge_call g edge_config (fst ad) (snd ad))) (forward_pairs g).

End Calls.

(* the same graph with every adjacency list cut down to the entries that
   point to a higher id *)
Definition forward_only (g : graph) : graph :=
  map (fun kv => (fst kv,
                  match fst kv with
                  | IntKey vertex =>
                      mkAttr (coordinates (snd kv))
                             (forward_entries vertex (adjacency (snd kv)))
                             (vertex_kwargs (snd kv))
                  | OtherKey _ => snd kv
                  end)) g.

(* the first dictionary that has the key *)
Fixpoint first_of (k : string) (ds : list config) : option value :=
  match ds with
  | [] => None
  | d :: ds' => match d !! k with Some x => Some x | None => first_of k ds' end
  end.

Definition keys_error : exn :=
  ValueError "All keys for the graph dictionary have to be of type int".
Definition edges_error : exn :=
  ValueError "Invalid Edge definition for EdgeVertexGraph. Use int or [int,dict].".

(** *** Classes *)

(* classes that keep what they were called with: a vertex its keyword
   arguments and the sum of its shifts, an edge its two points and its
   keyword arguments; they never raise *)
Record vertex_shape : Type := mkVertex { vertex_config_used : config; position : vec3 }.
Record edge_shape : Type := mkEdge { edge_start : vec3; edge_end : vec3; edge_config_used : config }.

Definition recording_vertex (kwargs : config) : result vertex_shape :=
  Ok (mkVertex kwargs ORIGIN).
Definition recording_shift (v : vertex_shape) (vector : vec3) : result vertex_shape :=
  Ok (mkVertex (vertex_config_used v) (vadd (position v) vector)).
Definition recording_edge (start end_ : vec3) (kwargs : config) : result edge_shape :=
  Ok (mkEdge start end_ kwargs).

(* a number of a dictionary, where arithmetic asks for one *)
Definition number (x : value) : result R :=
  match x with Num r => Ok r | Str _ => Err TypeError end.

(* the object that a constructor leaves, or the exception it raises *)
Definition constructed {S : Type} (o : outcome S unit) : result S :=
  match o with Return _ s => Ok s | Throw e _ => Err e end.

Section Defaults.
Context `{Collaborator}.

(* the default edge_type, [ArcBetweenPoints(start, end, **kwargs)], for a
   dictionary that holds no other keywords than angle and radius; a
   radius makes the constructor replace the angle before it reads it *)
Definition ArcBetweenPoints_class (start end_ : vec3) (kwargs : config)
    : result Arc.state :=
  match kwargs !! "radius"%string with
  | Some x =>
      match number x with
      | Err e => Err e
      | Ok radius =>
          constructed (ArcBetweenPoints.__init__ start end_ 0 (Some radius)
                         ArcBetweenPoints.no_kwargs Arc.fresh)
      end
  | None =>
      match (match kwargs !! "angle"%string with
             | Some x => number x
             | None => Ok (TAU / 4)
             end) with
      | Err e => Err e
      | Ok angle =>
          constructed (ArcBetweenPoints.__init__ start end_ angle None
                         ArcBetweenPoints.no_kwargs Arc.fresh)
      end
  end.

(* the default vertex_type, [Circle( **kwargs)], for a dictionary that
   holds no other keywords than angle, start_angle and radius:
   Circle.__init__ calls [Arc.__init__(self, 0, TAU, **kwargs)], which
   gets a second value for its first two parameters from the keywords
   start_angle and angle *)
Definition Circle_class (kwargs : config) : result Arc.state :=
  match kwargs !! "start_angle"%string, kwargs !! "angle"%string with
  | None, None =>
      match (match kwargs !! "radius"%string with
             | Some x => match number x with Ok r => Ok (Some r) | Err e => Err e end
             | None => Ok None
             end) with
      | Err e => Err e
      | Ok radius => constructed (Arc.__init__ 0 TAU (Arc.mkKw radius None None) Arc.fresh)
      end
  | _, _ => Err TypeError
  end.

(* Mobject.shift on an Arc *)
Definition Arc_shift (s : Arc.state) (vector : vec3) : result Arc.state :=
  constructed (Arc.shift_by vector s).

End Defaults.

(* the graph of the docstring with each edge declared once, from the lower
   to the higher id, and with each edge declared in both directions *)
Definition triangle_once : graph :=
  [ (IntKey 0, mkAttr (V3 0 0 0) [EdgeInt 1; EdgeInt 2] ∅);
    (IntKey 1, mkAttr (V3 1 0 0) [EdgeInt 2] ∅);
    (IntKey 2, mkAttr (V3 0 1 0) [] ∅) ].
Definition triangle_twice : graph :=
  [ (IntKey 0, mkAttr (V3 0 0 0) [EdgeInt 1; EdgeInt 2] ∅);
    (IntKey 1, mkAttr (V3 1 0 0) [EdgeInt 0; EdgeInt 2] ∅);
    (IntKey 2, mkAttr (V3 0 1 0) [EdgeInt 0; EdgeInt 1] ∅) ].

(* two vertices 1 apart, and an edge between them with the override
   radius 0.1 *)
Definition short_radius : graph :=
  [ (IntKey 0, mkAttr (V3 0 0 0)
                 [EdgeList [ItemInt 1; ItemDict {[ "radius"%string := Num 0.1 ]}]] ∅);
    (IntKey 1, mkAttr (V3 1 0 0) [] ∅) ].

End EdgeVertexGraph.

(** ** A collaborator for straight paths

    The properties below hold for every [Collaborator].  Where one of them
    is evaluated at a concrete input, this instance stands in: it reads a
    path as the polyline through its control points. *)

(* np.angle of x + iy *)
Definition polar_angle (v : vec3) : R :=
  if Rlt_dec 0 (vx v) then atan (vy v / vx v)
  else if Rlt_dec (vx v) 0 then
    (if Rlt_dec (vy v) 0 then atan (vy v / vx v) - PI else atan (vy v / vx v) + PI)
  else if Rlt_dec 0 (vy v) then PI / 2
  else if Rlt_dec (vy v) 0 then - (PI / 2)
  else 0.

Fixpoint polyline_length (ps : path) : R :=
  match ps with
  | p :: (q :: _) as rest => norm (vsub q p) + polyline_length rest
  | _ => 0
  end.

Definition chord_point (ps : path) (alpha : R) : vec3 :=
  match ps, last ps with
  | p :: _, Some q => interpolate p q alpha
  | _, _ => ORIGIN
  end.

Definition straight_collaborator : Collaborator := {|
  angle_of_vector := polar_angle;
  angle_between_vectors := fun v w => Rabs (polar_angle w - polar_angle v);
  get_arc_length := polyline_length;
  point_from_proportion := chord_point;
  pointwise_become_partial := fun ps a b =>
    set_points_as_corners [chord_point ps a; chord_point ps b];
  insert_n_curves := fun _ ps => ps;
  get_center := fun ps => chord_point ps (1 / 2);
  set_width := fun _ ps => ps;
  set_height_stretch := fun _ ps => ps
|}.
(** * Properties *)

(** ** Vectors, lists and the method monad *)

Lemma vec3_eq (p q : vec3) : vx p = vx q -> vy p = vy q -> vz p = vz q -> p = q.
Proof. destruct p, q; simpl; intros -> -> ->; reflexivity. Qed.

Ltac vec := apply vec3_eq; simpl; try ring; try lra.

Lemma norm_zero : norm ORIGIN = 0.
Proof. unfold norm; simpl. replace (0 * 0 + 0 * 0 + 0 * 0) with 0 by ring. apply sqrt_0. Qed.

Lemma norm_nonneg p : 0 <= norm p.
Proof. apply sqrt_pos. Qed.

Lemma vsub_diag p : vsub p p = ORIGIN.
Proof. unfold ORIGIN; vec. Qed.

Lemma norm_x (x : R) : 0 <= x -> norm (V3 x 0 0) = x.
Proof.
  intros Hx. unfold norm. simpl.
  replace (x * x + 0 * 0 + 0 * 0) with (x * x) by ring. apply sqrt_square. exact Hx.
Qed.

Lemma norm_LEFT_RIGHT : norm (vsub LEFT RIGHT) = 2.
Proof.
  unfold norm. simpl.
  replace ((-1 - 1) * (-1 - 1) + (0 - 0) * (0 - 0) + (0 - 0) * (0 - 0)) with (2 * 2) by ring.
  apply sqrt_square. lra.
Qed.

Lemma norm_vsub_nonzero p q : norm (vsub p q) <> 0 -> p <> q.
Proof. intros Hn ->. apply Hn. rewrite vsub_diag. apply norm_zero. Qed.

Lemma vec3_eqb_false p q : vx p <> vx q -> vec3_eqb p q = false.
Proof.
  intros Hne. unfold vec3_eqb. destruct (Req_dec_T (vx p) (vx q)); [contradiction|reflexivity].
Qed.

Lemma vec3_eqb_true p q : vec3_eqb p q = true -> p = q.
Proof.
  unfold vec3_eqb. intros E.
  repeat match type of E with (if ?d then _ else _) = true => destruct d; [|discriminate] end.
  apply vec3_eq; assumption.
Qed.

Lemma sign_0 : sign 0 = 0.
Proof. unfold sign. destruct (Rlt_dec 0 0); [lra|reflexivity]. Qed.

Lemma Req_dec_T_refl {A} (x : R) (a b : A) : (if Req_dec_T x x then a else b) = a.
Proof. destruct (Req_dec_T x x); [reflexivity|contradiction]. Qed.

Lemma py_div_ok x y : y <> 0 -> py_div x y = Ok (x / y).
Proof. intros Hy. unfold py_div. destruct (Req_dec_T y 0); [contradiction|reflexivity]. Qed.

Lemma py_div_benign x y e : py_div x y = Err e -> benign e.
Proof. unfold py_div. destruct (Req_dec_T y 0); [intros [= <-]; exact I|discriminate]. Qed.

Lemma INR_minus_one_neq_0 n : (2 <= n)%nat -> INR n - 1 <> 0.
Proof.
  intros Hn. assert (2 <= INR n) by (apply (le_INR 2); exact Hn). lra.
Qed.

Lemma lookup_map {A B} (f : A -> B) (l : list A) (i : nat) :
  map f l !! i = option_map f (l !! i).
Proof.
  revert i. induction l as [|x l IH]; intros [|i]; simpl; try reflexivity. apply IH.
Qed.

Lemma removelast_lookup {A} (l : list A) (i : nat) :
  (S i < length l)%nat -> removelast l !! i = l !! i.
Proof.
  intros Hi. rewrite removelast_firstn_len.
  apply lookup_take_lt. lia.
Qed.

Lemma removelast_length {A} (l : list A) : length (removelast l) = (length l - 1)%nat.
Proof. rewrite removelast_firstn_len, length_take. lia. Qed.

Lemma length_tail {A} (l : list A) : length (tail l) = (length l - 1)%nat.
Proof. destruct l; simpl; lia. Qed.

Lemma saah_length (a1 h1 h2 a2 : list vec3) :
  length h1 = length a1 -> length h2 = length a1 -> length a2 = length a1 ->
  length (set_anchors_and_handles a1 h1 h2 a2) = (4 * length a1)%nat.
Proof.
  revert h1 h2 a2.
  induction a1 as [|a a1 IH]; intros [|h h1] [|k h2] [|b a2]; simpl; try lia.
  intros ? ? ?. rewrite IH; lia.
Qed.

Lemma saah_lookup (a1 h1 h2 a2 : list vec3) (i : nat) :
  length h1 = length a1 -> length h2 = length a1 -> length a2 = length a1 ->
  set_anchors_and_handles a1 h1 h2 a2 !! (4 * i)%nat = a1 !! i /\
  set_anchors_and_handles a1 h1 h2 a2 !! (4 * i + 3)%nat = a2 !! i.
Proof.
  revert h1 h2 a2 i.
  induction a1 as [|a a1 IH]; intros [|h h1] [|k h2] [|b a2] i;
    cbn [length set_anchors_and_handles]; try lia.
  - intros _ _ _. split; reflexivity.
  - intros ? ? ?. destruct i as [|i].
    + split; reflexivity.
    + replace (4 * S i)%nat with (4 + 4 * i)%nat by lia.
      replace (4 + 4 * i + 3)%nat with (4 + (4 * i + 3))%nat by lia.
      change ((a :: h :: k :: b :: set_anchors_and_handles a1 h1 h2 a2) !! (4 + 4 * i)%nat)
        with (set_anchors_and_handles a1 h1 h2 a2 !! (4 * i)%nat).
      change ((a :: h :: k :: b :: set_anchors_and_handles a1 h1 h2 a2) !! (4 + (4 * i + 3))%nat)
        with (set_anchors_and_handles a1 h1 h2 a2 !! (4 * i + 3)%nat).
      change ((a :: a1) !! S i) with (a1 !! i).
      change ((b :: a2) !! S i) with (a2 !! i).
      apply IH; lia.
Qed.

Lemma linspace_length s e n : length (linspace s e n) = n.
Proof. unfold linspace. rewrite length_map, length_seq. reflexivity. Qed.

Lemma linspace_lookup s e n i :
  (i < n)%nat -> (2 <= n)%nat ->
  linspace s e n !! i = Some (s + INR i * ((e - s) / (INR n - 1))).
Proof.
  intros Hi Hn. unfold linspace. rewrite lookup_map, lookup_seq_lt by lia.
  simpl. f_equal.
  assert (Hn1 : INR (n - 1) = INR n - 1).
  { rewrite minus_INR by lia. simpl. ring. }
  assert (Hpos : INR n - 1 <> 0).
  { rewrite <- Hn1. apply not_0_INR. lia. }
  destruct (1 <? n)%nat eqn:E1; [|apply Nat.ltb_ge in E1; lia].
  destruct (i =? n - 1)%nat eqn:E2; simpl.
  - apply Nat.eqb_eq in E2. subst i. rewrite Hn1. field. exact Hpos.
  - rewrite Hn1. ring.
Qed.

Lemma corners_LEFT_RIGHT :
  set_points_as_corners [LEFT; RIGHT] =
    [LEFT; interpolate LEFT RIGHT (1 / 3); interpolate LEFT RIGHT (2 / 3); RIGHT].
Proof. reflexivity. Qed.

Lemma rotate_about_0 (about : vec3) (ps : path) : rotate_about 0 about ps = ps.
Proof.
  unfold rotate_about. induction ps as [|p ps IH]; [reflexivity|].
  simpl. rewrite IH. f_equal. unfold rotate_vector. rewrite cos_0, sin_0. vec.
Qed.

Lemma scale_about_1 (about : vec3) (ps : path) : scale_about 1 about ps = ps.
Proof.
  unfold scale_about. induction ps as [|p ps IH]; [reflexivity|].
  simpl. rewrite IH. f_equal. vec.
Qed.

Lemma shift_ORIGIN (ps : path) : shift ORIGIN ps = ps.
Proof.
  unfold shift. induction ps as [|p ps IH]; [reflexivity|].
  simpl. rewrite IH. f_equal. vec.
Qed.

Lemma bind_return {S A B} (m : M S A) (k : A -> M S B) (s s' : S) (a : A) :
  m s = Return a s' -> bind m k s = k a s'.
Proof. intros E. unfold bind. rewrite E. reflexivity. Qed.

Lemma bind_throw {S A B} (m : M S A) (k : A -> M S B) (s s' : S) (e : exn) :
  m s = Throw e s' -> bind m k s = Throw e s'.
Proof. intros E. unfold bind. rewrite E. reflexivity. Qed.

Section Preserves.
Context {S : Type} (R : S -> S -> Prop) (E : exn -> Prop).
Context (R_refl : forall s, R s s) (R_trans : forall s t u, R s t -> R t u -> R s u).

Lemma preserves_ret {A} (a : A) : preserves R E (ret a).
Proof using R_refl. intros s. split; [apply R_refl|discriminate]. Qed.

Lemma preserves_get : preserves R E get.
Proof using R_refl. intros s. split; [apply R_refl|discriminate]. Qed.

Lemma preserves_raise {A} (e : exn) : E e -> preserves R E (@raise S A e).
Proof using R_refl. intros He s. split; [apply R_refl|]. intros e' [= <-]. exact He. Qed.

Lemma preserves_lift {A} (r : result A) :
  (forall e, r = Err e -> E e) -> preserves R E (@lift S A r).
Proof using R_refl.
  intros Hr s. unfold lift. destruct r; (split; [apply R_refl|]); [discriminate|].
  intros e' [= <-]. apply Hr. reflexivity.
Qed.

Lemma preserves_modify (f : S -> S) : (forall s, R s (f s)) -> preserves R E (modify f).
Proof. intros Hf s. split; [apply Hf|discriminate]. Qed.

Lemma preserves_bind {A B} (m : M S A) (k : A -> M S B) :
  preserves R E m -> (forall a, preserves R E (k a)) -> preserves R E (bind m k).
Proof using R_trans.
  intros Hm Hk s. unfold bind. destruct (Hm s) as [H1 H2].
  destruct (m s) as [a s'|e s'] eqn:Em; simpl in *.
  - destruct (Hk a s') as [H3 H4]. split; [eapply R_trans; eassumption|exact H4].
  - split; [exact H1|exact H2].
Qed.

End Preserves.

Section Total.
Context {S : Type}.

Lemma total_ret {A} (P : S -> Prop) (a : A) (Q : A -> S -> Prop) :
  (forall s, P s -> Q a s) -> total P (ret a) Q.
Proof. intros HQ s Hs. exists a, s. split; [reflexivity|auto]. Qed.

Lemma total_bind {A B} (P : S -> Prop) (m : M S A) (R : A -> S -> Prop)
    (k : A -> M S B) (Q : B -> S -> Prop) :
  total P m R -> (forall a, total (R a) (k a) Q) -> total P (bind m k) Q.
Proof.
  intros Hm Hk s Hs. destruct (Hm s Hs) as (a & s1 & E1 & H1).
  destruct (Hk a s1 H1) as (b & s2 & E2 & H2).
  exists b, s2. split; [|exact H2]. erewrite bind_return by exact E1. exact E2.
Qed.

(* sequencing under an invariant *)
Lemma total_step {A B} (I : S -> Prop) (m : M S A) (k : A -> M S B) (Q : B -> S -> Prop) :
  total I m (fun _ s => I s) -> (forall a, total I (k a) Q) -> total I (bind m k) Q.
Proof. intros Hm Hk. eapply total_bind; [exact Hm|exact Hk]. Qed.

End Total.

(** ** Arc: tessellation *)

Module ArcProperties.
Import Arc.

Lemma generate_points_eq (s : state) (r : R) :
  (2 <= num_components (self s))%nat ->
  radius (self s) = Fin r ->
  exists ps,
    generate_points s =
      Return tt (mkState (mk (start_angle (self s)) (angle (self s)) (Fin r)
                             (num_components (self s)) (arc_center (self s))
                             (_failed_to_get_center (self s)) ps) (warnings s)) /\
    length ps = (4 * (num_components (self s) - 1))%nat /\
    forall i, (i < num_components (self s) - 1)%nat ->
      ps !! (4 * i)%nat =
        Some (circle_point (arc_center (self s)) r
                (start_angle (self s) + INR i * (angle (self s) / (INR (num_components (self s)) - 1)))) /\
      ps !! (4 * i + 3)%nat =
        Some (circle_point (arc_center (self s)) r
                (start_angle (self s) + INR (S i) * (angle (self s) / (INR (num_components (self s)) - 1)))).
Proof.
  destruct s as [[a0 th rad N c fl pts] w].
  cbv [self radius num_components start_angle angle arc_center _failed_to_get_center warnings points].
  intros HN ->.
  destruct N as [|N']; [lia|].
  cbv [generate_points set_pre_positioned_points bind get lift set_points on_self modify
       scale shift_by self radius num_components start_angle angle arc_center
       _failed_to_get_center warnings points].
  rewrite py_div_ok by (apply INR_minus_one_neq_0; lia).
  eexists. split; [reflexivity|].
  set (N := S N') in *.
  set (anchors := map _ (linspace a0 (a0 + th) N)).
  assert (Hlen : length anchors = N).
  { unfold anchors. rewrite length_map. apply linspace_length. }
  assert (Hl1 : length (removelast anchors) = (N - 1)%nat).
  { rewrite removelast_length. lia. }
  assert (Hl2 : length (tail anchors) = (N - 1)%nat).
  { rewrite length_tail. lia. }
  split.
  - unfold shift, scale_about. rewrite !length_map, saah_length.
    + lia.
    + rewrite length_zip_with, removelast_length, removelast_length, !length_map. lia.
    + rewrite length_zip_with, !length_tail, !length_map. lia.
    + lia.
  - intros i Hi.
    unfold shift, scale_about. rewrite !lookup_map.
    match goal with |- context [set_anchors_and_handles ?a ?b ?c ?d] =>
      destruct (saah_lookup a b c d i) as [E1 E2] end.
    + rewrite length_zip_with, removelast_length, removelast_length, !length_map. lia.
    + rewrite length_zip_with, !length_tail, !length_map, removelast_length. lia.
    + lia.
    + rewrite E1, E2.
      rewrite removelast_lookup by lia.
      rewrite lookup_tail.
      unfold anchors. rewrite !lookup_map.
      rewrite !linspace_lookup by lia.
      replace (a0 + th - a0) with th by ring.
      cbn [option_map].
      split; f_equal; apply vec3_eq;
        cbn [circle_point vadd smul vsub vx vy vz RIGHT UP ORIGIN]; ring.
Qed.

Lemma arc_init_points (a theta r : R) (c : vec3) (N : nat) :
  (2 <= N)%nat ->
  exists s,
    Arc.__init__ a theta (Arc.mkKw (Some r) (Some N) (Some c)) Arc.fresh = Return tt s /\
    length (points (self s)) = (4 * (N - 1))%nat /\
    forall i, (i < N - 1)%nat ->
      points (self s) !! (4 * i)%nat =
        Some (circle_point c r (a + INR i * (theta / (INR N - 1)))) /\
      points (self s) !! (4 * i + 3)%nat =
        Some (circle_point c r (a + INR (S i) * (theta / (INR N - 1)))).
Proof.
  intros HN.
  cbv [Arc.__init__ bind set_angles set_failed digest_config set_points on_self modify fresh
       self warnings start_angle angle radius num_components arc_center
       _failed_to_get_center points kw_radius kw_num_components kw_arc_center
       from_option default].
  match goal with |- context [generate_points ?s] =>
    destruct (generate_points_eq s r) as (ps & E & Hlen & Hps) end; [exact HN|reflexivity|].
  cbv [self warnings start_angle angle radius num_components arc_center
       _failed_to_get_center points] in E, Hlen, Hps.
  unfold Datatypes.id in *.
  rewrite E. eexists. split; [reflexivity|]. cbv [self points]. split; assumption.
Qed.

(** C5: an Arc with start angle [a], sweep [theta], radius [r], centre [c]
    and [N >= 2] components is built, and its path has [N - 1] cubic
    curves; the curve [i] runs from the circle point at angle
    [a + i * theta / (N - 1)] to the one at [a + (i + 1) * theta / (N - 1)],
    so the anchors are uniform in angle; the first anchor is the circle
    point at [a] and the last one the circle point at [a + theta]. *)
Theorem arc_tessellation (a theta r : R) (c : vec3) (N : nat) :
  (2 <= N)%nat ->
  exists s,
    Arc.__init__ a theta (Arc.mkKw (Some r) (Some N) (Some c)) Arc.fresh = Return tt s /\
    let ps := points (self s) in
    get_num_curves ps = (Z.of_nat N - 1)%Z /\
    (forall i, (i < N - 1)%nat ->
       ps !! (4 * i)%nat = Some (circle_point c r (a + INR i * (theta / (INR N - 1)))) /\
       ps !! (4 * i + 3)%nat = Some (circle_point c r (a + INR (S i) * (theta / (INR N - 1))))) /\
    head ps = Some (circle_point c r a) /\
    last ps = Some (circle_point c r (a + theta)).
Proof.
  intros HN. destruct (arc_init_points a theta r c N HN) as (s & E & Hlen & Hps).
  exists s. split; [exact E|]. cbv zeta.
  assert (HNR : INR N - 1 <> 0) by (apply INR_minus_one_neq_0; lia).
  split; [|split; [|split]].
  - unfold get_num_curves. rewrite Hlen.
    replace (Z.of_nat (4 * (N - 1))) with ((Z.of_nat N - 1) * 4)%Z by lia.
    apply Z.div_mul. lia.
  - exact Hps.
  - rewrite head_lookup. destruct (Hps 0%nat) as [E0 _]; [lia|].
    change (4 * 0)%nat with 0%nat in E0. rewrite E0. f_equal. f_equal. simpl. ring.
  - rewrite last_lookup, Hlen. destruct (Hps (N - 2)%nat) as [_ E3]; [lia|].
    replace (pred (4 * (N - 1))) with (4 * (N - 2) + 3)%nat by lia.
    rewrite E3. f_equal. f_equal.
    replace (S (N - 2)) with (N - 1)%nat by lia.
    rewrite minus_INR by lia. simpl. field. exact HNR.
Qed.

Lemma arc_tessellation_witness :
  (2 <= 9)%nat /\
  exists s,
    Arc.__init__ 0 (TAU / 4) (Arc.mkKw (Some 1) (Some 9%nat) (Some ORIGIN)) Arc.fresh = Return tt s /\
    last (points (self s)) = Some (circle_point ORIGIN 1 (0 + TAU / 4)).
Proof.
  split; [lia|].
  destruct (arc_tessellation 0 (TAU / 4) 1 ORIGIN 9) as (s & E & _ & _ & _ & L); [lia|].
  exists s. split; [exact E|exact L].
Defined.

(** ** ArcBetweenPoints: what the constructor leaves alone *)

Lemma keeps_attributes_refl s : keeps_attributes s s.
Proof. repeat split. Qed.

Lemma keeps_attributes_trans s t u :
  keeps_attributes s t -> keeps_attributes t u -> keeps_attributes s u.
Proof. unfold keeps_attributes. intros. intuition congruence. Qed.

Ltac frame :=
  repeat first
    [ apply preserves_ret; [apply keeps_attributes_refl]
    | apply preserves_get; [apply keeps_attributes_refl]
    | apply preserves_modify; intros []; repeat split
    | apply preserves_raise; [apply keeps_attributes_refl | exact I]
    | apply preserves_bind; [apply keeps_attributes_trans | | intros ?] ].

Lemma set_points_frame ps : preserves keeps_attributes benign (set_points ps).
Proof. unfold set_points, on_self. frame. Qed.

Lemma generate_points_frame : preserves keeps_attributes benign generate_points.
Proof.
  unfold generate_points, set_pre_positioned_points, scale, shift_by.
  frame.
  - destruct (num_components (self a)); frame.
    all: try (apply preserves_lift; [apply keeps_attributes_refl|apply py_div_benign]).
    all: try apply set_points_frame.
  - destruct (radius (self a0)); frame. all: try apply set_points_frame.
Qed.

Lemma endpoints_map_benign `{Collaborator} start end_ cs ce e :
  endpoints_map start end_ cs ce = Err e -> benign e.
Proof.
  unfold endpoints_map. destruct (vec3_eqb _ _); [intros [= <-]; exact I|discriminate].
Qed.

Section Constructor.
Context `{Collaborator}.

Lemma put_start_and_end_on_frame (start end_ : vec3) :
  preserves keeps_attributes benign (put_start_and_end_on start end_).
Proof.
  unfold put_start_and_end_on. frame.
  - apply preserves_lift; [apply keeps_attributes_refl|].
    intros e. unfold VMobject_get_start. destruct (points _); [intros [= <-]; exact I|discriminate].
  - apply preserves_lift; [apply keeps_attributes_refl|].
    intros e. unfold VMobject_get_end. destruct (last _); [discriminate|intros [= <-]; exact I].
  - apply preserves_lift; [apply keeps_attributes_refl|]. apply endpoints_map_benign.
Qed.

Lemma arc_init_frame (a theta : R) (kw : kwargs) (s : state) :
  angle (self (final_state (Arc.__init__ a theta kw s))) = theta /\
  warnings (final_state (Arc.__init__ a theta kw s)) = warnings s /\
  _failed_to_get_center (self (final_state (Arc.__init__ a theta kw s))) = false /\
  (forall e, raised (Arc.__init__ a theta kw s) = Some e -> benign e).
Proof.
  set (s1 := final_state ((set_angles a theta;;; set_failed false;;; digest_config kw;;;
                           set_points [])%py s)).
  assert (Ha : angle (self s1) = theta /\ warnings s1 = warnings s /\
               _failed_to_get_center (self s1) = false) by (repeat split).
  destruct (generate_points_frame s1) as [Hk He].
  replace (Arc.__init__ a theta kw s) with (generate_points s1) by reflexivity.
  destruct Hk as (_ & Hang & _ & _ & _ & Hf & Hw).
  destruct Ha as (Ha & Hw' & Hf'). repeat split; [congruence|congruence|congruence|exact He].
Qed.

Lemma angle_from_radius_spec (start end_ : vec3) (r : R) (s : state) :
  let h := norm (vsub start end_) / 2 in
  let s1 := final_state (set_radius (Fin r) s) in
  (Rabs r < h ->
     ArcBetweenPoints.angle_from_radius start end_ r s =
       Throw ArcBetweenPoints.invalid_radius s1) /\
  (~ Rabs r < h -> r = 0 ->
     ArcBetweenPoints.angle_from_radius start end_ r s = Throw ZeroDivisionError s1) /\
  (~ Rabs r < h -> r <> 0 ->
     ArcBetweenPoints.angle_from_radius start end_ r s =
       Return (ArcBetweenPoints.derived_angle start end_ r) s1).
Proof.
  intros h s1.
  assert (Habs : Rabs r = if Rlt_dec r 0 then r * -1 else r).
  { unfold Rabs. destruct (Rcase_abs r), (Rlt_dec r 0); lra. }
  unfold ArcBetweenPoints.angle_from_radius, ArcBetweenPoints.derived_angle.
  cbv [bind set_radius on_self modify]. fold h.
  repeat split.
  - intros Hlt. destruct (Rlt_dec r 0); rewrite Habs in Hlt;
      (destruct (Rlt_dec _ h); [reflexivity|contradiction]).
  - intros Hge ->. destruct (Rlt_dec 0 0); [lra|].
    rewrite Habs in Hge. destruct (Rlt_dec 0 0); [lra|].
    destruct (Rlt_dec 0 h); [contradiction|].
    cbv [lift py_div]. destruct (Req_dec_T 0 0); [reflexivity|lra].
  - intros Hge Hr. rewrite Habs in *.
    destruct (Rlt_dec r 0).
    + destruct (Rlt_dec (r * -1) h); [contradiction|].
      cbv [lift]. rewrite py_div_ok by lra. reflexivity.
    + destruct (Rlt_dec r h); [contradiction|].
      cbv [lift]. rewrite py_div_ok by lra. reflexivity.
Qed.

Lemma init_with_radius (start end_ : vec3) (a r : R) (kw : ArcBetweenPoints.kwargs) :
  let h := norm (vsub start end_) / 2 in
  let o := ArcBetweenPoints.__init__ start end_ a (Some r) kw fresh in
  (Rabs r < h ->
     o = Throw ArcBetweenPoints.invalid_radius (final_state (set_radius (Fin r) fresh))) /\
  (~ Rabs r < h -> raised o <> Some ArcBetweenPoints.invalid_radius) /\
  (~ Rabs r < h -> r <> 0 ->
     angle (self (final_state o)) = ArcBetweenPoints.derived_angle start end_ r).
Proof.
  intros h o.
  destruct (angle_from_radius_spec start end_ r fresh) as (H1 & H2 & H3).
  fold h in H1, H2, H3. subst o. unfold ArcBetweenPoints.__init__.
  split; [|split].
  - intros Hlt. unfold bind at 1. rewrite (H1 Hlt). reflexivity.
  - intros Hge. unfold bind at 1.
    destruct (Req_dec_T r 0) as [Hr|Hr].
    + rewrite (H2 Hge Hr). discriminate.
    + rewrite (H3 Hge Hr).
      set (s1 := final_state (set_radius (Fin r) fresh)).
      set (ang := ArcBetweenPoints.derived_angle start end_ r).
      assert (Hp : preserves (fun _ _ => True) benign
                (Arc.__init__ (default 0 (ArcBetweenPoints.kw_start_angle kw)) ang
                   (Arc.mkKw None (ArcBetweenPoints.kw_num_components kw)
                      (ArcBetweenPoints.kw_arc_center kw));;;
                 (if Req_dec_T ang 0 then set_points (set_points_as_corners [LEFT; RIGHT])
                  else ret tt);;;
                 put_start_and_end_on start end_;;; ret tt)%py).
      { apply preserves_bind; [auto| |intros ?].
        { intros s. split; [exact I|]. apply (arc_init_frame _ _ _ s). }
        apply preserves_bind; [auto| |intros ?].
        { destruct (Req_dec_T ang 0).
          - intros s. split; [exact I|discriminate].
          - apply preserves_ret. auto. }
        apply preserves_bind; [auto| |intros ?].
        { intros s. split; [exact I|]. apply (proj2 (put_start_and_end_on_frame _ _ s)). }
        apply preserves_ret. auto. }
      destruct (Hp s1) as [_ He]. intros Hraised. apply He in Hraised. exact Hraised.
  - intros Hge Hr. unfold bind at 1. rewrite (H3 Hge Hr).
    set (s1 := final_state (set_radius (Fin r) fresh)).
    set (ang := ArcBetweenPoints.derived_angle start end_ r).
    unfold bind at 1.
    destruct (arc_init_frame (default 0 (ArcBetweenPoints.kw_start_angle kw)) ang
                (Arc.mkKw None (ArcBetweenPoints.kw_num_components kw)
                   (ArcBetweenPoints.kw_arc_center kw)) s1) as (Ha & _ & _).
    destruct (Arc.__init__ _ _ _ s1) as [[] s2|e s2]; [|exact Ha].
    simpl in Ha.
    assert (Hk : preserves keeps_attributes benign
              ((if Req_dec_T ang 0 then set_points (set_points_as_corners [LEFT; RIGHT])
                else ret tt);;;
               put_start_and_end_on start end_;;; ret tt)%py).
    { apply preserves_bind; [apply keeps_attributes_trans| |intros ?].
      - destruct (Req_dec_T ang 0); [apply set_points_frame|].
        apply preserves_ret. apply keeps_attributes_refl.
      - apply preserves_bind; [apply keeps_attributes_trans| |intros ?].
        + apply put_start_and_end_on_frame.
        + apply preserves_ret. apply keeps_attributes_refl. }
    destruct (Hk s2) as [(_ & Hang & _) _]. exact (eq_trans Hang Ha).
Qed.

(** C1 (as amended): ArcBetweenPoints(start, end, radius=r) fails with the
    invalid-radius error exactly when the absolute value of [r] is smaller
    than half the distance between [start] and [end]; the error is raised
    before [Arc.__init__] runs, so the object has no points then;
    otherwise, for [r <> 0], the sweep angle is
    [sign * acos ((|r| - arc_height) / |r|)] with
    [arc_height = |r| - sqrt (|r|^2 - halfdist^2)] and [sign] 2 for
    [r >= 0], -2 for [r < 0]. *)
Theorem invalid_radius_iff (start end_ : vec3) (a r : R) (kw : ArcBetweenPoints.kwargs) :
  let halfdist := norm (vsub start end_) / 2 in
  let o := ArcBetweenPoints.__init__ start end_ a (Some r) kw fresh in
  (raised o = Some ArcBetweenPoints.invalid_radius <-> Rabs r < halfdist) /\
  (raised o = Some ArcBetweenPoints.invalid_radius -> points (self (final_state o)) = []) /\
  (~ Rabs r < halfdist -> r <> 0 ->
     angle (self (final_state o)) = ArcBetweenPoints.derived_angle start end_ r).
Proof.
  intros h o. destruct (init_with_radius start end_ a r kw) as (H1 & H2 & H3).
  fold h in H1, H2, H3. fold o in H1, H2, H3.
  split; [|split].
  - split.
    + intros Hr. destruct (Rlt_dec (Rabs r) h) as [Hlt|Hge]; [exact Hlt|].
      exfalso. exact (H2 Hge Hr).
    + intros Hlt. rewrite (H1 Hlt). reflexivity.
  - intros Hr. destruct (Rlt_dec (Rabs r) h) as [Hlt|Hge].
    + rewrite (H1 Hlt). reflexivity.
    + exfalso. exact (H2 Hge Hr).
  - exact H3.
Qed.

End Constructor.

Lemma invalid_radius_iff_witness :
  ~ Rabs 2 < norm (vsub LEFT RIGHT) / 2 /\ 2 <> 0 /\
  angle (self (final_state
    (ArcBetweenPoints.__init__ (H := straight_collaborator) LEFT RIGHT (TAU / 4) (Some 2)
       ArcBetweenPoints.no_kwargs fresh))) =
  ArcBetweenPoints.derived_angle LEFT RIGHT 2.
Proof.
  assert (Hge : ~ Rabs 2 < norm (vsub LEFT RIGHT) / 2).
  { rewrite norm_LEFT_RIGHT, Rabs_pos_eq by lra. lra. }
  assert (Hne : 2 <> 0) by lra.
  split; [exact Hge|]. split; [exact Hne|].
  exact (proj2 (proj2 (invalid_radius_iff (H := straight_collaborator) LEFT RIGHT (TAU / 4) 2
                         ArcBetweenPoints.no_kwargs)) Hge Hne).
Defined.

(* a negative radius: -2 is smaller than half the distance between LEFT
   and RIGHT, and the constructor does not raise the invalid-radius error *)
Lemma negative_radius_is_accepted :
  -2 < norm (vsub LEFT RIGHT) / 2 /\
  raised (ArcBetweenPoints.__init__ (H := straight_collaborator) LEFT RIGHT (TAU / 4)
            (Some (-2)) ArcBetweenPoints.no_kwargs fresh)
    <> Some ArcBetweenPoints.invalid_radius.
Proof.
  split; [rewrite norm_LEFT_RIGHT; lra|].
  apply (init_with_radius (H := straight_collaborator)).
  rewrite norm_LEFT_RIGHT, Rabs_left by lra. lra.
Qed.

(** ** Arc: the centre that cannot be found *)

Section Centre.
Context `{Collaborator}.

(* the determinant that line_intersection tests on the two normal lines *)
Lemma normal_lines_div (a1 h1 h2 a2 : vec3) :
  let '(l1, l2) := normal_lines a1 h1 h2 a2 in
  det2 (vx (fst l1) - vx (snd l1), vx (fst l2) - vx (snd l2))
       (vy (fst l1) - vy (snd l1), vy (fst l2) - vy (snd l2)) =
  vz (cross (rotate_vector (vsub h1 a1) (TAU / 4)) (rotate_vector (vsub h2 a2) (TAU / 4))).
Proof. unfold normal_lines, det2. simpl. ring. Qed.

Lemma line_intersection_normals (a1 h1 h2 a2 : vec3) :
  let '(l1, l2) := normal_lines a1 h1 h2 a2 in
  (normals_parallel a1 h1 h2 a2 ->
     line_intersection l1 l2 = Err (PyException "Lines do not intersect")) /\
  (~ normals_parallel a1 h1 h2 a2 -> exists c, line_intersection l1 l2 = Ok c).
Proof.
  pose proof (normal_lines_div a1 h1 h2 a2) as Hd.
  destruct (normal_lines a1 h1 h2 a2) as [l1 l2].
  unfold normals_parallel, line_intersection. rewrite Hd.
  split; intros Hp.
  - destruct (Req_dec_T _ 0); [reflexivity|contradiction].
  - destruct (Req_dec_T _ 0); [contradiction|]. eexists. reflexivity.
Qed.

Lemma get_arc_center_cases (warning : bool) (s : state) :
  match points (self s) with
  | a1 :: h1 :: h2 :: a2 :: _ =>
      let '(l1, l2) := normal_lines a1 h1 h2 a2 in
      match line_intersection l1 l2 with
      | Ok c => get_arc_center warning s = Return c s
      | Err _ => get_arc_center warning s = Return ORIGIN (failed_state warning s)
      end
  | _ => get_arc_center warning s = Throw (ValueError "not enough values to unpack") s
  end.
Proof.
  unfold get_arc_center, bind, get.
  destruct (points (self s)) as [|a1 [|h1 [|h2 [|a2 rest]]]] eqn:Ep; try reflexivity.
  destruct (normal_lines a1 h1 h2 a2) as [l1 l2].
  destruct (line_intersection l1 l2); [reflexivity|].
  unfold failed_state. destruct s as [o w].
  destruct warning; cbv [warn modify set_failed on_self ret self warnings].
  - reflexivity.
  - rewrite app_nil_r. reflexivity.
Qed.

Lemma get_arc_center_degenerate (warning : bool) (s : state) (a1 h1 h2 a2 : vec3) rest :
  points (self s) = a1 :: h1 :: h2 :: a2 :: rest ->
  normals_parallel a1 h1 h2 a2 ->
  get_arc_center warning s = Return ORIGIN (failed_state warning s).
Proof.
  intros Ep Hpar. pose proof (get_arc_center_cases warning s) as Hc.
  rewrite Ep in Hc. pose proof (line_intersection_normals a1 h1 h2 a2) as Hl.
  destruct (normal_lines a1 h1 h2 a2) as [l1 l2]. destruct Hl as [Hl _].
  rewrite (Hl Hpar) in Hc. exact Hc.
Qed.

Lemma init_without_radius (start end_ : vec3) (a : R) (kw : ArcBetweenPoints.kwargs)
    (s' : state) :
  ArcBetweenPoints.__init__ start end_ a None kw fresh = Return tt s' ->
  (radius (self s') = Inf <-> _failed_to_get_center (self s') = true) /\
  (_failed_to_get_center (self s') = false ->
     exists a1 h1 h2 a2 rest c,
       points (self s') = a1 :: h1 :: h2 :: a2 :: rest /\
       (let '(l1, l2) := normal_lines a1 h1 h2 a2 in line_intersection l1 l2 = Ok c) /\
       radius (self s') = Fin (norm (vsub start c))) /\
  warnings s' = [].
Proof.
  unfold ArcBetweenPoints.__init__.
  unfold bind at 1. unfold ret at 1.
  unfold bind at 1.
  destruct (arc_init_frame (default 0 (ArcBetweenPoints.kw_start_angle kw)) a
                (Arc.mkKw None (ArcBetweenPoints.kw_num_components kw)
                   (ArcBetweenPoints.kw_arc_center kw)) fresh) as (_ & Hw & Hflag & _).
  destruct (Arc.__init__ _ _ _ fresh) as [[] s2|e s2]; [|discriminate].
  simpl in Hflag, Hw.
  unfold bind at 1.
  assert (Hk2 : preserves keeps_attributes benign
            (if Req_dec_T a 0 then set_points (set_points_as_corners [LEFT; RIGHT])
             else ret tt)).
  { destruct (Req_dec_T a 0); [apply set_points_frame|].
    apply preserves_ret. apply keeps_attributes_refl. }
  destruct (Hk2 s2) as [(_ & _ & _ & _ & _ & Hf3 & Hw3) _].
  match goal with |- context [match ?m s2 with _ => _ end] =>
    destruct (m s2) as [[] s3|e s3]; [|discriminate] end.
  simpl in Hf3, Hw3.
  unfold bind at 1.
  destruct (put_start_and_end_on_frame start end_ s3) as [(_ & _ & _ & _ & _ & Hf4 & Hw4) _].
  destruct (put_start_and_end_on start end_ s3) as [[] s4|e s4]; [|discriminate].
  simpl in Hf4, Hw4.
  assert (Hf : _failed_to_get_center (self s4) = false) by congruence.
  assert (Hws : warnings s4 = []) by (rewrite Hw4, Hw3, Hw; reflexivity).
  unfold bind at 1.
  pose proof (get_arc_center_cases false s4) as Hc.
  destruct (points (self s4)) as [|a1 [|h1 [|h2 [|a2 rest]]]] eqn:Ep;
    try (rewrite Hc; discriminate).
  destruct (normal_lines a1 h1 h2 a2) as [l1 l2] eqn:En.
  destruct (line_intersection l1 l2) as [c|e] eqn:El; rewrite Hc.
  - unfold bind, get. rewrite Hf. cbv [negb].
    intros Heq. apply (f_equal final_state) in Heq. simpl in Heq. subst s'.
    cbn [self radius _failed_to_get_center points warnings]. rewrite Hf.
    split; [split; discriminate|]. split; [|exact Hws].
    intros _. exists a1, h1, h2, a2, rest, c. rewrite En. auto.
  - unfold bind, get. simpl.
    intros Heq. apply (f_equal final_state) in Heq. simpl in Heq. subst s'.
    cbn [self radius _failed_to_get_center points warnings]. rewrite app_nil_r.
    split; [split; reflexivity|]. split; [discriminate|exact Hws].
Qed.


Lemma put_LEFT_RIGHT_on_LEFT_RIGHT (s : state) :
  points (self s) = set_points_as_corners [LEFT; RIGHT] ->
  put_start_and_end_on LEFT RIGHT s = Return tt s.
Proof.
  intros Ep. unfold put_start_and_end_on.
  erewrite bind_return by reflexivity. rewrite Ep, corners_LEFT_RIGHT.
  erewrite bind_return by reflexivity.
  erewrite bind_return by reflexivity.
  assert (Hv : vsub RIGHT LEFT = V3 2 0 0) by vec.
  unfold endpoints_map. rewrite Hv, vec3_eqb_false by (simpl; lra).
  erewrite bind_return by reflexivity.
  rewrite norm_x by lra. replace (2 / 2) with 1 by lra.
  rewrite Rminus_diag. rewrite scale_about_1, rotate_about_0.
  rewrite vsub_diag, shift_ORIGIN.
  destruct s as [o w]. simpl in Ep. rewrite corners_LEFT_RIGHT in Ep.
  unfold set_points, on_self, modify. simpl. rewrite <- Ep. destruct o; reflexivity.
Qed.

Lemma straight_normals_parallel :
  normals_parallel LEFT (interpolate LEFT RIGHT (1 / 3)) (interpolate LEFT RIGHT (2 / 3)) RIGHT.
Proof. unfold normals_parallel. simpl. ring. Qed.

(* ArcBetweenPoints(LEFT, RIGHT, angle=0): a straight path, no centre *)
Lemma straight_arc_between_points :
  exists s,
    ArcBetweenPoints.__init__ LEFT RIGHT 0 None ArcBetweenPoints.no_kwargs fresh = Return tt s /\
    points (self s) = set_points_as_corners [LEFT; RIGHT] /\
    radius (self s) = Inf /\ _failed_to_get_center (self s) = true /\ warnings s = [].
Proof.
  destruct (arc_init_points 0 0 1 ORIGIN 9) as (s2 & E2 & _); [lia|].
  destruct (arc_init_frame 0 0 (Arc.mkKw (Some 1) (Some 9%nat) (Some ORIGIN)) fresh)
    as (_ & Hw & _).
  rewrite E2 in Hw. simpl in Hw.
  unfold ArcBetweenPoints.__init__.
  erewrite bind_return by reflexivity.
  erewrite bind_return by exact E2.
  rewrite Req_dec_T_refl.
  erewrite bind_return by reflexivity.
  erewrite bind_return.
  2:{ apply put_LEFT_RIGHT_on_LEFT_RIGHT. reflexivity. }
  erewrite bind_return.
  2:{ eapply (get_arc_center_degenerate false _ LEFT (interpolate LEFT RIGHT (1 / 3))
               (interpolate LEFT RIGHT (2 / 3)) RIGHT []); [reflexivity|].
      exact straight_normals_parallel. }
  erewrite bind_return by reflexivity.
  eexists. split; [reflexivity|].
  cbn. rewrite Hw. auto.
Qed.

End Centre.



End ArcProperties.

(** ** TipableVMobject and Line: readers *)

Module TipableProperties.
Import Tipable.

Create HintDb readers.

Ltac reads :=
  repeat first
    [ solve [auto with readers]
    | apply preserves_ret; reflexivity
    | apply preserves_get; reflexivity
    | apply preserves_raise; [reflexivity | exact I]
    | apply preserves_lift; [reflexivity | intros; exact I]
    | apply preserves_bind; [intros ? ? ?; apply eq_trans | | intros ?] ].

Lemma reader_state {A} (m : M world A) (w : world) :
  preserves eq any_exn m -> final_state (m w) = w.
Proof. intros Hm. destruct (Hm w) as [E _]. symmetry. exact E. Qed.

Lemma reader_returned {A} (m : M world A) (w : world) (a : A) :
  preserves eq any_exn m -> returned (m w) = Some a -> m w = Return a w.
Proof.
  intros Hm Ha. pose proof (reader_state m w Hm) as Hs.
  destruct (m w); simpl in *; congruence.
Qed.

Lemma points_of_reader i : preserves eq any_exn (points_of i).
Proof.
  intros w. unfold points_of. destruct (heap w !! i); (split; [reflexivity|intros; exact I]).
Qed.
#[local] Hint Resolve points_of_reader : readers.

Section Readers.
Context `{Collaborator}.

Lemma tip_get_start_reader i : preserves eq any_exn (tip_get_start i).
Proof. unfold tip_get_start. reads. Qed.
#[local] Hint Resolve tip_get_start_reader : readers.

Lemma tip_get_base_reader i : preserves eq any_exn (tip_get_base i).
Proof. unfold tip_get_base. reads. Qed.

Lemma get_end_reader : preserves eq any_exn get_end.
Proof.
  unfold get_end. reads.
  destruct (has_tip (self a)); reads. destruct (tip (self a)); reads.
Qed.

Lemma get_start_reader : preserves eq any_exn get_start.
Proof.
  unfold get_start. reads.
  destruct (has_start_tip (self a)); reads. destruct (start_tip (self a)); reads.
Qed.
#[local] Hint Resolve get_end_reader get_start_reader : readers.

Lemma get_start_and_end_reader : preserves eq any_exn get_start_and_end.
Proof. unfold get_start_and_end. reads. Qed.
#[local] Hint Resolve get_start_and_end_reader : readers.

Lemma get_length_reader : preserves eq any_exn get_length.
Proof. unfold get_length. reads. Qed.
#[local] Hint Resolve get_length_reader : readers.

Lemma measured_length_reader l : preserves eq any_exn (measured_length l).
Proof. unfold measured_length. destruct (eq_zero (path_arc l)); reads. Qed.

(** ** Line: trimming by the buffer *)

Lemma account_for_buff_cases (l : line_attrs) (w : world) (L : R) :
  returned (measured_length l w) = Some L ->
  (buff l = 0 -> account_for_buff l w = Return ReturnsNone w) /\
  (buff l <> 0 -> L < 2 * buff l -> account_for_buff l w = Return ReturnsNone w) /\
  (buff l <> 0 -> 2 * buff l <= L -> L <> 0 ->
     account_for_buff l w =
       Return ReturnsSelf (trimmed w (buff l / L) (1 - buff l / L))).
Proof.
  intros HL. apply reader_returned in HL; [|apply measured_length_reader].
  unfold account_for_buff. split; [|split].
  - intros Hb. destruct (Req_dec_T (buff l) 0); [reflexivity|contradiction].
  - intros Hb Hlt. destruct (Req_dec_T (buff l) 0); [contradiction|].
    erewrite bind_return by exact HL.
    destruct (Rlt_dec L (2 * buff l)); [reflexivity|contradiction].
  - intros Hb Hge HL0. destruct (Req_dec_T (buff l) 0); [contradiction|].
    erewrite bind_return by exact HL.
    destruct (Rlt_dec L (2 * buff l)); [lra|].
    unfold np_div. destruct (Req_dec_T L 0); [contradiction|].
    reflexivity.
Qed.

(** C3 (as amended): for a Line with buffer distance [buff > 0] and
    measured (arc) length [L], trimming is skipped when [L < 2 * buff],
    the path being left as it is; otherwise, also when [L = 2 * buff],
    the path becomes the partial path from proportion [buff / L] to
    [1 - buff / L] of the original. *)
Theorem buffer_trimming (l : line_attrs) (w : world) (L : R) :
  0 < buff l ->
  returned (measured_length l w) = Some L ->
  (L < 2 * buff l -> account_for_buff l w = Return ReturnsNone w) /\
  (2 * buff l <= L ->
     account_for_buff l w = Return ReturnsSelf (trimmed w (buff l / L) (1 - buff l / L))).
Proof.
  intros Hb HL. destruct (account_for_buff_cases l w L HL) as (_ & H2 & H3).
  split.
  - intros Hlt. apply H2; lra.
  - intros Hge. apply H3; lra.
Qed.

Lemma straight_line_measured start end_ buff :
  measured_length (mkLine buff (Some 0) start end_) (straight_line start end_ buff (Some 0)) =
    Return (norm (vsub start end_)) (straight_line start end_ buff (Some 0)).
Proof. unfold measured_length, eq_zero. simpl. rewrite Req_dec_T_refl. reflexivity. Qed.

(** ** Zero length *)

(* on a Line with [path_arc == 0] the measured length is the distance from
   start to end *)
Lemma measured_length_straight (l : line_attrs) (w : world) (L : R) :
  eq_zero (path_arc l) = true ->
  returned (get_length w) = Some L -> returned (measured_length l w) = Some L.
Proof. intros E HL. unfold measured_length. rewrite E. exact HL. Qed.

(* the proportion of a buffer distance below 0 to the length 0 is
   infinite *)
Lemma account_for_buff_infinite (l : line_attrs) (w : world) :
  returned (measured_length l w) = Some 0 -> buff l < 0 ->
  account_for_buff l w = Throw NonFinite w.
Proof.
  intros HL Hb. apply reader_returned in HL; [|apply measured_length_reader].
  unfold account_for_buff. destruct (Req_dec_T (buff l) 0) as [E|_]; [lra|].
  erewrite bind_return by exact HL.
  destruct (Rlt_dec 0 (2 * buff l)) as [Hlt|_]; [lra|].
  unfold np_div. rewrite Req_dec_T_refl.
  destruct (Rlt_dec 0 (buff l)) as [Hp|_]; [lra|].
  destruct (Rlt_dec (buff l) 0) as [_|Hn]; [reflexivity|lra].
Qed.


End Readers.

Lemma buffer_trimming_witness :
  let l := mkLine (1 / 2) (Some 0) LEFT RIGHT in
  let w := straight_line LEFT RIGHT (1 / 2) (Some 0) in
  0 < buff l /\
  returned (measured_length (H := straight_collaborator) l w) = Some 2 /\
  account_for_buff (H := straight_collaborator) l w =
    Return ReturnsSelf (trimmed (H := straight_collaborator) w (buff l / 2) (1 - buff l / 2)).
Proof.
  cbv zeta.
  assert (Hb : 0 < buff (mkLine (1 / 2) (Some 0) LEFT RIGHT)) by (simpl; lra).
  assert (HL : returned (measured_length (H := straight_collaborator)
                 (mkLine (1 / 2) (Some 0) LEFT RIGHT)
                 (straight_line LEFT RIGHT (1 / 2) (Some 0))) = Some 2).
  { rewrite straight_line_measured, norm_LEFT_RIGHT. reflexivity. }
  split; [exact Hb|]. split; [exact HL|].
  apply (buffer_trimming (H := straight_collaborator) _ _ 2 Hb HL). simpl. lra.
Defined.

(* Line(LEFT, RIGHT, buff=1, path_arc=0) has length 2, so that
   2 * buff >= length, and account_for_buff does not skip the trimming: it
   returns self, with the partial path from 1/2 to 1/2, which is not the
   path it started from *)
Lemma buffer_of_half_the_length_trims :
  let l := mkLine 1 (Some 0) LEFT RIGHT in
  let w := straight_line LEFT RIGHT 1 (Some 0) in
  returned (measured_length (H := straight_collaborator) l w) = Some 2 /\
  2 * buff l >= 2 /\
  exists w',
    account_for_buff (H := straight_collaborator) l w = Return ReturnsSelf w' /\
    points (self w') <> points (self w).
Proof.
  cbv zeta.
  assert (HL : returned (measured_length (H := straight_collaborator)
                 (mkLine 1 (Some 0) LEFT RIGHT)
                 (straight_line LEFT RIGHT 1 (Some 0))) = Some 2).
  { rewrite straight_line_measured, norm_LEFT_RIGHT. reflexivity. }
  split; [exact HL|]. split; [simpl; lra|].
  destruct (account_for_buff_cases (H := straight_collaborator) _ _ 2 HL) as (_ & _ & H3).
  eexists. split; [apply H3; simpl; lra|].
  simpl. intros E. apply (f_equal head) in E. simpl in E.
  injection E as Ex _ _. lra.
Qed.


Lemma norm_along_x (p q : vec3) :
  vy p = vy q -> vz p = vz q -> norm (vsub q p) = Rabs (vx q - vx p).
Proof.
  intros Ey Ez. unfold norm. cbn [vsub vx vy vz]. rewrite Ey, Ez.
  rewrite <- sqrt_Rsqr_abs. f_equal. unfold Rsqr. ring.
Qed.


(** ** Tips: what the endpoint operations leave alone *)

Lemma same_tips_refl w : same_tips w w.
Proof. repeat split. Qed.

Lemma same_tips_trans w1 w2 w3 : same_tips w1 w2 -> same_tips w2 w3 -> same_tips w1 w3.
Proof. unfold same_tips. intuition congruence. Qed.

Create HintDb tips_frame.

Ltac tframe :=
  repeat first
    [ solve [auto with tips_frame]
    | apply preserves_ret; [apply same_tips_refl]
    | apply preserves_get; [apply same_tips_refl]
    | apply preserves_modify; intros []; repeat split
    | apply preserves_raise; [apply same_tips_refl | exact I]
    | apply preserves_lift; [apply same_tips_refl | intros; exact I]
    | apply preserves_bind; [apply same_tips_trans | | intros ?] ].

Lemma reader_keeps {A} (m : M world A) :
  preserves eq any_exn m -> preserves same_tips any_exn m.
Proof.
  intros Hr w. destruct (Hr w) as [E He]. split; [|exact He]. rewrite <- E. apply same_tips_refl.
Qed.

Lemma set_points_keeps ps : preserves same_tips any_exn (set_points ps).
Proof. unfold set_points, on_self. tframe. Qed.
Lemma set_line_keeps l : preserves same_tips any_exn (set_line l).
Proof. unfold set_line, on_self. tframe. Qed.
Lemma family_apply_keeps f : preserves same_tips any_exn (family_apply f).
Proof. unfold family_apply. tframe. Qed.
#[local] Hint Resolve set_points_keeps set_line_keeps family_apply_keeps : tips_frame.

Section TipFrames.
Context `{Collaborator}.

Lemma get_start_and_end_keeps : preserves same_tips any_exn get_start_and_end.
Proof. apply reader_keeps, get_start_and_end_reader. Qed.
Lemma measured_length_keeps l : preserves same_tips any_exn (measured_length l).
Proof. apply reader_keeps, measured_length_reader. Qed.
#[local] Hint Resolve get_start_and_end_keeps measured_length_keeps : tips_frame.

Lemma account_for_buff_keeps l : preserves same_tips any_exn (account_for_buff l).
Proof.
  unfold account_for_buff. destruct (Req_dec_T (buff l) 0); tframe.
  destruct (Rlt_dec a (2 * buff l)); tframe.
  destruct (np_div (buff l) a); tframe.
Qed.
#[local] Hint Resolve account_for_buff_keeps : tips_frame.

Lemma Line_generate_points_keeps l : preserves same_tips any_exn (Line_generate_points l).
Proof.
  unfold Line_generate_points. tframe.
  destruct (truthy (path_arc l)); tframe.
  destruct (ArcBetweenPoints.__init__ _ _ _ _ _ _); tframe.
Qed.
#[local] Hint Resolve Line_generate_points_keeps : tips_frame.

Lemma Mobject_put_start_and_end_on_keeps s e :
  preserves same_tips any_exn (Mobject_put_start_and_end_on s e).
Proof. unfold Mobject_put_start_and_end_on. tframe. Qed.
#[local] Hint Resolve Mobject_put_start_and_end_on_keeps : tips_frame.

Lemma put_start_and_end_on_keeps s e : preserves same_tips any_exn (put_start_and_end_on s e).
Proof.
  unfold put_start_and_end_on. tframe. destruct (line (self a)); tframe.
  unfold Line_put_start_and_end_on. tframe.
  destruct (vec3_eqb (fst a0) (snd a0)); tframe.
Qed.

(** ** Tips: reading the endpoints *)

Lemma tip_get_start_alive w j : alive w j -> exists p, tip_get_start j w = Return p w.
Proof.
  intros (ps & E & Hne). unfold tip_get_start, points_of, bind. rewrite E.
  destruct ps as [|p ps]; [contradiction|]. exists p. reflexivity.
Qed.

Lemma has_tip_true o : has_tip o = true -> exists i, tip o = Some i /\ i ∈ submobjects o.
Proof.
  unfold has_tip, contains. destruct (tip o) as [i|]; [|discriminate].
  intros Hd. apply bool_decide_eq_true in Hd. eauto.
Qed.

Lemma has_start_tip_true o :
  has_start_tip o = true -> exists i, start_tip o = Some i /\ i ∈ submobjects o.
Proof.
  unfold has_start_tip, contains. destruct (start_tip o) as [i|]; [|discriminate].
  intros Hd. apply bool_decide_eq_true in Hd. eauto.
Qed.

Lemma has_tip_false_iff o :
  has_tip o = false <-> forall i, tip o = Some i -> i ∉ submobjects o.
Proof.
  unfold has_tip, contains. destruct (tip o) as [i|].
  - rewrite bool_decide_eq_false.
    split; [intros Hn j [= <-]; exact Hn|intros Hn; apply Hn; reflexivity].
  - split; [intros _ j; discriminate|reflexivity].
Qed.

Lemma has_start_tip_false_iff o :
  has_start_tip o = false <-> forall i, start_tip o = Some i -> i ∉ submobjects o.
Proof.
  unfold has_start_tip, contains. destruct (start_tip o) as [i|].
  - rewrite bool_decide_eq_false.
    split; [intros Hn j [= <-]; exact Hn|intros Hn; apply Hn; reflexivity].
  - split; [intros _ j; discriminate|reflexivity].
Qed.

Lemma same_tips_has_tip w w' :
  same_tips w w' ->
  has_tip (self w') = has_tip (self w) /\ has_start_tip (self w') = has_start_tip (self w).
Proof.
  intros (Et & Es & Ec). unfold has_tip, has_start_tip, contains. rewrite Et, Es, Ec. auto.
Qed.

Lemma get_end_returns w : readable w -> exists p, get_end w = Return p w.
Proof.
  intros [Hp Ha]. unfold get_end. erewrite bind_return by reflexivity.
  destruct (has_tip (self w)) eqn:Et.
  - destruct (has_tip_true _ Et) as (i & -> & Hi). apply tip_get_start_alive. auto.
  - unfold lift, VMobject_get_end. destruct (last (points (self w))) eqn:El; [eauto|].
    apply last_None in El. contradiction.
Qed.

Lemma get_start_returns w : readable w -> exists p, get_start w = Return p w.
Proof.
  intros [Hp Ha]. unfold get_start. erewrite bind_return by reflexivity.
  destruct (has_start_tip (self w)) eqn:Et.
  - destruct (has_start_tip_true _ Et) as (i & -> & Hi). apply tip_get_start_alive. auto.
  - unfold lift, VMobject_get_start. destruct (points (self w)); [contradiction|eauto].
Qed.

Lemma get_start_and_end_returns w :
  readable w -> exists se, get_start_and_end w = Return se w.
Proof.
  intros Hr. destruct (get_start_returns w Hr) as (s & Es).
  destruct (get_end_returns w Hr) as (e & Ee).
  exists (s, e). unfold get_start_and_end.
  erewrite bind_return by exact Es. erewrite bind_return by exact Ee. reflexivity.
Qed.

Lemma wf_readable w : wf w -> readable w.
Proof.
  intros (Hl & _ & Ha). split; [|exact Ha].
  destruct (points (self w)); simpl in *; [lia|discriminate].
Qed.

Lemma mid_readable w0 w : mid w0 w -> readable w.
Proof.
  intros ((_ & _ & Ec) & Hl & _ & Ha & _). split.
  - destruct (points (self w)); simpl in *; [lia|discriminate].
  - rewrite Ec. exact Ha.
Qed.

End TipFrames.

(** ** Tips: the list of children *)

Lemma list_remove_elem_of x y l :
  NoDup l -> (y ∈ list_remove x l <-> y ∈ l /\ y <> x).
Proof.
  induction l as [|z l IH]; simpl; intros Hnd.
  - split; [intros Hy; inversion Hy|intros [Hy _]; inversion Hy].
  - apply NoDup_cons in Hnd as [Hz Hnd]. destruct (decide (x = z)) as [->|Hne].
    + split.
      * intros Hy. split; [right; exact Hy|]. intros ->. contradiction.
      * intros [Hy Hyz]. apply elem_of_cons in Hy as [->|Hy]; [contradiction|exact Hy].
    + rewrite elem_of_cons, IH by exact Hnd. rewrite elem_of_cons.
      split.
      * intros [->|[Hy Hyx]];
          [split; [left; reflexivity|congruence]|split; [right; exact Hy|exact Hyx]].
      * intros [[->|Hy] Hyx]; [left; reflexivity|right; split; assumption].
Qed.

Lemma list_remove_NoDup x l : NoDup l -> NoDup (list_remove x l).
Proof.
  induction l as [|z l IH]; simpl; intros Hnd; [constructor|].
  pose proof Hnd as Hnd'. apply NoDup_cons in Hnd' as [Hz Hnd'].
  destruct (decide (x = z)); [exact Hnd'|].
  apply NoDup_cons. split; [|apply IH; exact Hnd'].
  rewrite list_remove_elem_of by exact Hnd'. tauto.
Qed.

Lemma list_update_NoDup l i : NoDup l -> NoDup (list_update l [i]).
Proof.
  intros Hnd. unfold list_update. apply NoDup_app. split; [|split].
  - apply NoDup_filter. exact Hnd.
  - intros x Hx Hxi. apply list_elem_of_filter in Hx as [Hx _]. contradiction.
  - apply NoDup_singleton.
Qed.

Lemma list_update_elem_of l i j : j ∈ list_update l [i] <-> j ∈ l \/ j = i.
Proof.
  unfold list_update. rewrite elem_of_app, list_elem_of_filter, !list_elem_of_singleton.
  destruct (decide (j = i)); tauto.
Qed.

Lemma list_update_two (i j : nat) :
  list_update [i] [j] = if decide (i = j) then [j] else [i; j].
Proof.
  unfold list_update. rewrite filter_cons, filter_nil.
  destruct (decide (i ∉ [j])) as [Hn|Hn], (decide (i = j)) as [->|Hne]; simpl; try reflexivity.
  - exfalso. apply Hn. left.
  - exfalso. apply Hn. rewrite list_elem_of_singleton. exact Hne.
Qed.

Lemma remove_child i w :
  i ∈ submobjects (self w) ->
  remove i w =
    Return tt (mkWorld (mk (points (self w)) (list_remove i (submobjects (self w)))
                           (tip (self w)) (start_tip (self w)) (tip_length (self w))
                           (line (self w)))
                       (heap w) (next_id w)).
Proof.
  intros Hi. unfold remove, bind, get.
  destruct (decide (i ∈ submobjects (self w))); [|contradiction].
  reflexivity.
Qed.

(** ** pop_tips *)

Section PopTips.
Context `{Collaborator}.

(* what pop_tips leaves behind, whether or not its last step raises *)
Lemma pop_tips_effect (w : world) :
  wf w ->
  has_tip (self (final_state (pop_tips w))) = false /\
  has_start_tip (self (final_state (pop_tips w))) = false /\
  tip (self (final_state (pop_tips w))) = tip (self w) /\
  start_tip (self (final_state (pop_tips w))) = start_tip (self w).
Proof.
  intros Hwf. pose proof Hwf as (_ & Hnd & _).
  destruct (get_start_and_end_returns w (wf_readable w Hwf)) as (se & Ese).
  assert (Hlast : forall (w2 : world) (r : list nat),
            has_tip (self w2) = false -> has_start_tip (self w2) = false ->
            tip (self w2) = tip (self w) -> start_tip (self w2) = start_tip (self w) ->
            has_tip (self (final_state
              ((put_start_and_end_on (fst se) (snd se);;; ret r)%py w2))) = false /\
            has_start_tip (self (final_state
              ((put_start_and_end_on (fst se) (snd se);;; ret r)%py w2))) = false /\
            tip (self (final_state
              ((put_start_and_end_on (fst se) (snd se);;; ret r)%py w2))) = tip (self w) /\
            start_tip (self (final_state
              ((put_start_and_end_on (fst se) (snd se);;; ret r)%py w2))) = start_tip (self w)).
  { intros w2 r Ht2 Hs2 Et2 Es2.
    assert (Hk : preserves same_tips any_exn
              (put_start_and_end_on (fst se) (snd se);;; ret r)%py).
    { apply preserves_bind; [apply same_tips_trans|apply put_start_and_end_on_keeps|].
      intros ?. apply preserves_ret. apply same_tips_refl. }
    destruct (Hk w2) as [Hsame _].
    destruct (same_tips_has_tip _ _ Hsame) as [H1 H2]. destruct Hsame as (Ht' & Hs' & _).
    rewrite H1, H2, Ht', Hs'. auto. }
  unfold pop_tips.
  erewrite bind_return by exact Ese.
  erewrite bind_return by reflexivity.
  destruct (has_tip (self w)) eqn:Et.
  - destruct (has_tip_true _ Et) as (i & Ei & Hi). rewrite Ei.
    erewrite bind_return; [|erewrite bind_return by (apply remove_child; exact Hi); reflexivity].
    erewrite bind_return by reflexivity.
    set (w1 := mkWorld _ _ _).
    assert (Hnd1 : NoDup (submobjects (self w1))) by (apply list_remove_NoDup; exact Hnd).
    assert (Ht1 : has_tip (self w1) = false).
    { apply has_tip_false_iff. simpl. intros i' Ei'. rewrite Ei in Ei'. injection Ei' as <-.
      rewrite list_remove_elem_of by assumption. tauto. }
    destruct (has_start_tip (self w1)) eqn:Es.
    + destruct (has_start_tip_true _ Es) as (j & Ej & Hj). rewrite Ej.
      erewrite bind_return; [|erewrite bind_return by (apply remove_child; exact Hj); reflexivity].
      rewrite <- Ei. apply Hlast; [| |reflexivity|reflexivity].
      * apply has_tip_false_iff. simpl. intros i' Ei'. rewrite Ei in Ei'. injection Ei' as <-.
        rewrite !list_remove_elem_of by assumption. tauto.
      * apply has_start_tip_false_iff. simpl. intros j' Ej'. simpl in Ej.
        rewrite Ej in Ej'. injection Ej' as <-.
        rewrite list_remove_elem_of by assumption. tauto.
    + erewrite bind_return by reflexivity.
      rewrite <- Ei. apply Hlast; [assumption|assumption|reflexivity|reflexivity].
  - erewrite bind_return by reflexivity.
    erewrite bind_return by reflexivity.
    destruct (has_start_tip (self w)) eqn:Es.
    + destruct (has_start_tip_true _ Es) as (j & Ej & Hj). rewrite Ej.
      erewrite bind_return; [|erewrite bind_return by (apply remove_child; exact Hj); reflexivity].
      rewrite <- Ej. apply Hlast; [| |reflexivity|reflexivity].
      * apply has_tip_false_iff. simpl. intros i' Ei'.
        rewrite list_remove_elem_of by assumption. intros [Hi' _].
        exact (proj1 (has_tip_false_iff _) Et i' Ei' Hi').
      * apply has_start_tip_false_iff. simpl. intros j' Ej'. rewrite Ej in Ej'.
        injection Ej' as <-.
        rewrite list_remove_elem_of by assumption. tauto.
    + erewrite bind_return by reflexivity.
      apply Hlast; [assumption|assumption|reflexivity|reflexivity].
Qed.

End PopTips.

(** ** add_tip returns *)

Lemma alive_insert w j i ps :
  ps <> [] -> alive w j ->
  alive (mkWorld (self w) (<[i := ps]> (heap w)) (next_id w)) j.
Proof.
  intros Hne (qs & E & Hq). unfold alive. simpl. destruct (decide (i = j)) as [->|Hij].
  - exists ps. rewrite lookup_insert_eq. auto.
  - exists qs. rewrite lookup_insert_ne by exact Hij. auto.
Qed.

Lemma mid_set_points_of w0 w i ps :
  ps <> [] -> mid w0 w -> mid w0 (mkWorld (self w) (<[i := ps]> (heap w)) (next_id w)).
Proof.
  intros Hne (Hs & Hl & Hn & Ha & Hi). repeat split; try apply Hs; try assumption.
  - intros j Hj. apply alive_insert; auto.
  - apply alive_insert; auto.
Qed.

Lemma alive_alter_fold (f : path -> path) (l : list nat) (h : gmap nat path) (j : nat) :
  (forall ps, ps <> [] -> f ps <> []) ->
  (exists ps, h !! j = Some ps /\ ps <> []) ->
  exists ps, foldr (fun i h => alter f i h) h l !! j = Some ps /\ ps <> [].
Proof.
  intros Hf. induction l as [|i l IH]; simpl; [auto|].
  intros Hj. destruct (IH Hj) as (ps & E & Hne).
  destruct (decide (i = j)) as [->|Hij].
  - exists (f ps). rewrite lookup_alter_eq, E. simpl. auto.
  - exists ps. rewrite lookup_alter_ne by exact Hij. auto.
Qed.

Lemma points_of_alive w j : alive w j -> exists ps, points_of j w = Return ps w /\ ps <> [].
Proof. intros (ps & E & Hne). exists ps. unfold points_of. rewrite E. auto. Qed.

Section AddTip.
Context `{Collaborator}.

Lemma mid_family_apply w0 w (f : path -> path) :
  (forall ps, length (f ps) = length ps) ->
  mid w0 w -> mid w0 (final_state (family_apply f w)).
Proof.
  intros Hf (Hs & Hl & Hn & Ha & Hi).
  assert (Hf' : forall ps : path, ps <> [] -> f ps <> []).
  { intros ps Hne E. apply (f_equal length) in E. rewrite Hf in E.
    destruct ps; [auto|discriminate]. }
  unfold family_apply, modify. simpl. repeat split; try apply Hs.
  - simpl. rewrite Hf. exact Hl.
  - exact Hn.
  - intros j Hj. apply alive_alter_fold; [exact Hf'|]. apply Ha. exact Hj.
  - apply alive_alter_fold; [exact Hf'|]. exact Hi.
Qed.

Lemma endpoints_map_ok s e cs ce :
  cs <> ce ->
  exists f, endpoints_map s e cs ce = Ok f /\ forall ps, length (f ps) = length ps.
Proof.
  intros Hne. unfold endpoints_map.
  destruct (vec3_eqb (vsub ce cs) ORIGIN) eqn:E.
  - exfalso. apply Hne. apply vec3_eqb_true in E.
    apply vec3_eq; apply (f_equal vx) in E as Ex; apply (f_equal vy) in E as Ey;
      apply (f_equal vz) in E as Ez; simpl in *; lra.
  - eexists. split; [reflexivity|]. intros ps.
    unfold shift, rotate_about, scale_about. rewrite !length_map. reflexivity.
Qed.

(* the endpoint operation, on a path whose endpoints differ *)
Lemma put_start_and_end_on_total w0 (s e : vec3) (se : vec3 * vec3) :
  fst se <> snd se ->
  total (fun w => mid w0 w /\ get_start_and_end w = Return se w)
        (put_start_and_end_on s e)
        (fun _ w => mid w0 w).
Proof.
  intros Hne w [Hm Ese].
  destruct (endpoints_map_ok s e (fst se) (snd se) Hne) as (f & Ef & Hf).
  assert (Hmob : Mobject_put_start_and_end_on s e w = Return tt (final_state (family_apply f w))).
  { unfold Mobject_put_start_and_end_on. erewrite bind_return by exact Ese.
    rewrite Ef. reflexivity. }
  exists tt, (final_state (family_apply f w)). split; [|apply mid_family_apply; assumption].
  unfold put_start_and_end_on. erewrite bind_return by reflexivity.
  destruct (line (self w)) as [l|]; [|exact Hmob].
  unfold Line_put_start_and_end_on. erewrite bind_return by exact Ese.
  destruct (vec3_eqb (fst se) (snd se)) eqn:E; [apply vec3_eqb_true in E; contradiction|].
  erewrite bind_return by reflexivity. exact Hmob.
Qed.

Lemma tip_get_base_total w0 :
  total (mid w0) (tip_get_base (next_id w0)) (fun _ w => mid w0 w).
Proof.
  intros w Hm. pose proof Hm as (Hs & Hl & Hn & Ha & Hi).
  destruct (points_of_alive w _ Hi) as (ps & E & _).
  eexists _, w. split; [|exact Hm].
  unfold tip_get_base. erewrite bind_return by exact E. reflexivity.
Qed.

Lemma tip_get_tip_point_total w0 :
  total (mid w0) (tip_get_tip_point (next_id w0)) (fun _ w => mid w0 w).
Proof.
  intros w Hm. pose proof Hm as (Hs & Hl & Hn & Ha & Hi).
  destruct (points_of_alive w _ Hi) as (ps & E & Hne).
  destruct ps as [|p ps]; [contradiction|].
  exists p, w. split; [|exact Hm].
  unfold tip_get_tip_point. erewrite bind_return by exact E. reflexivity.
Qed.

Lemma tip_get_angle_total w0 :
  total (mid w0) (tip_get_angle (next_id w0)) (fun _ w => mid w0 w).
Proof.
  unfold tip_get_angle, tip_get_vector.
  apply total_step.
  - apply total_step; [apply tip_get_tip_point_total|]. intros p.
    apply total_step; [apply tip_get_base_total|]. intros b.
    apply total_ret. auto.
  - intros v. apply total_ret. auto.
Qed.

Lemma tip_rotate_total w0 a :
  total (mid w0) (tip_rotate (next_id w0) a) (fun _ w => mid w0 w).
Proof.
  intros w Hm. pose proof Hm as (Hs & Hl & Hn & Ha & Hi).
  destruct (points_of_alive w _ Hi) as (ps & E & Hne).
  eexists tt, _. split.
  - unfold tip_rotate. erewrite bind_return by exact E. reflexivity.
  - apply mid_set_points_of; [|exact Hm].
    unfold rotate_about. destruct ps; [contradiction|discriminate].
Qed.

Lemma tip_shift_total w0 v :
  total (mid w0) (tip_shift (next_id w0) v) (fun _ w => mid w0 w).
Proof.
  intros w Hm. pose proof Hm as (Hs & Hl & Hn & Ha & Hi).
  destruct (points_of_alive w _ Hi) as (ps & E & Hne).
  eexists tt, _. split.
  - unfold tip_shift. erewrite bind_return by exact E. reflexivity.
  - apply mid_set_points_of; [|exact Hm].
    unfold shift. destruct ps; [contradiction|discriminate].
Qed.

Lemma get_start_total w0 : total (mid w0) get_start (fun _ w => mid w0 w).
Proof.
  intros w Hm. destruct (get_start_returns w (mid_readable _ _ Hm)) as (p & E). eauto.
Qed.

Lemma get_end_total w0 : total (mid w0) get_end (fun _ w => mid w0 w).
Proof.
  intros w Hm. destruct (get_end_returns w (mid_readable _ _ Hm)) as (p & E). eauto.
Qed.

Lemma get_first_handle_total w0 : total (mid w0) get_first_handle (fun _ w => mid w0 w).
Proof.
  intros w Hm. pose proof Hm as (Hs & Hl & _).
  unfold get_first_handle. erewrite bind_return by reflexivity.
  destruct (points (self w)) as [|p [|q ps]] eqn:Ep; simpl in Hl; try lia.
  exists q, w. auto.
Qed.

Lemma get_last_handle_total w0 : total (mid w0) get_last_handle (fun _ w => mid w0 w).
Proof.
  intros w Hm. pose proof Hm as (Hs & Hl & _).
  unfold get_last_handle. erewrite bind_return by reflexivity.
  destruct (length (points (self w)) <? 2)%nat eqn:E; [apply Nat.ltb_lt in E; lia|].
  destruct (points (self w) !! (length (points (self w)) - 2)%nat) as [p|] eqn:Ep.
  - exists p, w. auto.
  - apply lookup_ge_None in Ep. lia.
Qed.

Lemma position_tip_total w0 at_start :
  total (mid w0) (position_tip (next_id w0) at_start)
        (fun i w => i = next_id w0 /\ mid w0 w).
Proof.
  unfold position_tip.
  apply total_step.
  { destruct at_start.
    - apply total_step; [apply get_start_total|]. intros a.
      apply total_step; [apply get_first_handle_total|]. intros h.
      apply total_ret. auto.
    - apply total_step; [apply get_last_handle_total|]. intros h.
      apply total_step; [apply get_end_total|]. intros a.
      apply total_ret. auto. }
  intros [anchor handle].
  apply total_step; [apply tip_get_angle_total|]. intros a.
  apply total_step; [apply tip_rotate_total|]. intros _.
  apply total_step; [apply tip_get_tip_point_total|]. intros p.
  apply total_step; [apply tip_shift_total|]. intros _.
  apply total_ret. auto.
Qed.

Lemma reset_endpoints_total w0 at_start :
  total (mid w0) (reset_endpoints_based_on_tip (next_id w0) at_start) (fun _ w => mid w0 w).
Proof.
  intros w Hm.
  destruct (get_start_and_end_returns w (mid_readable _ _ Hm)) as (se & Ese).
  assert (EL : get_length w = Return (norm (vsub (fst se) (snd se))) w).
  { unfold get_length. erewrite bind_return by exact Ese. reflexivity. }
  unfold reset_endpoints_based_on_tip. erewrite bind_return by exact EL.
  destruct (Req_dec_T (norm (vsub (fst se) (snd se))) 0) as [_|Hne].
  { exists tt, w. auto. }
  apply norm_vsub_nonzero in Hne.
  destruct (tip_get_base_total w0 w Hm) as (b & w1 & Eb & _).
  assert (w1 = w) as ->.
  { pose proof (reader_state (tip_get_base (next_id w0)) w (tip_get_base_reader _)) as Hr.
    rewrite Eb in Hr. exact Hr. }
  destruct at_start.
  - destruct (get_end_returns w (mid_readable _ _ Hm)) as (e & Ee).
    erewrite bind_return by exact Eb. erewrite bind_return by exact Ee.
    apply (put_start_and_end_on_total w0 b e se Hne). auto.
  - destruct (get_start_returns w (mid_readable _ _ Hm)) as (s & Es).
    erewrite bind_return by exact Es. erewrite bind_return by exact Eb.
    apply (put_start_and_end_on_total w0 s b se Hne). auto.
Qed.

Lemma triangle_corners_nonempty :
  set_points_as_corners (triangle_vertices ++ [default ORIGIN (head triangle_vertices)]) <> [].
Proof. discriminate. Qed.

Lemma get_unpositioned_tip_total w0 tl :
  resizing_keeps_points H -> wf w0 ->
  exists w, get_unpositioned_tip tl w0 = Return (next_id w0) w /\ mid w0 w.
Proof.
  intros resizing (Hl & Hnd & Ha).
  assert (HA : forall l, exists w, ArrowTip l w0 = Return (next_id w0) w /\ mid w0 w).
  { intros l. eexists. split; [reflexivity|].
    assert (Hne : set_height_stretch l (set_width l
               (set_points_as_corners
                  (triangle_vertices ++ [default ORIGIN (head triangle_vertices)]))) <> []).
    { apply resizing. apply resizing. apply triangle_corners_nonempty. }
    repeat split; try assumption.
    - intros j Hj. apply (alive_insert w0 j); auto.
    - eexists. simpl. rewrite lookup_insert_eq. auto. }
  unfold get_unpositioned_tip. destruct tl as [l|].
  - erewrite bind_return by reflexivity. apply HA.
  - erewrite bind_return by reflexivity. apply HA.
Qed.

(* add_tip returns on every well-formed path, and attaches a new tip *)
Lemma add_tip_total (w0 : world) (tl : option R) (at_start : bool) :
  resizing_keeps_points H -> wf w0 ->
  exists w', add_tip tl at_start w0 = Return tt w' /\
             attached (next_id w0) at_start w0 w' /\ wf w'.
Proof.
  intros resizing Hwf.
  destruct (get_unpositioned_tip_total w0 tl resizing Hwf) as (w1 & E1 & Hm1).
  destruct (position_tip_total w0 at_start w1 Hm1) as (i & w2 & E2 & -> & Hm2).
  destruct (reset_endpoints_total w0 at_start w2 Hm2) as ([] & w3 & E3 & Hm3).
  destruct Hm3 as ((Ht & Hs & Hc) & Hl & Hn & Ha & Hi).
  destruct Hwf as (_ & Hnd & _).
  assert (Hstart : add_tip tl at_start w0 =
            (asign_tip_attr (next_id w0) at_start;;; add (next_id w0))%py w3).
  { unfold add_tip, create_tip.
    erewrite bind_return; [|erewrite bind_return by exact E1; exact E2].
    erewrite bind_return by exact E3. reflexivity. }
  rewrite Hstart.
  destruct at_start; (eexists; split; [reflexivity|]); simpl; rewrite ?Ht, ?Hs, ?Hc.
  - split; [repeat split; assumption|].
    split; [exact Hl|]. split; [apply list_update_NoDup; exact Hnd|].
    intros j Hj. apply list_update_elem_of in Hj as [Hj| ->]; [|exact Hi].
    destruct (Ha j Hj) as (ps & E & Hne). exists ps. auto.
  - split; [repeat split; assumption|].
    split; [exact Hl|]. split; [apply list_update_NoDup; exact Hnd|].
    intros j Hj. apply list_update_elem_of in Hj as [Hj| ->]; [|exact Hi].
    destruct (Ha j Hj) as (ps & E & Hne). exists ps. auto.
Qed.

End AddTip.

(** ** Sequences of add_tip, and what get_tips finds *)

Lemma get_tips_head (o : t) (i : nat) :
  tip o = Some i -> i ∈ get_tips o /\ get_tip o = Ok i.
Proof.
  intros Ei. unfold get_tip, get_tips. rewrite Ei.
  change (list_update [] [i]) with [i].
  destruct (start_tip o) as [j|].
  - rewrite list_update_two. destruct (decide (i = j)) as [->|Hne]; (split; [left|reflexivity]).
  - split; [left|reflexivity].
Qed.

Lemma get_tips_start (o : t) (j : nat) :
  start_tip o = Some j -> j ∈ get_tips o /\ exists i, get_tip o = Ok i.
Proof.
  intros Ej. unfold get_tip, get_tips. rewrite Ej.
  destruct (tip o) as [i|].
  - change (list_update [] [i]) with [i].
    rewrite list_update_two. destruct (decide (i = j)) as [->|Hne].
    + split; [left|eauto].
    + split; [right; left|eauto].
  - change (list_update [] [j]) with [j]. split; [left|eauto].
Qed.

Lemma get_tip_raises_iff (o : t) :
  get_tip o = Err (PyException "tip not found") <-> tip o = None /\ start_tip o = None.
Proof.
  split.
  - intros E. destruct (tip o) as [i|] eqn:Ei.
    + destruct (get_tips_head o i Ei) as [_ E']. congruence.
    + destruct (start_tip o) as [j|] eqn:Ej; [|auto].
      destruct (get_tips_start o j Ej) as [_ [i E']]. congruence.
  - intros [Ei Ej]. unfold get_tip, get_tips. rewrite Ei, Ej. reflexivity.
Qed.

Lemma has_tip_iff (o : t) :
  has_tip o = true <-> exists i, tip o = Some i /\ i ∈ submobjects o.
Proof.
  split.
  - apply has_tip_true.
  - intros (i & Ei & Hi). unfold has_tip, contains. rewrite Ei.
    apply bool_decide_eq_true. exact Hi.
Qed.

Lemma straight_line_wf start end_ buff path_arc : wf (straight_line start end_ buff path_arc).
Proof.
  split; [simpl; lia|]. split; [constructor|]. intros j Hj. inversion Hj.
Qed.

Lemma straight_resizing : resizing_keeps_points straight_collaborator.
Proof. intros l ps Hne. split; exact Hne. Qed.

Section Sequences.
Context `{Collaborator}.
Hypothesis resizing : resizing_keeps_points H.

Lemma add_tips_total (calls : list (option R * bool)) (w0 : world) :
  wf w0 ->
  exists w', add_tips calls w0 = Return tt w' /\ wf w' /\
    next_id w' = (next_id w0 + length calls)%nat /\
    (forall j, j ∈ submobjects (self w') <->
       j ∈ submobjects (self w0) \/ (next_id w0 <= j < next_id w0 + length calls)%nat) /\
    tip (self w') = attr_after false calls (next_id w0) (tip (self w0)) /\
    start_tip (self w') = attr_after true calls (next_id w0) (start_tip (self w0)).
Proof using resizing.
  revert w0. induction calls as [|[tl at_start] rest IH]; intros w0 Hwf.
  - exists w0. simpl. split; [reflexivity|]. split; [exact Hwf|]. split; [lia|].
    split; [|split; reflexivity].
    intros j. split; [intros Hj; left; exact Hj|intros [Hj|Hj]; [exact Hj|lia]].
  - destruct (add_tip_total w0 tl at_start resizing Hwf) as (w1 & E1 & (Hc & Ht & Hs & Hn) & Hwf1).
    destruct (IH w1 Hwf1) as (w' & E' & Hwf' & Hn' & Hc' & Ht' & Hs').
    exists w'. split; [|split; [exact Hwf'|split; [|split; [|split]]]].
    + simpl. erewrite bind_return by exact E1. exact E'.
    + rewrite Hn', Hn. simpl. lia.
    + intros j. rewrite Hc', Hc, list_update_elem_of, Hn. simpl. intuition lia.
    + rewrite Ht', Ht, Hn. simpl. destruct at_start; reflexivity.
    + rewrite Hs', Hs, Hn. simpl. destruct at_start; reflexivity.
Qed.

(** C4, as the code has it: every sequence of add_tip calls on a path
    returns; each call creates one new tip and adds it to the children
    without removing any, so after the sequence the children are the old
    ones and every tip the sequence has created; only the attributes of
    the two ends are replaced, each by the tip of the last call at its
    end. *)
Theorem add_tip_keeps_earlier_tips (calls : list (option R * bool)) (w0 : world) :
  wf w0 ->
  exists w', add_tips calls w0 = Return tt w' /\
    (forall j, j ∈ submobjects (self w') <->
       j ∈ submobjects (self w0) \/ (next_id w0 <= j < next_id w0 + length calls)%nat) /\
    tip (self w') = attr_after false calls (next_id w0) (tip (self w0)) /\
    start_tip (self w') = attr_after true calls (next_id w0) (start_tip (self w0)).
Proof using resizing.
  intros Hwf.
  destruct (add_tips_total calls w0 Hwf) as (w' & E & _ & _ & Hc & Ht & Hs).
  exists w'. auto.
Qed.

(* get_tip returns the tip of the attribute tip where there is one, and
   the start tip otherwise *)
Lemma get_tip_start (o : t) (j : nat) :
  start_tip o = Some j -> get_tip o = Ok (default j (tip o)).
Proof.
  intros Ej. unfold get_tip, get_tips. rewrite Ej.
  destruct (tip o) as [i|]; [|reflexivity].
  change (list_update [] [i]) with [i].
  rewrite list_update_two. destruct (decide (i = j)) as [->|]; reflexivity.
Qed.

(** C10 (as amended): add_tip attaches the new tip: it is a child, and
    has_tip (has_start_tip after [at_start=True]) is true.  After pop_tips
    (whether or not its last step, which puts the endpoints back, raises)
    the tip is no child any more, has_tip and has_start_tip are false, and
    the detached tip is still in get_tips.  get_tip returns the detached
    tip after add_tip at the end; after add_tip at the start it returns
    the tip of the attribute tip, also a detached one, where that
    attribute was ever assigned, and the detached start tip otherwise.
    has_tip asks for the attribute and for the child, and get_tip raises
    its error exactly when neither attribute holds a tip. *)
Theorem popped_tip_is_still_found (w0 : world) (tl : option R) (at_start : bool) :
  wf w0 ->
  exists w1, add_tip tl at_start w0 = Return tt w1 /\
    (if at_start then has_start_tip (self w1) else has_tip (self w1)) = true /\
    next_id w0 ∈ submobjects (self w1) /\
    let o := self (final_state (pop_tips w1)) in
    has_tip o = false /\ has_start_tip o = false /\
    (next_id w0 ∉ submobjects o) /\
    next_id w0 ∈ get_tips o /\
    get_tip o = Ok (if at_start then default (next_id w0) (tip (self w0)) else next_id w0) /\
    (forall o' : t, has_tip o' = true <-> exists i, tip o' = Some i /\ i ∈ submobjects o') /\
    (forall o' : t, get_tip o' = Err (PyException "tip not found") <->
                    tip o' = None /\ start_tip o' = None).
Proof using resizing.
  intros Hwf.
  destruct (add_tip_total w0 tl at_start resizing Hwf) as (w1 & E1 & (Hc & Ht & Hs & Hn) & Hwf1).
  exists w1. split; [exact E1|].
  assert (Hin : next_id w0 ∈ submobjects (self w1)).
  { rewrite Hc. apply list_update_elem_of. right. reflexivity. }
  split.
  { destruct at_start.
    - unfold has_start_tip, contains. rewrite Hs. apply bool_decide_eq_true. exact Hin.
    - unfold has_tip, contains. rewrite Ht. apply bool_decide_eq_true. exact Hin. }
  split; [exact Hin|]. cbv zeta.
  destruct (pop_tips_effect w1 Hwf1) as (Hh & Hhs & Et & Es).
  split; [exact Hh|]. split; [exact Hhs|].
  rewrite Ht in Et. rewrite Hs in Es.
  destruct at_start.
  - split; [exact (proj1 (has_start_tip_false_iff _) Hhs _ Es)|].
    split; [exact (proj1 (get_tips_start _ _ Es))|].
    split; [rewrite (get_tip_start _ _ Es), Et; reflexivity|].
    split; [exact has_tip_iff|exact get_tip_raises_iff].
  - split; [exact (proj1 (has_tip_false_iff _) Hh _ Et)|].
    destruct (get_tips_head _ _ Et) as [Hg Hok].
    split; [exact Hg|]. split; [exact Hok|].
    split; [exact has_tip_iff|exact get_tip_raises_iff].
Qed.

End Sequences.

Lemma add_tip_keeps_earlier_tips_witness :
  let calls := [(None, false); (Some 1, true); (None, false)] in
  let w0 := straight_line LEFT RIGHT 0 None in
  wf w0 /\
  exists w', add_tips (H := straight_collaborator) calls w0 = Return tt w' /\
    (forall j, j ∈ submobjects (self w') <->
       j ∈ submobjects (self w0) \/ (next_id w0 <= j < next_id w0 + length calls)%nat) /\
    tip (self w') = attr_after false calls (next_id w0) (tip (self w0)) /\
    start_tip (self w') = attr_after true calls (next_id w0) (start_tip (self w0)).
Proof.
  cbv zeta. split; [apply straight_line_wf|].
  apply (add_tip_keeps_earlier_tips (H := straight_collaborator) straight_resizing).
  apply straight_line_wf.
Defined.

(* two tips at the end of a line: the first one is still a child after the
   second call *)
Lemma earlier_tip_is_still_a_child :
  exists w',
    add_tips (H := straight_collaborator) [(None, false); (None, false)]
      (straight_line LEFT RIGHT 0 None) = Return tt w' /\
    submobjects (self w') = [0%nat; 1%nat] /\
    tip (self w') = Some 1%nat.
Proof.
  destruct (add_tip_total (H := straight_collaborator) (straight_line LEFT RIGHT 0 None)
              None false straight_resizing (straight_line_wf _ _ _ _))
    as (w1 & E1 & (Hc1 & Ht1 & _ & Hn1) & Hwf1).
  destruct (add_tip_total (H := straight_collaborator) w1 None false straight_resizing Hwf1)
    as (w2 & E2 & (Hc2 & Ht2 & _ & _) & _).
  exists w2. split; [|split].
  - cbn [add_tips]. erewrite bind_return by exact E1.
    erewrite bind_return by exact E2. reflexivity.
  - rewrite Hc2, Hc1, Hn1. reflexivity.
  - rewrite Ht2, Hn1. reflexivity.
Qed.

Lemma popped_tip_is_still_found_witness :
  let w0 := straight_line LEFT RIGHT 0 None in
  wf w0 /\
  exists w1, add_tip (H := straight_collaborator) None false w0 = Return tt w1 /\
    has_tip (self w1) = true /\
    next_id w0 ∈ submobjects (self w1) /\
    let o := self (final_state (pop_tips (H := straight_collaborator) w1)) in
    has_tip o = false /\ has_start_tip o = false /\
    (next_id w0 ∉ submobjects o) /\
    next_id w0 ∈ get_tips o /\
    get_tip o = Ok (next_id w0) /\
    (forall o' : t, has_tip o' = true <-> exists i, tip o' = Some i /\ i ∈ submobjects o') /\
    (forall o' : t, get_tip o' = Err (PyException "tip not found") <->
                    tip o' = None /\ start_tip o' = None).
Proof.
  cbv zeta. split; [apply straight_line_wf|].
  apply (popped_tip_is_still_found (H := straight_collaborator) straight_resizing
           (straight_line LEFT RIGHT 0 None) None false).
  apply straight_line_wf.
Defined.

(* line = Line(); line.add_tip(); line.add_tip(at_start=True);
   line.pop_tips(): the tip that the second call added, 1, is detached, and
   get_tip returns the tip of the first call, 0 *)
Lemma get_tip_returns_the_older_tip :
  exists w1 w2,
    add_tip (H := straight_collaborator) None false (straight_line LEFT RIGHT 0 None) =
      Return tt w1 /\
    add_tip (H := straight_collaborator) None true w1 = Return tt w2 /\
    start_tip (self w2) = Some 1%nat /\ has_start_tip (self w2) = true /\
    let o := self (final_state (pop_tips (H := straight_collaborator) w2)) in
    has_start_tip o = false /\ 1%nat ∈ get_tips o /\ get_tip o = Ok 0%nat.
Proof.
  destruct (add_tip_total (H := straight_collaborator) (straight_line LEFT RIGHT 0 None)
              None false straight_resizing (straight_line_wf _ _ _ _))
    as (w1 & E1 & (Hc1 & Ht1 & Hs1 & Hn1) & Hwf1).
  destruct (add_tip_total (H := straight_collaborator) w1 None true straight_resizing Hwf1)
    as (w2 & E2 & (Hc2 & Ht2 & Hs2 & Hn2) & Hwf2).
  rewrite Hn1 in Hs2, Hc2. change (S (next_id (straight_line LEFT RIGHT 0 None))) with 1%nat in *.
  rewrite Ht1 in Ht2. change (next_id (straight_line LEFT RIGHT 0 None)) with 0%nat in *.
  exists w1, w2. split; [exact E1|]. split; [exact E2|]. split; [exact Hs2|].
  split.
  { unfold has_start_tip, contains. rewrite Hs2, Hc2. apply bool_decide_eq_true.
    apply list_update_elem_of. right. reflexivity. }
  cbv zeta.
  destruct (pop_tips_effect (H := straight_collaborator) w2 Hwf2) as (_ & Hhs & Et & Es).
  rewrite Ht2 in Et. rewrite Hs2 in Es.
  split; [exact Hhs|]. split; [exact (proj1 (get_tips_start _ _ Es))|].
  rewrite (get_tip_start _ _ Es), Et. reflexivity.
Qed.

End TipableProperties.

(** * Polygon.round_corners with radius 0 *)

Module PolygonProperties.
Import Arc.
Import Polygon.

Lemma adjacent_3_tuples_nonempty {A} (l : list A) : l <> [] -> adjacent_3_tuples l <> [].
Proof.
  intros Hne. unfold adjacent_3_tuples, rotate_left.
  destruct l as [|a [|b [|c l]]]; [contradiction|discriminate..].
Qed.

Lemma collapse_corners (v : vec3) (a : R) :
  shift (vsub v LEFT)
    (rotate_about a LEFT (scale_about (norm (vsub v v) / norm (vsub RIGHT LEFT)) LEFT
                            (set_points_as_corners [LEFT; RIGHT]))) = point_arc v.
Proof.
  rewrite vsub_diag, norm_zero. replace (0 / norm (vsub RIGHT LEFT)) with 0 by (unfold Rdiv; ring).
  rewrite corners_LEFT_RIGHT. unfold shift, rotate_about, scale_about, rotate_vector, point_arc.
  simpl. repeat f_equal; vec.
Qed.

Lemma point_normals_parallel (v : vec3) : normals_parallel v v v v.
Proof. unfold normals_parallel. simpl. ring. Qed.

Lemma straight_no_length : no_length_at_a_point straight_collaborator.
Proof.
  intros v. unfold point_arc. simpl. rewrite vsub_diag, norm_zero. ring.
Qed.

Section RoundCorners.
Context `{Collaborator}.

Lemma put_corners_on_a_point (v : vec3) (s : state) :
  points (self s) = set_points_as_corners [LEFT; RIGHT] ->
  exists s', put_start_and_end_on v v s = Return tt s' /\
             points (self s') = point_arc v /\ keeps_attributes s s'.
Proof.
  intros Ep. unfold put_start_and_end_on.
  erewrite bind_return by reflexivity. rewrite Ep.
  erewrite bind_return by reflexivity.
  erewrite bind_return by reflexivity.
  unfold endpoints_map.
  assert (Hv : vsub RIGHT LEFT = V3 2 0 0) by vec.
  rewrite vec3_eqb_false by (rewrite Hv; simpl; lra).
  erewrite bind_return by reflexivity.
  cbv beta. rewrite collapse_corners.
  eexists. split; [reflexivity|]. split; [reflexivity|]. repeat split.
Qed.

(* ArcBetweenPoints(v, v, angle=0): four control points on v *)
Lemma arc_between_a_point (v : vec3) :
  exists s,
    ArcBetweenPoints.__init__ v v 0 None ArcBetweenPoints.no_kwargs fresh = Return tt s /\
    points (self s) = point_arc v /\ radius (self s) = Inf.
Proof.
  destruct (ArcProperties.arc_init_points 0 0 1 ORIGIN 9) as (s2 & E2 & _); [lia|].
  unfold ArcBetweenPoints.__init__.
  erewrite bind_return by reflexivity.
  erewrite bind_return by exact E2.
  rewrite Req_dec_T_refl.
  erewrite bind_return by reflexivity.
  match goal with |- context [bind (put_start_and_end_on v v) _ ?s] =>
    destruct (put_corners_on_a_point v s eq_refl) as (s3 & E3 & Ep3 & _) end.
  erewrite bind_return by exact E3.
  erewrite bind_return by (apply (ArcProperties.get_arc_center_degenerate false s3 v v v v []);
                           [exact Ep3|apply point_normals_parallel]).
  erewrite bind_return by reflexivity.
  eexists. split; [reflexivity|]. simpl. auto.
Qed.

Lemma corner_arc_zero (v1 v2 v3 : vec3) :
  corner_arc 0 (v1, v2, v3) = Ok (point_arc v2).
Proof.
  unfold corner_arc. rewrite sign_0, Rmult_0_r, !Rmult_0_l, Rmult_0_r.
  replace (vsub v2 (smul 0 (normalize (vsub v2 v1)))) with v2 by vec.
  replace (vadd v2 (smul 0 (normalize (vsub v3 v2)))) with v2 by vec.
  destruct (arc_between_a_point v2) as (s & E & Ep & _). rewrite E, Ep. reflexivity.
Qed.

Lemma corner_arcs_zero (tuples : list (vec3 * vec3 * vec3)) :
  mapM (corner_arc 0) tuples = Ok (map (fun t => point_arc (snd (fst t))) tuples).
Proof.
  induction tuples as [|[[v1 v2] v3] tuples IH]; [reflexivity|].
  cbn [mapM map]. rewrite corner_arc_zero, IH. reflexivity.
Qed.

(* Line(start, end) with the default buff of a Line, 0 *)
Lemma line_init_without_buff (start end_ : vec3) :
  Tipable.Line___init__ start end_ 0 None Tipable.fresh =
    Return tt (Tipable.straight_line start end_ 0 None).
Proof.
  unfold Tipable.Line___init__, Tipable.Line_generate_points, Tipable.account_for_buff. simpl.
  rewrite Req_dec_T_refl. reflexivity.
Qed.

Lemma straight_line_length start end_ buff path_arc :
  Tipable.get_length (Tipable.straight_line start end_ buff path_arc) =
    Return (norm (vsub start end_)) (Tipable.straight_line start end_ buff path_arc).
Proof. reflexivity. Qed.

(* the first step of the second loop, for an arc on a point *)
Lemma append_point_arc (v : vec3) (arc2 : path) (v' : vec3) (ps : path) :
  no_length_at_a_point H ->
  VMobject_get_start arc2 = Ok v' ->
  exists e,
    append_arc_and_line (point_arc v) arc2 ps = Throw e (ps ++ point_arc v) /\
    (e = OverflowError \/ e = ValueError "cannot convert float NaN to integer").
Proof.
  intros Hzero E2. unfold append_arc_and_line.
  erewrite bind_return by reflexivity.
  erewrite bind_return by reflexivity.
  rewrite E2. erewrite bind_return by reflexivity.
  unfold connector. rewrite line_init_without_buff.
  erewrite bind_return by reflexivity.
  rewrite straight_line_length.
  erewrite bind_return by reflexivity.
  rewrite Hzero.
  unfold np_div. rewrite Req_dec_T_refl.
  change (get_num_curves (point_arc v)) with 1%Z.
  destruct (Rlt_dec 0 (norm (vsub v v'))) as [Hpos|Hnpos].
  - exists OverflowError. split; [reflexivity|left; reflexivity].
  - destruct (Rlt_dec (norm (vsub v v')) 0) as [Hneg|_].
    + pose proof (norm_nonneg (vsub v v')). lra.
    + eexists. split; [reflexivity|right; reflexivity].
Qed.

(** C2, as the code has it: on every polygon round_corners(0) raises.  Each
    corner arc is ArcBetweenPoints(v, v, angle=0), four control points on
    the vertex; the path is cleared, the first of these arcs is appended,
    and the ratio of the length of the connecting line to the arc length 0
    is infinite or not a number, which int() refuses.  The points left
    behind are that one arc, not the polygon. *)
Theorem round_corners_zero_raises (ps : path) :
  no_length_at_a_point H ->
  get_vertices ps <> [] ->
  exists e v,
    round_corners 0 ps = Throw e (point_arc v) /\
    (e = OverflowError \/ e = ValueError "cannot convert float NaN to integer").
Proof.
  intros Hzero Hne. unfold round_corners.
  erewrite bind_return by reflexivity.
  rewrite corner_arcs_zero.
  erewrite bind_return by reflexivity.
  erewrite bind_return by reflexivity.
  pose proof (adjacent_3_tuples_nonempty _ Hne) as Ht.
  set (arcs := map _ (adjacent_3_tuples (get_vertices ps))).
  assert (Harcs : Forall (fun a => exists v, a = point_arc v) arcs).
  { unfold arcs. apply Forall_forall. intros a Ha.
    apply list_elem_of_In, in_map_iff in Ha as (t & <- & _). eauto. }
  destruct (last arcs) as [arc_last|] eqn:El.
  2:{ apply last_None in El. unfold arcs in El. apply map_eq_nil in El. contradiction. }
  assert (Hlast : exists v, arc_last = point_arc v).
  { apply last_Some in El as (l' & El). rewrite El in Harcs.
    apply Forall_app in Harcs as [_ Hl]. inversion Hl; assumption. }
  destruct Hlast as (v & ->).
  assert (Hrest : Forall (fun a => exists v, a = point_arc v) (removelast arcs)).
  { apply last_Some in El as (l' & El). rewrite El, removelast_last.
    rewrite El in Harcs. apply Forall_app in Harcs as [Hl _]. exact Hl. }
  unfold adjacent_pairs, rotate_left. simpl drop. simpl take.
  destruct (removelast arcs) as [|arc2 rest]; simpl.
  - destruct (append_point_arc v (point_arc v) v [] Hzero eq_refl) as (e & E & He).
    exists e, v. split; [|exact He]. erewrite bind_throw by exact E. reflexivity.
  - inversion Hrest as [|? ? (v' & ->) _]; subst.
    destruct (append_point_arc v (point_arc v') v' [] Hzero eq_refl) as (e & E & He).
    exists e, v. split; [|exact He]. erewrite bind_throw by exact E. reflexivity.
Qed.

End RoundCorners.

(* Polygon(UL, UR, DR, DL).round_corners(0), the path of a
   RoundedRectangle with corner_radius 0 *)
Lemma round_corners_zero_raises_witness :
  let ps := set_points_as_corners [UL; UR; DR; DL; UL] in
  Polygon.__init__ [UL; UR; DR; DL] = Ok ps /\
  no_length_at_a_point straight_collaborator /\
  get_vertices ps <> [] /\
  exists e v,
    round_corners (H := straight_collaborator) 0 ps = Throw e (point_arc v) /\
    (e = OverflowError \/ e = ValueError "cannot convert float NaN to integer").
Proof.
  cbv zeta. split; [reflexivity|]. split; [exact straight_no_length|].
  assert (Hne : get_vertices (set_points_as_corners [UL; UR; DR; DL; UL]) <> [])
    by discriminate.
  split; [exact Hne|].
  exact (round_corners_zero_raises (H := straight_collaborator) _ straight_no_length Hne).
Defined.

End PolygonProperties.

(** * Tiling.transform_tile *)

Module TilingProperties.
Import Tiling.
Local Open Scope Z_scope.

Lemma div_step (x k : Z) :
  0 < k -> 1 <= x -> x / k = (x - 1) / k + (if (x mod k =? 0) then 1 else 0).
Proof.
  intros Hk Hx.
  pose proof (Z.div_mod x k ltac:(lia)) as Hdm.
  pose proof (Z.mod_pos_bound x k Hk) as Hb.
  destruct (x mod k =? 0) eqn:E.
  - apply Z.eqb_eq in E. symmetry.
    assert ((x - 1) / k = x / k - 1); [|lia].
    symmetry. apply (Z.div_unique (x - 1) k (x / k - 1) (k - 1)); lia.
  - apply Z.eqb_neq in E. symmetry.
    assert ((x - 1) / k = x / k); [|lia].
    symmetry. apply (Z.div_unique (x - 1) k (x / k) (x mod k - 1)); lia.
Qed.

(* len(range(i, n, k)) counts the numbers i, i + k, ... below n *)
Lemma count_steps_closed (k i : Z) (n : nat) :
  0 < k -> 0 <= i ->
  count_steps k i (Z.of_nat n) =
    if i <? Z.of_nat n then (Z.of_nat n - i - 1) / k + 1 else 0.
Proof.
  intros Hk Hi. unfold count_steps. rewrite Nat2Z.id.
  induction n as [|n IH].
  - replace (i <? Z.of_nat 0) with false by (symmetry; apply Z.ltb_ge; simpl; lia). reflexivity.
  - rewrite seq_S, map_app, List.filter_app, length_app, Nat2Z.inj_add, IH. simpl map.
    cbn [List.filter]. replace (Z.of_nat (0 + n)) with (Z.of_nat n) by (f_equal; lia).
    destruct (i <? Z.of_nat (S n)) eqn:E1.
    + apply Z.ltb_lt in E1. destruct (i <? Z.of_nat n) eqn:E2.
      * apply Z.ltb_lt in E2.
        replace (i <=? Z.of_nat n) with true by (symmetry; apply Z.leb_le; lia).
        rewrite andb_true_r.
        replace (Z.of_nat (S n) - i - 1) with (Z.of_nat n - i) by lia.
        rewrite (div_step (Z.of_nat n - i) k) by lia.
        destruct ((Z.of_nat n - i) mod k =? 0); simpl; lia.
      * apply Z.ltb_ge in E2. assert (i = Z.of_nat n) as -> by lia.
        rewrite Z.sub_diag, Z.mod_0_l by lia. rewrite Z.leb_refl. simpl.
        replace (Z.of_nat (S n) - Z.of_nat n - 1) with 0 by lia.
        rewrite Z.div_0_l by lia. reflexivity.
    + apply Z.ltb_ge in E1. destruct (i <? Z.of_nat n) eqn:E2; [apply Z.ltb_lt in E2; lia|].
      replace (i <=? Z.of_nat n) with false by (symmetry; apply Z.leb_gt; lia).
      rewrite andb_false_r. simpl. reflexivity.
Qed.

Lemma count_steps_closed_Z (k i b : Z) :
  0 < k -> 0 <= i -> 0 <= b ->
  count_steps k i b = if i <? b then (b - i - 1) / k + 1 else 0.
Proof.
  intros Hk Hi Hb. pose proof (count_steps_closed k i (Z.to_nat b) Hk Hi) as Hc.
  rewrite Z2Nat.id in Hc by lia. exact Hc.
Qed.

Lemma magnitude_count (k i p : Z) :
  0 < k -> 0 <= i ->
  magnitude k i p = Ok (signed_count k i p).
Proof.
  intros Hk Hi. unfold magnitude, signed_count, range_len.
  destruct (p <? 0) eqn:Ep.
  - apply Z.ltb_lt in Ep.
    replace (0 <? - k) with false by (symmetry; apply Z.ltb_ge; lia).
    replace (- k <? 0) with true by (symmetry; apply Z.ltb_lt; lia).
    f_equal. rewrite count_steps_closed_Z by lia.
    destruct (p <? - i) eqn:E1, (i <? - p) eqn:E2;
      try apply Z.ltb_lt in E1; try apply Z.ltb_lt in E2;
      try apply Z.ltb_ge in E1; try apply Z.ltb_ge in E2; try lia.
    replace (- i - p - 1) with (- p - i - 1) by lia.
    replace (- - k) with k by lia. lia.
  - apply Z.ltb_ge in Ep.
    replace (0 <? k) with true by (symmetry; apply Z.ltb_lt; lia).
    f_equal. rewrite count_steps_closed_Z by lia. reflexivity.
Qed.

Lemma for_range_fold {S} (body : nat -> S -> result S) (g : nat -> S -> S)
    (start count : nat) (s : S) :
  (forall i s', (start <= i < start + count)%nat -> body i s' = Ok (g i s')) ->
  for_range body start count s = Ok (fold_left (fun s' i => g i s') (seq start count) s).
Proof.
  revert start s. induction count as [|count IH]; intros start s Hb; [reflexivity|].
  simpl. rewrite Hb by lia. apply IH. intros i s' Hi. apply Hb. lia.
Qed.

Section Rules.
Context {T V : Type} (times : Z -> V -> V).

Lemma lookup_single_pairs (rules : list ((T -> V -> T) * V)) i :
  single_pairs rules !! i = option_map (fun r => [Method (fst r); Value (snd r)]) (rules !! i).
Proof.
  unfold single_pairs. revert i. induction rules as [|r rules IH]; intros [|i]; simpl; auto.
Qed.

Lemma transform_tile_single_pairs (rules : list ((T -> V -> T) * V)) (position : Z) (tile : T) :
  transform_tile times position (single_pairs rules) tile =
    Ok (fold_left (apply_rule times rules position) (seq 0 (length rules)) tile).
Proof.
  unfold transform_tile.
  assert (Hlen : length (single_pairs rules) = length rules).
  { unfold single_pairs. apply length_map. }
  rewrite Hlen.
  apply (for_range_fold _ (fun i tile => apply_rule times rules position tile i)).
  intros i tile' Hi.
  rewrite lookup_single_pairs.
  destruct (rules !! i) as [r|] eqn:Er; [|apply lookup_ge_None in Er; lia].
  cbn [option_map length Nat.div Nat.divmod fst snd for_range].
  rewrite magnitude_count by lia.
  unfold apply_rule, rule_index.
  destruct (position <? 0).
  - rewrite lookup_single_pairs.
    destruct (rules !! (length rules - 1 - i)%nat) as [r'|] eqn:Er';
      [|apply lookup_ge_None in Er'; lia].
    reflexivity.
  - rewrite Er. reflexivity.
Qed.

End Rules.

Lemma count_all (b : Z) : 0 <= b -> count_steps 1 0 b = b.
Proof.
  intros Hb. rewrite count_steps_closed_Z by lia.
  destruct (0 <? b) eqn:E.
  - rewrite Z.div_1_r. lia.
  - apply Z.ltb_ge in E. lia.
Qed.

Lemma signed_count_all (p : Z) : signed_count 1 0 p = p.
Proof.
  unfold signed_count. destruct (p <? 0) eqn:E.
  - apply Z.ltb_lt in E. rewrite count_all by lia. lia.
  - apply Z.ltb_ge in E. apply count_all. lia.
Qed.

Lemma single_shift (n : Z) (v tile : vec3) :
  transform_tile times_vec n [[Method Mobject_shift; Value v]] tile =
    Ok (vadd tile (smul (IZR n) v)).
Proof.
  change [[Method Mobject_shift; Value v]] with (single_pairs [(Mobject_shift, v)]).
  rewrite transform_tile_single_pairs. simpl. unfold apply_rule, rule_index. simpl.
  destruct (n <? 0); simpl; rewrite signed_count_all; reflexivity.
Qed.

(** C6, as the code has it: with k rules, the magnitude for the loop index
    i < k at the coordinate p is the number of i, i + k, i + 2k, ... in the
    interval from 0 (included) to |p| (excluded), negated when p is
    negative; transform_tile applies, for each i in turn, the rule at the
    index i, or at k - 1 - i when p is negative, with that magnitude; and
    with the one rule [shift by v] the tile at the coordinate n is
    translated by n * v, for every n of either sign. *)
Theorem tiling_magnitude_and_shift {T V : Type} (times : Z -> V -> V)
    (rules : list ((T -> V -> T) * V)) (i : nat) (p : Z) (tile : T) :
  (i < length rules)%nat ->
  magnitude (Z.of_nat (length rules)) (Z.of_nat i) p =
    Ok (signed_count (Z.of_nat (length rules)) (Z.of_nat i) p) /\
  transform_tile times p (single_pairs rules) tile =
    Ok (fold_left (apply_rule times rules p) (seq 0 (length rules)) tile) /\
  (forall (n : Z) (v position : vec3),
     transform_tile times_vec n [[Method Mobject_shift; Value v]] position =
       Ok (vadd position (smul (IZR n) v))).
Proof.
  intros Hi. split; [|split].
  - apply magnitude_count; lia.
  - apply transform_tile_single_pairs.
  - exact single_shift.
Qed.

Lemma tiling_magnitude_and_shift_witness :
  let rules := [(Mobject_shift, RIGHT); (Mobject_shift, UP)] in
  (1 < length rules)%nat /\
  magnitude (Z.of_nat (length rules)) (Z.of_nat 1) (-3) =
    Ok (signed_count (Z.of_nat (length rules)) (Z.of_nat 1) (-3)) /\
  transform_tile times_vec (-3) (single_pairs rules) ORIGIN =
    Ok (fold_left (apply_rule times_vec rules (-3)) (seq 0 (length rules)) ORIGIN) /\
  (forall (n : Z) (v position : vec3),
     transform_tile times_vec n [[Method Mobject_shift; Value v]] position =
       Ok (vadd position (smul (IZR n) v))).
Proof.
  cbv zeta. split; [simpl; lia|].
  apply (tiling_magnitude_and_shift times_vec
           [(Mobject_shift, RIGHT); (Mobject_shift, UP)] 1 (-3) ORIGIN).
  simpl; lia.
Defined.

(* one rule, the coordinate 1: the magnitude is 1, and no multiple of 1
   lies strictly between 0 and 1 *)
Lemma magnitude_counts_zero :
  magnitude 1 0 1 = Ok 1 /\ count_strictly_between 1 0 1 = 0 /\
  magnitude 1 0 1 <> Ok (count_strictly_between 1 0 1).
Proof.
  assert (Hm : magnitude 1 0 1 = Ok 1) by reflexivity.
  assert (Hc : count_strictly_between 1 0 1 = 0) by reflexivity.
  split; [exact Hm|]. split; [exact Hc|]. rewrite Hm, Hc. discriminate.
Qed.

End TilingProperties.


(** * More on Tiling *)

Module TilingFacts.
Import Tiling.
Local Open Scope Z_scope.

(** ** The magnitudes of one coordinate add up to the coordinate *)

Lemma count_steps_succ (k i : Z) (n : nat) :
  count_steps k i (Z.of_nat (S n)) =
    count_steps k i (Z.of_nat n) +
    (if ((Z.of_nat n - i) mod k =? 0) && (i <=? Z.of_nat n) then 1 else 0).
Proof.
  unfold count_steps. rewrite !Nat2Z.id.
  rewrite seq_S, map_app, List.filter_app, length_app, Nat2Z.inj_add.
  f_equal. cbn [map List.filter Nat.add].
  destruct (((Z.of_nat n - i) mod k =? 0) && (i <=? Z.of_nat n))%bool; reflexivity.
Qed.

Lemma sumZ_map_add {A} (f g : A -> Z) (l : list A) :
  sumZ (map (fun x => f x + g x) l) = sumZ (map f l) + sumZ (map g l).
Proof. induction l as [|x l IH]; simpl; [reflexivity|]. rewrite IH. lia. Qed.

Lemma sumZ_app (l1 l2 : list Z) : sumZ (l1 ++ l2) = sumZ l1 + sumZ l2.
Proof. induction l1 as [|x l1 IH]; simpl; [reflexivity|]. rewrite IH. lia. Qed.

Lemma sumZ_zero {A} (f : A -> Z) (l : list A) :
  (forall x, In x l -> f x = 0) -> sumZ (map f l) = 0.
Proof.
  induction l as [|x l IH]; intros Hf; simpl; [reflexivity|].
  rewrite (Hf x) by (left; reflexivity). rewrite IH; [reflexivity|].
  intros y Hy. apply Hf. right. exact Hy.
Qed.

(* among the indices below k, exactly n mod k passes the test of step n *)
Lemma one_rule_per_step (k : nat) (n : nat) :
  (0 < k)%nat ->
  sumZ (map (fun i : nat =>
               if ((Z.of_nat n - Z.of_nat i) mod Z.of_nat k =? 0) && (Z.of_nat i <=? Z.of_nat n)
               then 1 else 0) (seq 0 k)) = 1.
Proof.
  intros Hk.
  set (r := (n mod k)%nat).
  assert (Hr : (r < k)%nat) by (apply Nat.mod_upper_bound; lia).
  assert (Hn : n = (k * (n / k) + r)%nat) by (apply Nat.div_mod_eq).
  set (f := fun i : nat =>
               if ((Z.of_nat n - Z.of_nat i) mod Z.of_nat k =? 0) && (Z.of_nat i <=? Z.of_nat n)
               then 1 else 0).
  assert (Hsplit : seq 0 k = seq 0 r ++ [r] ++ seq (S r) (k - S r)).
  { replace k with (r + (1 + (k - S r)))%nat at 1 by lia.
    rewrite seq_app. simpl. reflexivity. }
  assert (Hother : forall i : nat, (i < k)%nat -> i <> r -> f i = 0).
  { intros i Hi Hne. unfold f.
    destruct ((Z.of_nat n - Z.of_nat i) mod Z.of_nat k =? 0) eqn:E1; [|reflexivity].
    destruct (Z.of_nat i <=? Z.of_nat n) eqn:E2; [|reflexivity].
    exfalso. apply Hne. apply Z.eqb_eq in E1. apply Z.leb_le in E2.
    apply Nat2Z.inj_le in E2.
    replace (Z.of_nat n - Z.of_nat i) with (Z.of_nat (n - i)) in E1 by lia.
    rewrite <- Nat2Z.inj_mod in E1.
    assert (E : ((n - i) mod k = 0)%nat) by lia.
    apply Nat.Div0.mod_divides in E as (q & Hq).
    unfold r. apply (Nat.mod_unique n k q i); lia. }
  assert (Hself : f r = 1).
  { unfold f.
    replace (Z.of_nat n - Z.of_nat r) with (Z.of_nat (n / k) * Z.of_nat k) by lia.
    rewrite Z.mod_mul by lia. simpl.
    replace (Z.of_nat r <=? Z.of_nat n) with true; [reflexivity|].
    symmetry. apply Z.leb_le. lia. }
  rewrite Hsplit, !map_app, !sumZ_app.
  rewrite (sumZ_zero f (seq 0 r)) by (intros i Hi; apply in_seq in Hi; apply Hother; lia).
  rewrite (sumZ_zero f (seq (S r) (k - S r)))
    by (intros i Hi; apply in_seq in Hi; apply Hother; lia).
  cbn [map sumZ fold_right]. rewrite Hself. reflexivity.
Qed.

Lemma count_steps_sum (k n : nat) :
  (0 < k)%nat ->
  sumZ (map (fun i : nat => count_steps (Z.of_nat k) (Z.of_nat i) (Z.of_nat n)) (seq 0 k)) =
    Z.of_nat n.
Proof.
  intros Hk. induction n as [|n IH].
  - apply sumZ_zero. intros i _. reflexivity.
  - rewrite (map_ext _ (fun i : nat =>
               count_steps (Z.of_nat k) (Z.of_nat i) (Z.of_nat n) +
               (if ((Z.of_nat n - Z.of_nat i) mod Z.of_nat k =? 0) &&
                   (Z.of_nat i <=? Z.of_nat n) then 1 else 0)))
      by (intros i; apply count_steps_succ).
    rewrite sumZ_map_add, IH, one_rule_per_step by exact Hk. lia.
Qed.

Lemma sumZ_map_opp {A} (f : A -> Z) (l : list A) :
  sumZ (map (fun x => - f x) l) = - sumZ (map f l).
Proof. induction l as [|x l IH]; simpl; [reflexivity|]. rewrite IH. lia. Qed.

Lemma signed_count_sum (k : nat) (p : Z) :
  (0 < k)%nat ->
  sumZ (map (fun i : nat => signed_count (Z.of_nat k) (Z.of_nat i) p) (seq 0 k)) = p.
Proof.
  intros Hk. unfold signed_count. destruct (p <? 0) eqn:E.
  - apply Z.ltb_lt in E. rewrite sumZ_map_opp.
    assert (Hp : - p = Z.of_nat (Z.to_nat (- p))) by lia.
    rewrite Hp, count_steps_sum by exact Hk. lia.
  - apply Z.ltb_ge in E.
    destruct (Z_of_nat_complete p E) as [n ->].
    apply count_steps_sum. exact Hk.
Qed.

Lemma sum_results_ok (l : list Z) : sum_results (map Ok l) = Ok (sumZ l).
Proof. induction l as [|x l IH]; simpl; [reflexivity|]. rewrite IH. reflexivity. Qed.

(** X4: With k rules on an axis, the magnitudes that transform_tile computes
    for the k loop indices at the coordinate p are all defined and add up
    to p: going one step further along the axis applies exactly one more
    rule, on either side of the origin. *)
Theorem magnitudes_add_up (k : nat) (p : Z) :
  (0 < k)%nat ->
  sum_results (map (fun i : nat => magnitude (Z.of_nat k) (Z.of_nat i) p) (seq 0 k)) = Ok p.
Proof.
  intros Hk.
  rewrite (map_ext _ (fun i : nat => Ok (signed_count (Z.of_nat k) (Z.of_nat i) p)))
    by (intros i; apply TilingProperties.magnitude_count; lia).
  rewrite <- (map_map (fun i : nat => signed_count (Z.of_nat k) (Z.of_nat i) p) Ok).
  rewrite sum_results_ok, signed_count_sum by exact Hk. reflexivity.
Qed.

Lemma magnitudes_add_up_witness :
  (0 < 3)%nat /\
  sum_results (map (fun i : nat => magnitude (Z.of_nat 3) (Z.of_nat i) (-7)) (seq 0 3)) =
    Ok (-7).
Proof.
  split; [lia|]. apply (magnitudes_add_up 3 (-7)). lia.
Defined.

(** ** The grid of tiles *)

Lemma range_inclusive (a b : Z) :
  range_elements a (b + 1) 1 =
    Ok (map (fun i : nat => a + Z.of_nat i * 1) (seq 0 (Z.to_nat (b + 1 - a)))).
Proof.
  unfold range_elements, range_len. cbn [Z.ltb Z.compare].
  destruct (a <? b + 1) eqn:E.
  - apply Z.ltb_lt in E. rewrite Z.div_1_r.
    replace (b + 1 - a - 1 + 1) with (b + 1 - a) by lia. reflexivity.
  - apply Z.ltb_ge in E. replace (Z.to_nat (b + 1 - a)) with O by lia. reflexivity.
Qed.

Lemma in_range_inclusive (a b x : Z) :
  In x (map (fun i : nat => a + Z.of_nat i * 1) (seq 0 (Z.to_nat (b + 1 - a)))) <->
  a <= x <= b.
Proof.
  rewrite in_map_iff. split.
  - intros (i & <- & Hi). apply in_seq in Hi. lia.
  - intros Hx. exists (Z.to_nat (x - a)). split; [lia|]. apply in_seq. lia.
Qed.

Section GridFacts.
Context {T V : Type} (times : Z -> V -> V).
Variables (p : prototype T) (rx ry : list ((T -> V -> T) * V)).

Lemma apply_transforms_single_pairs (x y : Z) (tile : T) :
  apply_transforms times x y (single_pairs rx) (single_pairs ry) tile =
    Ok (placed times rx ry x y tile).
Proof.
  unfold apply_transforms, placed.
  rewrite !TilingProperties.transform_tile_single_pairs. reflexivity.
Qed.

Lemma row_after_lookup (x : Z) (ys : list Z) (row : gmap Z T) (y : Z) :
  row_after times p rx ry x ys row !! y =
    if decide (y ∈ ys) then Some (placed times rx ry x y (new_tile p x y)) else row !! y.
Proof.
  unfold row_after. revert row. induction ys as [|y0 ys IH]; intros row; [reflexivity|].
  cbn [fold_left]. rewrite IH.
  destruct (decide (y ∈ ys)) as [Hin|Hnin].
  - rewrite decide_True by (right; exact Hin). reflexivity.
  - destruct (decide (y0 = y)) as [->|Hne].
    + rewrite lookup_insert_eq, decide_True by left. reflexivity.
    + rewrite lookup_insert_ne by exact Hne.
      rewrite decide_False; [reflexivity|].
      intros Hin. apply elem_of_cons in Hin as [->|Hin]; contradiction.
Qed.

Lemma row_loop_single_pairs (x : Z) (ys : list Z) (self : tiling T) (row : gmap Z T) :
  tile_dictionary self !! x = Some row ->
  row_loop times p (single_pairs rx) (single_pairs ry) x ys self =
    Ok (mkTiling (tiles self ++ map (fun y => placed times rx ry x y (new_tile p x y)) ys)
                 (<[x := row_after times p rx ry x ys row]> (tile_dictionary self))).
Proof.
  revert self row. induction ys as [|y ys IH]; intros self row Hrow.
  - simpl. rewrite app_nil_r. unfold row_after. simpl.
    rewrite insert_id by exact Hrow. destruct self; reflexivity.
  - cbn [row_loop]. rewrite apply_transforms_single_pairs, Hrow.
    rewrite (IH _ (<[y := placed times rx ry x y (new_tile p x y)]> row))
      by (simpl; apply lookup_insert_eq).
    simpl. rewrite <- app_assoc, insert_insert_eq. reflexivity.
Qed.

Lemma dictionary_after_lookup (xs ys : list Z) (d : gmap Z (gmap Z T)) (x : Z) :
  dictionary_after times p rx ry xs ys d !! x =
    if decide (x ∈ xs) then Some (row_after times p rx ry x ys ∅) else d !! x.
Proof.
  unfold dictionary_after. revert d. induction xs as [|x0 xs IH]; intros d; [reflexivity|].
  cbn [fold_left]. rewrite IH.
  destruct (decide (x ∈ xs)) as [Hin|Hnin].
  - rewrite decide_True by (right; exact Hin). reflexivity.
  - destruct (decide (x0 = x)) as [->|Hne].
    + rewrite lookup_insert_eq, decide_True by left. reflexivity.
    + rewrite lookup_insert_ne by exact Hne.
      rewrite decide_False; [reflexivity|].
      intros Hin. apply elem_of_cons in Hin as [->|Hin]; contradiction.
Qed.

Lemma tile_init_loop_single_pairs (xs ys : list Z) (self : tiling T) :
  tile_init_loop times p (single_pairs rx) (single_pairs ry) xs ys self =
    Ok (mkTiling
          (tiles self ++
           flat_map (fun x => map (fun y => placed times rx ry x y (new_tile p x y)) ys) xs)
          (dictionary_after times p rx ry xs ys (tile_dictionary self))).
Proof.
  revert self. induction xs as [|x xs IH]; intros self.
  - simpl. rewrite app_nil_r. destruct self; reflexivity.
  - cbn [tile_init_loop].
    rewrite (row_loop_single_pairs x ys _ ∅) by (simpl; apply lookup_insert_eq).
    rewrite IH. simpl. rewrite <- app_assoc, insert_insert_eq. reflexivity.
Qed.

End GridFacts.

Lemma flat_map_rows_length {A B} (f : A -> A -> B) (xs ys : list A) :
  length (flat_map (fun x => map (f x) ys) xs) = (length xs * length ys)%nat.
Proof.
  induction xs as [|x xs IH]; simpl; [reflexivity|].
  rewrite length_app, length_map, IH. reflexivity.
Qed.

Lemma init_single_pairs {T V : Type} (times : Z -> V -> V) (p : prototype T)
    (rx ry : list ((T -> V -> T) * V)) (a b c d : Z) :
  let xs := map (fun i : nat => a + Z.of_nat i * 1) (seq 0 (Z.to_nat (b + 1 - a))) in
  let ys := map (fun i : nat => c + Z.of_nat i * 1) (seq 0 (Z.to_nat (d + 1 - c))) in
  __init__ times p (single_pairs rx) (single_pairs ry) (mkRange a b 1) (mkRange c d 1) =
    Ok (mkTiling
          (flat_map (fun x => map (fun y => placed times rx ry x y (new_tile p x y)) ys) xs)
          (dictionary_after times p rx ry xs ys ∅)).
Proof.
  cbv zeta. unfold __init__. cbn [r_start r_stop r_step].
  rewrite !range_inclusive, tile_init_loop_single_pairs. reflexivity.
Qed.

(** X5: With ranges of step 1 and offset lists whose sublists hold one method
    and its argument, the constructor returns a tiling whose dictionary
    has a tile exactly at the locations (x, y) with
    [start <= x <= stop] and [start <= y <= stop], both stops included;
    the tile at (x, y) is the prototype (or what the function returns at
    (x, y)) after the rules of the x-axis and then those of the y-axis;
    and as many tiles were added as there are locations. *)
Theorem tile_grid {T V : Type} (times : Z -> V -> V) (p : prototype T)
    (rx ry : list ((T -> V -> T) * V)) (a b c d : Z) :
  exists s,
    __init__ times p (single_pairs rx) (single_pairs ry) (mkRange a b 1) (mkRange c d 1) = Ok s /\
    length (tiles s) = (Z.to_nat (b + 1 - a) * Z.to_nat (d + 1 - c))%nat /\
    forall x y,
      tile_at s x y =
        if (a <=? x) && (x <=? b) && (c <=? y) && (y <=? d)
        then Some (placed times rx ry x y (new_tile p x y))
        else None.
Proof.
  eexists. split; [apply init_single_pairs|]. split.
  - cbn [tiles]. rewrite flat_map_rows_length, !length_map, !length_seq. reflexivity.
  - intros x y. unfold tile_at. cbn [tile_dictionary].
    rewrite dictionary_after_lookup.
    destruct (decide (x ∈ _)) as [Hx|Hx].
    + apply list_elem_of_In, in_range_inclusive in Hx.
      replace (a <=? x) with true by (symmetry; apply Z.leb_le; lia).
      replace (x <=? b) with true by (symmetry; apply Z.leb_le; lia).
      rewrite row_after_lookup, lookup_empty. cbn [andb].
      destruct (decide (y ∈ _)) as [Hy|Hy].
      * apply list_elem_of_In, in_range_inclusive in Hy.
        replace (c <=? y) with true by (symmetry; apply Z.leb_le; lia).
        replace (y <=? d) with true by (symmetry; apply Z.leb_le; lia).
        reflexivity.
      * destruct ((c <=? y) && (y <=? d)) eqn:E; [|reflexivity].
        exfalso. apply Hy. apply list_elem_of_In, in_range_inclusive.
        apply andb_true_iff in E as [E1 E2].
        apply Z.leb_le in E1. apply Z.leb_le in E2. lia.
    + rewrite lookup_empty.
      destruct ((a <=? x) && (x <=? b)) eqn:E; [|reflexivity].
      exfalso. apply Hx. apply list_elem_of_In, in_range_inclusive.
      apply andb_true_iff in E as [E1 E2].
      apply Z.leb_le in E1. apply Z.leb_le in E2. lia.
Qed.

Lemma placed_shifts (v w t : vec3) (x y : Z) :
  placed times_vec [(Mobject_shift, v)] [(Mobject_shift, w)] x y t =
    vadd (vadd t (smul (IZR x) v)) (smul (IZR y) w).
Proof.
  unfold placed, apply_rule, rule_index. simpl.
  destruct (x <? 0), (y <? 0); simpl; rewrite !TilingProperties.signed_count_all; reflexivity.
Qed.

(** X6: The example of the docstring: with [x_offset = [[shift, v]]] and
    [y_offset = [[shift, w]]] the tile of every location (x, y) of the
    ranges, stops included, is the prototype moved by [x * v + y * w]. *)
Theorem shift_grid (t v w : vec3) (a b c d x y : Z) :
  a <= x <= b -> c <= y <= d ->
  exists s,
    __init__ times_vec (Fixed t) [[Method Mobject_shift; Value v]]
      [[Method Mobject_shift; Value w]] (mkRange a b 1) (mkRange c d 1) = Ok s /\
    tile_at s x y = Some (vadd (vadd t (smul (IZR x) v)) (smul (IZR y) w)).
Proof.
  intros Hx Hy.
  eexists. split.
  - apply (init_single_pairs times_vec (Fixed t) [(Mobject_shift, v)] [(Mobject_shift, w)]).
  - unfold tile_at. cbn [tile_dictionary].
    rewrite dictionary_after_lookup.
    rewrite decide_True by (apply list_elem_of_In, in_range_inclusive; exact Hx).
    rewrite row_after_lookup.
    rewrite decide_True by (apply list_elem_of_In, in_range_inclusive; exact Hy).
    rewrite placed_shifts. reflexivity.
Qed.

(* Tiling(tile, [[shift, 2.1 RIGHT]], [[shift, 2.1 UP]], range(-1, 1),
   range(-1, 1)): the tile of the corner (1, -1) *)
Lemma shift_grid_witness :
  -1 <= 1 <= 1 /\ -1 <= -1 <= 1 /\
  exists s,
    __init__ times_vec (Fixed ORIGIN) [[Method Mobject_shift; Value (smul 2.1 RIGHT)]]
      [[Method Mobject_shift; Value (smul 2.1 UP)]] (mkRange (-1) 1 1) (mkRange (-1) 1 1) = Ok s /\
    tile_at s 1 (-1) =
      Some (vadd (vadd ORIGIN (smul (IZR 1) (smul 2.1 RIGHT))) (smul (IZR (-1)) (smul 2.1 UP))).
Proof.
  split; [lia|]. split; [lia|].
  apply (shift_grid ORIGIN (smul 2.1 RIGHT) (smul 2.1 UP) (-1) 1 (-1) 1 1 (-1)); lia.
Defined.

End TilingFacts.


(** * More on polygons *)

Module PolygonFacts.
Import Polygon.

(** ** The vertices of a polygon *)

Lemma start_anchors_of_curves (a1 h1 h2 a2 : list vec3) :
  length h1 = length a1 -> length h2 = length a1 -> length a2 = length a1 ->
  get_start_anchors (set_anchors_and_handles a1 h1 h2 a2) = a1.
Proof.
  revert h1 h2 a2.
  induction a1 as [|a a1 IH]; intros [|h h1] [|k h2] [|b a2]; simpl; try lia; [reflexivity|].
  intros ? ? ?. rewrite IH by lia. reflexivity.
Qed.

Lemma corners_lengths (corners : list vec3) (t : R) :
  length (zip_with (fun a b => interpolate a b t) (removelast corners) (tail corners)) =
    length (removelast corners) /\
  length (tail corners) = length (removelast corners).
Proof.
  rewrite length_zip_with, removelast_length, length_tail. lia.
Qed.

Lemma start_anchors_of_corners (corners : list vec3) :
  get_start_anchors (set_points_as_corners corners) = removelast corners.
Proof.
  unfold set_points_as_corners.
  destruct (corners_lengths corners (1 / 3)) as [L1 L3].
  destruct (corners_lengths corners (2 / 3)) as [L2 _].
  apply start_anchors_of_curves; assumption.
Qed.

Lemma corners_first_and_last (v : vec3) (vs : list vec3) (w : vec3) :
  VMobject_get_start (set_points_as_corners (v :: vs ++ [w])) = Ok v /\
  VMobject_get_end (set_points_as_corners (v :: vs ++ [w])) = Ok w.
Proof.
  set (corners := v :: vs ++ [w]).
  assert (Hrl : removelast corners = v :: vs).
  { unfold corners. rewrite app_comm_cons, removelast_last. reflexivity. }
  assert (Htl : tail corners = vs ++ [w]) by reflexivity.
  destruct (corners_lengths corners (1 / 3)) as [L1 L3].
  destruct (corners_lengths corners (2 / 3)) as [L2 _].
  pose proof (saah_length _ _ _ _ L1 L2 L3) as Hlen.
  fold (set_points_as_corners corners) in Hlen.
  split.
  - destruct (saah_lookup _ _ _ _ 0 L1 L2 L3) as [E0 _].
    fold (set_points_as_corners corners) in E0. rewrite Hrl in E0. simpl in E0.
    unfold VMobject_get_start.
    destruct (set_points_as_corners corners) as [|q qs]; [discriminate|].
    simpl in E0. injection E0 as ->. reflexivity.
  - destruct (saah_lookup _ _ _ _ (length vs) L1 L2 L3) as [_ E3].
    fold (set_points_as_corners corners) in E3. rewrite Htl in E3.
    rewrite lookup_app_r, Nat.sub_diag in E3 by lia.
    change ([w] !! 0%nat) with (Some w) in E3.
    unfold VMobject_get_end. rewrite last_lookup, Hlen, Hrl. cbn [length].
    replace (pred (4 * S (length vs))) with (4 * length vs + 3)%nat by lia.
    rewrite E3. reflexivity.
Qed.

(** X7: Polygon(v0, ..., vn).get_vertices() gives back the vertices, and the
    path of the polygon is closed: it starts and ends on v0.  Without
    vertices the constructor raises IndexError. *)
Theorem polygon_vertices (vs : list vec3) :
  match vs with
  | [] => __init__ vs = Err IndexError
  | v0 :: _ =>
      exists ps, __init__ vs = Ok ps /\
        get_vertices ps = vs /\
        length ps = (4 * length vs)%nat /\
        VMobject_get_start ps = Ok v0 /\ VMobject_get_end ps = Ok v0
  end.
Proof.
  destruct vs as [|v0 vs]; [reflexivity|].
  eexists. split; [reflexivity|].
  split; [|split].
  - unfold get_vertices. rewrite start_anchors_of_corners.
    rewrite removelast_last. reflexivity.
  - unfold set_points_as_corners.
    destruct (corners_lengths ((v0 :: vs) ++ [v0]) (1 / 3)) as [L1 L3].
    destruct (corners_lengths ((v0 :: vs) ++ [v0]) (2 / 3)) as [L2 _].
    rewrite (saah_length _ _ _ _ L1 L2 L3).
    rewrite removelast_last. reflexivity.
  - apply (corners_first_and_last v0 vs v0).
Qed.

Lemma init_gives_vertices (v0 : vec3) (vs : list vec3) :
  __init__ (v0 :: vs) = Ok (set_points_as_corners ((v0 :: vs) ++ [v0])) /\
  get_vertices (set_points_as_corners ((v0 :: vs) ++ [v0])) = v0 :: vs.
Proof.
  split; [reflexivity|].
  unfold get_vertices. rewrite start_anchors_of_corners, removelast_last. reflexivity.
Qed.

(** ** Regular polygons *)

Lemma rotate_RIGHT_twice (a b : R) :
  rotate_vector (rotate_vector RIGHT a) b = circle_point ORIGIN 1 (a + b).
Proof.
  apply vec3_eq; cbn [rotate_vector circle_point vadd smul vx vy vz RIGHT ORIGIN];
    rewrite ?cos_plus, ?sin_plus; ring.
Qed.

Lemma norm_circle_point (phi : R) : norm (circle_point ORIGIN 1 phi) = 1.
Proof.
  unfold norm. cbn [circle_point vadd smul vx vy vz ORIGIN].
  replace ((0 + 1 * cos phi) * (0 + 1 * cos phi) + (0 + 1 * sin phi) * (0 + 1 * sin phi) +
           (0 + 1 * 0) * (0 + 1 * 0))
    with ((sin phi)² + (cos phi)²) by (unfold Rsqr; ring).
  rewrite sin2_cos2. apply sqrt_1.
Qed.

Lemma quarter_turn : 90 * DEGREES = PI / 2.
Proof. unfold DEGREES, TAU. lra. Qed.

(** X8: RegularPolygon(n) with [n >= 1] has [n] vertices, all at distance 1
    from the origin, the vertex [k] at the angle
    [start_angle + k * TAU / n]; where no start angle is given it is 0 for
    an even [n] and a quarter turn for an odd one.  [n = 0] raises
    ZeroDivisionError and a negative [n] IndexError. *)
Theorem regular_polygon_vertices (n : Z) (start_angle : option R) :
  let a := match start_angle with
           | Some a => a
           | None => if (n mod 2 =? 0)%Z then 0 else PI / 2
           end in
  ((1 <= n)%Z ->
   exists ps, RegularPolygon___init__ n start_angle = Ok ps /\
     get_vertices ps =
       map (fun k => circle_point ORIGIN 1 (a + INR k * (TAU / IZR n))) (seq 0 (Z.to_nat n)) /\
     Forall (fun v => norm v = 1) (get_vertices ps)) /\
  (n = 0%Z -> RegularPolygon___init__ n start_angle = Err ZeroDivisionError) /\
  ((n < 0)%Z -> RegularPolygon___init__ n start_angle = Err IndexError).
Proof.
  cbv zeta. split; [|split].
  - intros Hn. unfold RegularPolygon___init__, compass_directions.
    rewrite py_div_ok by (apply not_0_IZR; lia).
    set (a := match start_angle with
              | Some a => a
              | None => if (n mod 2 =? 0)%Z then 0 else PI / 2
              end).
    replace (match start_angle with
             | Some a0 => a0
             | None => if (n mod 2 =? 0)%Z then 0 else 90 * DEGREES
             end) with a by (unfold a; rewrite quarter_turn; reflexivity).
    rewrite (map_ext _ (fun k => circle_point ORIGIN 1 (a + INR k * (TAU / IZR n))))
      by (intros k; apply rotate_RIGHT_twice).
    destruct (Z.to_nat n) as [|m] eqn:Em; [lia|].
    set (vs := map _ (seq 0 (S m))).
    assert (Hvs : exists v0 rest, vs = v0 :: rest) by (unfold vs; simpl; eauto).
    destruct Hvs as (v0 & rest & Evs). rewrite Evs.
    destruct (init_gives_vertices v0 rest) as [E Hv].
    eexists. split; [exact E|]. rewrite Hv. split; [reflexivity|].
    rewrite <- Evs. unfold vs. apply Forall_forall. intros v Hv'.
    apply list_elem_of_In, in_map_iff in Hv' as (k & <- & _). apply norm_circle_point.
  - intros ->. unfold RegularPolygon___init__, compass_directions, py_div.
    destruct (Req_dec_T (IZR 0) 0) as [_|Hne]; [reflexivity|]. exfalso. apply Hne. reflexivity.
  - intros Hn. unfold RegularPolygon___init__, compass_directions.
    rewrite py_div_ok by (apply not_0_IZR; lia).
    replace (Z.to_nat n) with O by lia. reflexivity.
Qed.

(* Triangle(): RegularPolygon(n=3) *)
Lemma regular_polygon_vertices_witness :
  (1 <= 3)%Z /\
  exists ps, RegularPolygon___init__ 3 None = Ok ps /\
    get_vertices ps =
      map (fun k => circle_point ORIGIN 1 (PI / 2 + INR k * (TAU / IZR 3))) (seq 0 3) /\
    Forall (fun v => norm v = 1) (get_vertices ps).
Proof.
  split; [lia|].
  apply (regular_polygon_vertices 3 None). lia.
Defined.

(** ** ArcPolygon *)

Section ArcPolygonFacts.
Context `{Collaborator}.

Lemma py_int_finite (r : R) : exists n, py_int (Finite r) = Ok n.
Proof. unfold py_int. eauto. Qed.

Lemma np_mul_int_finite (n : Z) (r : R) : np_mul_int n (Finite r) = Finite (IZR n * r).
Proof. reflexivity. Qed.

Lemma append_arc_and_gap_returns (arc1 arc2 ps : path) :
  arc1 <> [] -> arc2 <> [] ->
  append_arc_and_gap arc1 arc2 ps = Return tt (ps ++ arc1 ++ gap_points arc1 arc2).
Proof.
  intros H1 H2.
  assert (E1 : VMobject_get_end arc1 = Ok (default ORIGIN (last arc1))).
  { unfold VMobject_get_end. destruct (last arc1) eqn:El; [reflexivity|].
    apply last_None in El. contradiction. }
  assert (E2 : VMobject_get_start arc2 = Ok (default ORIGIN (head arc2))).
  { destruct arc2; [contradiction|reflexivity]. }
  unfold append_arc_and_gap, gap_points.
  erewrite bind_return by reflexivity.
  rewrite E1. erewrite bind_return by reflexivity.
  rewrite E2. erewrite bind_return by reflexivity.
  unfold connector. rewrite PolygonProperties.line_init_without_buff.
  erewrite bind_return by reflexivity.
  rewrite PolygonProperties.straight_line_length.
  erewrite bind_return by reflexivity.
  cbv zeta.
  destruct (np_div (norm (vsub (default ORIGIN (last arc1)) (default ORIGIN (head arc2))))
              (get_arc_length arc1)) as [r| | |]; cbn [is_finite negb];
    try (cbv [ret]; rewrite app_nil_r; reflexivity).
  destruct (py_int_finite (IZR (get_num_curves arc1) * r)) as (n & En).
  rewrite np_mul_int_finite, En.
  erewrite bind_return by reflexivity.
  cbv [modify]. rewrite <- app_assoc. reflexivity.
Qed.

Lemma for_each_gaps (pairs : list (path * path)) (ps : path) :
  Forall (fun a => fst a <> [] /\ snd a <> []) pairs ->
  for_each (fun a => append_arc_and_gap (fst a) (snd a)) pairs ps =
    Return tt (ps ++ flat_map (fun a => fst a ++ gap_points (fst a) (snd a)) pairs).
Proof.
  revert ps. induction pairs as [|[a1 a2] pairs IH]; intros ps Hne.
  - simpl. rewrite app_nil_r. reflexivity.
  - inversion Hne as [|? ? [Ha1 Ha2] Hrest]; subst. simpl in Ha1, Ha2.
    cbn [for_each fst snd].
    erewrite bind_return by (apply append_arc_and_gap_returns; assumption).
    rewrite IH by exact Hrest. cbn [flat_map fst snd].
    rewrite <- !app_assoc. reflexivity.
Qed.

Lemma adjacent_pairs_members {A} (l : list A) (a b : A) :
  (a, b) ∈ adjacent_pairs l -> a ∈ l /\ b ∈ l.
Proof.
  unfold adjacent_pairs, rotate_left. intros Hin. split.
  - apply (elem_of_zip_l _ _ _ _ Hin).
  - apply elem_of_zip_r in Hin. apply elem_of_app in Hin as [Hin|Hin].
    + apply (subseteq_drop 1 l). exact Hin.
    + apply (subseteq_take 1 l). exact Hin.
Qed.

(** X9: ArcPolygon(arc0, ..., arcN), for arcs that have points and carry no
    tips, never raises: the new object gets, for each arc in turn, the
    points of the arc followed by the line to the start of the next arc
    (the first arc after the last one); where the arc has arc length 0,
    so that the ratio of the two lengths is inf or nan, no line follows. *)
Theorem arc_polygon_returns (arcs : list path) :
  Forall (fun a => a <> []) arcs ->
  ArcPolygon___init__ arcs [] =
    Return tt (flat_map (fun a => fst a ++ gap_points (fst a) (snd a)) (adjacent_pairs arcs)) /\
  (forall arc1 arc2, get_arc_length arc1 = 0 -> gap_points arc1 arc2 = []).
Proof.
  intros Hne. split.
  - unfold ArcPolygon___init__. rewrite for_each_gaps; [reflexivity|].
    apply Forall_forall. intros [a b] Hin.
    apply adjacent_pairs_members in Hin as [Ha Hb].
    rewrite Forall_forall in Hne. split; apply Hne; assumption.
  - intros arc1 arc2 Hz. unfold gap_points, np_div. rewrite Hz, Req_dec_T_refl.
    destruct (Rlt_dec 0 _); [reflexivity|]. destruct (Rlt_dec _ 0); reflexivity.
Qed.

End ArcPolygonFacts.

(* two arcs on a point each, as round_corners(0) builds them *)
Lemma arc_polygon_returns_witness :
  Forall (fun a => a <> []) [point_arc UL; point_arc UR] /\
  ArcPolygon___init__ (H := straight_collaborator) [point_arc UL; point_arc UR] [] =
    Return tt (point_arc UL ++ point_arc UR).
Proof.
  assert (Hne : Forall (fun a : path => a <> []) [point_arc UL; point_arc UR]).
  { repeat constructor; discriminate. }
  split; [exact Hne|].
  destruct (arc_polygon_returns (H := straight_collaborator) _ Hne) as [E Hgap].
  rewrite E. cbn [adjacent_pairs rotate_left drop take app zip zip_with flat_map fst snd].
  rewrite !Hgap by apply PolygonProperties.straight_no_length.
  reflexivity.
Defined.

End PolygonFacts.


(** * More on arcs *)

Module ArcFacts.
Import Arc.

(** ** Where two lines meet *)

(* what line_intersection returns lies on both lines, and it is the only
   such point of the xy-plane *)
Lemma line_intersection_meets (l1 l2 : vec3 * vec3) (c : vec3) :
  line_intersection l1 l2 = Ok c ->
  on_line c (fst l1) (snd l1) /\ on_line c (fst l2) (snd l2) /\ vz c = 0.
Proof.
  unfold line_intersection, on_line.
  destruct l1 as [[x1 y1 z1] [x2 y2 z2]], l2 as [[x3 y3 z3] [x4 y4 z4]].
  unfold det2. cbn [fst snd vx vy vz].
  destruct (Req_dec_T _ 0) as [|Hd]; [discriminate|].
  intros [= <-]. cbn [vx vy vz]. split; [|split]; [field; exact Hd|field; exact Hd|reflexivity].
Qed.

Lemma line_intersection_unique (l1 l2 : vec3 * vec3) (p : vec3) :
  on_line p (fst l1) (snd l1) -> on_line p (fst l2) (snd l2) ->
  det2 (vx (fst l1) - vx (snd l1), vx (fst l2) - vx (snd l2))
       (vy (fst l1) - vy (snd l1), vy (fst l2) - vy (snd l2)) <> 0 ->
  line_intersection l1 l2 = Ok (V3 (vx p) (vy p) 0).
Proof.
  unfold line_intersection, on_line.
  destruct l1 as [[x1 y1 z1] [x2 y2 z2]], l2 as [[x3 y3 z3] [x4 y4 z4]], p as [px py pz].
  unfold det2. cbn [fst snd vx vy vz].
  intros H1 H2 Hd.
  destruct (Req_dec_T _ 0) as [E|_]; [contradiction|].
  match type of Hd with ?D <> 0 => set (d := D) in * end.
  f_equal. f_equal.
  - apply (Rmult_eq_reg_r d); [|exact Hd].
    unfold Rdiv. rewrite Rmult_assoc, Rinv_l, Rmult_1_r by exact Hd.
    assert (E : (x1 * y2 - y1 * x2) * (x3 - x4) - (x3 * y4 - y3 * x4) * (x1 - x2) - px * d =
                (x1 - x2) * ((px - x3) * (y4 - y3) - (py - y3) * (x4 - x3)) -
                (x3 - x4) * ((px - x1) * (y2 - y1) - (py - y1) * (x2 - x1)))
      by (unfold d; ring).
    rewrite H1, H2 in E. lra.
  - apply (Rmult_eq_reg_r d); [|exact Hd].
    unfold Rdiv. rewrite Rmult_assoc, Rinv_l, Rmult_1_r by exact Hd.
    assert (E : (x1 * y2 - y1 * x2) * (y3 - y4) - (x3 * y4 - y3 * x4) * (y1 - y2) - py * d =
                (y1 - y2) * ((px - x3) * (y4 - y3) - (py - y3) * (x4 - x3)) -
                (y3 - y4) * ((px - x1) * (y2 - y1) - (py - y1) * (x2 - x1)))
      by (unfold d; ring).
    rewrite H1, H2 in E. lra.
Qed.

(** ** The control points of an arc *)

Lemma saah_lookup_handles (a1 h1 h2 a2 : list vec3) (i : nat) :
  length h1 = length a1 -> length h2 = length a1 -> length a2 = length a1 ->
  set_anchors_and_handles a1 h1 h2 a2 !! (4 * i + 1)%nat = h1 !! i /\
  set_anchors_and_handles a1 h1 h2 a2 !! (4 * i + 2)%nat = h2 !! i.
Proof.
  revert h1 h2 a2 i.
  induction a1 as [|a a1 IH]; intros [|h h1] [|k h2] [|b a2] i;
    cbn [length set_anchors_and_handles]; try lia.
  - intros _ _ _. split; reflexivity.
  - intros ? ? ?. destruct i as [|i].
    + split; reflexivity.
    + replace (4 * S i + 1)%nat with (4 + (4 * i + 1))%nat by lia.
      replace (4 * S i + 2)%nat with (4 + (4 * i + 2))%nat by lia.
      change ((a :: h :: k :: b :: set_anchors_and_handles a1 h1 h2 a2) !! (4 + (4 * i + 1))%nat)
        with (set_anchors_and_handles a1 h1 h2 a2 !! (4 * i + 1)%nat).
      change ((a :: h :: k :: b :: set_anchors_and_handles a1 h1 h2 a2) !! (4 + (4 * i + 2))%nat)
        with (set_anchors_and_handles a1 h1 h2 a2 !! (4 * i + 2)%nat).
      change ((h :: h1) !! S i) with (h1 !! i).
      change ((k :: h2) !! S i) with (h2 !! i).
      apply IH; lia.
Qed.

(* the four control points of every curve that generate_points makes *)
Lemma generate_points_curves (s : state) (r : R) :
  (2 <= num_components (self s))%nat ->
  radius (self s) = Fin r ->
  exists ps,
    generate_points s =
      Return tt (mkState (mk (start_angle (self s)) (angle (self s)) (Fin r)
                             (num_components (self s)) (arc_center (self s))
                             (_failed_to_get_center (self s)) ps) (warnings s)) /\
    length ps = (4 * (num_components (self s) - 1))%nat /\
    forall i, (i < num_components (self s) - 1)%nat ->
      let c := arc_center (self s) in
      let a := start_angle (self s) in
      let d := angle (self s) / (INR (num_components (self s)) - 1) in
      ps !! (4 * i)%nat = Some (circle_point c r (a + INR i * d)) /\
      ps !! (4 * i + 1)%nat = Some (tangent_point c r (a + INR i * d) (d / 3)) /\
      ps !! (4 * i + 2)%nat = Some (tangent_point c r (a + INR (S i) * d) (- (d / 3))) /\
      ps !! (4 * i + 3)%nat = Some (circle_point c r (a + INR (S i) * d)).
Proof.
  destruct s as [[a0 th rad N c fl pts] w].
  cbv [self radius num_components start_angle angle arc_center _failed_to_get_center warnings points].
  intros HN ->.
  destruct N as [|N']; [lia|].
  cbv [generate_points set_pre_positioned_points bind get lift set_points on_self modify
       scale shift_by self radius num_components start_angle angle arc_center
       _failed_to_get_center warnings points].
  rewrite py_div_ok by (apply INR_minus_one_neq_0; lia).
  eexists. split; [reflexivity|].
  set (N := S N') in *.
  set (anchors := map _ (linspace a0 (a0 + th) N)).
  assert (Hlen : length anchors = N).
  { unfold anchors. rewrite length_map. apply linspace_length. }
  assert (L1 : length (zip_with (fun p t => vadd p (smul (th / (INR N - 1) / 3) t))
                         (removelast anchors)
                         (removelast (map (fun p => V3 (- vy p) (vx p) 0) anchors))) =
               length (removelast anchors)).
  { rewrite length_zip_with, removelast_length, removelast_length, !length_map. lia. }
  assert (L2 : length (zip_with (fun p t => vsub p (smul (th / (INR N - 1) / 3) t))
                         (tail anchors)
                         (tail (map (fun p => V3 (- vy p) (vx p) 0) anchors))) =
               length (removelast anchors)).
  { rewrite length_zip_with, !length_tail, !length_map, removelast_length. lia. }
  assert (L3 : length (tail anchors) = length (removelast anchors)).
  { rewrite length_tail, removelast_length. lia. }
  split.
  - unfold shift, scale_about. rewrite !length_map, (saah_length _ _ _ _ L1 L2 L3).
    rewrite removelast_length. lia.
  - intros i Hi. cbv zeta.
    unfold shift, scale_about. rewrite !lookup_map.
    destruct (saah_lookup _ _ _ _ i L1 L2 L3) as [E0 E3].
    destruct (saah_lookup_handles _ _ _ _ i L1 L2 L3) as [E1 E2].
    rewrite E0, E1, E2, E3, !lookup_zip_with.
    rewrite !removelast_lookup by (rewrite ?length_map; lia).
    rewrite !lookup_tail.
    unfold anchors. rewrite !lookup_map, !linspace_lookup by lia.
    replace (a0 + th - a0) with th by ring.
    cbn [option_map mbind option_bind].
    repeat split; f_equal; apply vec3_eq;
      cbn [tangent_point circle_point vadd vsub smul vx vy vz RIGHT UP ORIGIN]; ring.
Qed.

Lemma arc_init_curves (a theta r : R) (c : vec3) (N : nat) :
  (2 <= N)%nat ->
  exists s,
    Arc.__init__ a theta (Arc.mkKw (Some r) (Some N) (Some c)) Arc.fresh = Return tt s /\
    length (points (self s)) = (4 * (N - 1))%nat /\
    forall i, (i < N - 1)%nat ->
      let d := theta / (INR N - 1) in
      points (self s) !! (4 * i)%nat = Some (circle_point c r (a + INR i * d)) /\
      points (self s) !! (4 * i + 1)%nat = Some (tangent_point c r (a + INR i * d) (d / 3)) /\
      points (self s) !! (4 * i + 2)%nat =
        Some (tangent_point c r (a + INR (S i) * d) (- (d / 3))) /\
      points (self s) !! (4 * i + 3)%nat = Some (circle_point c r (a + INR (S i) * d)).
Proof.
  intros HN.
  cbv [Arc.__init__ bind set_angles set_failed digest_config set_points on_self modify fresh
       self warnings start_angle angle radius num_components arc_center
       _failed_to_get_center points kw_radius kw_num_components kw_arc_center
       from_option default].
  match goal with |- context [generate_points ?s] =>
    destruct (generate_points_curves s r) as (ps & E & Hlen & Hps) end; [exact HN|reflexivity|].
  cbv [self warnings start_angle angle radius num_components arc_center
       _failed_to_get_center points] in E, Hlen, Hps.
  unfold Datatypes.id in *.
  rewrite E. eexists. split; [reflexivity|]. cbv [self points]. split; assumption.
Qed.

Lemma norm_scaled_unit (k x y : R) :
  x * x + y * y = 1 -> norm (V3 (k * x) (k * y) 0) = Rabs k.
Proof.
  intros Hxy. unfold norm. cbn [vx vy vz].
  replace (k * x * (k * x) + k * y * (k * y) + 0 * 0) with (k² * (x * x + y * y))
    by (unfold Rsqr; ring).
  rewrite Hxy, Rmult_1_r. apply sqrt_Rsqr_abs.
Qed.

Lemma cos_sin_one (phi : R) : cos phi * cos phi + sin phi * sin phi = 1.
Proof. pose proof (sin2_cos2 phi) as E. unfold Rsqr in E. lra. Qed.

Lemma sin_cos_one (phi : R) : - sin phi * - sin phi + cos phi * cos phi = 1.
Proof. pose proof (sin2_cos2 phi) as E. unfold Rsqr in E. lra. Qed.

Lemma circle_point_radius (c : vec3) (r phi : R) :
  vsub (circle_point c r phi) c = V3 (r * cos phi) (r * sin phi) 0.
Proof. apply vec3_eq; cbn [circle_point vadd vsub smul vx vy vz]; ring. Qed.

Lemma tangent_point_handle (c : vec3) (r phi k : R) :
  vsub (tangent_point c r phi k) (circle_point c r phi) =
    V3 (r * k * - sin phi) (r * k * cos phi) 0.
Proof. apply vec3_eq; cbn [tangent_point circle_point vadd vsub smul vx vy vz]; ring. Qed.

(** X10: The path of an Arc is a chain of smooth curves on its circle: every
    anchor is at distance [|r|] from the centre; each handle lies on the
    tangent at its anchor, at distance [|r * d / 3|] from it, where [d] is
    the angle between neighbouring anchors; a curve starts on the anchor
    where the one before it ends, and the two handles at that anchor are
    opposite to each other. *)
Theorem arc_is_smooth (a theta r : R) (c : vec3) (N : nat) :
  (2 <= N)%nat ->
  exists s,
    Arc.__init__ a theta (Arc.mkKw (Some r) (Some N) (Some c)) Arc.fresh = Return tt s /\
    forall i, (i < N - 1)%nat ->
      exists a1 h1 h2 a2,
        points (self s) !! (4 * i)%nat = Some a1 /\
        points (self s) !! (4 * i + 1)%nat = Some h1 /\
        points (self s) !! (4 * i + 2)%nat = Some h2 /\
        points (self s) !! (4 * i + 3)%nat = Some a2 /\
        norm (vsub a1 c) = Rabs r /\ norm (vsub a2 c) = Rabs r /\
        dot (vsub h1 a1) (vsub a1 c) = 0 /\ dot (vsub h2 a2) (vsub a2 c) = 0 /\
        norm (vsub h1 a1) = Rabs (r * (theta / (INR N - 1) / 3)) /\
        norm (vsub h2 a2) = Rabs (r * (theta / (INR N - 1) / 3)) /\
        ((S i < N - 1)%nat ->
           exists h1',
             points (self s) !! (4 * S i)%nat = Some a2 /\
             points (self s) !! (4 * S i + 1)%nat = Some h1' /\
             vsub h1' a2 = vneg (vsub h2 a2)).
Proof.
  intros HN. destruct (arc_init_curves a theta r c N HN) as (s & E & _ & Hps).
  exists s. split; [exact E|]. intros i Hi.
  destruct (Hps i Hi) as (E0 & E1 & E2 & E3). cbv zeta in *.
  set (d := theta / (INR N - 1)) in *.
  eexists _, _, _, _. split; [exact E0|]. split; [exact E1|]. split; [exact E2|].
  split; [exact E3|].
  rewrite !circle_point_radius, !tangent_point_handle.
  split; [apply norm_scaled_unit, cos_sin_one|].
  split; [apply norm_scaled_unit, cos_sin_one|].
  split; [unfold dot; cbn [vx vy vz]; ring|].
  split; [unfold dot; cbn [vx vy vz]; ring|].
  split; [apply norm_scaled_unit, sin_cos_one|].
  split.
  - rewrite norm_scaled_unit by apply sin_cos_one.
    replace (r * - (d / 3)) with (- (r * (d / 3))) by ring. apply Rabs_Ropp.
  - intros Hi'. destruct (Hps (S i) Hi') as (E0' & E1' & _ & _). cbv zeta in *.
    fold d in E0', E1'.
    eexists. split; [exact E0'|]. split; [exact E1'|].
    rewrite tangent_point_handle.
    apply vec3_eq; cbn [vneg vx vy vz]; ring.
Qed.

Lemma arc_is_smooth_witness :
  (2 <= 9)%nat /\
  exists s,
    Arc.__init__ 0 (TAU / 4) (Arc.mkKw (Some 1) (Some 9%nat) (Some ORIGIN)) Arc.fresh =
      Return tt s /\
    exists a1 h1 h2 a2,
      points (self s) !! 0%nat = Some a1 /\ points (self s) !! 1%nat = Some h1 /\
      points (self s) !! 2%nat = Some h2 /\ points (self s) !! 3%nat = Some a2 /\
      norm (vsub a1 ORIGIN) = Rabs 1 /\ dot (vsub h1 a1) (vsub a1 ORIGIN) = 0.
Proof.
  split; [lia|].
  destruct (arc_is_smooth 0 (TAU / 4) 1 ORIGIN 9) as (s & E & Hs); [lia|].
  exists s. split; [exact E|].
  destruct (Hs 0%nat) as (a1 & h1 & h2 & a2 & E0 & E1 & E2 & E3 & Hn & _ & Hd & _); [lia|].
  exists a1, h1, h2, a2. auto 10.
Defined.



(** ** The centre of an arc *)

Lemma cos_quarter : cos (TAU / 4) = 0.
Proof. unfold TAU. replace (2 * PI / 4) with (PI / 2) by field. apply cos_PI2. Qed.

Lemma sin_quarter : sin (TAU / 4) = 1.
Proof. unfold TAU. replace (2 * PI / 4) with (PI / 2) by field. apply sin_PI2. Qed.

Section CentreFacts.
Context `{Collaborator}.

(* get_arc_center where the two normals meet *)
Lemma get_arc_center_meets (warning : bool) (s : state) (a1 h1 h2 a2 : vec3) (rest : path)
    (p : vec3) :
  points (self s) = a1 :: h1 :: h2 :: a2 :: rest ->
  ~ normals_parallel a1 h1 h2 a2 ->
  on_line p a1 (vadd a1 (rotate_vector (vsub h1 a1) (TAU / 4))) ->
  on_line p a2 (vadd a2 (rotate_vector (vsub h2 a2) (TAU / 4))) ->
  get_arc_center warning s = Return (V3 (vx p) (vy p) 0) s.
Proof.
  intros Ep Hnp H1 H2.
  pose proof (ArcProperties.get_arc_center_cases warning s) as Hc. rewrite Ep in Hc.
  pose proof (ArcProperties.normal_lines_div a1 h1 h2 a2) as Hd.
  unfold normal_lines in Hc, Hd. cbv zeta in Hc, Hd.
  rewrite (line_intersection_unique _ _ p) in Hc; [exact Hc|exact H1|exact H2|].
  rewrite Hd. exact Hnp.
Qed.

(* on an Arc the normals at the first two anchors meet in the centre *)
Lemma arc_normals_meet (a theta r : R) (c : vec3) (N : nat) :
  (2 <= N)%nat -> r <> 0 ->
  theta / (INR N - 1) <> 0 -> sin (theta / (INR N - 1)) <> 0 ->
  exists s a1 h1 h2 a2 rest,
    Arc.__init__ a theta (Arc.mkKw (Some r) (Some N) (Some c)) Arc.fresh = Return tt s /\
    points (self s) = a1 :: h1 :: h2 :: a2 :: rest /\
    ~ normals_parallel a1 h1 h2 a2 /\
    on_line c a1 (vadd a1 (rotate_vector (vsub h1 a1) (TAU / 4))) /\
    on_line c a2 (vadd a2 (rotate_vector (vsub h2 a2) (TAU / 4))).
Proof.
  intros HN Hr Hd Hsin.
  destruct (arc_init_curves a theta r c N HN) as (s & E & Hlen & Hps).
  destruct (Hps 0%nat) as (E0 & E1 & E2 & E3); [lia|]. cbv zeta in *.
  set (d := theta / (INR N - 1)) in *.
  replace (a + INR 0 * d) with a in * by (simpl; ring).
  replace (a + INR 1 * d) with (a + d) in * by (simpl; ring).
  destruct (points (self s)) as [|a1 [|h1 [|h2 [|a2 rest]]]] eqn:Ep; try discriminate.
  cbn in E0, E1, E2, E3.
  injection E0 as ->. injection E1 as ->. injection E2 as ->. injection E3 as ->.
  exists s. eexists _, _, _, _, rest. split; [exact E|]. split; [exact Ep|].
  split; [|split].
  - unfold normals_parallel. rewrite !tangent_point_handle.
    cbn [rotate_vector cross vx vy vz]. rewrite cos_quarter, sin_quarter.
    replace (_ - _) with (- (r * (d / 3)) ^ 2 * sin d).
    + intros Hz. apply Rmult_integral in Hz as [Hz|Hz]; [|contradiction].
      assert (Hk : r * (d / 3) <> 0)
        by (apply Rmult_integral_contrapositive_currified; [exact Hr|lra]).
      apply (pow_nonzero _ 2) in Hk. lra.
    + replace (sin d) with (sin ((a + d) - a)) by (f_equal; ring).
      rewrite sin_minus. ring.
  - unfold on_line. rewrite tangent_point_handle.
    cbn [rotate_vector circle_point vadd vsub smul vx vy vz].
    rewrite cos_quarter, sin_quarter. ring.
  - unfold on_line. rewrite tangent_point_handle.
    cbn [rotate_vector circle_point vadd vsub smul vx vy vz].
    rewrite cos_quarter, sin_quarter. ring.
Qed.

(** X12: get_arc_center finds the centre of an Arc again, seen from above:
    for an Arc with radius [r <> 0], [N >= 2] components and centre [c],
    whose neighbouring anchors are an angle [d = angle / (N - 1)] apart
    with [d <> 0] and [sin d <> 0], it returns [(cx, cy, 0)], with no
    warning and without setting the failure flag. *)
Theorem arc_center_is_found (a theta r : R) (c : vec3) (N : nat) (warning : bool) :
  (2 <= N)%nat -> r <> 0 ->
  theta / (INR N - 1) <> 0 -> sin (theta / (INR N - 1)) <> 0 ->
  exists s,
    Arc.__init__ a theta (Arc.mkKw (Some r) (Some N) (Some c)) Arc.fresh = Return tt s /\
    get_arc_center warning s = Return (V3 (vx c) (vy c) 0) s /\
    _failed_to_get_center (self s) = false /\ warnings s = [].
Proof.
  intros HN Hr Hd Hsin.
  destruct (arc_normals_meet a theta r c N HN Hr Hd Hsin)
    as (s & a1 & h1 & h2 & a2 & rest & E & Ep & Hnp & H1 & H2).
  destruct (ArcProperties.arc_init_frame a theta (Arc.mkKw (Some r) (Some N) (Some c)) fresh)
    as (_ & Hw & Hf & _).
  rewrite E in Hw, Hf. cbn [final_state] in Hw, Hf.
  exists s. split; [exact E|]. split; [|split; [exact Hf|exact Hw]].
  exact (get_arc_center_meets warning s _ _ _ _ rest c Ep Hnp H1 H2).
Qed.

(** X13: move_arc_center_to(point) puts the centre that get_arc_center finds
    on [point], seen from above: where the two normals of the arc meet in
    [c], all points are moved by [point - c], and get_arc_center then
    returns [(px, py, 0)]; the height of [point] is lost, because the
    centre is looked for in the xy-plane. *)
Theorem arc_center_moves (s : state) (a1 h1 h2 a2 : vec3) (rest : path) (point : vec3) :
  points (self s) = a1 :: h1 :: h2 :: a2 :: rest ->
  ~ normals_parallel a1 h1 h2 a2 ->
  exists c s',
    get_arc_center true s = Return c s /\
    move_arc_center_to point s = Return tt s' /\
    points (self s') = shift (vsub point c) (points (self s)) /\
    get_arc_center true s' = Return (V3 (vx point) (vy point) 0) s'.
Proof.
  intros Ep Hnp.
  pose proof (ArcProperties.line_intersection_normals a1 h1 h2 a2) as Hl.
  pose proof (ArcProperties.get_arc_center_cases true s) as Hc. rewrite Ep in Hc.
  unfold normal_lines in Hl, Hc. cbv zeta in Hl, Hc.
  destruct Hl as [_ Hl]. destruct (Hl Hnp) as (c & Ec). rewrite Ec in Hc.
  apply line_intersection_meets in Ec as (H1 & H2 & _). cbn [fst snd] in H1, H2.
  exists c. eexists. split; [exact Hc|]. split; [|split].
  - unfold move_arc_center_to. erewrite bind_return by exact Hc. reflexivity.
  - reflexivity.
  - set (v := vsub point c).
    apply (get_arc_center_meets true _ (vadd a1 v) (vadd h1 v) (vadd h2 v) (vadd a2 v)
             (shift v rest) point).
    + cbn [self points]. rewrite Ep. reflexivity.
    + intros Hp. apply Hnp. unfold normals_parallel in *.
      match type of Hp with ?L = 0 => match goal with |- ?G = 0 =>
        transitivity L; [|exact Hp] end end.
      cbn [rotate_vector cross vadd vsub vx vy vz]. ring.
    + unfold on_line in *.
      match type of H1 with ?L = 0 => transitivity L; [|exact H1] end.
      unfold v. cbn [rotate_vector vadd vsub vx vy vz]. ring.
    + unfold on_line in *.
      match type of H2 with ?L = 0 => transitivity L; [|exact H2] end.
      unfold v. cbn [rotate_vector vadd vsub vx vy vz]. ring.
Qed.

End CentreFacts.

Lemma default_arc_angles :
  (1 : R) <> 0 /\ TAU / 4 / (INR 9 - 1) <> 0 /\ sin (TAU / 4 / (INR 9 - 1)) <> 0.
Proof.
  assert (Hd : TAU / 4 / (INR 9 - 1) = PI / 16) by (unfold TAU; simpl; field).
  assert (Hpos : 0 < PI / 16) by (pose proof PI_RGT_0; lra).
  assert (Hlt : PI / 16 < PI) by (pose proof PI_RGT_0; lra).
  split; [lra|]. rewrite Hd. split; [lra|].
  pose proof (sin_gt_0 (PI / 16) Hpos Hlt). lra.
Qed.

(* Arc(): a quarter turn in nine components *)
Lemma arc_center_is_found_witness :
  (2 <= 9)%nat /\ 1 <> 0 /\
  TAU / 4 / (INR 9 - 1) <> 0 /\ sin (TAU / 4 / (INR 9 - 1)) <> 0 /\
  exists s,
    Arc.__init__ 0 (TAU / 4) (Arc.mkKw (Some 1) (Some 9%nat) (Some ORIGIN)) Arc.fresh =
      Return tt s /\
    get_arc_center true s = Return (V3 0 0 0) s.
Proof.
  destruct default_arc_angles as (H1 & H2 & H3).
  split; [lia|]. split; [exact H1|]. split; [exact H2|]. split; [exact H3|].
  destruct (arc_center_is_found 0 (TAU / 4) 1 ORIGIN 9 true ltac:(lia) H1 H2 H3)
    as (s & E & Ec & _).
  exists s. split; [exact E|exact Ec].
Defined.

(* the quarter circle of Arc(), moved so that its centre is on UR *)
Lemma arc_center_moves_witness :
  exists s a1 h1 h2 a2 rest,
    Arc.__init__ 0 (TAU / 4) (Arc.mkKw (Some 1) (Some 9%nat) (Some ORIGIN)) Arc.fresh =
      Return tt s /\
    points (self s) = a1 :: h1 :: h2 :: a2 :: rest /\
    ~ normals_parallel a1 h1 h2 a2 /\
    exists s',
      move_arc_center_to UR s = Return tt s' /\
      get_arc_center true s' = Return (V3 (vx UR) (vy UR) 0) s'.
Proof.
  destruct default_arc_angles as (H1 & H2 & H3).
  destruct (arc_normals_meet 0 (TAU / 4) 1 ORIGIN 9 ltac:(lia) H1 H2 H3)
    as (s & a1 & h1 & h2 & a2 & rest & E & Ep & Hnp & _ & _).
  exists s, a1, h1, h2, a2, rest. split; [exact E|]. split; [exact Ep|]. split; [exact Hnp|].
  destruct (arc_center_moves s a1 h1 h2 a2 rest UR Ep Hnp) as (c & s' & _ & Em & _ & Ec).
  exists s'. split; [exact Em|exact Ec].
Defined.

End ArcFacts.


(** * The endpoints of ArcBetweenPoints *)

Module ArcBetweenPointsFacts.
Import Arc.

Lemma head_map {A B} (f : A -> B) (l : list A) : head (map f l) = option_map f (head l).
Proof. destruct l; reflexivity. Qed.

Lemma last_map {A B} (f : A -> B) (l : list A) : last (map f l) = option_map f (last l).
Proof.
  induction l as [|x [|y l] IH]; [reflexivity|reflexivity|].
  change (last (map f (x :: y :: l))) with (last (map f (y :: l))).
  change (last (x :: y :: l)) with (last (y :: l)). exact IH.
Qed.

Lemma vec3_eqb_neq (p q : vec3) : p <> q -> vec3_eqb p q = false.
Proof.
  intros Hne. destruct (vec3_eqb p q) eqn:E; [|reflexivity].
  apply vec3_eqb_true in E. contradiction.
Qed.

Lemma norm_eq_0 (v : vec3) : norm v = 0 -> v = ORIGIN.
Proof.
  unfold norm. intros E. apply sqrt_eq_0 in E.
  - destruct v as [x y z]. cbn [vx vy vz] in E.
    assert (x = 0 /\ y = 0 /\ z = 0) as (-> & -> & ->) by (repeat split; nra).
    reflexivity.
  - destruct v as [x y z]. cbn [vx vy vz]. nra.
Qed.

Section Endpoints.
Context `{Collaborator}.

(* the affine operation of put_start_and_end_on carries the current start
   onto the requested one *)
Lemma endpoints_map_start (start end_ cs ce : vec3) (f : path -> path) (ps : path) :
  endpoints_map start end_ cs ce = Ok f ->
  head ps = Some cs -> head (f ps) = Some start.
Proof.
  unfold endpoints_map. destruct (vec3_eqb (vsub ce cs) ORIGIN); [discriminate|].
  intros [= <-] Hh. unfold shift, rotate_about, scale_about.
  rewrite !head_map, Hh. cbn [option_map]. f_equal.
  apply vec3_eq; cbn [rotate_vector vadd vsub smul vx vy vz]; ring.
Qed.

(* and the current end onto the requested one, where the angles of the two
   directions are what angle_of_vector says *)
Lemma endpoints_map_end (start end_ cs ce : vec3) (f : path -> path) (ps : path) :
  planar_angles H ->
  vz (vsub ce cs) = 0 -> vz (vsub end_ start) = 0 ->
  endpoints_map start end_ cs ce = Ok f ->
  last ps = Some ce -> last (f ps) = Some end_.
Proof.
  intros Hpol Hzc Hzt. unfold endpoints_map.
  destruct (vec3_eqb (vsub ce cs) ORIGIN) eqn:Ec; [discriminate|].
  intros [= <-] Hl. unfold shift, rotate_about, scale_about.
  rewrite !last_map, Hl. cbn [option_map]. f_equal.
  assert (Hc : vsub ce cs <> ORIGIN).
  { intros E. rewrite E in Ec. unfold vec3_eqb in Ec. rewrite !Req_dec_T_refl in Ec.
    discriminate. }
  assert (Hnc : norm (vsub ce cs) <> 0) by (intros E; apply Hc, norm_eq_0, E).
  destruct (Hpol _ Hzc Hc) as (Hcx & Hcy & _).
  set (c := vsub ce cs) in *. set (t := vsub end_ start) in *.
  destruct (Req_dec_T (norm t) 0) as [Ht0|Ht0].
  - apply norm_eq_0 in Ht0 as Et. rewrite Ht0.
    assert (Ex : vx end_ = vx start) by (apply (f_equal vx) in Et; simpl in Et; lra).
    assert (Ey : vy end_ = vy start) by (apply (f_equal vy) in Et; simpl in Et; lra).
    assert (Ez : vz end_ = vz start) by (apply (f_equal vz) in Et; simpl in Et; lra).
    apply vec3_eq; cbn [rotate_vector vadd vsub smul vx vy vz]; rewrite ?Ex, ?Ey, ?Ez;
      unfold Rdiv; ring.
  - assert (Ht : t <> ORIGIN) by (intros E; apply Ht0; rewrite E; apply norm_zero).
    destruct (Hpol _ Hzt Ht) as (Htx & Hty & _).
    set (tc := angle_of_vector c) in *. set (tt' := angle_of_vector t) in *.
    assert (Ecos : cos tt' = cos tc * cos (tt' - tc) - sin tc * sin (tt' - tc)).
    { rewrite <- cos_plus. f_equal. ring. }
    assert (Esin : sin tt' = sin tc * cos (tt' - tc) + cos tc * sin (tt' - tc)).
    { rewrite <- sin_plus. f_equal. ring. }
    assert (Ex : vx end_ = vx start + vx t) by (unfold t; simpl; ring).
    assert (Ey : vy end_ = vy start + vy t) by (unfold t; simpl; ring).
    assert (Ez : vz end_ = vz start) by (unfold t in Hzt; simpl in Hzt; lra).
    assert (Ecx : vx ce - vx cs = vx c) by reflexivity.
    assert (Ecy : vy ce - vy cs = vy c) by reflexivity.
    assert (Ecz : vz ce - vz cs = 0) by exact Hzc.
    apply vec3_eq; cbn [rotate_vector vadd vsub smul vx vy vz];
      rewrite ?Ecx, ?Ecy, ?Ecz, ?Ex, ?Ey, ?Ez, ?Htx, ?Hty, ?Hcx, ?Hcy, ?Hzc, ?Ecos, ?Esin;
      field; exact Hnc.
Qed.

End Endpoints.

(* the two ends of the arc that ArcBetweenPoints builds before it places
   it: an arc of radius 1 *)
Lemma arc_init_ends (a theta : R) (kn : option nat) (kc : option vec3) :
  (2 <= default 9%nat kn)%nat ->
  exists s,
    Arc.__init__ a theta (Arc.mkKw None kn kc) fresh = Return tt s /\
    (4 <= length (points (self s)))%nat /\
    head (points (self s)) = Some (circle_point (default ORIGIN kc) 1 a) /\
    last (points (self s)) = Some (circle_point (default ORIGIN kc) 1 (a + theta)) /\
    warnings s = [].
Proof.
  intros HN.
  cbv [Arc.__init__ bind set_angles set_failed digest_config set_points on_self modify fresh
       self warnings start_angle angle radius num_components arc_center
       _failed_to_get_center points kw_radius kw_num_components kw_arc_center
       from_option].
  match goal with |- context [generate_points ?s] =>
    destruct (ArcFacts.generate_points_curves s 1) as (ps & E & Hlen & Hps) end;
    [exact HN|reflexivity|].
  cbv [self warnings start_angle angle radius num_components arc_center
       _failed_to_get_center points] in E, Hlen, Hps.
  change (match kn with Some x => Datatypes.id x | None => 9%nat end)
    with (default 9%nat kn) in *.
  change (match kc with Some x => Datatypes.id x | None => ORIGIN end)
    with (default ORIGIN kc) in *.
  set (N := default 9%nat kn) in *. set (c := default ORIGIN kc) in *.
  rewrite E. eexists. split; [reflexivity|]. cbv [self points warnings].
  assert (HNR : INR N - 1 <> 0) by (apply INR_minus_one_neq_0; exact HN).
  split; [lia|]. split; [|split; [|reflexivity]].
  - rewrite head_lookup. destruct (Hps 0%nat) as (E0 & _); [lia|]. cbv zeta in E0.
    change (4 * 0)%nat with 0%nat in E0. rewrite E0. f_equal. f_equal. simpl. ring.
  - rewrite last_lookup, Hlen. destruct (Hps (N - 2)%nat) as (_ & _ & _ & E3); [lia|].
    cbv zeta in E3.
    replace (pred (4 * (N - 1))) with (4 * (N - 2) + 3)%nat by lia.
    rewrite E3. f_equal. f_equal.
    replace (S (N - 2)) with (N - 1)%nat by lia.
    rewrite minus_INR by lia. simpl. field. exact HNR.
Qed.

Lemma circle_points_differ (c : vec3) (a theta : R) :
  cos theta <> 1 -> vsub (circle_point c 1 (a + theta)) (circle_point c 1 a) <> ORIGIN.
Proof.
  intros Hcos E. apply Hcos.
  apply (f_equal vx) in E as Ex. apply (f_equal vy) in E as Ey.
  cbn [circle_point vadd vsub smul vx vy vz ORIGIN] in Ex, Ey.
  assert (Ec : cos (a + theta) = cos a) by lra.
  assert (Es : sin (a + theta) = sin a) by lra.
  replace theta with ((a + theta) - a) by ring.
  rewrite cos_minus, Ec, Es. pose proof (sin2_cos2 a) as E1. unfold Rsqr in E1. lra.
Qed.

Section Constructor.
Context `{Collaborator}.

(* put_start_and_end_on on an arc whose ends differ *)
Lemma put_start_and_end_on_ends (start end_ cs ce : vec3) (s : state) :
  head (points (self s)) = Some cs -> last (points (self s)) = Some ce ->
  vsub ce cs <> ORIGIN ->
  exists f,
    endpoints_map start end_ cs ce = Ok f /\
    put_start_and_end_on start end_ s =
      Return tt (mkState (mk (start_angle (self s)) (angle (self s)) (radius (self s))
                             (num_components (self s)) (arc_center (self s))
                             (_failed_to_get_center (self s)) (f (points (self s))))
                         (warnings s)).
Proof.
  intros Hh Hl Hne.
  assert (Ef : exists f, endpoints_map start end_ cs ce = Ok f).
  { unfold endpoints_map. rewrite vec3_eqb_neq by exact Hne. eauto. }
  destruct Ef as (f & Ef). exists f. split; [exact Ef|].
  unfold put_start_and_end_on.
  erewrite bind_return by reflexivity.
  assert (E1 : VMobject_get_start (points (self s)) = Ok cs).
  { unfold VMobject_get_start. destruct (points (self s)); [discriminate|].
    simpl in Hh. injection Hh as ->. reflexivity. }
  assert (E2 : VMobject_get_end (points (self s)) = Ok ce).
  { unfold VMobject_get_end. rewrite Hl. reflexivity. }
  rewrite E1. erewrite bind_return by reflexivity.
  rewrite E2. erewrite bind_return by reflexivity.
  rewrite Ef. erewrite bind_return by reflexivity.
  reflexivity.
Qed.

Lemma endpoints_map_length (start end_ cs ce : vec3) (f : path -> path) (ps : path) :
  endpoints_map start end_ cs ce = Ok f -> length (f ps) = length ps.
Proof.
  unfold endpoints_map. destruct (vec3_eqb _ _); [discriminate|].
  intros [= <-]. unfold shift, rotate_about, scale_about. rewrite !length_map. reflexivity.
Qed.

(* get_arc_center returns on every path with a first curve, and leaves
   the points alone *)
Lemma get_arc_center_returns (warning : bool) (s : state) :
  (4 <= length (points (self s)))%nat ->
  exists c s', get_arc_center warning s = Return c s' /\ points (self s') = points (self s).
Proof.
  intros Hlen. pose proof (ArcProperties.get_arc_center_cases warning s) as Hc.
  destruct (points (self s)) as [|a1 [|h1 [|h2 [|a2 rest]]]] eqn:Ep; simpl in Hlen; try lia.
  destruct (normal_lines a1 h1 h2 a2) as [l1 l2].
  destruct (line_intersection l1 l2).
  - eexists _, _. split; [exact Hc|exact Ep].
  - eexists _, _. split; [exact Hc|]. simpl. exact Ep.
Qed.

Lemma set_radius_points (r : xreal) (s : state) :
  exists s', set_radius r s = Return tt s' /\ points (self s') = points (self s).
Proof. eexists. split; reflexivity. Qed.

(* the last steps of the constructor, on an arc whose two ends differ *)
Lemma place_and_measure (start end_ cs ce : vec3) (s : state) :
  (4 <= length (points (self s)))%nat ->
  head (points (self s)) = Some cs -> last (points (self s)) = Some ce ->
  vsub ce cs <> ORIGIN ->
  exists f s',
    endpoints_map start end_ cs ce = Ok f /\
    (bind (put_start_and_end_on start end_) (fun _ =>
       bind (get_arc_center false) (fun center =>
         bind get (fun s =>
           if negb (_failed_to_get_center (self s))
           then set_radius (Fin (norm (vsub start center)))
           else set_radius Inf)))) s = Return tt s' /\
    points (self s') = f (points (self s)).
Proof.
  intros Hlen Hh Hl Hne.
  destruct (put_start_and_end_on_ends start end_ cs ce s Hh Hl Hne) as (f & Ef & Ep).
  exists f.
  erewrite bind_return by exact Ep.
  match goal with |- context [bind (get_arc_center false) _ ?s3] =>
    destruct (get_arc_center_returns false s3) as (c & s4 & Ec & Hp4) end.
  { cbn [self points]. rewrite (endpoints_map_length _ _ _ _ _ _ Ef). exact Hlen. }
  erewrite bind_return by exact Ec.
  erewrite bind_return by reflexivity.
  cbn [self points] in Hp4.
  destruct (negb (_failed_to_get_center (self s4))).
  - destruct (set_radius_points (Fin (norm (vsub start c))) s4) as (s5 & E5 & Hp5).
    exists s5. split; [exact Ef|]. split; [exact E5|]. congruence.
  - destruct (set_radius_points Inf s4) as (s5 & E5 & Hp5).
    exists s5. split; [exact Ef|]. split; [exact E5|]. congruence.
Qed.

(* the constructor without a radius: it returns, and where it puts the two
   ends *)
Lemma arc_between_points_placed (start end_ : vec3) (angle : R) (kw : ArcBetweenPoints.kwargs) :
  (2 <= default 9%nat (ArcBetweenPoints.kw_num_components kw))%nat ->
  angle = 0 \/ cos angle <> 1 ->
  exists s,
    ArcBetweenPoints.__init__ start end_ angle None kw fresh = Return tt s /\
    head (points (self s)) = Some start /\
    (planar_angles H -> vz start = vz end_ -> last (points (self s)) = Some end_).
Proof.
  intros HN Hangle.
  destruct (arc_init_ends (default 0 (ArcBetweenPoints.kw_start_angle kw)) angle
              (ArcBetweenPoints.kw_num_components kw) (ArcBetweenPoints.kw_arc_center kw) HN)
    as (s1 & E1 & Hlen1 & Hh1 & Hl1 & _).
  unfold ArcBetweenPoints.__init__.
  erewrite bind_return by reflexivity.
  erewrite bind_return by exact E1.
  assert (Hzt : vz start = vz end_ -> vz (vsub end_ start) = 0) by (simpl; intros ->; ring).
  destruct (Req_dec_T angle 0) as [E0|Hne0].
  - erewrite bind_return by reflexivity.
    match goal with |- context [bind (put_start_and_end_on start end_) _ ?s2] =>
      destruct (place_and_measure start end_ LEFT RIGHT s2) as (f & s' & Ef & E & Hp) end.
    + cbn [self points]. rewrite corners_LEFT_RIGHT. simpl. lia.
    + reflexivity.
    + reflexivity.
    + intros Ev. apply (f_equal vx) in Ev. simpl in Ev. lra.
    + exists s'. split; [exact E|]. rewrite Hp. split.
      * eapply endpoints_map_start; [exact Ef|reflexivity].
      * intros Hpol Hz. eapply endpoints_map_end; [exact Hpol| | |exact Ef|reflexivity].
        -- simpl. ring.
        -- apply Hzt, Hz.
  - destruct Hangle as [E0|Hcos]; [contradiction|].
    erewrite bind_return by reflexivity.
    destruct (place_and_measure start end_ _ _ s1 Hlen1 Hh1 Hl1
                (circle_points_differ _ _ _ Hcos)) as (f & s' & Ef & E & Hp).
    exists s'. split; [exact E|]. rewrite Hp. split.
    + eapply endpoints_map_start; [exact Ef|exact Hh1].
    + intros Hpol Hz. eapply endpoints_map_end; [exact Hpol| | |exact Ef|exact Hl1].
      * cbn [circle_point vadd vsub smul vx vy vz]. ring.
      * apply Hzt, Hz.
Qed.

(** X14: ArcBetweenPoints(start, end, angle) without a radius, with at least
    two components and an angle that is 0 or no full turn, returns a path
    that starts on [start]; where angle_of_vector gives the angles of the
    vectors of the xy-plane and [start] and [end] are at the same height,
    the path ends on [end]. *)
Theorem arc_between_points_ends (start end_ : vec3) (angle : R) (kw : ArcBetweenPoints.kwargs) :
  (2 <= default 9%nat (ArcBetweenPoints.kw_num_components kw))%nat ->
  angle = 0 \/ cos angle <> 1 ->
  exists s,
    ArcBetweenPoints.__init__ start end_ angle None kw fresh = Return tt s /\
    head (points (self s)) = Some start /\
    (planar_angles H -> vz start = vz end_ -> last (points (self s)) = Some end_).
Proof. exact (arc_between_points_placed start end_ angle kw). Qed.

End Constructor.

(** ** The polar angle of the sample collaborator *)

Lemma norm_planar (x y : R) : norm (V3 x y 0) = sqrt (x * x + y * y).
Proof. unfold norm. cbn [vx vy vz]. f_equal. ring. Qed.

Lemma norm_with_slope (x y : R) :
  x <> 0 -> sqrt (x * x + y * y) = Rabs x * sqrt (1 + (y / x)²).
Proof.
  intros Hx. rewrite <- sqrt_Rsqr_abs, <- sqrt_mult.
  - f_equal. unfold Rsqr. field. exact Hx.
  - apply Rle_0_sqr.
  - pose proof (Rle_0_sqr (y / x)). lra.
Qed.

Lemma sqrt_slope_pos (t : R) : 0 < sqrt (1 + t²).
Proof. apply sqrt_lt_R0. pose proof (Rle_0_sqr t). lra. Qed.

Lemma straight_planar_angles : planar_angles straight_collaborator.
Proof.
  intros [x y z] Hz Hne. cbn [vz] in Hz. subst z.
  unfold polar. cbn [angle_of_vector straight_collaborator vx vy vz].
  unfold polar_angle. cbn [vx vy]. rewrite norm_planar.
  split; [|split; [|reflexivity]].
  - destruct (Rlt_dec 0 x) as [Hx|Hx].
    + rewrite norm_with_slope, cos_atan, Rabs_pos_eq by lra.
      pose proof (sqrt_slope_pos (y / x)). field. lra.
    + destruct (Rlt_dec x 0) as [Hx'|Hx'].
      * rewrite norm_with_slope, Rabs_left by lra.
        pose proof (sqrt_slope_pos (y / x)).
        destruct (Rlt_dec y 0).
        -- replace (atan (y / x) - PI) with (- (PI - atan (y / x))) by ring.
           rewrite cos_neg, Rtrigo_facts.cos_pi_minus, cos_atan. field. lra.
        -- rewrite neg_cos, cos_atan. field. lra.
      * assert (x = 0) as -> by lra.
        destruct (Rlt_dec 0 y); [rewrite cos_PI2; ring|].
        destruct (Rlt_dec y 0); [rewrite cos_neg, cos_PI2; ring|].
        rewrite cos_0. assert (y = 0) as -> by lra. exfalso. apply Hne. reflexivity.
  - destruct (Rlt_dec 0 x) as [Hx|Hx].
    + rewrite norm_with_slope, sin_atan, Rabs_pos_eq by lra.
      pose proof (sqrt_slope_pos (y / x)). field. lra.
    + destruct (Rlt_dec x 0) as [Hx'|Hx'].
      * rewrite norm_with_slope, Rabs_left by lra.
        pose proof (sqrt_slope_pos (y / x)).
        destruct (Rlt_dec y 0).
        -- replace (atan (y / x) - PI) with (- (PI - atan (y / x))) by ring.
           rewrite sin_neg, Rtrigo_facts.sin_pi_minus, sin_atan. field. lra.
        -- rewrite neg_sin, sin_atan. field. lra.
      * assert (x = 0) as -> by lra.
        replace (0 * 0 + y * y) with (y * y) by ring.
        destruct (Rlt_dec 0 y) as [Hy|Hy].
        { rewrite sin_PI2, sqrt_square by lra. ring. }
        destruct (Rlt_dec y 0) as [Hy'|Hy'].
        { rewrite sin_neg, sin_PI2. replace (y * y) with ((- y) * (- y)) by ring.
          rewrite sqrt_square by lra. ring. }
        assert (y = 0) as -> by lra. exfalso. apply Hne. reflexivity.
Qed.

(* ArcBetweenPoints(LEFT, UP): a quarter turn, the default angle *)
Lemma arc_between_points_ends_witness :
  (2 <= default 9%nat (ArcBetweenPoints.kw_num_components ArcBetweenPoints.no_kwargs))%nat /\
  (TAU / 4 = 0 \/ cos (TAU / 4) <> 1) /\
  exists s,
    ArcBetweenPoints.__init__ (H := straight_collaborator) LEFT UP (TAU / 4) None
      ArcBetweenPoints.no_kwargs fresh = Return tt s /\
    head (points (self s)) = Some LEFT /\ last (points (self s)) = Some UP.
Proof.
  assert (HN : (2 <= default 9%nat
                      (ArcBetweenPoints.kw_num_components ArcBetweenPoints.no_kwargs))%nat)
    by (simpl; lia).
  assert (Ha : TAU / 4 = 0 \/ cos (TAU / 4) <> 1) by (right; rewrite ArcFacts.cos_quarter; lra).
  split; [exact HN|]. split; [exact Ha|].
  destruct (arc_between_points_ends (H := straight_collaborator) LEFT UP (TAU / 4)
              ArcBetweenPoints.no_kwargs HN Ha) as (s & E & Hh & Hl).
  exists s. split; [exact E|]. split; [exact Hh|].
  apply Hl; [exact straight_planar_angles|reflexivity].
Defined.

End ArcBetweenPointsFacts.


(** * More on tips and lines *)

Module TipableFacts.
Import Tipable.

(** ** What get_start and get_end read *)

Lemma tip_get_start_reads (w : world) (i : nat) (p : vec3) :
  first_point_of w i = Some p -> tip_get_start i w = Return p w.
Proof.
  unfold first_point_of, tip_get_start, points_of, bind.
  destruct (heap w !! i) as [[|q ps]|]; try discriminate.
  simpl. intros [= ->]. reflexivity.
Qed.

Lemma tip_get_start_read (w w' : world) (i : nat) (p : vec3) :
  tip_get_start i w = Return p w' -> first_point_of w i = Some p /\ w' = w.
Proof.
  unfold first_point_of, tip_get_start, points_of, bind.
  destruct (heap w !! i) as [[|q ps]|]; try discriminate.
  simpl. intros [= -> ->]. auto.
Qed.

Lemma get_start_reads (w : world) (p : vec3) :
  start_of w = Some p -> get_start w = Return p w.
Proof.
  unfold start_of, get_start. erewrite bind_return by reflexivity.
  destruct (has_start_tip (self w)).
  - destruct (start_tip (self w)) as [i|]; [apply tip_get_start_reads|discriminate].
  - destruct (points (self w)); [discriminate|]. simpl. intros [= ->]. reflexivity.
Qed.

Lemma get_start_read (w w' : world) (p : vec3) :
  get_start w = Return p w' -> start_of w = Some p /\ w' = w.
Proof.
  unfold start_of, get_start. erewrite bind_return by reflexivity.
  destruct (has_start_tip (self w)).
  - destruct (start_tip (self w)) as [i|]; [apply tip_get_start_read|discriminate].
  - destruct (points (self w)); [discriminate|]. simpl. intros [= -> ->]. auto.
Qed.

Lemma get_end_reads (w : world) (p : vec3) :
  end_of w = Some p -> get_end w = Return p w.
Proof.
  unfold end_of, get_end. erewrite bind_return by reflexivity.
  destruct (has_tip (self w)).
  - destruct (tip (self w)) as [i|]; [apply tip_get_start_reads|discriminate].
  - unfold lift, VMobject_get_end. intros ->. reflexivity.
Qed.

Lemma get_end_read (w w' : world) (p : vec3) :
  get_end w = Return p w' -> end_of w = Some p /\ w' = w.
Proof.
  unfold end_of, get_end. erewrite bind_return by reflexivity.
  destruct (has_tip (self w)).
  - destruct (tip (self w)) as [i|]; [apply tip_get_start_read|discriminate].
  - unfold lift, VMobject_get_end. destruct (last (points (self w))); [|discriminate].
    intros [= -> ->]. auto.
Qed.

Lemma get_start_and_end_reads (w : world) (s e : vec3) :
  start_of w = Some s -> end_of w = Some e -> get_start_and_end w = Return (s, e) w.
Proof.
  intros Hs He. unfold get_start_and_end.
  erewrite bind_return by (apply get_start_reads; exact Hs).
  erewrite bind_return by (apply get_end_reads; exact He). reflexivity.
Qed.

Lemma get_start_and_end_read (w w' : world) (s e : vec3) :
  get_start_and_end w = Return (s, e) w' ->
  start_of w = Some s /\ end_of w = Some e /\ w' = w.
Proof.
  unfold get_start_and_end, bind. intros E.
  destruct (get_start w) as [s1 w1|] eqn:Es; [|discriminate].
  apply get_start_read in Es as [Hs ->].
  destruct (get_end w) as [e1 w2|] eqn:Ee; [|discriminate].
  apply get_end_read in Ee as [He ->].
  injection E as -> -> ->. auto.
Qed.

Lemma get_length_reads (w : world) (s e : vec3) :
  start_of w = Some s -> end_of w = Some e -> get_length w = Return (norm (vsub s e)) w.
Proof.
  intros Hs He. unfold get_length.
  erewrite bind_return by (apply get_start_and_end_reads; eassumption). reflexivity.
Qed.

(** ** A tip that has just been added *)

Section NewTip.
Context `{Collaborator}.

(** X15: add_tip on a path with at least two points, whose children have
    points and are not repeated, returns; afterwards has_tip() (has_start_tip()
    after [at_start=True]) is true, the new tip is among get_tips(), and
    after add_tip at the end get_tip() returns it. *)
Theorem added_tip_is_found (w0 : world) (tl : option R) (at_start : bool) :
  resizing_keeps_points H -> wf w0 ->
  exists w',
    add_tip tl at_start w0 = Return tt w' /\
    (if at_start then has_start_tip (self w') else has_tip (self w')) = true /\
    next_id w0 ∈ get_tips (self w') /\
    (at_start = false -> get_tip (self w') = Ok (next_id w0)) /\
    wf w'.
Proof.
  intros Hres Hwf.
  destruct (TipableProperties.add_tip_total w0 tl at_start Hres Hwf)
    as (w' & E & (Hc & Ht & Hs & _) & Hwf').
  exists w'. split; [exact E|].
  assert (Hin : next_id w0 ∈ submobjects (self w')).
  { rewrite Hc. apply TipableProperties.list_update_elem_of. right. reflexivity. }
  destruct at_start.
  - split; [|split; [|split; [discriminate|exact Hwf']]].
    + unfold has_start_tip, contains. rewrite Hs. apply bool_decide_eq_true. exact Hin.
    + apply (TipableProperties.get_tips_start _ _ Hs).
  - destruct (TipableProperties.get_tips_head _ _ Ht) as [Hg Hok].
    split; [|split; [exact Hg|split; [intros _; exact Hok|exact Hwf']]].
    unfold has_tip, contains. rewrite Ht. apply bool_decide_eq_true. exact Hin.
Qed.

End NewTip.

Lemma added_tip_is_found_witness :
  let w0 := straight_line LEFT RIGHT 0 None in
  resizing_keeps_points straight_collaborator /\ wf w0 /\
  exists w',
    add_tip (H := straight_collaborator) None false w0 = Return tt w' /\
    has_tip (self w') = true /\ get_tip (self w') = Ok (next_id w0).
Proof.
  cbv zeta.
  pose proof TipableProperties.straight_resizing as Hres.
  pose proof (TipableProperties.straight_line_wf LEFT RIGHT 0 None) as Hwf.
  split; [exact Hres|]. split; [exact Hwf|].
  destruct (added_tip_is_found (H := straight_collaborator) _ None false Hres Hwf)
    as (w' & E & Ht & _ & Hg & _).
  exists w'. split; [exact E|]. split; [exact Ht|]. apply Hg. reflexivity.
Defined.

(** ** Tips taken off where there are none *)

Lemma foldr_alter_id (f : path -> path) (l : list nat) (h : gmap nat path) :
  (forall ps, f ps = ps) -> foldr (fun i h => alter f i h) h l = h.
Proof.
  intros Hf. induction l as [|i l IH]; [reflexivity|].
  simpl. rewrite IH. apply alter_id. intros ps _. apply Hf.
Qed.

Lemma family_apply_id (f : path -> path) (w : world) :
  (forall ps, f ps = ps) -> family_apply f w = Return tt w.
Proof.
  intros Hf. unfold family_apply, modify. rewrite Hf, foldr_alter_id by exact Hf.
  destruct w as [[] ? ?]. reflexivity.
Qed.

Section NoTips.
Context `{Collaborator}.

Lemma endpoints_map_same (s e : vec3) :
  s <> e -> exists f, endpoints_map s e s e = Ok f /\ forall ps, f ps = ps.
Proof.
  intros Hne.
  assert (Hv : vsub e s <> ORIGIN).
  { intros E. apply Hne. symmetry.
    apply vec3_eq; [apply (f_equal vx) in E|apply (f_equal vy) in E|apply (f_equal vz) in E];
      simpl in E; lra. }
  assert (Hn : norm (vsub e s) <> 0).
  { intros E. apply Hv. apply ArcBetweenPointsFacts.norm_eq_0. exact E. }
  unfold endpoints_map. rewrite ArcBetweenPointsFacts.vec3_eqb_neq by exact Hv.
  eexists. split; [reflexivity|]. intros ps. cbv beta.
  replace (norm (vsub e s) / norm (vsub e s)) with 1 by (field; exact Hn).
  rewrite Rminus_diag, scale_about_1, rotate_about_0, vsub_diag, shift_ORIGIN. reflexivity.
Qed.

Lemma vec3_eqb_refl (p : vec3) : vec3_eqb p p = true.
Proof. unfold vec3_eqb. rewrite !Req_dec_T_refl. reflexivity. Qed.

(* putting the two ends where they are *)
Lemma Mobject_put_ends_where_they_are (w : world) (s e : vec3) :
  get_start_and_end w = Return (s, e) w -> s <> e ->
  Mobject_put_start_and_end_on s e w = Return tt w.
Proof.
  intros Ese Hne. destruct (endpoints_map_same s e Hne) as (f & Ef & Hf).
  unfold Mobject_put_start_and_end_on. erewrite bind_return by exact Ese.
  cbn [fst snd]. rewrite Ef. erewrite bind_return by reflexivity.
  apply family_apply_id. exact Hf.
Qed.

Lemma put_ends_where_they_are (w : world) (s e : vec3) :
  get_start_and_end w = Return (s, e) w -> s <> e ->
  put_start_and_end_on s e w = Return tt w.
Proof.
  intros Ese Hne.
  pose proof (Mobject_put_ends_where_they_are w s e Ese Hne) as Hmob.
  unfold put_start_and_end_on. erewrite bind_return by reflexivity.
  destruct (line (self w)) as [l|]; [|exact Hmob].
  unfold Line_put_start_and_end_on. erewrite bind_return by exact Ese.
  cbn [fst snd]. rewrite ArcBetweenPointsFacts.vec3_eqb_neq by exact Hne.
  erewrite bind_return by reflexivity. exact Hmob.
Qed.

Lemma put_ends_of_a_loop (w : world) (s e p : vec3) :
  line (self w) = None ->
  get_start_and_end w = Return (p, p) w ->
  put_start_and_end_on s e w =
    Throw (PyException "Cannot position endpoints of closed loop") w.
Proof.
  intros Hl Ese. unfold put_start_and_end_on. erewrite bind_return by reflexivity.
  rewrite Hl. unfold Mobject_put_start_and_end_on.
  erewrite bind_return by exact Ese. cbn [fst snd].
  unfold endpoints_map. rewrite vsub_diag, vec3_eqb_refl. reflexivity.
Qed.

(** X16: pop_tips() on a path that has no tips returns an empty group and
    changes nothing, where the two ends of the path differ; on a closed
    path that is no Line it raises, because it ends by putting the two
    ends back where they were. *)
Theorem pop_tips_without_tips (w : world) (s e : vec3) :
  has_tip (self w) = false -> has_start_tip (self w) = false ->
  get_start_and_end w = Return (s, e) w ->
  (s <> e -> pop_tips w = Return [] w) /\
  (s = e -> line (self w) = None ->
   pop_tips w = Throw (PyException "Cannot position endpoints of closed loop") w).
Proof.
  intros Ht Hs Ese.
  assert (Hstart : pop_tips w = (put_start_and_end_on s e;;; ret [])%py w).
  { unfold pop_tips. erewrite bind_return by exact Ese.
    erewrite bind_return by reflexivity. rewrite Ht.
    erewrite bind_return by reflexivity.
    erewrite bind_return by reflexivity. rewrite Hs.
    erewrite bind_return by reflexivity. reflexivity. }
  rewrite Hstart. split.
  - intros Hne. erewrite bind_return by (apply put_ends_where_they_are; assumption).
    reflexivity.
  - intros -> Hl. erewrite bind_throw by (apply (put_ends_of_a_loop w e e e); assumption).
    reflexivity.
Qed.

End NoTips.

(* Line(LEFT, RIGHT).pop_tips() *)
Lemma pop_tips_without_tips_witness :
  let w := straight_line LEFT RIGHT 0 None in
  has_tip (self w) = false /\ has_start_tip (self w) = false /\
  get_start_and_end w = Return (LEFT, RIGHT) w /\ LEFT <> RIGHT /\
  pop_tips (H := straight_collaborator) w = Return [] w.
Proof.
  cbv zeta.
  assert (Hne : LEFT <> RIGHT) by (intros E; apply (f_equal vx) in E; simpl in E; lra).
  assert (Ese : get_start_and_end (straight_line LEFT RIGHT 0 None) =
                Return (LEFT, RIGHT) (straight_line LEFT RIGHT 0 None)) by reflexivity.
  assert (Ht : has_tip (self (straight_line LEFT RIGHT 0 None)) = false) by reflexivity.
  assert (Hs : has_start_tip (self (straight_line LEFT RIGHT 0 None)) = false)
    by reflexivity.
  split; [exact Ht|]. split; [exact Hs|]. split; [exact Ese|]. split; [exact Hne|].
  apply (pop_tips_without_tips (H := straight_collaborator) _ LEFT RIGHT Ht Hs Ese).
  exact Hne.
Defined.

(** ** The number of dashes *)

Lemma Int_part_IZR (m : Z) : Int_part (IZR m) = m.
Proof.
  unfold Int_part. rewrite <- (tech_up (IZR m) (m + 1)); [lia| |]; rewrite plus_IZR; lra.
Qed.

Lemma ceil_bounds (r : R) : IZR (- Int_part (- r)) - 1 < r <= IZR (- Int_part (- r)).
Proof.
  destruct (base_Int_part (- r)) as [H1 H2]. rewrite opp_IZR. lra.
Qed.

Lemma py_int_np_ceil (r : R) : py_int (np_ceil (Finite r)) = Ok (- Int_part (- r))%Z.
Proof.
  unfold np_ceil, py_int. f_equal.
  destruct (Rlt_dec (IZR (- Int_part (- r))) 0).
  - rewrite <- opp_IZR, Int_part_IZR. lia.
  - apply Int_part_IZR.
Qed.

Lemma DashedLine_get_length_nonneg (w : world) (L : R) :
  DashedLine_get_length w = Return L w -> 0 <= L.
Proof.
  unfold DashedLine_get_length, bind.
  destruct (DashedLine_get_start w) as [s w1|]; [|discriminate].
  destruct (DashedLine_get_end w1) as [e w2|]; [|discriminate].
  unfold ret. intros [= <- _]. apply norm_nonneg.
Qed.

(** X17: calculate_num_dashes(ratio) is 1 when the ratio is 0, whatever the
    line.  Otherwise, on a line of length L, with
    full_length = dash_length / ratio: when dash_length is not 0 it is the
    least integer n with L / full_length <= n; when dash_length is 0 the
    division by full_length gives inf or nan without an exception, and
    int() raises OverflowError (L > 0) or ValueError (L = 0), which the
    except clause for ZeroDivisionError lets through. *)
Theorem num_dashes (w : world) (dash_length ratio L : R) :
  DashedLine_get_length w = Return L w ->
  (ratio = 0 -> calculate_num_dashes dash_length ratio w = Return 1%Z w) /\
  (ratio <> 0 -> dash_length <> 0 ->
   exists n : Z,
     calculate_num_dashes dash_length ratio w = Return n w /\
     IZR n - 1 < L / (dash_length / ratio) <= IZR n) /\
  (ratio <> 0 -> dash_length = 0 ->
   calculate_num_dashes dash_length ratio w =
     Throw (if Req_dec_T L 0
            then ValueError "cannot convert float NaN to integer"
            else OverflowError) w).
Proof.
  intros EL. pose proof (DashedLine_get_length_nonneg w L EL) as HL.
  unfold calculate_num_dashes, py_div. repeat split.
  - intros ->. rewrite Req_dec_T_refl. reflexivity.
  - intros Hr Hd. destruct (Req_dec_T ratio 0) as [E|_]; [contradiction|].
    exists (- Int_part (- (L / (dash_length / ratio))))%Z.
    split; [|apply ceil_bounds].
    erewrite bind_return by exact EL.
    assert (Hf : dash_length / ratio <> 0).
    { intros E. apply Hd. apply (f_equal (fun x => x * ratio)) in E.
      field_simplify in E; [lra|exact Hr]. }
    unfold np_div. destruct (Req_dec_T (dash_length / ratio) 0) as [E|_]; [contradiction|].
    rewrite py_int_np_ceil. reflexivity.
  - intros Hr ->. destruct (Req_dec_T ratio 0) as [E|_]; [contradiction|].
    erewrite bind_return by exact EL.
    replace (0 / ratio) with 0 by (field; exact Hr).
    unfold np_div. rewrite Req_dec_T_refl.
    destruct (Rlt_dec 0 L) as [Hp|Hn].
    + destruct (Req_dec_T L 0) as [E|_]; [lra|]. reflexivity.
    + destruct (Rlt_dec L 0) as [Hl|_]; [lra|].
      destruct (Req_dec_T L 0) as [_|Hne]; [reflexivity|lra].
Qed.

(* a line from LEFT to RIGHT with the default dash_length 0.05 and ratio
   0.5: 20 dashes *)
Lemma num_dashes_witness :
  let w := straight_line LEFT RIGHT 0 None in
  DashedLine_get_length w = Return 2 w /\
  exists n : Z,
    calculate_num_dashes 0.05 0.5 w = Return n w /\
    IZR n - 1 < 2 / (0.05 / 0.5) <= IZR n.
Proof.
  cbv zeta.
  assert (EL : DashedLine_get_length (straight_line LEFT RIGHT 0 None) =
               Return 2 (straight_line LEFT RIGHT 0 None)).
  { rewrite <- norm_LEFT_RIGHT. reflexivity. }
  split; [exact EL|].
  apply (proj1 (proj2 (num_dashes _ 0.05 0.5 2 EL))); lra.
Defined.

(** ** A Line that has shrunk to a point *)

Lemma corners_ends (s e : vec3) :
  head (set_points_as_corners [s; e]) = Some s /\
  last (set_points_as_corners [s; e]) = Some e.
Proof. split; reflexivity. Qed.

Section Regenerated.
Context `{Collaborator}.

(* the Line after the attributes and the points are set again *)
Lemma regenerated_line (w : world) (l : line_attrs) (s e : vec3) :
  buff l = 0 -> truthy (path_arc l) = false ->
  (set_line (mkLine (buff l) (path_arc l) s e);;;
   Line_generate_points (mkLine (buff l) (path_arc l) s e))%py w =
  Return tt (mkWorld (mk (set_points_as_corners [s; e]) (submobjects (self w))
                         (tip (self w)) (start_tip (self w)) (tip_length (self w))
                         (Some (mkLine (buff l) (path_arc l) s e)))
                     (heap w) (next_id w)).
Proof.
  intros Hb Hp. erewrite bind_return by reflexivity.
  unfold Line_generate_points. cbn [path_arc start end_]. rewrite Hp.
  erewrite bind_return by reflexivity.
  unfold account_for_buff. cbn [buff]. rewrite Hb, Req_dec_T_refl.
  reflexivity.
Qed.

(** X18: A Line whose two ends coincide can be placed again, where a general
    path raises: on a Line without buff, path arc and tips whose ends are one
    point, put_start_and_end_on(s, e) sets the attributes start and end and
    draws the straight path from s to e anew, when s and e differ; when
    they are equal it raises after having done so. *)
Theorem collapsed_line_is_drawn_anew (w : world) (l : line_attrs) (p s e : vec3) :
  line (self w) = Some l -> buff l = 0 -> truthy (path_arc l) = false ->
  has_tip (self w) = false -> has_start_tip (self w) = false ->
  get_start_and_end w = Return (p, p) w ->
  let w' := mkWorld (mk (set_points_as_corners [s; e]) (submobjects (self w))
                        (tip (self w)) (start_tip (self w)) (tip_length (self w))
                        (Some (mkLine (buff l) (path_arc l) s e)))
                    (heap w) (next_id w) in
  put_start_and_end_on s e w =
    (if vec3_eqb s e
     then Throw (PyException "Cannot position endpoints of closed loop") w'
     else Return tt w') /\
  get_start_and_end w' = Return (s, e) w'.
Proof.
  intros Hl Hb Hp Ht Hs Ese w'.
  assert (Ese' : get_start_and_end w' = Return (s, e) w').
  { unfold get_start_and_end, get_start, get_end.
    erewrite bind_return; [|erewrite bind_return by reflexivity;
                            change (has_start_tip (self w')) with (has_start_tip (self w));
                            rewrite Hs; reflexivity].
    erewrite bind_return; [|erewrite bind_return by reflexivity;
                            change (has_tip (self w')) with (has_tip (self w));
                            rewrite Ht; reflexivity].
    reflexivity. }
  split; [|exact Ese'].
  unfold put_start_and_end_on. erewrite bind_return by reflexivity. rewrite Hl.
  unfold Line_put_start_and_end_on. erewrite bind_return by exact Ese.
  cbn [fst snd]. rewrite vec3_eqb_refl.
  erewrite bind_return by (apply regenerated_line; assumption).
  fold w'. destruct (vec3_eqb s e) eqn:E.
  - apply vec3_eqb_true in E. subst e.
    unfold Mobject_put_start_and_end_on. erewrite bind_return by exact Ese'.
    cbn [fst snd]. unfold endpoints_map. rewrite vsub_diag, vec3_eqb_refl. reflexivity.
  - apply Mobject_put_ends_where_they_are; [exact Ese'|].
    intros ->. rewrite vec3_eqb_refl in E. discriminate.
Qed.

End Regenerated.

(* Line(ORIGIN, ORIGIN).put_start_and_end_on(LEFT, RIGHT) *)
Lemma collapsed_line_is_drawn_anew_witness :
  let w := straight_line ORIGIN ORIGIN 0 None in
  put_start_and_end_on (H := straight_collaborator) LEFT RIGHT w =
    Return tt (straight_line LEFT RIGHT 0 None) /\
  get_start_and_end (straight_line LEFT RIGHT 0 None) =
    Return (LEFT, RIGHT) (straight_line LEFT RIGHT 0 None).
Proof.
  cbv zeta.
  assert (E : vec3_eqb LEFT RIGHT = false) by (apply vec3_eqb_false; simpl; lra).
  assert (Hl : line (self (straight_line ORIGIN ORIGIN 0 None)) =
               Some (mkLine 0 None ORIGIN ORIGIN)) by reflexivity.
  assert (Ht : has_tip (self (straight_line ORIGIN ORIGIN 0 None)) = false) by reflexivity.
  assert (Hs : has_start_tip (self (straight_line ORIGIN ORIGIN 0 None)) = false)
    by reflexivity.
  assert (Ese : get_start_and_end (straight_line ORIGIN ORIGIN 0 None) =
                Return (ORIGIN, ORIGIN) (straight_line ORIGIN ORIGIN 0 None))
    by reflexivity.
  pose proof (collapsed_line_is_drawn_anew (H := straight_collaborator)
                _ _ ORIGIN LEFT RIGHT Hl eq_refl eq_refl Ht Hs Ese) as Hthm.
  cbv zeta in Hthm. rewrite E in Hthm. exact Hthm.
Defined.

(** ** Operations on the whole family *)

Lemma foldr_alter_lookup (f : path -> path) (l : list nat) (h : gmap nat path) (i : nat) :
  NoDup l -> i ∈ l -> foldr (fun i h => alter f i h) h l !! i = option_map f (h !! i).
Proof.
  induction l as [|j l IH]; intros Hnd Hi.
  - apply elem_of_nil in Hi. contradiction.
  - apply NoDup_cons in Hnd as [Hj Hnd]. cbn [foldr].
    destruct (decide (j = i)) as [->|Hne].
    + rewrite lookup_alter_eq.
      assert (E : foldr (fun i h => alter f i h) h l !! i = h !! i).
      { clear IH Hi Hnd. induction l as [|k l IH]; [reflexivity|].
        apply not_elem_of_cons in Hj as [Hk Hj]. cbn [foldr].
        rewrite lookup_alter_ne by (intros ->; apply Hk; reflexivity). apply IH, Hj. }
      rewrite E. destruct (h !! i); reflexivity.
    + rewrite lookup_alter_ne by exact Hne. apply IH; [exact Hnd|].
      apply elem_of_cons in Hi as [->|Hi]; [contradiction|exact Hi].
Qed.

Lemma foldr_alter_lookup_other (f : path -> path) (l : list nat) (h : gmap nat path)
    (i : nat) :
  i ∉ l -> foldr (fun i h => alter f i h) h l !! i = h !! i.
Proof.
  induction l as [|k l IH]; [reflexivity|]. intros Hi.
  apply not_elem_of_cons in Hi as [Hk Hi]. cbn [foldr].
  rewrite lookup_alter_ne by (intros ->; apply Hk; reflexivity). apply IH, Hi.
Qed.

(* an operation on every point moves what get_start and get_end read *)
Lemma family_apply_ends (phi : vec3 -> vec3) (f : path -> path) (w : world) :
  (forall ps, f ps = map phi ps) -> NoDup (submobjects (self w)) ->
  start_of (final_state (family_apply f w)) = option_map phi (start_of w) /\
  end_of (final_state (family_apply f w)) = option_map phi (end_of w).
Proof.
  intros Hf Hnd. unfold family_apply, modify, final_state, start_of, end_of.
  cbn [self points submobjects tip start_tip heap].
  change (has_start_tip (mk _ (submobjects (self w)) _ (start_tip (self w)) _ _))
    with (has_start_tip (self w)).
  change (has_tip (mk _ (submobjects (self w)) (tip (self w)) _ _ _))
    with (has_tip (self w)).
  assert (Hfirst : forall i, i ∈ submobjects (self w) ->
            first_point_of
              (mkWorld (mk (f (points (self w))) (submobjects (self w)) (tip (self w))
                           (start_tip (self w)) (tip_length (self w)) (line (self w)))
                       (foldr (fun i h => alter f i h) (heap w) (submobjects (self w)))
                       (next_id w)) i =
            option_map phi (first_point_of w i)).
  { intros i Hi. unfold first_point_of. cbn [heap].
    rewrite foldr_alter_lookup by assumption.
    destruct (heap w !! i) as [ps|]; [|reflexivity]. cbn [option_map].
    rewrite Hf. apply ArcBetweenPointsFacts.head_map. }
  split.
  - destruct (has_start_tip (self w)) eqn:E.
    + destruct (TipableProperties.has_start_tip_true _ E) as (i & Ei & Hi).
      rewrite Ei. apply Hfirst, Hi.
    + rewrite Hf. apply ArcBetweenPointsFacts.head_map.
  - destruct (has_tip (self w)) eqn:E.
    + destruct (TipableProperties.has_tip_true _ E) as (i & Ei & Hi).
      rewrite Ei. apply Hfirst, Hi.
    + rewrite Hf. apply ArcBetweenPointsFacts.last_map.
Qed.

Lemma norm_scaled (factor : R) (c a b : vec3) :
  norm (vsub (vadd c (smul factor (vsub a c))) (vadd c (smul factor (vsub b c)))) =
  Rabs factor * norm (vsub a b).
Proof.
  unfold norm. cbn [vsub vadd smul vx vy vz].
  rewrite <- sqrt_Rsqr_abs, <- sqrt_mult_alt by apply Rle_0_sqr.
  f_equal. unfold Rsqr. ring.
Qed.

(** ** set_length *)

Section SetLength.
Context `{Collaborator}.

(** X19: set_length(L) on a line of length other than 0 gives it the length
    |L|, tips included: the ends that get_start() and get_end() report are
    |L| apart afterwards, also for a negative L. *)
Theorem set_length_sets_length (w : world) (L l : R) :
  NoDup (submobjects (self w)) ->
  get_length w = Return l w -> l <> 0 ->
  exists w', Line_set_length L w = Return tt w' /\ get_length w' = Return (Rabs L) w'.
Proof.
  intros Hnd El Hl.
  assert (Hse : exists s e, start_of w = Some s /\ end_of w = Some e /\
                            l = norm (vsub s e)).
  { revert El. unfold get_length, bind.
    destruct (get_start_and_end w) as [[s e] w1|] eqn:Ese; [|discriminate].
    apply get_start_and_end_read in Ese as (Hs & He & ->).
    unfold ret. cbn [fst snd]. intros [= <-]. eauto. }
  destruct Hse as (s & e & Hs & He & ->).
  set (factor := L / norm (vsub s e)).
  set (c := get_center (family_points w)).
  exists (final_state (family_apply (scale_about factor c) w)). split.
  - unfold Line_set_length. erewrite bind_return by exact El.
    unfold np_div. destruct (Req_dec_T (norm (vsub s e)) 0) as [E|_]; [contradiction|].
    unfold Mobject_scale. erewrite bind_return by reflexivity. reflexivity.
  - destruct (family_apply_ends (fun p => vadd c (smul factor (vsub p c)))
                (scale_about factor c) w (fun ps => eq_refl) Hnd) as [Hs' He'].
    rewrite Hs in Hs'. rewrite He in He'. cbn [option_map] in Hs', He'.
    rewrite (get_length_reads _ _ _ Hs' He'). f_equal.
    rewrite norm_scaled. unfold factor.
    pose proof (norm_nonneg (vsub s e)) as Hn.
    unfold Rdiv. rewrite Rabs_mult, Rabs_inv, (Rabs_pos_eq (norm (vsub s e))) by exact Hn.
    field. exact Hl.
Qed.

End SetLength.

(* Line(LEFT, RIGHT).set_length(-3) *)
Lemma set_length_sets_length_witness :
  let w := straight_line LEFT RIGHT 0 None in
  NoDup (submobjects (self w)) /\ get_length w = Return 2 w /\ 2 <> 0 /\
  exists w', Line_set_length (H := straight_collaborator) (-3) w = Return tt w' /\
             get_length w' = Return (Rabs (-3)) w'.
Proof.
  cbv zeta.
  assert (Hnd : NoDup (submobjects (self (straight_line LEFT RIGHT 0 None))))
    by apply NoDup_nil_2.
  assert (El : get_length (straight_line LEFT RIGHT 0 None) =
               Return 2 (straight_line LEFT RIGHT 0 None)).
  { rewrite <- norm_LEFT_RIGHT. reflexivity. }
  assert (H2 : 2 <> 0) by lra.
  split; [exact Hnd|]. split; [exact El|]. split; [exact H2|].
  exact (set_length_sets_length (H := straight_collaborator) _ (-3) 2 Hnd El H2).
Defined.

(** ** The ends of a path that gets a tip *)

Section KeepsEnds.
Context `{Collaborator}.

Lemma endpoints_map_pointwise (s e cs ce : vec3) (f : path -> path) :
  endpoints_map s e cs ce = Ok f ->
  exists phi : vec3 -> vec3, (forall ps, f ps = map phi ps) /\ phi cs = s.
Proof.
  unfold endpoints_map. destruct (vec3_eqb (vsub ce cs) ORIGIN); [discriminate|].
  intros [= <-]. eexists. split.
  - intros ps. unfold shift, rotate_about, scale_about. rewrite !map_map. reflexivity.
  - apply vec3_eq; cbn [rotate_vector vadd vsub smul vx vy vz]; ring.
Qed.

(* put_start_and_end_on on a path whose ends differ is the operation of
   endpoints_map on the family *)
Lemma put_start_and_end_on_apply (w : world) (s e cs ce : vec3) :
  get_start_and_end w = Return (cs, ce) w -> cs <> ce ->
  exists f, endpoints_map s e cs ce = Ok f /\
            put_start_and_end_on s e w = Return tt (final_state (family_apply f w)).
Proof.
  intros Ese Hne.
  destruct (TipableProperties.endpoints_map_ok s e cs ce Hne) as (f & Ef & _).
  exists f. split; [exact Ef|].
  assert (Hmob : Mobject_put_start_and_end_on s e w =
                 Return tt (final_state (family_apply f w))).
  { unfold Mobject_put_start_and_end_on. erewrite bind_return by exact Ese.
    cbn [fst snd]. rewrite Ef. reflexivity. }
  unfold put_start_and_end_on. erewrite bind_return by reflexivity.
  destruct (line (self w)) as [l|]; [|exact Hmob].
  unfold Line_put_start_and_end_on. erewrite bind_return by exact Ese.
  cbn [fst snd]. rewrite ArcBetweenPointsFacts.vec3_eqb_neq by exact Hne.
  erewrite bind_return by reflexivity. exact Hmob.
Qed.

(* a new tip is made: a mobject with points, and nothing else changes *)
Lemma get_unpositioned_tip_effect (w0 : world) (tl : option R) :
  resizing_keeps_points H ->
  exists tps, tps <> [] /\
    (resizing_keeps_length H -> length tps = 12%nat) /\
    get_unpositioned_tip tl w0 =
      Return (next_id w0)
             (mkWorld (self w0) (<[next_id w0 := tps]> (heap w0)) (S (next_id w0))).
Proof.
  intros resizing.
  assert (HA : forall l, exists tps, tps <> [] /\
            (resizing_keeps_length H -> length tps = 12%nat) /\
            ArrowTip l w0 =
              Return (next_id w0)
                     (mkWorld (self w0) (<[next_id w0 := tps]> (heap w0)) (S (next_id w0)))).
  { intros l. eexists. split; [|split; [|reflexivity]].
    - apply resizing. apply resizing. apply TipableProperties.triangle_corners_nonempty.
    - intros Hk. rewrite (proj2 (Hk _ _)), (proj1 (Hk _ _)). reflexivity. }
  unfold get_unpositioned_tip. destruct tl as [l|].
  - erewrite bind_return by reflexivity. apply HA.
  - erewrite bind_return by reflexivity. apply HA.
Qed.

(* position_tip moves the tip only, and puts its first point on the end of
   the path *)
Lemma position_tip_effect (w : world) (i : nat) (at_start : bool) (tps : path)
    (anchor : vec3) :
  heap w !! i = Some tps -> tps <> [] -> (2 <= length (points (self w)))%nat ->
  (if at_start then start_of w else end_of w) = Some anchor ->
  exists tps', head tps' = Some anchor /\ length tps' = length tps /\
    position_tip i at_start w =
      Return i (mkWorld (self w) (<[i := tps']> (heap w)) (next_id w)).
Proof.
  intros Hi Hne Hl Ha.
  destruct tps as [|p tps]; [contradiction|].
  assert (Hah : exists handle,
            (if at_start then
               anchor <- get_start;; handle <- get_first_handle;; ret (anchor, handle)
             else
               handle <- get_last_handle;; anchor <- get_end;; ret (anchor, handle))%py w =
            Return (anchor, handle) w).
  { destruct at_start.
    - assert (exists h, get_first_handle w = Return h w) as (h & Eh).
      { unfold get_first_handle. erewrite bind_return by reflexivity.
        destruct (points (self w)) as [|p0 [|q ps]]; simpl in Hl; try lia.
        exists q. reflexivity. }
      exists h. erewrite bind_return by (apply get_start_reads; exact Ha).
      erewrite bind_return by exact Eh. reflexivity.
    - assert (exists h, get_last_handle w = Return h w) as (h & Eh).
      { unfold get_last_handle. erewrite bind_return by reflexivity.
        destruct (length (points (self w)) <? 2)%nat eqn:E; [apply Nat.ltb_lt in E; lia|].
        destruct (points (self w) !! (length (points (self w)) - 2)%nat) as [q|] eqn:Ep.
        - exists q. reflexivity.
        - apply lookup_ge_None in Ep. lia. }
      exists h. erewrite bind_return by exact Eh.
      erewrite bind_return by (apply get_end_reads; exact Ha). reflexivity. }
  destruct Hah as (handle & Eah).
  assert (Epts : points_of i w = Return (p :: tps) w).
  { unfold points_of. rewrite Hi. reflexivity. }
  assert (Eang : exists a, tip_get_angle i w = Return a w).
  { eexists. unfold tip_get_angle, tip_get_vector, tip_get_tip_point, tip_get_base.
    erewrite bind_return; [reflexivity|].
    erewrite bind_return; [|erewrite bind_return by exact Epts; reflexivity].
    erewrite bind_return; [|erewrite bind_return by exact Epts; reflexivity].
    reflexivity. }
  destruct Eang as (a & Eang).
  set (ang := angle_of_vector (vsub handle anchor) - PI - a).
  set (c := get_center (p :: tps)).
  set (p' := vadd c (rotate_vector (vsub p c) ang)).
  set (rps := rotate_about ang c tps).
  exists (shift (vsub anchor p') (p' :: rps)). split.
  { cbn [shift map head]. f_equal.
    apply vec3_eq; cbn [vadd vsub vx vy vz]; ring. }
  split.
  { unfold shift, rps, rotate_about. cbn [map length]. rewrite !length_map. reflexivity. }
  unfold position_tip. erewrite bind_return by exact Eah. cbv beta iota.
  erewrite bind_return by exact Eang. fold ang.
  assert (Erot : tip_rotate i ang w =
                 Return tt (mkWorld (self w) (<[i := p' :: rps]> (heap w)) (next_id w))).
  { unfold tip_rotate. erewrite bind_return by exact Epts. reflexivity. }
  erewrite bind_return by exact Erot.
  set (w1 := mkWorld (self w) (<[i := p' :: rps]> (heap w)) (next_id w)).
  assert (Epts1 : points_of i w1 = Return (p' :: rps) w1).
  { unfold points_of, w1. cbn [heap]. rewrite lookup_insert_eq. reflexivity. }
  assert (Etp : tip_get_tip_point i w1 = Return p' w1).
  { unfold tip_get_tip_point. erewrite bind_return by exact Epts1. reflexivity. }
  erewrite bind_return by exact Etp.
  assert (Esh : tip_shift i (vsub anchor p') w1 =
                Return tt (mkWorld (self w) (<[i := shift (vsub anchor p') (p' :: rps)]> (heap w))
                                   (next_id w))).
  { unfold tip_shift. erewrite bind_return by exact Epts1.
    unfold set_points_of, modify, w1. cbn [self heap next_id].
    rewrite insert_insert_eq. reflexivity. }
  erewrite bind_return by exact Esh. reflexivity.
Qed.

(* a new mobject does not change what the ends read *)
Lemma ends_of_insert (w : world) (i : nat) (ps : path) (n : nat) :
  (forall j, tip (self w) = Some j \/ start_tip (self w) = Some j -> j <> i) ->
  start_of (mkWorld (self w) (<[i := ps]> (heap w)) n) = start_of w /\
  end_of (mkWorld (self w) (<[i := ps]> (heap w)) n) = end_of w.
Proof.
  intros Hi. unfold start_of, end_of, first_point_of. cbn [self heap]. split.
  - destruct (has_start_tip (self w)); [|reflexivity].
    destruct (start_tip (self w)) as [j|] eqn:E; [|reflexivity].
    rewrite lookup_insert_ne; [reflexivity|]. intros ->. apply (Hi j); auto.
  - destruct (has_tip (self w)); [|reflexivity].
    destruct (tip (self w)) as [j|] eqn:E; [|reflexivity].
    rewrite lookup_insert_ne; [reflexivity|]. intros ->. apply (Hi j); auto.
Qed.

(* the path is shortened to the base of the tip; the tip, which is no child
   yet, stays where it is *)
Lemma reset_endpoints_effect (w : world) (i : nat) (at_start : bool) (s e : vec3)
    (tps : path) :
  NoDup (submobjects (self w)) -> i ∉ submobjects (self w) ->
  start_of w = Some s -> end_of w = Some e -> heap w !! i = Some tps ->
  exists w',
    reset_endpoints_based_on_tip i at_start w = Return tt w' /\
    submobjects (self w') = submobjects (self w) /\
    tip (self w') = tip (self w) /\ start_tip (self w') = start_tip (self w) /\
    next_id w' = next_id w /\
    (2 <= length (points (self w)) -> 2 <= length (points (self w')))%nat /\
    (forall k, k ∉ submobjects (self w) -> heap w' !! k = heap w !! k) /\
    (at_start = false -> start_of w' = Some s).
Proof.
  intros Hnd Hi Hs He Ht.
  unfold reset_endpoints_based_on_tip.
  erewrite bind_return by (apply get_length_reads; eassumption).
  destruct (Req_dec_T (norm (vsub s e)) 0) as [_|Hne].
  { exists w. repeat split; auto. }
  assert (Hfr : forall (f : path -> path) k, k ∉ submobjects (self w) ->
            heap (final_state (family_apply f w)) !! k = heap w !! k).
  { intros f k Hk. unfold family_apply, modify, final_state. cbn [heap].
    apply foldr_alter_lookup_other. exact Hk. }
  apply norm_vsub_nonzero in Hne.
  pose proof (get_start_and_end_reads w s e Hs He) as Ese.
  assert (Eb : tip_get_base i w = Return (point_from_proportion tps 0.5) w).
  { unfold tip_get_base, points_of, bind. rewrite Ht. reflexivity. }
  destruct at_start.
  - erewrite bind_return by exact Eb.
    erewrite bind_return by (apply get_end_reads; exact He).
    destruct (put_start_and_end_on_apply w (point_from_proportion tps 0.5) e s e Ese Hne)
      as (f & Ef & Ep).
    destruct (endpoints_map_pointwise _ _ _ _ _ Ef) as (phi & Hphi & _).
    exists (final_state (family_apply f w)). split; [exact Ep|].
    split; [reflexivity|]. split; [reflexivity|]. split; [reflexivity|].
    split; [reflexivity|]. split.
    { unfold family_apply, modify, final_state. cbn [self points].
      rewrite Hphi, length_map. auto. }
    split; [apply Hfr|discriminate].
  - erewrite bind_return by (apply get_start_reads; exact Hs).
    erewrite bind_return by exact Eb.
    destruct (put_start_and_end_on_apply w s (point_from_proportion tps 0.5) s e Ese Hne)
      as (f & Ef & Ep).
    destruct (endpoints_map_pointwise _ _ _ _ _ Ef) as (phi & Hphi & Hcs).
    exists (final_state (family_apply f w)). split; [exact Ep|].
    split; [reflexivity|]. split; [reflexivity|]. split; [reflexivity|].
    split; [reflexivity|]. split.
    { unfold family_apply, modify, final_state. cbn [self points].
      rewrite Hphi, length_map. auto. }
    split; [apply Hfr|].
    + intros _.
      destruct (family_apply_ends phi f w Hphi Hnd) as [Hs' _].
      rewrite Hs' , Hs. cbn [option_map]. rewrite Hcs. reflexivity.
Qed.

(* what add_tip does: the new tip is attached with its first point on the
   end it decorates, and the mobjects that are no children stay as they
   are *)
Lemma add_tip_effect (w0 : world) (tl : option R) (at_start : bool) (s e : vec3) :
  resizing_keeps_points H -> wf w0 -> numbered w0 ->
  start_of w0 = Some s -> end_of w0 = Some e ->
  exists w' tps',
    add_tip tl at_start w0 = Return tt w' /\
    attached (next_id w0) at_start w0 w' /\ wf w' /\
    heap w' !! next_id w0 = Some tps' /\
    head tps' = Some (if at_start then s else e) /\
    (resizing_keeps_length H -> length tps' = 12%nat) /\
    (forall k, k ∉ submobjects (self w0) -> k <> next_id w0 -> heap w' !! k = heap w0 !! k) /\
    (at_start = false -> start_of w' = Some s).
Proof.
  intros Hres Hwf Hnum Hs He. pose proof Hwf as (Hl & Hnd & Halive).
  destruct (TipableProperties.add_tip_total w0 tl at_start Hres Hwf)
    as (w' & E & Hatt & Hwf').
  set (i := next_id w0) in *.
  assert (Hattr : forall j, tip (self w0) = Some j \/ start_tip (self w0) = Some j -> j <> i).
  { intros j Hj ->. assert (i < next_id w0)%nat by (apply Hnum; tauto). unfold i in *. lia. }
  assert (Hi : i ∉ submobjects (self w0)).
  { intros Hin. assert (i < next_id w0)%nat by (apply Hnum; tauto). unfold i in *. lia. }
  destruct (get_unpositioned_tip_effect w0 tl Hres) as (tps & Hne & Hlen & E1). fold i in E1.
  set (w1 := mkWorld (self w0) (<[i := tps]> (heap w0)) (S i)) in *.
  destruct (ends_of_insert w0 i tps (S i) Hattr) as [Hs1 He1]. fold w1 in Hs1, He1.
  rewrite Hs in Hs1. rewrite He in He1.
  assert (Ha1 : (if at_start then start_of w1 else end_of w1) =
                Some (if at_start then s else e)) by (destruct at_start; assumption).
  destruct (position_tip_effect w1 i at_start tps _ (lookup_insert_eq _ _ _) Hne Hl Ha1)
    as (tps' & Hh & Hlen' & E2).
  set (w2 := mkWorld (self w1) (<[i := tps']> (heap w1)) (next_id w1)) in *.
  destruct (ends_of_insert w1 i tps' (next_id w1) Hattr) as [Hs2 He2]. fold w2 in Hs2, He2.
  rewrite Hs1 in Hs2. rewrite He1 in He2.
  destruct (reset_endpoints_effect w2 i at_start s e tps' Hnd Hi Hs2 He2
              (lookup_insert_eq _ _ _))
    as (w3 & E3 & Hc3 & Ht3 & Hst3 & Hn3 & _ & Hh3 & Hs3).
  assert (Hstart : add_tip tl at_start w0 = (asign_tip_attr i at_start;;; add i)%py w3).
  { unfold add_tip, create_tip.
    erewrite bind_return; [|erewrite bind_return by exact E1; exact E2].
    erewrite bind_return by exact E3. reflexivity. }
  assert (Hheap : heap w' = heap w3 /\ points (self w') = points (self w3)).
  { rewrite Hstart in E. destruct at_start; injection E as <-; split; reflexivity. }
  destruct Hheap as [Hheap Hpts].
  assert (Hi3 : heap w3 !! i = Some tps').
  { rewrite (Hh3 i Hi). apply lookup_insert_eq. }
  exists w', tps'. split; [exact E|]. split; [exact Hatt|]. split; [exact Hwf'|].
  split; [rewrite Hheap; exact Hi3|]. split; [exact Hh|].
  split; [intros Hk; rewrite Hlen'; apply Hlen, Hk|].
  split.
  { intros k Hk Hki. rewrite Hheap, (Hh3 k Hk). cbn [heap w2 w1].
    rewrite !lookup_insert_ne by (intros Ek; apply Hki; symmetry; exact Ek). reflexivity. }
  intros ->. specialize (Hs3 eq_refl). rewrite <- Hs3.
  destruct Hatt as (Hc & Ht & Hst & _).
  unfold start_of, has_start_tip, contains, first_point_of.
  rewrite Hheap, Hpts, Hst, Hc.
  change (start_tip (self w0)) with (start_tip (self w2)). rewrite <- Hst3.
  change (submobjects (self w0)) with (submobjects (self w2)). rewrite <- Hc3.
  destruct (start_tip (self w3)) as [j|] eqn:Ej; [|reflexivity].
  assert (Hji : j <> i).
  { apply Hattr. right. change (start_tip (self w2) = Some j). symmetry. exact Hst3. }
  assert (Eb : bool_decide (j ∈ list_update (submobjects (self w3)) [i]) =
               bool_decide (j ∈ submobjects (self w3))).
  { apply bool_decide_ext. rewrite TipableProperties.list_update_elem_of. tauto. }
  rewrite Eb. reflexivity.
Qed.

(** X20: add_tip does not move the end it decorates: after add_tip at the end of a
    path, get_end() is the point that it was before, now the apex of the
    tip, and get_start() is unchanged too although the path was shortened
    to the base of the tip; after add_tip(at_start=True), get_start() is the
    point that it was before. *)
Theorem add_tip_keeps_the_ends (w0 : world) (tl : option R) (at_start : bool)
    (s e : vec3) :
  resizing_keeps_points H -> wf w0 -> numbered w0 ->
  get_start_and_end w0 = Return (s, e) w0 ->
  exists w',
    add_tip tl at_start w0 = Return tt w' /\
    (if at_start then get_start w' = Return s w'
     else get_start_and_end w' = Return (s, e) w').
Proof.
  intros Hres Hwf Hnum Ese.
  apply get_start_and_end_read in Ese as (Hs & He & _).
  destruct (add_tip_effect w0 tl at_start s e Hres Hwf Hnum Hs He)
    as (w' & tps' & E & (Hc & Ht & Hst & _) & _ & Hi & Hh & _ & _ & Hs').
  exists w'. split; [exact E|].
  assert (Hin : next_id w0 ∈ submobjects (self w')).
  { rewrite Hc. apply TipableProperties.list_update_elem_of. right. reflexivity. }
  destruct at_start.
  - apply get_start_reads. unfold start_of, has_start_tip, contains, first_point_of.
    rewrite Hst, bool_decide_eq_true_2 by exact Hin. rewrite Hi. exact Hh.
  - apply get_start_and_end_reads; [apply Hs'; reflexivity|].
    unfold end_of, has_tip, contains, first_point_of.
    rewrite Ht, bool_decide_eq_true_2 by exact Hin. rewrite Hi. exact Hh.
Qed.

End KeepsEnds.

Lemma straight_line_numbered start end_ buff path_arc :
  numbered (straight_line start end_ buff path_arc).
Proof.
  intros j [Hj|[Hj|Hj]]; [apply elem_of_nil in Hj; contradiction|discriminate|discriminate].
Qed.

(* Line(LEFT, RIGHT).add_tip() *)
Lemma add_tip_keeps_the_ends_witness :
  let w := straight_line LEFT RIGHT 0 None in
  resizing_keeps_points straight_collaborator /\ wf w /\ numbered w /\
  get_start_and_end w = Return (LEFT, RIGHT) w /\
  exists w',
    add_tip (H := straight_collaborator) None false w = Return tt w' /\
    get_start_and_end w' = Return (LEFT, RIGHT) w'.
Proof.
  cbv zeta.
  assert (Ese : get_start_and_end (straight_line LEFT RIGHT 0 None) =
                Return (LEFT, RIGHT) (straight_line LEFT RIGHT 0 None)) by reflexivity.
  split; [exact TipableProperties.straight_resizing|].
  split; [apply TipableProperties.straight_line_wf|].
  split; [apply straight_line_numbered|].
  split; [exact Ese|].
  exact (add_tip_keeps_the_ends (H := straight_collaborator) _ None false LEFT RIGHT
           TipableProperties.straight_resizing
           (TipableProperties.straight_line_wf _ _ _ _)
           (straight_line_numbered _ _ _ _) Ese).
Defined.

End TipableFacts.


(** * Scaling an Arrow *)

Module ArrowFacts.
Import Tipable.

Lemma family_apply_wf (f : path -> path) (w : world) :
  (forall ps, length (f ps) = length ps) -> wf w -> wf (final_state (family_apply f w)).
Proof.
  intros Hf (Hl & Hnd & Ha).
  assert (Hf' : forall ps : path, ps <> [] -> f ps <> []).
  { intros ps Hne E. apply (f_equal length) in E. rewrite Hf in E.
    destruct ps; [auto|discriminate]. }
  unfold family_apply, modify, final_state. split; [|split].
  - cbn [self points]. rewrite Hf. exact Hl.
  - exact Hnd.
  - intros j Hj. apply TipableProperties.alive_alter_fold; [exact Hf'|]. apply Ha. exact Hj.
Qed.

(* a tip that is taken out of the children is no tip any more, and a
   missing tip stays missing *)
Lemma has_tip_removed (o : t) (j : nat) (pts : path) :
  NoDup (submobjects o) -> has_tip o = false \/ tip o = Some j ->
  has_tip (mk pts (list_remove j (submobjects o)) (tip o) (start_tip o) (tip_length o)
              (line o)) = false.
Proof.
  intros Hnd Hc. apply TipableProperties.has_tip_false_iff. cbn [tip submobjects].
  intros i Ei. rewrite TipableProperties.list_remove_elem_of by exact Hnd.
  intros [Hin Hne]. destruct Hc as [Hc|Hc].
  - exact (proj1 (TipableProperties.has_tip_false_iff o) Hc i Ei Hin).
  - rewrite Hc in Ei. injection Ei as ->. apply Hne. reflexivity.
Qed.

Lemma has_start_tip_removed (o : t) (j : nat) (pts : path) :
  NoDup (submobjects o) -> has_start_tip o = false \/ start_tip o = Some j ->
  has_start_tip (mk pts (list_remove j (submobjects o)) (tip o) (start_tip o) (tip_length o)
                    (line o)) = false.
Proof.
  intros Hnd Hc. apply TipableProperties.has_start_tip_false_iff. cbn [start_tip submobjects].
  intros i Ei. rewrite TipableProperties.list_remove_elem_of by exact Hnd.
  intros [Hin Hne]. destruct Hc as [Hc|Hc].
  - exact (proj1 (TipableProperties.has_start_tip_false_iff o) Hc i Ei Hin).
  - rewrite Hc in Ei. injection Ei as ->. apply Hne. reflexivity.
Qed.

Section Scale.
Context `{Collaborator}.

(* pop_tips on a path with one tip, whose own two ends differ: the tip is
   no child any more and is kept as it is, the rest is put back on the two
   ends *)
Lemma pop_one_tip (w : world) (at_start : bool) :
  wf w ->
  has_tip (self w) = negb at_start -> has_start_tip (self w) = at_start ->
  head (points (self w)) <> last (points (self w)) ->
  exists j w1,
    (if at_start then start_tip (self w) else tip (self w)) = Some j /\
    j ∈ submobjects (self w) /\
    pop_tips w = Return [j] w1 /\ wf w1 /\
    submobjects (self w1) = list_remove j (submobjects (self w)) /\
    tip (self w1) = tip (self w) /\ start_tip (self w1) = start_tip (self w) /\
    next_id w1 = next_id w /\ heap w1 !! j = heap w !! j.
Proof.
  intros Hwf Ht Hs Hends. pose proof Hwf as (Hl & Hnd & Ha).
  destruct (TipableProperties.get_start_and_end_returns w
              (TipableProperties.wf_readable w Hwf)) as ([s e] & Ese).
  assert (Hj : exists j, (if at_start then start_tip (self w) else tip (self w)) = Some j /\
                         j ∈ submobjects (self w)).
  { destruct at_start.
    - apply TipableProperties.has_start_tip_true. exact Hs.
    - apply TipableProperties.has_tip_true. exact Ht. }
  destruct Hj as (j & Ej & Hj).
  set (w1 := mkWorld (mk (points (self w)) (list_remove j (submobjects (self w)))
                         (tip (self w)) (start_tip (self w)) (tip_length (self w))
                         (line (self w)))
                     (heap w) (next_id w)).
  assert (Ht1 : has_tip (self w1) = false).
  { apply has_tip_removed; [exact Hnd|]. destruct at_start; [left; exact Ht|right; exact Ej]. }
  assert (Hs1 : has_start_tip (self w1) = false).
  { apply has_start_tip_removed; [exact Hnd|].
    destruct at_start; [right; exact Ej|left; exact Hs]. }
  assert (Hwf1 : wf w1).
  { split; [exact Hl|]. split; [apply TipableProperties.list_remove_NoDup; exact Hnd|].
    intros k Hk. cbn [self submobjects w1] in Hk.
    apply TipableProperties.list_remove_elem_of in Hk as [Hk _]; [|exact Hnd].
    destruct (Ha k Hk) as (ps & E & Hne). exists ps. auto. }
  assert (Hpop : pop_tips w = (put_start_and_end_on s e;;; ret [j])%py w1).
  { unfold pop_tips. erewrite bind_return by exact Ese.
    erewrite bind_return by reflexivity. rewrite Ht.
    destruct at_start; cbn [negb].
    - erewrite bind_return by reflexivity.
      erewrite bind_return by reflexivity. rewrite Hs, Ej.
      erewrite bind_return;
        [|erewrite bind_return by (apply TipableProperties.remove_child; exact Hj);
          reflexivity].
      reflexivity.
    - rewrite Ej.
      erewrite bind_return;
        [|erewrite bind_return by (apply TipableProperties.remove_child; exact Hj);
          reflexivity].
      erewrite bind_return by reflexivity. fold w1. rewrite Hs1.
      erewrite bind_return by reflexivity. reflexivity. }
  destruct (points (self w)) as [|p0 ps0] eqn:Ep; [simpl in Hl; lia|].
  destruct (last (p0 :: ps0)) as [q0|] eqn:Eq; [|apply last_None in Eq; discriminate].
  assert (Hne : p0 <> q0) by (intros ->; apply Hends; reflexivity).
  assert (Ese1 : get_start_and_end w1 = Return (p0, q0) w1).
  { apply TipableFacts.get_start_and_end_reads.
    - unfold start_of. rewrite Hs1. cbn [self points w1]. rewrite ?Ep. reflexivity.
    - unfold end_of. rewrite Ht1. cbn [self points w1]. rewrite ?Ep. exact Eq. }
  destruct (TipableFacts.put_start_and_end_on_apply w1 s e p0 q0 Ese1 Hne) as (f & Ef & Eput).
  destruct (TipableFacts.endpoints_map_pointwise _ _ _ _ _ Ef) as (phi & Hphi & _).
  exists j, (final_state (family_apply f w1)).
  split; [exact Ej|]. split; [exact Hj|]. split.
  { rewrite Hpop. erewrite bind_return by exact Eput. reflexivity. }
  split.
  { apply family_apply_wf; [|exact Hwf1]. intros ps. rewrite Hphi. apply length_map. }
  split; [reflexivity|]. split; [reflexivity|]. split; [reflexivity|]. split; [reflexivity|].
  unfold family_apply, modify, final_state. cbn [heap self submobjects w1].
  apply TipableFacts.foldr_alter_lookup_other.
  rewrite TipableProperties.list_remove_elem_of by exact Hnd. tauto.
Qed.

Lemma get_length_returns (w : world) : wf w -> exists l, get_length w = Return l w.
Proof.
  intros Hwf.
  destruct (TipableProperties.get_start_and_end_returns w
              (TipableProperties.wf_readable w Hwf)) as (se & Ese).
  eexists. unfold get_length. erewrite bind_return by exact Ese. reflexivity.
Qed.

Lemma Mobject_scale_wf (factor : R) (w : world) :
  wf w ->
  exists w', Mobject_scale factor w = Return tt w' /\ wf w' /\
    submobjects (self w') = submobjects (self w) /\
    tip (self w') = tip (self w) /\ start_tip (self w') = start_tip (self w) /\
    next_id w' = next_id w /\
    forall k, k ∉ submobjects (self w) -> heap w' !! k = heap w !! k.
Proof.
  intros Hwf. eexists. split.
  { unfold Mobject_scale. erewrite bind_return by reflexivity. reflexivity. }
  split.
  { apply family_apply_wf; [|exact Hwf]. intros ps. apply length_map. }
  repeat split. intros k Hk. apply TipableFacts.foldr_alter_lookup_other. exact Hk.
Qed.

Lemma set_stroke_width_returns (w : world) :
  wf w -> set_stroke_width_from_length w = Return tt w.
Proof.
  intros Hwf. destruct (get_length_returns w Hwf) as (l & El).
  unfold set_stroke_width_from_length. erewrite bind_return by exact El. reflexivity.
Qed.

(* the Arrow asks for the tip length and adds the tip *)
Lemma Arrow_add_tip_total (ratio : R) (at_start : bool) (w : world) :
  resizing_keeps_points H -> wf w ->
  exists w', Arrow_add_tip ratio at_start w = Return tt w' /\
             attached (next_id w) at_start w w' /\ wf w'.
Proof.
  intros Hres Hwf. destruct (get_length_returns w Hwf) as (l & El).
  destruct (TipableProperties.add_tip_total w
              (Some (Rmin (tip_length (self w)) (ratio * l))) at_start Hres Hwf)
    as (w' & E & Hatt & Hwf').
  exists w'. split; [|auto].
  unfold Arrow_add_tip, Arrow_get_default_tip_length.
  erewrite bind_return; [exact E|].
  erewrite bind_return by reflexivity. erewrite bind_return by exact El. reflexivity.
Qed.

(** X21: Arrow.scale on an arrow of length other than 0 that has a tip at its
    start and none at its end raises IndexError: pop_tips returns a group
    of one tip, and after the new start tip is added the old one is asked
    for as its second member.  The arrow is left scaled, with the new tip as
    its start tip. *)
Theorem scale_with_a_start_tip_only (w : world) (ratio factor l : R) :
  resizing_keeps_points H -> wf w ->
  has_tip (self w) = false -> has_start_tip (self w) = true ->
  head (points (self w)) <> last (points (self w)) ->
  get_length w = Return l w -> l <> 0 ->
  exists w',
    Arrow_scale ratio factor w = Throw IndexError w' /\
    start_tip (self w') = Some (next_id w) /\ has_start_tip (self w') = true.
Proof.
  intros Hres Hwf Ht Hs Hends El Hl.
  destruct (pop_one_tip w true Hwf Ht Hs Hends)
    as (j & w1 & Ej & Hj & Epop & Hwf1 & Hc1 & Ht1 & Hs1 & Hn1 & _).
  destruct (Mobject_scale_wf factor w1 Hwf1)
    as (w2 & Escale & Hwf2 & Hc2 & Ht2 & Hs2 & Hn2 & _).
  destruct (Arrow_add_tip_total ratio true w2 Hres Hwf2)
    as (w3 & Eadd & (Hc3 & Ht3 & Hs3 & Hn3) & Hwf3).
  exists w3. split; [|split].
  - unfold Arrow_scale. erewrite bind_return by exact El.
    destruct (Req_dec_T l 0) as [E|_]; [contradiction|].
    erewrite bind_return by reflexivity. rewrite Ht, Hs. cbn [orb].
    erewrite bind_return by exact Epop.
    erewrite bind_return by exact Escale.
    erewrite bind_return by (apply set_stroke_width_returns; exact Hwf2).
    erewrite bind_return by reflexivity.
    erewrite bind_return by exact Eadd.
    erewrite bind_return by reflexivity. rewrite Hs3. reflexivity.
  - rewrite Hs3, Hn2, Hn1. reflexivity.
  - unfold has_start_tip, contains. rewrite Hs3, Hc3. apply bool_decide_eq_true.
    apply TipableProperties.list_update_elem_of. right. reflexivity.
Qed.

(* the children, the tips and the next number after pop_tips or scale
   are among those before *)
Lemma numbered_sub (w w' : world) :
  (forall k, k ∈ submobjects (self w') -> k ∈ submobjects (self w)) ->
  tip (self w') = tip (self w) -> start_tip (self w') = start_tip (self w) ->
  next_id w' = next_id w -> numbered w -> numbered w'.
Proof.
  intros Hc Ht Hs Hn Hnum j Hj. rewrite Hn. apply Hnum.
  rewrite Ht, Hs in Hj. destruct Hj as [Hj|Hj]; [left; apply Hc, Hj|right; exact Hj].
Qed.

(** X22: Arrow.scale on an arrow of length other than 0 with a tip at its end
    and none at its start returns, and the arrow keeps its tip object: the
    tip is popped, the path is scaled, a new tip is made and placed, its
    points are copied into the old tip, and the old tip takes its place.
    Afterwards the tip attribute is the same object as before, has_tip()
    holds, and the children are those from before: the new tip is not among
    them. *)
Theorem scale_keeps_the_tip (w : world) (ratio factor l : R) (t : nat) (old : path) :
  resizing_keeps_points H -> resizing_keeps_length H ->
  wf w -> numbered w ->
  tip (self w) = Some t -> has_tip (self w) = true -> has_start_tip (self w) = false ->
  heap w !! t = Some old -> length old = 12%nat ->
  head (points (self w)) <> last (points (self w)) ->
  get_length w = Return l w -> l <> 0 ->
  exists w',
    Arrow_scale ratio factor w = Return tt w' /\
    tip (self w') = Some t /\ has_tip (self w') = true /\
    has_start_tip (self w') = false /\
    (forall k, k ∈ submobjects (self w') <-> k ∈ submobjects (self w)) /\
    wf w'.
Proof.
  intros Hres Hkeep Hwf Hnum Etip Ht Hs Hold Hlen Hends El Hl.
  pose proof Hwf as (_ & Hnd & _).
  destruct (pop_one_tip w false Hwf Ht Hs Hends)
    as (j & w1 & Ej & Hj & Epop & Hwf1 & Hc1 & Ht1 & Hs1 & Hn1 & Hh1).
  rewrite Etip in Ej. injection Ej as <-.
  assert (Hsub1 : forall k, k ∈ submobjects (self w1) <-> k ∈ submobjects (self w) /\ k <> t).
  { intros k. rewrite Hc1. apply TipableProperties.list_remove_elem_of. exact Hnd. }
  assert (Hnum1 : numbered w1).
  { apply (numbered_sub w); try assumption. intros k Hk. apply Hsub1 in Hk. tauto. }
  destruct (Mobject_scale_wf factor w1 Hwf1)
    as (w2 & Escale & Hwf2 & Hc2 & Ht2 & Hs2 & Hn2 & Hh2).
  assert (Hnum2 : numbered w2).
  { apply (numbered_sub w1); try assumption. intros k. rewrite Hc2. auto. }
  destruct (TipableProperties.get_start_and_end_returns w2
              (TipableProperties.wf_readable w2 Hwf2)) as ([s2 e2] & Ese2).
  pose proof (TipableFacts.get_start_and_end_read _ _ _ _ Ese2) as (Hs2' & He2' & _).
  destruct (get_length_returns w2 Hwf2) as (l2 & El2).
  set (n := next_id w2).
  destruct (TipableFacts.add_tip_effect w2
              (Some (Rmin (tip_length (self w2)) (ratio * l2))) false s2 e2
              Hres Hwf2 Hnum2 Hs2' He2')
    as (w3 & tps' & E3 & (Hc3 & Ht3 & Hs3 & Hn3) & Hwf3 & Hi3 & _ & Hlen3 & Hh3 & _).
  fold n in Hc3, Ht3, Hn3, Hi3, Hh3.
  assert (Eadd : Arrow_add_tip ratio false w2 = Return tt w3).
  { unfold Arrow_add_tip, Arrow_get_default_tip_length.
    erewrite bind_return; [exact E3|].
    erewrite bind_return by reflexivity. erewrite bind_return by exact El2. reflexivity. }
  assert (Htn : t <> n).
  { assert (t < next_id w)%nat by (apply Hnum; auto).
    unfold n. rewrite Hn2, Hn1. lia. }
  assert (Ht2' : t ∉ submobjects (self w2)).
  { rewrite Hc2. intros Hin. apply Hsub1 in Hin. tauto. }
  assert (Hold3 : heap w3 !! t = Some old).
  { rewrite (Hh3 t Ht2' Htn), (Hh2 t), Hh1; [exact Hold|]. rewrite <- Hc2. exact Ht2'. }
  set (w4 := mkWorld (self w3) (<[t := tps']> (heap w3)) (next_id w3)).
  assert (Eassign : assign_points t n w3 = Return tt w4).
  { unfold assign_points, points_of, bind. rewrite Hold3, Hi3.
    rewrite Hlen3, Hlen by exact Hkeep. reflexivity. }
  assert (Hn3' : n ∈ submobjects (self w4)).
  { cbn [self w4]. rewrite Hc3. apply TipableProperties.list_update_elem_of. auto. }
  set (subs := list_update (list_remove n (submobjects (self w3))) [t]).
  set (w' := mkWorld (mk (points (self w3)) subs (Some t) (start_tip (self w3))
                         (tip_length (self w3)) (line (self w3)))
                     (<[t := tps']> (heap w3)) (next_id w3)).
  assert (Hsub : forall k, k ∈ subs <-> k ∈ submobjects (self w)).
  { intros k. unfold subs. rewrite TipableProperties.list_update_elem_of.
    rewrite TipableProperties.list_remove_elem_of by apply Hwf3.
    rewrite Hc3, TipableProperties.list_update_elem_of, Hc2, Hsub1.
    assert (Hnn : n ∉ submobjects (self w)).
    { intros Hin. assert (n < next_id w)%nat by (apply Hnum; auto).
      unfold n in *. rewrite Hn2, Hn1 in *. lia. }
    destruct (decide (k = t)) as [->|Hkt]; [tauto|].
    destruct (decide (k = n)) as [->|Hkn]; tauto. }
  exists w'. split; [|split; [reflexivity|split; [|split; [|split; [exact Hsub|]]]]].
  - unfold Arrow_scale. erewrite bind_return by exact El.
    destruct (Req_dec_T l 0) as [E|_]; [contradiction|].
    erewrite bind_return by reflexivity. rewrite Ht, Hs. cbn [orb].
    erewrite bind_return by exact Epop.
    erewrite bind_return by exact Escale.
    erewrite bind_return by (apply set_stroke_width_returns; exact Hwf2).
    erewrite bind_return; [reflexivity|].
    erewrite bind_return by exact Eadd.
    erewrite bind_return by reflexivity. rewrite Ht3.
    erewrite bind_return by reflexivity.
    erewrite bind_return by exact Eassign.
    erewrite bind_return by (apply TipableProperties.remove_child; exact Hn3').
    erewrite bind_return by reflexivity. reflexivity.
  - unfold has_tip, contains. cbn [self tip submobjects w']. apply bool_decide_eq_true.
    apply Hsub. apply TipableProperties.has_tip_true in Ht as (i & Ei & Hi).
    rewrite Etip in Ei. injection Ei as <-. exact Hi.
  - apply TipableProperties.has_start_tip_false_iff. cbn [self start_tip submobjects w'].
    intros i Ei. rewrite Hsub. rewrite Hs3, Hs2, Hs1 in Ei.
    exact (proj1 (TipableProperties.has_start_tip_false_iff _) Hs i Ei).
  - split; [apply Hwf3|]. split.
    + apply TipableProperties.list_update_NoDup, TipableProperties.list_remove_NoDup, Hwf3.
    + intros k Hk. cbn [self submobjects w'] in Hk. unfold alive. cbn [heap w'].
      destruct (decide (k = t)) as [->|Hkt].
      * exists tps'. rewrite lookup_insert_eq. split; [reflexivity|].
        intros E. rewrite E in Hlen3. specialize (Hlen3 Hkeep). discriminate.
      * rewrite lookup_insert_ne by (intros E; apply Hkt; symmetry; exact E).
        apply Hwf3. unfold subs in Hk.
        apply TipableProperties.list_update_elem_of in Hk as [Hk|Hk]; [|contradiction].
        apply TipableProperties.list_remove_elem_of in Hk as [Hk _]; [exact Hk|apply Hwf3].
Qed.

End Scale.

(* a line from LEFT to RIGHT whose only child is a tip at its start *)
Lemma scale_with_a_start_tip_only_witness :
  let w := mkWorld (mk (set_points_as_corners [LEFT; RIGHT]) [0%nat] None (Some 0%nat)
                       DEFAULT_ARROW_TIP_LENGTH (Some (mkLine 0 None LEFT RIGHT)))
                   {[0%nat := set_points_as_corners [LEFT; UP; DOWN; LEFT]]} 1 in
  resizing_keeps_points straight_collaborator /\ wf w /\
  has_tip (self w) = false /\ has_start_tip (self w) = true /\
  head (points (self w)) <> last (points (self w)) /\
  get_length w = Return 2 w /\ 2 <> 0 /\
  exists w',
    Arrow_scale (H := straight_collaborator) 0.25 2 w = Throw IndexError w' /\
    start_tip (self w') = Some (next_id w) /\ has_start_tip (self w') = true.
Proof.
  cbv zeta.
  set (w := mkWorld _ _ _).
  assert (Hwf : wf w).
  { split; [simpl; lia|]. split.
    - apply NoDup_singleton.
    - intros j Hj. apply list_elem_of_singleton in Hj as ->.
      eexists. split; [apply lookup_singleton_eq|discriminate]. }
  assert (Ht : has_tip (self w) = false) by reflexivity.
  assert (Hs : has_start_tip (self w) = true) by reflexivity.
  assert (Hends : head (points (self w)) <> last (points (self w))).
  { intros E. change (Some LEFT = Some RIGHT) in E.
    apply (f_equal (fun o => vx (default ORIGIN o))) in E. simpl in E. lra. }
  assert (El : get_length w = Return 2 w).
  { rewrite <- norm_LEFT_RIGHT. apply TipableFacts.get_length_reads.
    - unfold start_of. rewrite Hs. cbn [self start_tip w]. unfold first_point_of.
      cbn [heap w]. rewrite lookup_singleton_eq. reflexivity.
    - reflexivity. }
  assert (H2 : 2 <> 0) by lra.
  split; [exact TipableProperties.straight_resizing|].
  split; [exact Hwf|]. split; [exact Ht|]. split; [exact Hs|]. split; [exact Hends|].
  split; [exact El|]. split; [exact H2|].
  exact (scale_with_a_start_tip_only (H := straight_collaborator) w 0.25 2 2
           TipableProperties.straight_resizing Hwf Ht Hs Hends El H2).
Defined.

Lemma straight_keeps_length : resizing_keeps_length straight_collaborator.
Proof. intros l ps. split; reflexivity. Qed.

(* a line from LEFT to RIGHT whose only child is a tip at its end *)
Lemma scale_keeps_the_tip_witness :
  let old := set_points_as_corners [RIGHT; UP; DOWN; RIGHT] in
  let w := mkWorld (mk (set_points_as_corners [LEFT; RIGHT]) [0%nat] (Some 0%nat) None
                       DEFAULT_ARROW_TIP_LENGTH (Some (mkLine 0 None LEFT RIGHT)))
                   {[0%nat := old]} 1 in
  resizing_keeps_points straight_collaborator /\
  resizing_keeps_length straight_collaborator /\
  wf w /\ numbered w /\
  tip (self w) = Some 0%nat /\ has_tip (self w) = true /\ has_start_tip (self w) = false /\
  heap w !! 0%nat = Some old /\ length old = 12%nat /\
  head (points (self w)) <> last (points (self w)) /\
  get_length w = Return 2 w /\ 2 <> 0 /\
  exists w',
    Arrow_scale (H := straight_collaborator) 0.25 2 w = Return tt w' /\
    tip (self w') = Some 0%nat /\ has_tip (self w') = true /\
    has_start_tip (self w') = false /\
    (forall k, k ∈ submobjects (self w') <-> k ∈ submobjects (self w)) /\
    wf w'.
Proof.
  cbv zeta.
  set (old := set_points_as_corners [RIGHT; UP; DOWN; RIGHT]).
  set (w := mkWorld _ _ _).
  assert (Hold : heap w !! 0%nat = Some old) by apply lookup_singleton_eq.
  assert (Hwf : wf w).
  { split; [simpl; lia|]. split.
    - apply NoDup_singleton.
    - intros j Hj. apply list_elem_of_singleton in Hj as ->.
      exists old. split; [exact Hold|discriminate]. }
  assert (Hnum : numbered w).
  { intros j [Hj|[Hj|Hj]].
    - apply list_elem_of_singleton in Hj as ->. simpl. lia.
    - injection Hj as <-. simpl. lia.
    - discriminate. }
  assert (Etip : tip (self w) = Some 0%nat) by reflexivity.
  assert (Ht : has_tip (self w) = true) by reflexivity.
  assert (Hs : has_start_tip (self w) = false) by reflexivity.
  assert (Hlen : length old = 12%nat) by reflexivity.
  assert (Hends : head (points (self w)) <> last (points (self w))).
  { intros E. change (Some LEFT = Some RIGHT) in E.
    apply (f_equal (fun o => vx (default ORIGIN o))) in E. simpl in E. lra. }
  assert (El : get_length w = Return 2 w).
  { rewrite <- norm_LEFT_RIGHT. apply TipableFacts.get_length_reads.
    - reflexivity.
    - unfold end_of. rewrite Ht. cbn [self tip w]. unfold first_point_of.
      rewrite Hold. reflexivity. }
  assert (H2 : 2 <> 0) by lra.
  split; [exact TipableProperties.straight_resizing|].
  split; [exact straight_keeps_length|].
  split; [exact Hwf|]. split; [exact Hnum|]. split; [exact Etip|]. split; [exact Ht|].
  split; [exact Hs|]. split; [exact Hold|]. split; [exact Hlen|]. split; [exact Hends|].
  split; [exact El|]. split; [exact H2|].
  exact (scale_keeps_the_tip (H := straight_collaborator) w 0.25 2 2 0%nat old
           TipableProperties.straight_resizing straight_keeps_length Hwf Hnum Etip Ht Hs
           Hold Hlen Hends El H2).
Defined.

End ArrowFacts.


(** * The direction of a Line *)

Module LineFacts.
Import Tipable.

Lemma rotate_vector_polar (v : vec3) (theta alpha : R) :
  Arc.polar theta v ->
  rotate_vector v (alpha - theta) = smul (norm v) (V3 (cos alpha) (sin alpha) 0).
Proof.
  intros (Hx & Hy & Hz).
  assert (Ecos : cos alpha = cos theta * cos (alpha - theta) - sin theta * sin (alpha - theta)).
  { rewrite <- cos_plus. f_equal. ring. }
  assert (Esin : sin alpha = sin theta * cos (alpha - theta) + cos theta * sin (alpha - theta)).
  { rewrite <- sin_plus. f_equal. ring. }
  apply vec3_eq; cbn [rotate_vector smul vx vy vz].
  - rewrite Ecos. rewrite Hx at 1. rewrite Hy at 1. ring.
  - rewrite Esin. rewrite Hx at 1. rewrite Hy at 1. ring.
  - rewrite Hz. ring.
Qed.

Section SetAngle.
Context `{Collaborator}.

(** X23: set_angle(angle) turns the line about its start: on a line from s to
    e in a plane of constant height, with s <> e, where angle_of_vector
    gives the angles of planar vectors, get_start() is still s afterwards
    and get_vector() is |e - s| (cos angle, sin angle, 0): the line keeps
    its length and points in the direction asked for, tips included. *)
Theorem set_angle_turns_the_line (w : world) (angle : R) (s e : vec3) :
  NoDup (submobjects (self w)) -> Arc.planar_angles H ->
  get_start_and_end w = Return (s, e) w ->
  vz (vsub e s) = 0 -> s <> e ->
  exists w',
    Line_set_angle angle w = Return tt w' /\
    get_start w' = Return s w' /\
    Line_get_vector w' =
      Return (smul (norm (vsub e s)) (V3 (cos angle) (sin angle) 0)) w'.
Proof.
  intros Hnd Hpol Ese Hz Hne.
  apply TipableFacts.get_start_and_end_read in Ese as (Hs & He & _).
  assert (Hv : vsub e s <> ORIGIN).
  { intros E. apply Hne.
    apply vec3_eq; [apply (f_equal vx) in E|apply (f_equal vy) in E|apply (f_equal vz) in E];
      simpl in E; lra. }
  set (theta := angle_of_vector (vsub e s)).
  set (phi := fun p => vadd s (rotate_vector (vsub p s) (angle - theta))).
  exists (final_state (family_apply (rotate_about (angle - theta) s) w)).
  destruct (TipableFacts.family_apply_ends phi (rotate_about (angle - theta) s) w
              (fun ps => eq_refl) Hnd) as [Hs' He'].
  rewrite Hs in Hs'. rewrite He in He'. cbn [option_map] in Hs', He'.
  assert (Ephi : phi s = s).
  { unfold phi. apply vec3_eq; cbn [rotate_vector vadd vsub vx vy vz]; ring. }
  rewrite Ephi in Hs'.
  split; [|split].
  - unfold Line_set_angle, Line_get_angle, Line_get_vector.
    erewrite bind_return;
      [|erewrite bind_return;
         [reflexivity
         |erewrite bind_return by (apply TipableFacts.get_end_reads; exact He);
          erewrite bind_return by (apply TipableFacts.get_start_reads; exact Hs);
          reflexivity]].
    erewrite bind_return by (apply TipableFacts.get_start_reads; exact Hs).
    reflexivity.
  - apply TipableFacts.get_start_reads. exact Hs'.
  - unfold Line_get_vector.
    erewrite bind_return by (apply TipableFacts.get_end_reads; exact He').
    erewrite bind_return by (apply TipableFacts.get_start_reads; exact Hs').
    unfold ret. f_equal.
    rewrite <- (rotate_vector_polar (vsub e s) theta angle (Hpol _ Hz Hv)).
    unfold phi. apply vec3_eq; cbn [rotate_vector vadd vsub vx vy vz]; ring.
Qed.

End SetAngle.

(* Line(LEFT, RIGHT).set_angle(PI / 2) *)
Lemma set_angle_turns_the_line_witness :
  let w := straight_line LEFT RIGHT 0 None in
  NoDup (submobjects (self w)) /\ Arc.planar_angles straight_collaborator /\
  get_start_and_end w = Return (LEFT, RIGHT) w /\
  vz (vsub RIGHT LEFT) = 0 /\ LEFT <> RIGHT /\
  exists w',
    Line_set_angle (H := straight_collaborator) (PI / 2) w = Return tt w' /\
    get_start w' = Return LEFT w' /\
    Line_get_vector w' =
      Return (smul (norm (vsub RIGHT LEFT)) (V3 (cos (PI / 2)) (sin (PI / 2)) 0)) w'.
Proof.
  cbv zeta.
  assert (Hnd : NoDup (submobjects (self (straight_line LEFT RIGHT 0 None))))
    by apply NoDup_nil_2.
  assert (Ese : get_start_and_end (straight_line LEFT RIGHT 0 None) =
                Return (LEFT, RIGHT) (straight_line LEFT RIGHT 0 None)) by reflexivity.
  assert (Hz : vz (vsub RIGHT LEFT) = 0) by (simpl; lra).
  assert (Hne : LEFT <> RIGHT) by (intros E; apply (f_equal vx) in E; simpl in E; lra).
  split; [exact Hnd|]. split; [exact ArcBetweenPointsFacts.straight_planar_angles|].
  split; [exact Ese|]. split; [exact Hz|]. split; [exact Hne|].
  exact (set_angle_turns_the_line (H := straight_collaborator) _ (PI / 2) LEFT RIGHT
           Hnd ArcBetweenPointsFacts.straight_planar_angles Ese Hz Hne).
Defined.

End LineFacts.


(** * The angle at which an Arc stops *)

Module StopAngleFacts.
Import Arc.

Lemma cos_sin_turns (x : R) (k : Z) :
  cos (x - TAU * IZR k) = cos x /\ sin (x - TAU * IZR k) = sin x.
Proof.
  unfold TAU. destruct (Z_le_gt_dec 0 k) as [Hk|Hk].
  - destruct (Z_of_nat_complete k Hk) as [n ->]. rewrite <- INR_IZR_INZ.
    rewrite <- (cos_period (x - 2 * PI * INR n) n), <- (sin_period (x - 2 * PI * INR n) n).
    split; f_equal; ring.
  - destruct (Z_of_nat_complete (- k)) as [n Hn]; [lia|].
    replace k with (- Z.of_nat n)%Z by lia. rewrite opp_IZR, <- INR_IZR_INZ.
    rewrite <- (cos_period x n), <- (sin_period x n).
    split; f_equal; ring.
Qed.

Lemma np_mod_TAU (x : R) :
  exists rho, np_mod x TAU = Finite rho /\ 0 <= rho < TAU /\
              cos rho = cos x /\ sin rho = sin x.
Proof.
  assert (HT : 0 < TAU) by (unfold TAU; pose proof PI_RGT_0; lra).
  unfold np_mod. destruct (Req_dec_T TAU 0) as [E|_]; [lra|].
  eexists. split; [reflexivity|]. split; [|apply cos_sin_turns].
  destruct (base_Int_part (x / TAU)) as [H1 H2].
  set (k := IZR (Int_part (x / TAU))) in *.
  assert (Ex : x = TAU * (x / TAU)) by (field; lra).
  split.
  - assert (TAU * k <= TAU * (x / TAU)) by (apply Rmult_le_compat_l; lra). lra.
  - assert (TAU * (x / TAU) < TAU * (k + 1)) by (apply Rmult_lt_compat_l; lra). lra.
Qed.

Section StopAngle.
Context `{Collaborator}.

(** X24: stop_angle() of an Arc is the angle at which the arc ends, brought
    into [0, TAU): for an Arc in the plane of height 0 with start angle
    [a], angle [theta], a positive radius and at least two components,
    whose centre get_arc_center finds, it returns the angle [rho] with
    [0 <= rho < TAU] that has the cosine and the sine of [a + theta], where
    angle_of_vector gives the angles of planar vectors. *)
Theorem stop_angle_of_an_arc (a theta r : R) (c : vec3) (N : nat) :
  (2 <= N)%nat -> 0 < r ->
  theta / (INR N - 1) <> 0 -> sin (theta / (INR N - 1)) <> 0 ->
  planar_angles H -> vz c = 0 ->
  exists s rho,
    Arc.__init__ a theta (Arc.mkKw (Some r) (Some N) (Some c)) Arc.fresh = Return tt s /\
    stop_angle s = Return (Finite rho) s /\
    0 <= rho < TAU /\ cos rho = cos (a + theta) /\ sin rho = sin (a + theta).
Proof.
  intros HN Hr Hd Hsin Hpol Hz.
  assert (Hr0 : r <> 0) by lra.
  destruct (ArcFacts.arc_normals_meet a theta r c N HN Hr0 Hd Hsin)
    as (s & a1 & h1 & h2 & a2 & rest & E & Ep & Hnp & H1 & H2).
  pose proof (ArcFacts.get_arc_center_meets true s _ _ _ _ rest c Ep Hnp H1 H2) as Ec.
  destruct (ArcProperties.arc_init_points a theta r c N HN) as (s' & E' & Hlen & Hps).
  rewrite E in E'. injection E' as <-.
  assert (Elast : last (points (self s)) = Some (circle_point c r (a + theta))).
  { rewrite last_lookup, Hlen.
    replace (Init.Nat.pred (4 * (N - 1))) with (4 * (N - 2) + 3)%nat by lia.
    destruct (Hps (N - 2)%nat) as [_ El]; [lia|]. rewrite El. do 2 f_equal.
    replace (S (N - 2)) with (N - 1)%nat by lia.
    rewrite minus_INR by lia. change (INR 1) with 1. field.
    apply INR_minus_one_neq_0. exact HN. }
  set (v := vsub (circle_point c r (a + theta)) (V3 (vx c) (vy c) 0)).
  assert (Ev : v = V3 (r * cos (a + theta)) (r * sin (a + theta)) 0).
  { unfold v. apply vec3_eq; cbn [circle_point vadd vsub smul vx vy vz]; try ring.
    rewrite Hz. ring. }
  assert (Hnorm : norm v = r).
  { rewrite Ev, ArcFacts.norm_scaled_unit by apply ArcFacts.cos_sin_one.
    apply Rabs_pos_eq. lra. }
  assert (Hv : v <> ORIGIN).
  { intros E0. rewrite E0, norm_zero in Hnorm. lra. }
  assert (Hvz : vz v = 0) by (rewrite Ev; reflexivity).
  destruct (Hpol v Hvz Hv) as (Hx & Hy & _). rewrite Hnorm in Hx, Hy.
  assert (Evx : vx v = r * cos (a + theta)) by (rewrite Ev; reflexivity).
  assert (Evy : vy v = r * sin (a + theta)) by (rewrite Ev; reflexivity).
  rewrite Evx in Hx. rewrite Evy in Hy.
  destruct (np_mod_TAU (angle_of_vector v)) as (rho & Erho & Hb & Hcos & Hsin').
  exists s, rho. split; [exact E|]. split; [|split; [exact Hb|split]].
  - unfold stop_angle. erewrite bind_return by reflexivity. rewrite Elast.
    erewrite bind_return by exact Ec. fold v. rewrite Erho. reflexivity.
  - rewrite Hcos. apply (Rmult_eq_reg_l r); [symmetry; exact Hx|exact Hr0].
  - rewrite Hsin'. apply (Rmult_eq_reg_l r); [symmetry; exact Hy|exact Hr0].
Qed.

End StopAngle.

(* Arc(0, TAU / 4, radius=1, num_components=2).stop_angle() *)
Lemma stop_angle_of_an_arc_witness :
  (2 <= 2)%nat /\ 0 < 1 /\
  TAU / 4 / (INR 2 - 1) <> 0 /\ sin (TAU / 4 / (INR 2 - 1)) <> 0 /\
  planar_angles straight_collaborator /\ vz ORIGIN = 0 /\
  exists s rho,
    Arc.__init__ 0 (TAU / 4) (Arc.mkKw (Some 1) (Some 2%nat) (Some ORIGIN)) Arc.fresh =
      Return tt s /\
    stop_angle (H := straight_collaborator) s = Return (Finite rho) s /\
    0 <= rho < TAU /\ cos rho = cos (0 + TAU / 4) /\ sin rho = sin (0 + TAU / 4).
Proof.
  assert (Earg : TAU / 4 / (INR 2 - 1) = PI / 2).
  { unfold TAU. change (INR 2) with (1 + 1). field. }
  assert (H2 : (2 <= 2)%nat) by lia.
  assert (H1 : 0 < 1) by lra.
  assert (Hd : TAU / 4 / (INR 2 - 1) <> 0).
  { rewrite Earg. pose proof PI_RGT_0. lra. }
  assert (Hs : sin (TAU / 4 / (INR 2 - 1)) <> 0).
  { rewrite Earg, sin_PI2. lra. }
  assert (Hz : vz ORIGIN = 0) by reflexivity.
  split; [exact H2|]. split; [exact H1|]. split; [exact Hd|]. split; [exact Hs|].
  split; [exact ArcBetweenPointsFacts.straight_planar_angles|]. split; [exact Hz|].
  exact (stop_angle_of_an_arc (H := straight_collaborator) 0 (TAU / 4) 1 ORIGIN 2
           H2 H1 Hd Hs ArcBetweenPointsFacts.straight_planar_angles Hz).
Defined.

End StopAngleFacts.


(** * EdgeVertexGraph.__init__ *)

Module EdgeVertexGraphProperties.
Import EdgeVertexGraph.

Lemma getitem_error (g : graph) (n : Z) (e : exn) : getitem g n = Err e -> e = KeyError.
Proof.
  induction g as [|[[k|s] a] g IH]; simpl.
  - intros [= <-]. reflexivity.
  - destruct (k =? n)%Z; [discriminate|exact IH].
  - exact IH.
Qed.

Lemma merge_lookup (a b : config) (k : string) :
  merge a b !! k = match b !! k with Some x => Some x | None => a !! k end.
Proof.
  unfold merge. rewrite lookup_union.
  destruct (b !! k), (a !! k); reflexivity.
Qed.

Lemma edge_kwargs_lookup (edge_config kw : config) (k : string) :
  merge (merge angle_zero edge_config) kw !! k = first_of k [kw; edge_config; angle_zero].
Proof.
  rewrite !merge_lookup. simpl. destruct (kw !! k); [reflexivity|].
  destruct (edge_config !! k); [reflexivity|]. destruct (angle_zero !! k); reflexivity.
Qed.

Lemma forward_entries_spec (vertex : Z) (defs : list edge_definition) (d : edge_definition) :
  In d (forward_entries vertex defs) <->
  In d defs /\ exists v, target_of d = Some v /\ (vertex < v)%Z.
Proof.
  unfold forward_entries, points_forward. rewrite filter_In. split.
  - intros [Hin Hf]. split; [exact Hin|].
    destruct (target_of d) as [v|]; [|discriminate].
    exists v. split; [reflexivity|]. apply Z.ltb_lt. exact Hf.
  - intros [Hin (v & -> & Hlt)]. split; [exact Hin|]. apply Z.ltb_lt. exact Hlt.
Qed.

Lemma forward_pairs_spec (g : graph) (a : attributes) (d : edge_definition) :
  In (a, d) (forward_pairs g) <->
  exists u, In (IntKey u, a) g /\ In d (forward_entries u (adjacency a)).
Proof.
  unfold forward_pairs. rewrite in_flat_map. split.
  - intros ([[u|s] a'] & Hkv & Hin); cbn [fst snd] in Hin; [|destruct Hin].
    apply in_map_iff in Hin as (d' & [= <- <-] & Hd). exists u. auto.
  - intros (u & Hkv & Hd). exists (IntKey u, a). split; [exact Hkv|].
    cbn [fst snd]. apply in_map_iff. exists d. auto.
Qed.

Lemma forward_pairs_length (g : graph) : length (forward_pairs g) = forward_count g.
Proof.
  unfold forward_pairs, forward_count.
  induction g as [|[k a] g IH]; [reflexivity|].
  cbn [flat_map map fst snd]. rewrite length_app, IH.
  destruct k; [rewrite length_map|]; reflexivity.
Qed.

Lemma Forall2_In_r {A B} (P : A -> B -> Prop) (l : list A) (k : list B) (y : B) :
  Forall2 P l k -> In y k -> exists x, In x l /\ P x y.
Proof.
  induction 1 as [|x y' l k Hxy _ IH]; intros Hin; [destruct Hin|].
  destruct Hin as [->|Hin].
  - exists x. split; [left; reflexivity|exact Hxy].
  - destruct (IH Hin) as (x' & Hx' & HP). exists x'. split; [right; exact Hx'|exact HP].
Qed.

Lemma forallb_over_map {A B} (f : B -> bool) (h : A -> B) (l : list A) :
  forallb f (map h l) = forallb (fun x => f (h x)) l.
Proof. induction l as [|x l IH]; [reflexivity|]. simpl. rewrite IH. reflexivity. Qed.

Section Classes.
Context {V E : Type}.
Variable vertex_type : config -> result V.
Variable shift : V -> vec3 -> result V.
Variable edge_type : vec3 -> vec3 -> config -> result E.

(* an entry that gives an edge points forward, to a key, and the edge is
   what edge_type returns *)
Lemma edge_for_Some (g : graph) (edge_config : config) (u : Z) (a : attributes)
    (d : edge_definition) (e : E) :
  edge_for edge_type g edge_config u a d = Ok (Some e) ->
  points_forward u d = true /\ edge_made edge_type g edge_config (a, d) e.
Proof.
  unfold edge_for, edge_made, points_forward.
  destruct d as [v|[|[v|kw0|s0] [|[v1|kw|s1] rest]]|];
    cbn [read_entry as_int as_mapping target_of kwargs_of fst snd]; try discriminate;
    (destruct (u <? v)%Z; [|discriminate]);
    (destruct (getitem g v) as [target|] eqn:Eg; [|discriminate]); try discriminate;
    match goal with
    | |- context [edge_type ?s ?t ?k] => destruct (edge_type s t k) as [e'|] eqn:Ee
    end; try discriminate; intros [= <-]; (split; [reflexivity|]);
    exists v, target; repeat split; first [reflexivity|assumption].
Qed.

(* an entry that gives none does not point forward *)
Lemma edge_for_None (g : graph) (edge_config : config) (u : Z) (a : attributes)
    (d : edge_definition) :
  edge_for edge_type g edge_config u a d = Ok None -> points_forward u d = false.
Proof.
  unfold edge_for, points_forward.
  destruct d as [v|[|[v|kw0|s0] [|[v1|kw|s1] rest]]|];
    cbn [read_entry as_int as_mapping target_of]; try discriminate;
    (destruct (u <? v)%Z; [|reflexivity]);
    (destruct (getitem g v) as [target|]; [|discriminate]); try discriminate;
    match goal with
    | |- context [edge_type ?s ?t ?k] => destruct (edge_type s t k)
    end; discriminate.
Qed.

Lemma add_edges_spec (g : graph) (edge_config : config) (u : Z) (a : attributes)
    (defs : list edge_definition) (self s' : t V E) :
  add_edges edge_type g edge_config u a defs self = Ok s' ->
  exists es, s' = mk (vertices self) (edges self ++ es) /\
    Forall2 (fun d e => edge_made edge_type g edge_config (a, d) e)
            (forward_entries u defs) es.
Proof.
  revert self. induction defs as [|d defs IH]; intros self Hs.
  - injection Hs as <-. exists []. rewrite app_nil_r. split; [destruct self; reflexivity|].
    constructor.
  - cbn [add_edges] in Hs. unfold forward_entries. cbn [List.filter].
    destruct (edge_for edge_type g edge_config u a d) as [[e|]|] eqn:Ed; [| |discriminate].
    + apply edge_for_Some in Ed as [Hf Hm]. rewrite Hf.
      apply IH in Hs as (es & -> & HF). exists (e :: es). cbn [vertices edges].
      rewrite <- app_assoc. split; [reflexivity|]. constructor; assumption.
    + apply edge_for_None in Ed. rewrite Ed. apply IH. exact Hs.
Qed.

Lemma add_vertices_spec (g : graph) (vertex_config edge_config : config)
    (items : graph) (self s' : t V E) :
  add_vertices vertex_type shift edge_type g vertex_config edge_config items self = Ok s' ->
  exists vs es, s' = mk (vertices self ++ vs) (edges self ++ es) /\
    Forall2 (fun kv v => vertex_for vertex_type shift vertex_config (snd kv) = Ok v) items vs /\
    Forall2 (edge_made edge_type g edge_config) (forward_pairs items) es.
Proof.
  revert self. induction items as [|[k a] items IH]; intros self Hs.
  - injection Hs as <-. exists [], []. rewrite !app_nil_r.
    split; [destruct self; reflexivity|]. split; constructor.
  - cbn [add_vertices] in Hs. destruct k as [u|]; [|discriminate].
    destruct (vertex_for vertex_type shift vertex_config a) as [v|] eqn:Ev; [|discriminate].
    cbv zeta in Hs.
    destruct (add_edges edge_type g edge_config u a (adjacency a) _) as [s1|] eqn:Ee;
      [|discriminate].
    apply add_edges_spec in Ee as (es1 & -> & HF1). cbn [vertices edges] in HF1.
    apply IH in Hs as (vs & es & -> & HV & HF). cbn [vertices edges].
    exists (v :: vs), (es1 ++ es). rewrite <- !app_assoc.
    split; [reflexivity|]. split; [constructor; assumption|].
    unfold forward_pairs. cbn [flat_map fst snd]. apply Forall2_app; [|exact HF].
    clear -HF1. induction HF1; constructor; assumption.
Qed.

(* what the constructor has made when it returns *)
Lemma init_spec (g : graph) (vertex_config edge_config : config) (s : t V E) :
  __init__ vertex_type shift edge_type g vertex_config edge_config = Ok s ->
  Forall2 (fun kv v => vertex_for vertex_type shift vertex_config (snd kv) = Ok v)
          g (vertices s) /\
  Forall2 (edge_made edge_type g edge_config) (forward_pairs g) (edges s).
Proof.
  unfold __init__.
  destruct (negb (forallb (fun kv => is_int_key (fst kv)) g)); [discriminate|].
  destruct (negb (forallb (fun kv => forallb is_int_or_list (adjacency (snd kv))) g));
    [discriminate|].
  intros Hs. apply add_vertices_spec in Hs as (vs & es & -> & HV & HF). auto.
Qed.

(* a well-formed entry that points forward to a key gives the edge that
   edge_type returns, or the exception it raises *)
Lemma edge_for_forward (g : graph) (edge_config : config) (u : Z) (a : attributes)
    (d : edge_definition) :
  points_to_a_key g u d = true -> points_forward u d = true ->
  edge_for edge_type g edge_config u a d =
    match edge_call edge_type g edge_config a d with
    | Ok e => Ok (Some e)
    | Err x => Err x
    end.
Proof.
  unfold points_to_a_key, points_forward, edge_for, edge_call, coordinates_of.
  destruct d as [v|[|[v|kw0|s0] [|[v1|kw|s1] rest]]|];
    cbn [well_formed read_entry as_int as_mapping target_of kwargs_of default from_option
         andb]; unfold Datatypes.id;
    try discriminate;
    intros Hk Hf; rewrite Hf in Hk |- *;
    (destruct (getitem g v) as [target|]; [|discriminate]); reflexivity.
Qed.

(* a well-formed entry that does not point forward gives nothing: neither
   the dictionary nor edge_type is asked *)
Lemma edge_for_backward (g : graph) (edge_config : config) (u : Z) (a : attributes)
    (d : edge_definition) :
  well_formed d = true -> points_forward u d = false ->
  edge_for edge_type g edge_config u a d = Ok None.
Proof.
  unfold points_forward, edge_for.
  destruct d as [v|[|[v|kw0|s0] [|[v1|kw|s1] rest]]|];
    cbn [well_formed read_entry as_int as_mapping target_of]; try discriminate;
    intros _ Hf; rewrite Hf; reflexivity.
Qed.

Lemma points_to_a_key_well_formed (g : graph) (u : Z) (d : edge_definition) :
  points_to_a_key g u d = true -> well_formed d = true.
Proof. unfold points_to_a_key. intros H. apply andb_true_iff in H as [H _]. exact H. Qed.

Lemma add_edges_returns (g : graph) (edge_config : config) (u : Z) (a : attributes)
    (defs : list edge_definition) (self : t V E) :
  forallb (points_to_a_key g u) defs = true ->
  forallb (fun d => is_ok (edge_call edge_type g edge_config a d)) (forward_entries u defs)
    = true ->
  is_ok (add_edges edge_type g edge_config u a defs self) = true.
Proof.
  revert self. induction defs as [|d defs IH]; intros self Hk Hc; [reflexivity|].
  cbn [forallb] in Hk. apply andb_true_iff in Hk as [Hd Hk].
  unfold forward_entries in Hc. cbn [List.filter] in Hc. cbn [add_edges].
  destruct (points_forward u d) eqn:Hf.
  - cbn [forallb] in Hc. apply andb_true_iff in Hc as [Hcd Hc].
    rewrite (edge_for_forward g edge_config u a d Hd Hf).
    destruct (edge_call edge_type g edge_config a d); [|discriminate].
    apply IH; assumption.
  - rewrite (edge_for_backward g edge_config u a d (points_to_a_key_well_formed _ _ _ Hd) Hf).
    apply IH; assumption.
Qed.

Lemma add_vertices_returns (g : graph) (vertex_config edge_config : config)
    (items : graph) (self : t V E) :
  forward_closed g items = true ->
  forallb (fun kv => is_ok (vertex_for vertex_type shift vertex_config (snd kv))) items = true ->
  forallb (fun ad => is_ok (edge_call edge_type g edge_config (fst ad) (snd ad)))
          (forward_pairs items) = true ->
  is_ok (add_vertices vertex_type shift edge_type g vertex_config edge_config items self)
    = true.
Proof.
  revert self. induction items as [|[k a] items IH]; intros self Hk Hv He; [reflexivity|].
  unfold forward_closed in Hk. cbn [forallb fst snd] in Hk, Hv.
  apply andb_true_iff in Hk as [Hka Hk]. apply andb_true_iff in Hv as [Hva Hv].
  destruct k as [u|]; [|discriminate].
  unfold forward_pairs in He. cbn [flat_map fst snd] in He.
  rewrite forallb_app in He. apply andb_true_iff in He as [Hea He].
  rewrite forallb_over_map in Hea. cbn [fst snd] in Hea.
  cbn [add_vertices]. destruct (vertex_for vertex_type shift vertex_config a) as [v|];
    [|discriminate]. cbv zeta.
  pose proof (add_edges_returns g edge_config u a (adjacency a)
                (mk (vertices self ++ [v]) (edges self)) Hka Hea) as Hr.
  destruct (add_edges edge_type g edge_config u a (adjacency a) _) as [s1|]; [|discriminate].
  apply IH; assumption.
Qed.

Lemma init_returns (g : graph) (vertex_config edge_config : config) :
  valid g = true ->
  calls_return vertex_type shift edge_type g vertex_config edge_config = true ->
  is_ok (__init__ vertex_type shift edge_type g vertex_config edge_config) = true.
Proof.
  unfold valid, calls_return. intros Hv Hc.
  apply andb_true_iff in Hv as [Hv Hfc]. apply andb_true_iff in Hv as [Hv _].
  apply andb_true_iff in Hv as [Hkeys Hty]. apply andb_true_iff in Hc as [Hcv Hce].
  unfold __init__. rewrite Hkeys, Hty. cbn [negb].
  apply add_vertices_returns; assumption.
Qed.


End Classes.

(** ** The default classes *)

Section DefaultClasses.
Context `{Collaborator}.

(* Circle() with no keyword that the constructors read *)
Lemma Circle_class_returns (kwargs : config) :
  kwargs !! "start_angle"%string = None -> kwargs !! "angle"%string = None ->
  kwargs !! "radius"%string = None ->
  is_ok (Circle_class kwargs) = true.
Proof.
  intros Es Ea Er. unfold Circle_class. rewrite Es, Ea, Er.
  destruct (ArcBetweenPointsFacts.arc_init_ends 0 TAU None None) as (s & E & _);
    [simpl; lia|].
  rewrite E. reflexivity.
Qed.

Lemma default_vertex_returns (vertex_config : config) (a : attributes) :
  (forall k, merge vertex_config (vertex_kwargs a) !! k = None) ->
  is_ok (vertex_for Circle_class Arc_shift vertex_config a) = true.
Proof.
  intros Hk. unfold vertex_for.
  pose proof (Circle_class_returns _ (Hk _) (Hk _) (Hk _)) as Hc.
  destruct (Circle_class _); [reflexivity|discriminate].
Qed.

(* ArcBetweenPoints(start, end, angle=0): a straight path *)
Lemma ArcBetweenPoints_class_straight (start end_ : vec3) (kwargs : config) :
  kwargs !! "radius"%string = None -> kwargs !! "angle"%string = Some (Num 0) ->
  is_ok (ArcBetweenPoints_class start end_ kwargs) = true.
Proof.
  intros Er Ea. unfold ArcBetweenPoints_class. rewrite Er, Ea. cbn [number].
  destruct (ArcBetweenPointsFacts.arc_between_points_placed start end_ 0
              ArcBetweenPoints.no_kwargs) as (s & E & _);
    [simpl; lia|left; reflexivity|].
  rewrite E. reflexivity.
Qed.

(* ArcBetweenPoints(start, end, radius=r) with a radius below half the
   distance *)
Lemma ArcBetweenPoints_class_short (start end_ : vec3) (kwargs : config) (r : R) :
  kwargs !! "radius"%string = Some (Num r) ->
  Rabs r < norm (vsub start end_) / 2 ->
  ArcBetweenPoints_class start end_ kwargs = Err ArcBetweenPoints.invalid_radius.
Proof.
  intros Er Hr. unfold ArcBetweenPoints_class. rewrite Er. cbn [number].
  destruct (ArcProperties.init_with_radius start end_ 0 r ArcBetweenPoints.no_kwargs)
    as (H1 & _). cbv zeta in H1. rewrite (H1 Hr). reflexivity.
Qed.

Lemma no_override (k : string) : merge (∅ : config) ∅ !! k = None.
Proof. rewrite merge_lookup, !lookup_empty. reflexivity. Qed.

Lemma straight_edge_returns (start end_ : vec3) :
  is_ok (ArcBetweenPoints_class start end_ (merge (merge angle_zero ∅) ∅)) = true.
Proof.
  apply ArcBetweenPoints_class_straight; rewrite !merge_lookup, !lookup_empty.
  - apply lookup_singleton_ne. discriminate.
  - apply lookup_singleton_eq.
Qed.

(* the graph of the docstring with every edge declared in both directions,
   built with the default classes *)
Lemma triangle_twice_calls_return :
  calls_return Circle_class Arc_shift ArcBetweenPoints_class triangle_twice ∅ ∅ = true.
Proof.
  unfold calls_return. apply andb_true_iff. split.
  - apply forallb_forall. intros kv Hin.
    destruct Hin as [<-|[<-|[<-|[]]]]; apply default_vertex_returns; intros k;
      apply no_override.
  - apply forallb_forall. intros [a d] Hin. cbn [fst snd].
    change (forward_pairs triangle_twice)
      with [(mkAttr (V3 0 0 0) [EdgeInt 1; EdgeInt 2] ∅, EdgeInt 1);
            (mkAttr (V3 0 0 0) [EdgeInt 1; EdgeInt 2] ∅, EdgeInt 2);
            (mkAttr (V3 1 0 0) [EdgeInt 0; EdgeInt 2] ∅, EdgeInt 2)] in Hin.
    unfold edge_call.
    destruct Hin as [[= <- <-]|[[= <- <-]|[[= <- <-]|[]]]]; apply straight_edge_returns.
Qed.

End DefaultClasses.



End EdgeVertexGraphProperties.

(** * More on EdgeVertexGraph.__init__ *)

Module EdgeVertexGraphFacts.
Import EdgeVertexGraph.

Lemma forallb_of_Forall2 {A B} (P : A -> B -> Prop) (f : A -> bool) (l : list A)
    (k : list B) :
  (forall x y, P x y -> f x = true) -> Forall2 P l k -> forallb f l = true.
Proof.
  intros HP. induction 1 as [|x y l k Hxy _ IH]; [reflexivity|].
  cbn [forallb]. rewrite (HP x y Hxy), IH. reflexivity.
Qed.

Lemma is_ok_of_Ok {A} (r : result A) (a : A) : r = Ok a -> is_ok r = true.
Proof. intros ->. reflexivity. Qed.

Section Classes.
Context {V E : Type}.
Variable vertex_type : config -> result V.
Variable shift : V -> vec3 -> result V.
Variable edge_type : vec3 -> vec3 -> config -> result E.

Lemma edge_made_call (g : graph) (edge_config : config) (ad : attributes * edge_definition)
    (e : E) :
  edge_made edge_type g edge_config ad e ->
  edge_call edge_type g edge_config (fst ad) (snd ad) = Ok e.
Proof.
  intros (v & target & Et & Eg & Ee). unfold edge_call, coordinates_of.
  rewrite Et. cbn [default from_option]. unfold Datatypes.id. rewrite Eg. exact Ee.
Qed.

(* on a valid dictionary the constructor returns exactly when the calls
   return *)
Lemma init_ok_iff_calls_return (g : graph) (vertex_config edge_config : config) :
  valid g = true ->
  is_ok (__init__ vertex_type shift edge_type g vertex_config edge_config) =
    calls_return vertex_type shift edge_type g vertex_config edge_config.
Proof.
  intros Hv.
  destruct (calls_return vertex_type shift edge_type g vertex_config edge_config) eqn:Hc.
  - apply EdgeVertexGraphProperties.init_returns; assumption.
  - destruct (__init__ vertex_type shift edge_type g vertex_config edge_config) as [s|] eqn:Hs;
      [|reflexivity].
    destruct (EdgeVertexGraphProperties.init_spec _ _ _ g vertex_config edge_config s Hs)
      as [HV HE].
    unfold calls_return in Hc.
    assert (Hvs : forallb (fun kv : key * attributes =>
                is_ok (vertex_for vertex_type shift vertex_config (snd kv))) g = true).
    { apply (forallb_of_Forall2 _ _ _ _ (fun kv v Hkv => is_ok_of_Ok _ v Hkv) HV). }
    assert (Hes : forallb (fun ad : attributes * edge_definition =>
                is_ok (edge_call edge_type g edge_config (fst ad) (snd ad)))
                (forward_pairs g) = true).
    { apply (forallb_of_Forall2 _ _ _ _
               (fun ad e Had => is_ok_of_Ok _ e (edge_made_call g edge_config ad e Had)) HE). }
    rewrite Hvs, Hes in Hc. discriminate.
Qed.

(* a well-formed entry that points forward to an id that is no key *)
Lemma edge_for_missing (g : graph) (edge_config : config) (u : Z) (a : attributes)
    (d : edge_definition) :
  well_formed d = true -> points_to_a_key g u d = false ->
  edge_for edge_type g edge_config u a d = Err KeyError.
Proof.
  unfold points_to_a_key, edge_for.
  destruct d as [v|[|[v|kw0|s0] [|[v1|kw|s1] rest]]|];
    cbn [well_formed read_entry as_int as_mapping target_of andb]; try discriminate;
    intros _; (destruct (u <? v)%Z; [|discriminate]);
    (destruct (getitem g v) as [target|x] eqn:Eg; [discriminate|]);
    intros _; apply EdgeVertexGraphProperties.getitem_error in Eg as ->; reflexivity.
Qed.

Section NeverRaise.
Hypothesis classes_return : never_raise vertex_type shift edge_type.

Lemma add_edges_key_error (g : graph) (edge_config : config) (u : Z) (a : attributes)
    (defs : list edge_definition) (self : t V E) :
  forallb well_formed defs = true ->
  add_edges edge_type g edge_config u a defs self =
    (if forallb (points_to_a_key g u) defs
     then add_edges edge_type g edge_config u a defs self
     else Err KeyError) /\
  (forallb (points_to_a_key g u) defs = true ->
   is_ok (add_edges edge_type g edge_config u a defs self) = true).
Proof using classes_return.
  destruct classes_return as (_ & _ & Hedge).
  revert self. induction defs as [|d defs IH]; intros self Hw.
  - split; reflexivity.
  - cbn [forallb] in Hw |- *. apply andb_true_iff in Hw as [Hd Hw]. cbn [add_edges].
    destruct (points_to_a_key g u d) eqn:Hk; cbn [andb].
    + destruct (points_forward u d) eqn:Hf.
      * rewrite (EdgeVertexGraphProperties.edge_for_forward edge_type g edge_config u a d Hk Hf).
        unfold edge_call. specialize (Hedge (coordinates a)
          (coordinates_of g (default 0%Z (target_of d)))
          (merge (merge angle_zero edge_config) (kwargs_of d))).
        destruct (edge_type _ _ _) as [e|]; [|discriminate]. apply IH. exact Hw.
      * rewrite (EdgeVertexGraphProperties.edge_for_backward edge_type g edge_config u a d
                   Hd Hf). apply IH. exact Hw.
    + rewrite (edge_for_missing g edge_config u a d Hd Hk). split; [reflexivity|discriminate].
Qed.

Lemma add_vertices_key_error (g : graph) (vertex_config edge_config : config)
    (items : graph) (self : t V E) :
  forallb (fun kv => is_int_key (fst kv)) items = true ->
  forallb (fun kv => forallb well_formed (adjacency (snd kv))) items = true ->
  forward_closed g items = false ->
  add_vertices vertex_type shift edge_type g vertex_config edge_config items self =
    Err KeyError.
Proof using classes_return.
  pose proof classes_return as (Hvertex & Hshift & _).
  revert self. induction items as [|[k a] items IH]; intros self Hkeys Hw Hk; [discriminate|].
  unfold forward_closed in Hk. cbn [forallb fst snd] in Hkeys, Hw, Hk.
  apply andb_true_iff in Hkeys as [Hk0 Hkeys]. apply andb_true_iff in Hw as [Hwa Hw].
  destruct k as [u|]; [|discriminate]. cbn [add_vertices].
  unfold vertex_for. specialize (Hvertex (merge vertex_config (vertex_kwargs a))).
  destruct (vertex_type _) as [v0|]; [|discriminate].
  specialize (Hshift v0 (coordinates a)).
  destruct (shift v0 (coordinates a)) as [v|]; [|discriminate]. cbv zeta.
  destruct (add_edges_key_error g edge_config u a (adjacency a)
              (mk (vertices self ++ [v]) (edges self)) Hwa) as [Hcases Hret].
  destruct (forallb (points_to_a_key g u) (adjacency a)) eqn:Hka.
  - specialize (Hret eq_refl).
    destruct (add_edges edge_type g edge_config u a (adjacency a) _) as [s1|];
      [|discriminate].
    cbn [andb] in Hk. apply IH; assumption.
  - rewrite Hcases. reflexivity.
Qed.

End NeverRaise.

(** X1: The constructor checks the dictionary first: a key that is no int
    gives the ValueError on keys; otherwise an adjacency entry that is
    neither an int nor a list gives the ValueError on edge definitions.
    On a valid dictionary it returns exactly when every call that it makes
    of vertex_type, shift and edge_type returns.  With classes that never
    raise, and entries that are ints or lists [int, dict], an entry that
    points forward to an id that is no key gives KeyError.  An entry that
    points backward is never looked up.  A list of fewer than two elements
    passes the check and gives IndexError in the loop: here for the first
    entry of the first vertex, whose shape was made. *)
Theorem init_errors (g : graph) (vertex_config edge_config : config) :
  let keys_ok := forallb (fun kv => is_int_key (fst kv)) g in
  let entries_ok := forallb (fun kv => forallb is_int_or_list (adjacency (snd kv))) g in
  (keys_ok = false ->
   __init__ vertex_type shift edge_type g vertex_config edge_config = Err keys_error) /\
  (keys_ok = true -> entries_ok = false ->
   __init__ vertex_type shift edge_type g vertex_config edge_config = Err edges_error) /\
  (valid g = true ->
   is_ok (__init__ vertex_type shift edge_type g vertex_config edge_config) =
     calls_return vertex_type shift edge_type g vertex_config edge_config) /\
  (never_raise vertex_type shift edge_type ->
   keys_ok = true -> entries_ok = true ->
   forallb (fun kv => forallb well_formed (adjacency (snd kv))) g = true ->
   forward_closed g g = false ->
   __init__ vertex_type shift edge_type g vertex_config edge_config = Err KeyError) /\
  (forall u a g' items,
     g = (IntKey u, a) :: g' -> keys_ok = true -> entries_ok = true ->
     is_ok (vertex_for vertex_type shift vertex_config a) = true ->
     head (adjacency a) = Some (EdgeList items) -> (length items < 2)%nat ->
     __init__ vertex_type shift edge_type g vertex_config edge_config = Err IndexError).
Proof.
  cbv zeta. split; [|split; [|split; [|split]]].
  - intros Hk. unfold __init__. rewrite Hk. reflexivity.
  - intros Hk He. unfold __init__. rewrite Hk, He. reflexivity.
  - apply init_ok_iff_calls_return.
  - intros Hnr Hk He Hw Hfc. unfold __init__. rewrite Hk, He. cbn [negb].
    apply add_vertices_key_error; assumption.
  - intros u a g' items -> Hk He Hv Hd Hlen. unfold __init__. rewrite Hk, He.
    cbn [negb add_vertices].
    destruct (vertex_for vertex_type shift vertex_config a) as [v|]; [|discriminate].
    cbv zeta. destruct (adjacency a) as [|d rest]; [discriminate|].
    injection Hd as ->. cbn [add_edges]. unfold edge_for.
    destruct items as [|x [|y r]]; [reflexivity|reflexivity|].
    cbn [length] in Hlen. lia.
Qed.

(* what the constructor has called for each shape that it returns *)
Lemma shapes_from_calls (g : graph) (vertex_config edge_config : config)
    (s : t V E) :
  __init__ vertex_type shift edge_type g vertex_config edge_config = Ok s ->
  (forall e, In e (edges s) ->
     exists u a d v target kwargs,
       In (IntKey u, a) g /\ In d (adjacency a) /\ target_of d = Some v /\ (u < v)%Z /\
       getitem g v = Ok target /\
       edge_type (coordinates a) (coordinates target) kwargs = Ok e /\
       forall k, kwargs !! k = first_of k [kwargs_of d; edge_config; angle_zero]) /\
  (forall i kv, g !! i = Some kv ->
     exists vs v0 kwargs, vertices s !! i = Some vs /\
       vertex_type kwargs = Ok v0 /\ shift v0 (coordinates (snd kv)) = Ok vs /\
       forall k, kwargs !! k = first_of k [vertex_kwargs (snd kv); vertex_config]).
Proof.
  intros Hs.
  destruct (EdgeVertexGraphProperties.init_spec _ _ _ g vertex_config edge_config s Hs)
    as [HV HE].
  split.
  - intros e He.
    destruct (EdgeVertexGraphProperties.Forall2_In_r _ _ _ e HE He)
      as ([a d] & Had & (v & target & Et & Eg & Ee)).
    cbn [fst snd] in Et, Ee.
    apply EdgeVertexGraphProperties.forward_pairs_spec in Had as (u & Hkv & Hd).
    apply EdgeVertexGraphProperties.forward_entries_spec in Hd as (Hd & v' & Et' & Hlt).
    rewrite Et in Et'. injection Et' as <-.
    exists u, a, d, v, target, (merge (merge angle_zero edge_config) (kwargs_of d)).
    repeat split; try assumption.
    intros k. apply EdgeVertexGraphProperties.edge_kwargs_lookup.
  - intros i kv Hi.
    destruct (Forall2_lookup_l _ _ _ _ _ HV Hi) as (vs & Hvs & Hmade).
    unfold vertex_for in Hmade.
    destruct (vertex_type (merge vertex_config (vertex_kwargs (snd kv)))) as [v0|] eqn:Ev;
      [|discriminate].
    exists vs, v0, (merge vertex_config (vertex_kwargs (snd kv))).
    split; [exact Hvs|]. split; [exact Ev|]. split; [exact Hmade|].
    intros k. rewrite EdgeVertexGraphProperties.merge_lookup. cbn [first_of].
    destruct (vertex_kwargs (snd kv) !! k); [reflexivity|].
    destruct (vertex_config !! k); reflexivity.
Qed.

(** X2: Every edge shape of the result comes from one adjacency entry
    [d] of a vertex [u] that points to a higher id [v] (never to a lower
    one, never to [u] itself); it is what edge_type returns for the
    coordinates of [u] and those of [v], with keywords of which each is
    taken from the entry's own dictionary, else from [edge_config], else
    from the default angle 0.  Every vertex shape is what vertex_type
    returns, shifted to the coordinates of its key, a keyword being taken
    from the vertex's own dictionary, else from [vertex_config]. *)
Theorem shapes_and_precedence (g : graph) (vertex_config edge_config : config)
    (s : t V E) :
  __init__ vertex_type shift edge_type g vertex_config edge_config = Ok s ->
  (forall e, In e (edges s) ->
     exists u a d v target kwargs,
       In (IntKey u, a) g /\ In d (adjacency a) /\ target_of d = Some v /\ (u < v)%Z /\
       getitem g v = Ok target /\
       edge_type (coordinates a) (coordinates target) kwargs = Ok e /\
       forall k, kwargs !! k = first_of k [kwargs_of d; edge_config; angle_zero]) /\
  (forall i kv, g !! i = Some kv ->
     exists vs v0 kwargs, vertices s !! i = Some vs /\
       vertex_type kwargs = Ok v0 /\ shift v0 (coordinates (snd kv)) = Ok vs /\
       forall k, kwargs !! k = first_of k [vertex_kwargs (snd kv); vertex_config]).
Proof. exact (shapes_from_calls g vertex_config edge_config s). Qed.

(* graph[n] in the graph that is cut down *)
Lemma getitem_forward_only (g : graph) (n : Z) :
  getitem (forward_only g) n =
    match getitem g n with
    | Ok a => Ok (mkAttr (coordinates a) (forward_entries n (adjacency a)) (vertex_kwargs a))
    | Err e => Err e
    end.
Proof.
  induction g as [|[k a] g IH]; [reflexivity|].
  change (forward_only ((k, a) :: g)) with
    ((k, match k with
         | IntKey vertex =>
             mkAttr (coordinates a) (forward_entries vertex (adjacency a)) (vertex_kwargs a)
         | OtherKey _ => a
         end) :: forward_only g).
  destruct k as [u|x]; cbn [getitem]; [|exact IH].
  destruct (u =? n)%Z eqn:Eu; [|exact IH].
  apply Z.eqb_eq in Eu as ->. reflexivity.
Qed.

Lemma edge_for_forward_only (g : graph) (edge_config : config) (u : Z) (a a' : attributes)
    (d : edge_definition) :
  coordinates a' = coordinates a ->
  edge_for edge_type (forward_only g) edge_config u a' d =
    edge_for edge_type g edge_config u a d.
Proof.
  intros Hc. unfold edge_for.
  destruct (read_entry d) as [[x y]|]; [|reflexivity].
  destruct (as_int x) as [v|]; [|reflexivity].
  destruct (u <? v)%Z; [|reflexivity].
  rewrite getitem_forward_only.
  destruct (getitem g v) as [target|]; [|reflexivity].
  cbn [coordinates]. rewrite Hc. reflexivity.
Qed.

Lemma add_edges_forward_only (g : graph) (edge_config : config) (u : Z) (a a' : attributes)
    (defs : list edge_definition) (self : t V E) :
  coordinates a' = coordinates a ->
  forallb well_formed defs = true ->
  add_edges edge_type (forward_only g) edge_config u a' (forward_entries u defs) self =
    add_edges edge_type g edge_config u a defs self.
Proof.
  intros Hc. revert self. induction defs as [|d defs IH]; intros self Hw; [reflexivity|].
  cbn [forallb] in Hw. apply andb_true_iff in Hw as [Hd Hw].
  unfold forward_entries in *. cbn [List.filter add_edges].
  destruct (points_forward u d) eqn:Hf.
  - cbn [add_edges]. rewrite (edge_for_forward_only g edge_config u a a' d Hc).
    destruct (edge_for edge_type g edge_config u a d) as [[e|]|]; [| |reflexivity];
      apply IH; exact Hw.
  - rewrite (EdgeVertexGraphProperties.edge_for_backward edge_type g edge_config u a d Hd Hf).
    apply IH. exact Hw.
Qed.

Lemma add_vertices_forward_only (g : graph) (vertex_config edge_config : config)
    (items : graph) (self : t V E) :
  forallb (fun kv => forallb well_formed (adjacency (snd kv))) items = true ->
  add_vertices vertex_type shift edge_type (forward_only g) vertex_config edge_config
      (forward_only items) self =
    add_vertices vertex_type shift edge_type g vertex_config edge_config items self.
Proof.
  revert self. induction items as [|[k a] items IH]; intros self Hw; [reflexivity|].
  cbn [forallb snd] in Hw. apply andb_true_iff in Hw as [Ha Hw].
  change (forward_only ((k, a) :: items)) with
    ((k, match k with
         | IntKey vertex =>
             mkAttr (coordinates a) (forward_entries vertex (adjacency a)) (vertex_kwargs a)
         | OtherKey _ => a
         end) :: forward_only items).
  destruct k as [u|x]; cbn [add_vertices]; [|reflexivity].
  unfold vertex_for. cbn [vertex_kwargs coordinates adjacency].
  destruct (vertex_type (merge vertex_config (vertex_kwargs a))) as [v0|]; [|reflexivity].
  destruct (shift v0 (coordinates a)) as [v|]; [|reflexivity]. cbv zeta.
  rewrite (add_edges_forward_only g edge_config u a
             (mkAttr (coordinates a) (forward_entries u (adjacency a)) (vertex_kwargs a))
             (adjacency a) _ eq_refl Ha).
  destruct (add_edges edge_type g edge_config u a (adjacency a) _) as [s1|]; [|reflexivity].
  apply IH. exact Hw.
Qed.

Lemma forward_only_keys (g : graph) :
  forallb (fun kv => is_int_key (fst kv)) (forward_only g) =
    forallb (fun kv => is_int_key (fst kv)) g.
Proof.
  induction g as [|[k a] g IH]; [reflexivity|].
  cbn [forward_only map forallb fst]. f_equal. exact IH.
Qed.

Lemma forward_only_entries (g : graph) :
  forallb (fun kv => forallb is_int_or_list (adjacency (snd kv))) g = true ->
  forallb (fun kv => forallb is_int_or_list (adjacency (snd kv))) (forward_only g) = true.
Proof.
  induction g as [|[k a] g IH]; [reflexivity|].
  cbn [forward_only map forallb fst snd]. intros Hg.
  apply andb_true_iff in Hg as [Ha Hg]. apply andb_true_iff. split; [|exact (IH Hg)].
  destruct k as [u|x]; [|exact Ha]. cbn [adjacency].
  apply forallb_forall. intros d Hd. apply filter_In in Hd as [Hd _].
  exact (proj1 (forallb_forall _ _) Ha d Hd).
Qed.

(** X3: On a valid dictionary the adjacency entries that point to a
    lower id, or to the vertex itself, have no effect: the constructor
    gives the same outcome, the same shapes or the same exception, for the
    dictionary from which they are taken out. *)
Theorem backward_entries_are_ignored (g : graph) (vertex_config edge_config : config) :
  valid g = true ->
  __init__ vertex_type shift edge_type (forward_only g) vertex_config edge_config =
    __init__ vertex_type shift edge_type g vertex_config edge_config.
Proof.
  intros Hv. unfold valid in Hv.
  apply andb_true_iff in Hv as [Hv _]. apply andb_true_iff in Hv as [Hv Hw].
  apply andb_true_iff in Hv as [Hk He].
  unfold __init__. rewrite forward_only_keys, Hk, He, (forward_only_entries g He).
  cbn [negb]. apply add_vertices_forward_only. exact Hw.
Qed.

End Classes.

(* with the classes that keep their arguments: where each shape starts
   and ends, and the keywords that it was given *)
Lemma recorded_shapes (g : graph) (vertex_config edge_config : config)
    (s : t vertex_shape edge_shape) :
  __init__ recording_vertex recording_shift recording_edge g vertex_config edge_config = Ok s ->
  (forall e, In e (edges s) ->
     exists u a d v target,
       In (IntKey u, a) g /\ In d (adjacency a) /\ target_of d = Some v /\ (u < v)%Z /\
       getitem g v = Ok target /\
       edge_start e = coordinates a /\ edge_end e = coordinates target /\
       forall k, edge_config_used e !! k =
                 first_of k [kwargs_of d; edge_config; angle_zero]) /\
  (forall i kv, g !! i = Some kv ->
     exists vs, vertices s !! i = Some vs /\
       position vs = coordinates (snd kv) /\
       forall k, vertex_config_used vs !! k =
                 first_of k [vertex_kwargs (snd kv); vertex_config]).
Proof.
  intros Hs.
  destruct (shapes_from_calls recording_vertex recording_shift recording_edge
              g vertex_config edge_config s Hs) as [He Hv].
  split.
  - intros e Hin.
    destruct (He e Hin) as (u & a & d & v & target & kwargs & H1 & H2 & H3 & H4 & H5 & H6 & H7).
    exists u, a, d, v, target. unfold recording_edge in H6. injection H6 as <-.
    cbn [edge_start edge_end edge_config_used]. repeat split; assumption.
  - intros i kv Hi.
    destruct (Hv i kv Hi) as (vs & v0 & kwargs & H1 & H2 & H3 & H4).
    exists vs. unfold recording_vertex in H2. injection H2 as <-.
    unfold recording_shift in H3. injection H3 as <-.
    cbn [position vertex_config_used]. split; [exact H1|]. split; [|exact H4].
    destruct (coordinates (snd kv)) as [x y z]. unfold vadd, ORIGIN. cbn [vx vy vz].
    f_equal; ring.
Qed.

(* the classes that keep their arguments never raise *)
Lemma recording_never_raise : never_raise recording_vertex recording_shift recording_edge.
Proof. repeat split. Qed.

(* an entry that points forward to the missing id 5, and one that points
   backward to the missing id 1 *)
Lemma init_errors_witness :
  __init__ recording_vertex recording_shift recording_edge
    [(IntKey 0, mkAttr ORIGIN [EdgeInt 5] ∅)] ∅ ∅ = Err KeyError /\
  __init__ recording_vertex recording_shift recording_edge
    [(IntKey 0, mkAttr ORIGIN [EdgeList [ItemInt 1]] ∅)] ∅ ∅ = Err IndexError /\
  is_ok (__init__ recording_vertex recording_shift recording_edge
           [(IntKey 3, mkAttr ORIGIN [EdgeInt 1] ∅)] ∅ ∅) = true.
Proof.
  split.
  - apply (init_errors recording_vertex recording_shift recording_edge
             [(IntKey 0, mkAttr ORIGIN [EdgeInt 5] ∅)] ∅ ∅);
      [exact recording_never_raise|reflexivity..].
  - split.
    + apply (proj2 (proj2 (proj2 (proj2
               (init_errors recording_vertex recording_shift recording_edge
                  [(IntKey 0, mkAttr ORIGIN [EdgeList [ItemInt 1]] ∅)] ∅ ∅))))
               0%Z (mkAttr ORIGIN [EdgeList [ItemInt 1]] ∅) [] [ItemInt 1]);
        [reflexivity..|cbn [length]; lia].
    + rewrite (proj1 (proj2 (proj2 (init_errors recording_vertex recording_shift recording_edge
                                    [(IntKey 3, mkAttr ORIGIN [EdgeInt 1] ∅)] ∅ ∅)))
               eq_refl).
      reflexivity.
Defined.

(* an edge with its own angle, declared from 0 to 1 and again from 1 to 0 *)
Lemma shapes_and_precedence_witness :
  let g := [(IntKey 0, mkAttr ORIGIN
               [EdgeList [ItemInt 1; ItemDict {[ "angle"%string := Num 2 ]}]] ∅);
            (IntKey 1, mkAttr RIGHT [EdgeInt 0] ∅)] in
  exists s,
    __init__ recording_vertex recording_shift recording_edge g ∅ ∅ = Ok s /\
    length (edges s) = 1%nat /\
    forall e, In e (edges s) ->
      exists u a d v target kwargs,
        In (IntKey u, a) g /\ In d (adjacency a) /\ target_of d = Some v /\ (u < v)%Z /\
        getitem g v = Ok target /\
        recording_edge (coordinates a) (coordinates target) kwargs = Ok e /\
        forall k, kwargs !! k = first_of k [kwargs_of d; ∅; angle_zero].
Proof.
  cbv zeta. eexists. split; [reflexivity|]. split; [reflexivity|].
  apply (shapes_and_precedence recording_vertex recording_shift recording_edge
           [(IntKey 0, mkAttr ORIGIN
               [EdgeList [ItemInt 1; ItemDict {[ "angle"%string := Num 2 ]}]] ∅);
            (IntKey 1, mkAttr RIGHT [EdgeInt 0] ∅)] ∅ ∅).
  reflexivity.
Defined.

Lemma backward_entries_are_ignored_witness :
  valid triangle_twice = true /\
  forward_only triangle_twice = triangle_once /\
  __init__ recording_vertex recording_shift recording_edge triangle_once ∅ ∅ =
    __init__ recording_vertex recording_shift recording_edge triangle_twice ∅ ∅.
Proof.
  assert (Hv : valid triangle_twice = true) by reflexivity.
  assert (Hf : forward_only triangle_twice = triangle_once) by reflexivity.
  split; [exact Hv|]. split; [exact Hf|].
  rewrite <- Hf.
  exact (backward_entries_are_ignored recording_vertex recording_shift recording_edge
           triangle_twice ∅ ∅ Hv).
Defined.

(* EdgeVertexGraph(g, vertex_config={"angle": 1}) with the default
   classes: Circle passes the keyword on to Arc, which has got its angle
   already *)
Lemma angle_for_a_circle_raises :
  __init__ Circle_class Arc_shift (ArcBetweenPoints_class (H := straight_collaborator))
    triangle_once {[ "angle"%string := Num 1 ]} ∅ = Err TypeError.
Proof.
  unfold __init__, triangle_once. cbn [forallb fst snd is_int_key adjacency is_int_or_list
    andb negb add_vertices]. unfold vertex_for, Circle_class. cbn [vertex_kwargs].
  rewrite !EdgeVertexGraphProperties.merge_lookup, !lookup_empty.
  rewrite lookup_singleton_ne by discriminate. rewrite lookup_singleton_eq. reflexivity.
Qed.

End EdgeVertexGraphFacts.
